(* ===== verification/_CoqProject ===== *)
-Q . S2P
Prelude.v
Effects.v
GoHeap.v
GoHeapFacts.v
GoStrings.v
DeepCopy.v
DeepCopyProps.v
Api.v
K8s.v
Render.v
GoTime.v
Config.v
AgentEnv.v
Netip.v
NetipFacts.v
Json.v
JsonStrings.v
JsonFacts.v
Kube.v
FileSystem.v
Bootstrap.v
BootstrapProps.v
BootstrapRefresh.v
Topology.v
Server.v
TopologyFacts.v
TopologyProps.v
ServerProps.v
RegistrarConc.v
RegistrarConcProps.v
Policy.v
PolicyFacts.v
PolicyProps.v
PolicyText.v
Sig.v
Resources.v
SigProps.v
DaemonAPI.v
DaemonAPIProps.v
Agent.v
AgentProps.v
Health.v
Supervisor.v
SupervisorProps.v
MetricsAuth.v
OperatorEnv.v
OperatorSim.v
DenyList.v
DenyListProps.v
Platform.v
Backends.v
RegistrarSync.v
MetricsTLS.v
MetricsCert.v
Controller.v
OperatorMain.v
ClusterStore.v
ControllerProps.v
OperatorProps.v
RegistrarLink.v
GatewayLink.v
PolicyLink.v
ClusterLink.v
