(* ===== verification/Prelude.v ===== *)
(** * scion-k8s-operator: a verification development

    ** The program

    scion-k8s-operator connects the nodes of a Kubernetes cluster to a SCION
    network.  It has three programs.

    - The _operator_ ([cmd/operator], [internal/operator]) reconciles one
      cluster-scoped custom resource, [ScionNetwork]: it computes the list of
      CIDRs that must never be accepted from a remote AS, renders the node agent
      as a DaemonSet with its RBAC objects, synchronises the node gateways
      (SIGs) with the AS-side registrar, and reports status conditions.
    - The _node agent_ ([cmd/agent], [internal/agent]) runs on every node: it
      downloads topology and TRCs from a discovery server, reads the node's pod
      prefixes, renders the traffic and routing policies of the embedded SCION
      gateway, and serves health and authenticated metrics.
    - The _AS-side registrar_ ([cmd/registrar], [internal/registrar]) is a small
      HTTP service that patches the AS topology file with the node gateways.

    The operator and the agent meet in the environment of the DaemonSet's
    container ([render.DaemonSet] writes it, [config.FromEnv] reads it) and in
    the mount paths of the pinned TRCs; the operator and the registrar meet in
    the JSON body of a PUT request.

    ** How it is modelled

    Pure Go functions are Rocq functions.  Code with effects is a program over
    the commands that leave the component ([Effects.prog]): a command carries
    the arguments of the call, its response type is what the callee can answer,
    errors included.  [exec p tr a] says that [p], for some answers of the
    environment, issued the commands of the trace [tr] with the answers in it
    and returned [a]; theorems quantify over all traces, so over every API
    server, file system, clock and network.  [run p handler state] evaluates
    the same program against a concrete environment, and the witnesses do so.
    Errors are values ([result]); panics and exhausted fuel are values of
    [outcome]; [go A] is [outcome (result A)].  Error texts are kept as message
    pieces with [%q] quoting left symbolic; what a caller inspects of an error
    ([IsNotFound], [errors.Is]) is its kind.

    - [Prelude]: results, outcomes, messages, errors, list lemmas, automation.
    - [Effects]: programs, executions, runs and their inversion lemmas.
    - [GoHeap]: the memory of a Go program (pointers, slices and maps as
      locations of a heap) and the copying idioms of the generated code;
      [GoHeapFacts] their contracts.  [DeepCopy]:
      [api/v1alpha1/zz_generated.deepcopy.go] on that heap, against the interface
      [KubeCopy]/[KubeCopyLaws] of the Kubernetes types' own copies;
      [DeepCopyProps] its theorem.
    - [GoStrings], [GoTime], [Netip], [Json]: what the code uses of [strings],
      [strconv], [path/filepath], [time.ParseDuration], [net/netip], [net] and
      [encoding/json], as executable functions on byte strings; [NetipFacts]
      relates texts, prefixes and sets of 32-bit addresses.
    - [Api]: [api/v1alpha1/scionnetwork_types.go], with the validation rules of
      the CRD that the theorems use ([crd_valid]).
    - [K8s]: Kubernetes data, and the interface [K8sLib]/[K8sLaws] of the helpers
      of apimachinery and controller-runtime that are not under [src/]; the
      reference instance [ref_lib] satisfies the laws.
    - [Render]: [internal/operator/render/render.go].
    - [Config]: [internal/agent/config/config.go].
    - [AgentEnv]: the commands of the agent and of the registrar; iteration over
      a Go map is a command whose answer picks the order.  [FileSystem] gives
      file commands a meaning ([fs_step]) and an executable simulation.
    - [JsonStrings], [JsonFacts]: printing a JSON value and parsing it back.
    - [Kube]: [internal/agent/kube].
    - [Bootstrap]: [internal/agent/bootstrap]; [BootstrapProps] its theorems;
      [BootstrapRefresh] the refresh loop against the topology on disk.
    - [Policy]: [internal/agent/policy/policy.go]; [PolicyFacts] and [PolicyProps]
      its theorems; [PolicyText] readers of the two rendered files.
    - [Sig]: [internal/agent/sig]; [DaemonAPI]: [internal/agent/daemonapi], with
      the objects it hands to each server it registers;
      [SigProps] and [DaemonAPIProps] their theorems, on the stack of open
      resources of [Resources].
    - [Agent]: [cmd/agent/main.go] up to the start of the goroutines;
      [AgentProps] its theorems.
    - [Supervisor]: the goroutine group of [cmd/agent/main.go] as a step relation
      over any interleaving; [SupervisorProps] its theorems.
    - [Health], [MetricsAuth]: the packages of the same names.
    - [Topology]: [internal/registrar/topology.go]; [Server]:
      [internal/registrar/server.go] and [cmd/registrar]; [TopologyFacts],
      [TopologyProps] and [ServerProps] their theorems.  [RegistrarConc]:
      concurrent requests, interleaved command by command, with the mutex of
      [Server] as a command; [RegistrarConcProps] its theorems.
    - [OperatorEnv]: the commands of the operator, the interface [X509Lib] of
      [crypto/x509] and [CtrlLib] of [SetControllerReference]; [OperatorSim] is a
      simulated cluster.
    - [DenyList], [Controller]: [scionnetwork_controller.go]; [Platform],
      [RegistrarSync], [MetricsTLS]: the files of the same names; [MetricsCert]:
      [generateMetricsCert], against the interface [X509Issue]; [Backends]:
      [internal/operator/registrar]; [OperatorMain]: [cmd/operator] and
      [SetupWithManager].  [DenyListProps], [ControllerProps] and [OperatorProps]
      hold the theorems.  [ClusterStore] follows the objects of a cluster through
      the writes of [apply].
    - [RegistrarLink]: the operator's request, handled by the registrar;
      [GatewayLink]: the addresses the operator registers and those the agent
      binds; [PolicyLink]: from the cluster API to the routing policy on a node; [ClusterLink]: from the
      nodes of the cluster to the gateways in the AS topology.

    ** What the theorems show

    - Policy: the accepted prefixes are exactly the complement of the deny list,
      in the fewest CIDRs; the guardrail is sound; the rendered policies, read
      back by the grammar documented beside the renderer, mean what the node is
      configured for, unless the deny list covers everything (then the accept
      rules have no prefix and are outside of the grammar); every failure closes.
    - Operator to agent: after a reconcile without error, any agent started from
      the DaemonSet in the cluster leaves a routing policy on its disk that
      accepts exactly what the resource and the networks of the cluster allow,
      so no address of a cluster network is ever accepted from a remote.
    - Deep copies: the copy of a resource, its status or a list of resources
      reads as the same value, leaves the original as it was, and shares no
      memory with it.
    - Bootstrap: at every point of a fetch, with any failure, the disk is
      untouched or holds part of a single pinned configuration, topology last;
      the refresh loop notifies exactly when the fetch succeeded and the
      topology texts it read differ, which is a change on disk when these reads
      can be relied on.  A refresh interval that is not positive is accepted and
      makes the loop panic.
    - Agent: node identity sources and priority; a reload is signalled exactly
      after two complete writes; the re-render loop never panics.
    - Goroutine group: an invariant of every reachable state ties the gateway's
      report, the daemon, health, pending reloads and the metrics server
      together, and names the two points at which the process can crash; once
      the context is cancelled, and with a positive refresh interval, every
      member can come to its end, and [run] reports the first error.
    - Gateway and daemon: the gateway runs only with its connector open and on
      the addresses the operator registers; whatever fails, what was opened is
      closed, databases and tasks in reverse order and the listener by its
      server (the revocation storage is the exception on one path), and the gRPC
      server is only ever served with the listener and the databases behind it
      open; the preflight's answer on each path.
    - Operator: the deny list is exact and fails closed; objects are applied only
      after validation, and applying brings every object it owns to its rendered
      form whatever the cluster held before, labels the namespace without owning
      it, keeps or renews the metrics certificate, and then changes nothing
      else; status, requeueing, finalization, registrar synchronisation and
      certificate rotation on every branch; an issued metrics certificate is one
      the operator accepts until it must rotate, and verifies under its CA.
    - Registrar: a patch replaces the topology atomically and touches only the
      managed gateways; concurrent requests take effect one after the other in
      the order of the mutex and can always be answered; a GET returns the set of
      the last accepted PUT; from a valid topology the file is, at every point of
      every interleaving, that one or an object with a map of gateways, and no
      request panics; each request's answer; which topologies make the patch
      panic.
    - Operator to registrar: a synchronisation that the operator takes for
      accepted left, under the prefix of the AS topology, exactly one gateway for
      each selected node of the cluster that has an internal address.
    - Metrics authentication: a log records every lookup, review and decision of
      every request; under any interleaving only callers with positive reviews,
      their own or cached for less than two minutes, pass; the cache is bounded.

    ** Bounds and fuel

    [Policy.walk_fuel] is 33: the recursion of [subtractCIDRs] adds one bit per
    level and stops at 32, and [subtractCIDRs_exact] proves that it returns.
    The JSON parser is given two units per byte of its input plus two; each byte
    is consumed by at most two calls, and the round trip of [JsonFacts] shows
    that every printed value is parsed.  Its nesting limit is that of
    [encoding/json].  [Bootstrap.Run] takes the number of ticks that are followed
    and [Agent.waitForFiles] the number of polls; their theorems hold for every
    such number.  The attempts of [enableTunForwarding] are counted down as in
    the source.  Loops over lists are structural.  [int32] counters wrap;
    durations saturate as in [time.Sub].

    ** What is not modelled

    The objects of the scionproto library themselves (trust engine, fetchers,
    gRPC servers, which are not under [src/]: their construction, start and
    release are commands) and the counters [daemonapi] hands to them; parsing of
    command-line flags (the flags are a record); logging and the set-up of
    loggers in the [main] functions; the scheme registration of the API types;
    the imports of [tools.go]. *)
From Stdlib Require Export Ascii.
From stdpp Require Export base tactics decidable option list strings gmap sorting pretty.
From Stdlib Require Export ZArith Lia.

(** ** Messages and errors

    Go builds its error and status texts with [fmt].  A [msg] is such a text:
    literal pieces and [%q]-quoted arguments, [strconv.Quote] left symbolic. *)
Inductive piece :=
| Lit (s : string)
| Quo (s : string).

Abbreviation msg := (list piece).

Global Instance piece_eq_dec : EqDecision piece.
Proof. solve_decision. Defined.

(** What [errors.Is]/[errors.As] can find in an error chain.  [fmt.Errorf]
    with [%w] keeps it; without [%w] it is lost. *)
Inductive ekind :=
| EGeneric | ENotFound | EForbidden | ENoMatch | EConflict
| ENotImplemented | ENotExist | EWriteFailed | ECanceled.

Global Instance ekind_eq_dec : EqDecision ekind.
Proof. solve_decision. Defined.

Record gerror := Error { e_kind : ekind; e_msg : msg }.

Global Instance gerror_eq_dec : EqDecision gerror.
Proof. solve_decision. Defined.

Definition errorf (m : msg) : gerror := Error EGeneric m.
Definition wrapf (m : msg) (e : gerror) : gerror := Error (e_kind e) (m ++ e_msg e).

Definition is_kind (k : ekind) (e : gerror) : bool := bool_decide (e_kind e = k).

Lemma wrapf_kind m e : e_kind (wrapf m e) = e_kind e.
Proof. done. Qed.

(** ** Fallible results: the Go pair [(value, error)] of which one is used *)
Inductive result (A : Type) : Type :=
| Ok (a : A)
| Err (e : gerror).
Arguments Ok {A} a.
Arguments Err {A} e.

Global Instance result_ret : MRet result := fun A a => Ok a.
Global Instance result_bind : MBind result := fun A B f m =>
  match m with Ok a => f a | Err e => Err e end.
Global Instance result_fmap : FMap result := fun A B f m =>
  match m with Ok a => Ok (f a) | Err e => Err e end.

Definition is_ok {A} (r : result A) : bool :=
  match r with Ok _ => true | Err _ => false end.

(** [result_map_err f r] rewrites the error, as [fmt.Errorf("...: %w", err)]
    does on the error path. *)
Definition result_map_err {A} (f : gerror -> gerror) (r : result A) : result A :=
  match r with Ok a => Ok a | Err e => Err (f e) end.

Lemma bind_Ok {A B} (m : result A) (f : A -> result B) (b : B) :
  m ≫= f = Ok b <-> exists a, m = Ok a /\ f a = Ok b.
Proof.
  destruct m; cbn; split; try naive_solver.
Qed.

Lemma bind_Err {A B} (m : result A) (f : A -> result B) (e : gerror) :
  m ≫= f = Err e <-> m = Err e \/ exists a, m = Ok a /\ f a = Err e.
Proof. destruct m; cbn; split; naive_solver. Qed.

Lemma result_map_err_Ok {A} f (r : result A) a : result_map_err f r = Ok a <-> r = Ok a.
Proof. destruct r; cbn; naive_solver. Qed.

Lemma mapM_Ok {A B} (f : A -> result B) (l : list A) (k : list B) :
  mapM f l = Ok k <-> Forall2 (fun x y => f x = Ok y) l k.
Proof.
  revert k. induction l as [|x l IH]; intros k; cbn.
  - split; [intros [= <-]; constructor | inversion 1; done].
  - rewrite bind_Ok. setoid_rewrite bind_Ok. split.
    + intros (y & Hy & ks & Hks & [= <-]). constructor; [done | by apply IH].
    + inversion 1 as [|? y ? ks]; subst. exists y. split; [done|].
      exists ks. split; [by apply IH | done].
Qed.

(** ** Runs that may panic or exhaust the model's fuel *)
Inductive outcome (A : Type) : Type :=
| Val (a : A)
| Panic
| NoFuel.
Arguments Val {A} a.
Arguments Panic {A}.
Arguments NoFuel {A}.

Global Instance outcome_ret : MRet outcome := fun A a => Val a.
Global Instance outcome_bind : MBind outcome := fun A B f m =>
  match m with Val a => f a | Panic => Panic | NoFuel => NoFuel end.

Lemma outcome_bind_Val {A B} (m : outcome A) (f : A -> outcome B) b :
  m ≫= f = Val b <-> exists a, m = Val a /\ f a = Val b.
Proof. destruct m; cbn; split; naive_solver. Qed.

(** A call that returns a value or an error, or panics: [go A].  The bind
    propagates errors as the early returns of the code do. *)
Abbreviation go A := (outcome (result A)).

Definition success {A} (r : go A) : bool := match r with Val (Ok _) => true | _ => false end.

Definition go_bind {A B} (m : go A) (f : A -> go B) : go B :=
  match m with
  | Val (Ok a) => f a
  | Val (Err e) => Val (Err e)
  | Panic => Panic
  | NoFuel => NoFuel
  end.

Definition go_map_err {A} (f : gerror -> gerror) (m : go A) : go A :=
  match m with Val r => Val (result_map_err f r) | Panic => Panic | NoFuel => NoFuel end.

Declare Scope go_scope.
Delimit Scope go_scope with go.
Notation "x <~ m ; k" := (go_bind m (fun x => k))
  (at level 100, m at next level, right associativity) : go_scope.

Lemma go_bind_Ok {A B} (m : go A) (f : A -> go B) b :
  go_bind m f = Val (Ok b) <-> exists a, m = Val (Ok a) /\ f a = Val (Ok b).
Proof. destruct m as [[]| |]; cbn; split; naive_solver. Qed.

(** ** Automation *)
Create HintDb scion discriminated.
Create Rewrite HintDb scion.

(** Split a chain of Go early returns in a hypothesis [H : ... = Ok _]. *)
Ltac unbind H :=
  repeat first
    [ apply bind_Ok in H; let x := fresh "x" in let Hx := fresh H in
      destruct H as (x & Hx & H)
    | apply outcome_bind_Val in H; let x := fresh "x" in let Hx := fresh H in
      destruct H as (x & Hx & H) ].

Ltac case_bool_eq :=
  repeat match goal with
  | H : (_ && _)%bool = true |- _ => apply andb_prop in H as [? ?]
  | H : (_ || _)%bool = false |- _ => apply orb_false_elim in H as [? ?]
  | H : negb _ = true |- _ => apply negb_true_iff in H
  | H : negb _ = false |- _ => apply negb_false_iff in H
  | H : bool_decide _ = true |- _ => apply bool_decide_eq_true in H
  | H : bool_decide _ = false |- _ => apply bool_decide_eq_false in H
  | H : (_ =? _)%Z = true |- _ => apply Z.eqb_eq in H
  | H : (_ =? _)%Z = false |- _ => apply Z.eqb_neq in H
  | H : (_ <=? _)%Z = true |- _ => apply Z.leb_le in H
  | H : (_ <=? _)%Z = false |- _ => apply Z.leb_gt in H
  | H : (_ <? _)%Z = true |- _ => apply Z.ltb_lt in H
  | H : (_ <? _)%Z = false |- _ => apply Z.ltb_ge in H
  end.

(** Membership in an explicit list. *)
Ltac in_list := first [apply list_elem_of_here | apply list_elem_of_further; in_list].

(** ** Generic lemmas *)
Lemma Z_pow2_pos n : (0 <= n)%Z -> (0 < 2 ^ n)%Z.
Proof. intros. by apply Z.pow_pos_nonneg. Qed.

#[export] Hint Resolve Z_pow2_pos : scion.

Lemma forallb_spec {A} (f : A -> bool) l :
  forallb f l = true <-> forall x, x ∈ l -> f x = true.
Proof.
  rewrite forallb_forall. setoid_rewrite list_elem_of_In. done.
Qed.

Lemma existsb_spec {A} (f : A -> bool) l :
  existsb f l = true <-> exists x, x ∈ l /\ f x = true.
Proof.
  rewrite existsb_exists. setoid_rewrite list_elem_of_In. done.
Qed.

Lemma existsb_false {A} (f : A -> bool) l :
  existsb f l = false <-> forall x, x ∈ l -> f x = false.
Proof.
  rewrite <- not_true_iff_false, existsb_spec. split.
  - intros H x Hx. apply not_true_iff_false. naive_solver.
  - intros H (x & Hx & Ht). by rewrite H in Ht.
Qed.
