(* ===== verification/Effects.v ===== *)
(** * Programs that talk to their environment

    Code that calls the Kubernetes API, an HTTP server, the file system or the
    clock is a [prog]: a tree of commands whose continuation takes the
    environment's response.  Nothing is assumed about the responses: [exec p tr
    a] says that [p] can return [a] after the exchange [tr], and [run] executes
    [p] against a concrete environment (a handler over a state). *)
From S2P Require Import Prelude.

Section Effects.
Context {cmd : Type} (resp : cmd -> Type).

Inductive prog (A : Type) : Type :=
| Ret (a : A)
| Do (c : cmd) (k : resp c -> prog A).

Definition event : Type := sigT resp.

Fixpoint prog_bind {A B} (f : A -> prog B) (p : prog A) : prog B :=
  match p with
  | Ret _ a => f a
  | Do _ c k => Do _ c (fun r => prog_bind f (k r))
  end.

Fixpoint exec {A} (p : prog A) (tr : list event) (a : A) : Prop :=
  match p with
  | Ret _ a' => tr = [] /\ a = a'
  | Do _ c k => exists r tr', tr = existT c r :: tr' /\ exec (k r) tr' a
  end.

(** A handler answers a command from a state of its own. *)
Definition handler (W : Type) : Type := forall c : cmd, W -> resp c * W.

Fixpoint run {A W} (h : handler W) (p : prog A) (w : W) : A * W * list event :=
  match p with
  | Ret _ a => (a, w, [])
  | Do _ c k =>
      let '(r, w') := h c w in
      let '(a, w'', tr) := run h (k r) w' in
      (a, w'', existT c r :: tr)
  end.

(** The value a program returns, and the state it leaves. *)
Definition result_of {A W} (h : handler W) (p : prog A) (w : W) : A :=
  fst (fst (run h p w)).
Definition state_of {A W} (h : handler W) (p : prog A) (w : W) : W :=
  snd (fst (run h p w)).
Definition trace_of {A W} (h : handler W) (p : prog A) (w : W) : list event :=
  snd (run h p w).

Lemma run_exec {A W} (h : handler W) (p : prog A) w :
  exec p (trace_of h p w) (result_of h p w).
Proof.
  unfold trace_of, result_of. revert w. induction p as [a | c k IH]; intros w; cbn; [done|].
  destruct (h c w) as [r w'] eqn:Eh. specialize (IH r w').
  destruct (run h (k r) w') as [[a w''] tr]; cbn in *. by exists r, tr.
Qed.

Lemma exec_bind {A B} (f : A -> prog B) (p : prog A) tr b :
  exec (prog_bind f p) tr b <->
  exists tr1 tr2 a, tr = tr1 ++ tr2 /\ exec p tr1 a /\ exec (f a) tr2 b.
Proof.
  revert tr. induction p as [a | c k IH]; intros tr; cbn.
  - split.
    + intros H. by exists [], tr, a.
    + intros (tr1 & tr2 & a' & -> & [-> ->] & H). done.
  - split.
    + intros (r & tr' & -> & (tr1 & tr2 & a & -> & H1 & H2)%IH).
      exists (existT c r :: tr1), tr2, a. split_and!; [done | by exists r, tr1 | done].
    + intros (tr1 & tr2 & a & -> & (r & tr' & -> & H1) & H2).
      exists r, (tr' ++ tr2). split; [done|]. apply IH. by exists tr', tr2, a.
Qed.

Lemma run_bind {A B W} (h : handler W) (f : A -> prog B) (p : prog A) w :
  run h (prog_bind f p) w =
  let '(a, w', tr) := run h p w in
  let '(b, w'', tr') := run h (f a) w' in (b, w'', tr ++ tr').
Proof.
  revert w. induction p as [a | c k IH]; intros w; cbn.
  - by destruct (run h (f a) w) as [[b w''] tr'].
  - destruct (h c w) as [r w']. rewrite IH.
    destruct (run h (k r) w') as [[a w''] tr].
    by destruct (run h (f a) w'') as [[b w'''] tr'].
Qed.

(** Every program terminates: whatever the environment answers, it returns. *)
Lemma prog_returns {A} (p : prog A) (answer : forall c, resp c) :
  exists tr a, exec p tr a.
Proof.
  exists (trace_of (fun c (w : unit) => (answer c, w)) p tt),
    (result_of (fun c (w : unit) => (answer c, w)) p tt). apply run_exec.
Qed.

(** Programs that issue commands of one kind only, whatever they are answered. *)
Fixpoint only {A} (P : cmd -> bool) (p : prog A) : Prop :=
  match p with
  | Ret _ _ => True
  | Do _ c k => P c = true /\ forall r, only P (k r)
  end.

Lemma only_bind {A B} P (f : A -> prog B) (p : prog A) :
  only P p -> (forall a, only P (f a)) -> only P (prog_bind f p).
Proof. intros Hp Hf. induction p as [a | c k IH]; cbn; [done|]. destruct Hp as [Hc Hk]. auto. Qed.

Lemma only_exec {A} P (p : prog A) tr a : only P p -> exec p tr a ->
  forallb (fun ev => P (projT1 ev)) tr = true.
Proof.
  revert tr. induction p as [b | c k IH]; intros tr; cbn; [by intros _ [-> _]|].
  intros [Hc Hk] (r & tr' & -> & He). cbn. rewrite Hc. cbn. eauto.
Qed.

(** The answer of an event is determined by it. *)
Lemma event_inj `{EqDecision cmd} (c : cmd) (r1 r2 : resp c) :
  existT (P := resp) c r1 = existT c r2 -> r1 = r2.
Proof. apply Eqdep_dec.inj_pair2_eq_dec. intros a b. apply (decide (a = b)). Qed.

End Effects.

Arguments Ret {cmd resp A} a.
Arguments Do {cmd resp A} c k.
Arguments prog {cmd} resp A.
Arguments exec {cmd resp A} p tr a.
Arguments event {cmd} resp.
Arguments handler {cmd} resp W.
Arguments run {cmd resp A W} h p w.
Arguments only {cmd resp A} P p.

Global Instance prog_ret {cmd} (resp : cmd -> Type) : MRet (prog resp) := fun A a => Ret a.
Global Instance prog_mbind {cmd} (resp : cmd -> Type) : MBind (prog resp) :=
  fun A B f p => prog_bind resp f p.

(** Issue one command. *)
Definition call {cmd} {resp : cmd -> Type} (c : cmd) : prog resp (resp c) := Do c (fun r => Ret r).

(** The early return on error of a call that yields a [result]. *)
Definition try_bind {cmd} {resp : cmd -> Type} {A B}
    (m : prog resp (result A)) (f : A -> prog resp (result B)) : prog resp (result B) :=
  r ← m; match r with Ok a => f a | Err e => Ret (Err e) end.

Declare Scope prog_scope.
Delimit Scope prog_scope with prog.
Notation "x <~ m ; k" := (try_bind m (fun x => k))
  (at level 100, m at next level, right associativity) : prog_scope.

(** The same for calls that can also panic: [x <! m ; k]. *)
Definition go_try {cmd} {resp : cmd -> Type} {A B}
    (m : prog resp (go A)) (f : A -> prog resp (go B)) : prog resp (go B) :=
  r ← m;
  match r with
  | Val (Ok a) => f a
  | Val (Err e) => Ret (Val (Err e))
  | Panic => Ret Panic
  | NoFuel => Ret NoFuel
  end.

Notation "x <! m ; k" := (go_try m (fun x => k))
  (at level 100, m at next level, right associativity) : prog_scope.

(** A [result]-valued program as one that does not panic. *)
Definition no_panic {cmd} {resp : cmd -> Type} {A} (m : prog resp (result A)) : prog resp (go A) :=
  r ← m; Ret (Val r).

(** What [exec] says about a single command, a value and a sequence. *)
Lemma exec_ret {cmd} {resp : cmd -> Type} {A} (a b : A) tr :
  exec (resp := resp) (Ret a) tr b <-> tr = [] /\ b = a.
Proof. done. Qed.

Lemma exec_mbind {cmd} {resp : cmd -> Type} {A B} (f : A -> prog resp B) (p : prog resp A) tr b :
  exec (p ≫= f) tr b <-> exists tr1 tr2 a, tr = tr1 ++ tr2 /\ exec p tr1 a /\ exec (f a) tr2 b.
Proof. apply exec_bind. Qed.

Lemma exec_call {cmd} {resp : cmd -> Type} (c : cmd) tr (r : resp c) :
  exec (call c) tr r <-> tr = [existT c r].
Proof.
  cbn. split.
  - by intros (r' & tr' & -> & -> & ->).
  - intros ->. by exists r, [].
Qed.

Lemma exec_try {cmd} {resp : cmd -> Type} {A B} (f : A -> prog resp (result B))
    (m : prog resp (result A)) tr b :
  exec (try_bind m f) tr b <->
  (exists tr1 tr2 a, tr = tr1 ++ tr2 /\ exec m tr1 (Ok a) /\ exec (f a) tr2 b)
  \/ (exists e, b = Err e /\ exec m tr (Err e)).
Proof.
  unfold try_bind. rewrite exec_mbind. split.
  - intros (tr1 & tr2 & [a|e] & -> & H1 & H2).
    + left. by exists tr1, tr2, a.
    + right. destruct H2 as [-> ->]. exists e. by rewrite app_nil_r.
  - intros [(tr1 & tr2 & a & -> & H1 & H2) | (e & -> & H)].
    + by exists tr1, tr2, (Ok a).
    + exists tr, [], (Err e). by rewrite app_nil_r.
Qed.

Lemma exec_go_try {cmd} {resp : cmd -> Type} {A B} (f : A -> prog resp (go B))
    (m : prog resp (go A)) tr (b : go B) :
  exec (go_try m f) tr b <->
  (exists tr1 tr2 a, tr = tr1 ++ tr2 /\ exec m tr1 (Val (Ok a)) /\ exec (f a) tr2 b)
  \/ (exists e, b = Val (Err e) /\ exec m tr (Val (Err e)))
  \/ (b = Panic /\ exec m tr Panic)
  \/ (b = NoFuel /\ exec m tr NoFuel).
Proof.
  unfold go_try. rewrite exec_mbind. split.
  - intros (tr1 & tr2 & [[a|e]| |] & -> & H1 & H2).
    + left. by exists tr1, tr2, a.
    + right; left. destruct H2 as [-> ->]. exists e. by rewrite app_nil_r.
    + do 2 right; left. destruct H2 as [-> ->]. by rewrite app_nil_r.
    + do 3 right. destruct H2 as [-> ->]. by rewrite app_nil_r.
  - intros [(tr1 & tr2 & a & -> & H1 & H2) | [(e & -> & H) | [[-> H] | [-> H]]]].
    + by exists tr1, tr2, (Val (Ok a)).
    + exists tr, [], (Val (Err e)). by rewrite app_nil_r.
    + exists tr, [], Panic. by rewrite app_nil_r.
    + exists tr, [], NoFuel. by rewrite app_nil_r.
Qed.

Lemma exec_no_panic {cmd} {resp : cmd -> Type} {A} (m : prog resp (result A)) tr b :
  exec (no_panic m) tr b <-> exists r, b = Val r /\ exec m tr r.
Proof.
  unfold no_panic. rewrite exec_mbind. split.
  - intros (tr1 & tr2 & r & -> & H & [-> ->]). exists r. by rewrite app_nil_r.
  - intros (r & -> & H). exists tr, [], r. by rewrite app_nil_r.
Qed.

(** A command followed by the rest of the program. *)
Lemma exec_call_bind {cmd} {resp : cmd -> Type} {B} (c : cmd) (f : resp c -> prog resp B) tr b :
  exec (call c ≫= f) tr b <-> exists r tr', tr = existT c r :: tr' /\ exec (f r) tr' b.
Proof. done. Qed.

Lemma exec_call_inv {cmd} {resp : cmd -> Type} {B} (c : cmd) (f : resp c -> prog resp B) tr b :
  exec (call c ≫= f) tr b -> exists r tr', tr = existT c r :: tr' /\ exec (f r) tr' b.
Proof. apply exec_call_bind. Qed.

Lemma exec_ret_inv {cmd} {resp : cmd -> Type} {A} (a b : A) tr :
  exec (resp := resp) (Ret a) tr b -> tr = [] /\ b = a.
Proof. done. Qed.

Lemma only_mbind {cmd} {resp : cmd -> Type} {A B} P (f : A -> prog resp B) (p : prog resp A) :
  only P p -> (forall a, only P (f a)) -> only P (p ≫= f).
Proof. apply only_bind. Qed.

(** Check a program command by command. *)
Ltac only_steps :=
  repeat first
    [ progress cbv beta iota
    | progress intros
    | apply only_mbind
    | match goal with
      | |- only _ (call _) => split; [reflexivity | by intros]
      | |- only _ (Ret _) => exact I
      | |- only _ (match ?x with _ => _ end) => destruct x
      | |- only _ (try_bind _ _) => unfold try_bind
      | |- only _ (no_panic _) => unfold no_panic
      end ].

(** Take an execution of a program apart, one command at a time. *)
Ltac exec_inv H :=
  cbv beta iota in H;
  repeat match type of H with
  | @exec ?cmd ?R _ (mbind _ (call ?c)) _ _ =>
      apply (exec_call_inv (cmd := cmd) (resp := R) c) in H;
      let r := fresh "r" in let tr := fresh "tr" in destruct H as (r & tr & -> & H)
  | exec (Ret _) ?tr _ =>
      apply exec_ret_inv in H; let E := fresh in destruct H as [E H];
      first [is_var tr; subst tr | clear E]
  end.
