(* ===== verification/GoHeap.v ===== *)
(** * Memory: pointers, slices and maps

    Go values that share memory.  A heap maps locations to cells; a pointer, a
    slice or a map is a location or nil, and what it stands for is read through
    the heap.  [deep_copies f] is the contract of a deep-copy function, proved
    here for the ways in which generated code copies a field. *)
From S2P Require Import Prelude.

Abbreviation loc := positive.

Inductive ptr (A : Type) : Type := Nil | Ptr (l : loc).
Arguments Nil {A}.
Arguments Ptr {A} l.

(** A slice is a window of an array: offset, length and capacity. *)
Inductive slice (A : Type) : Type := NilSlice | Slice (l : loc) (off len cap : nat).
Arguments NilSlice {A}.
Arguments Slice {A} l off len cap.

(** [map[string]A] *)
Inductive gomap (A : Type) : Type := NilMap | Map (l : loc).
Arguments NilMap {A}.
Arguments Map {A} l.

(** The zero value of a type, with which [new] and [make] fill memory. *)
Class Zero (A : Type) := zero : A.
Global Instance zero_string : Zero string := "".
Global Instance zero_bool : Zero bool := false.
Global Instance zero_Z : Zero Z := 0%Z.
Global Instance zero_ptr A : Zero (ptr A) := Nil.
Global Instance zero_slice A : Zero (slice A) := NilSlice.
Global Instance zero_gomap A : Zero (gomap A) := NilMap.

Section Heap.
Context {cell : Type}.

Abbreviation heap := (gmap loc cell).

(** Code that reads and writes memory; a nil dereference panics. *)
Definition heapM (A : Type) : Type := heap -> outcome (A * heap).

Global Instance heapM_ret : MRet heapM := fun A a h => Val (a, h).
Global Instance heapM_bind : MBind heapM := fun A B f m h =>
  match m h with Val (a, h') => f a h' | Panic => Panic | NoFuel => NoFuel end.

(** The types whose values are kept in cells. *)
Class Stored (A : Type) := {
  into : A -> cell;
  outof : cell -> option A;
  outof_into a : outof (into a) = Some a
}.

Definition look `{Stored A} (h : heap) (l : loc) : option A := h !! l ≫= outof.

Definition new `{Stored A} (a : A) : heapM loc := fun h =>
  let l := fresh (dom h) in Val (l, <[l := into a]> h).

Definition load `{Stored A} (l : loc) : heapM A := fun h =>
  match look h l with Some a => Val (a, h) | None => Panic end.

Definition store `{Stored A} (l : loc) (a : A) : heapM unit := fun h =>
  match look (A := A) h l with Some _ => Val (tt, <[l := into a]> h) | None => Panic end.

Definition panics {A} : heapM A := fun _ => Panic.

(** ** Reading

    [read h x] is the value of [x] with everything it points to, if nothing it
    reaches dangles; [foot h x] is the set of locations it reaches. *)
Class Readable (T V : Type) := {
  read : heap -> T -> option V;
  foot : heap -> T -> gset loc;
  read_frame h h' x : (forall l, l ∈ foot h x -> h' !! l = h !! l) ->
    read h' x = read h x /\ foot h' x = foot h x;
  read_dom h x v : read h x = Some v -> foot h x ⊆ dom h
}.

Definition Flat (T : Type) : Readable T T.
Proof.
  refine {| read := fun _ x => Some x; foot := fun _ _ => ∅ |}; set_solver.
Defined.

Global Instance read_string : Readable string string := Flat string.
Global Instance read_bool : Readable bool bool := Flat bool.
Global Instance read_Z : Readable Z Z := Flat Z.

Lemma look_frame `{Stored A} h h' l : h' !! l = h !! l -> look (A := A) h' l = look h l.
Proof. unfold look. by intros ->. Qed.

Lemma look_dom `{Stored A} h l (a : A) : look h l = Some a -> l ∈ dom h.
Proof. unfold look. intros (c & Hc & _)%bind_Some. by apply elem_of_dom_2 in Hc. Qed.

Lemma look_insert `{Stored A} h l (a : A) : look (<[l := into a]> h) l = Some a.
Proof. unfold look. rewrite lookup_insert_eq. apply outof_into. Qed.

Lemma look_insert_ne `{Stored A} h l l' c : l <> l' -> look (A := A) (<[l := c]> h) l' = look h l'.
Proof. intros. by apply look_frame, lookup_insert_ne. Qed.

Lemma look_mono `{Stored A} (h h' : heap) l (a : A) : h ⊆ h' -> look h l = Some a -> look h' l = Some a.
Proof.
  unfold look. intros Hs (c & Hc & Ha)%bind_Some. by rewrite (lookup_weaken _ _ _ _ Hc Hs).
Qed.

Lemma read_mono `{Readable T V} h h' x v : h ⊆ h' -> read h x = Some v ->
  read h' x = Some v /\ foot h' x = foot h x.
Proof.
  intros Hs Hr. destruct (read_frame h h' x) as [-> ->]; [|done].
  intros l Hl. apply (read_dom _ _ _ Hr) in Hl as [c Hc]%elem_of_dom.
  by rewrite Hc, (lookup_weaken _ _ _ _ Hc Hs).
Qed.

(** Pointers: the cell and what its content reaches. *)
Definition at_ptr {A B} (d : B) (f : loc -> B) (p : ptr A) : B :=
  match p with Nil => d | Ptr l => f l end.

Global Program Instance read_ptr `{Stored A, Readable A V} : Readable (ptr A) (option V) := {|
  read h := at_ptr (Some None) (fun l => a ← look h l; v ← read h (a : A); Some (Some v));
  foot h := at_ptr ∅ (fun l => {[l]} ∪ from_option (foot h) ∅ (look (A := A) h l))
|}.
Next Obligation.
  intros A Hs V Hr h h' [|l] Hf; cbn in *; [done|].
  rewrite (look_frame h h') by (apply Hf; set_solver).
  destruct (look h l) as [a|]; cbn in *; [|done].
  destruct (read_frame h h' a) as [-> ->]; [|done]. intros k Hk. apply Hf. set_solver.
Qed.
Next Obligation.
  intros A Hs V Hr h [|l] v; cbn; [set_solver|].
  intros (a & Ha & (w & Hw & _)%bind_Some)%bind_Some. rewrite Ha. cbn.
  apply look_dom in Ha. apply read_dom in Hw. set_solver.
Qed.

(** The elements of a slice, if its array has them. *)
Definition window {A} (off len : nat) (xs : list A) : option (list A) :=
  if decide (off + len <= length xs)%nat then Some (take len (drop off xs)) else None.

Definition elems `{Stored (list A)} (h : heap) (l : loc) (off len : nat) : option (list A) :=
  look h l ≫= window off len.

Definition foots `{Readable A V} (h : heap) (xs : list A) : gset loc := ⋃ (foot h <$> xs).

Lemma elem_of_foots `{Readable A V} h xs l : l ∈ foots (A := A) h xs <-> exists x, x ∈ xs /\ l ∈ foot h x.
Proof.
  unfold foots. rewrite elem_of_union_list. setoid_rewrite list_elem_of_fmap. naive_solver.
Qed.

Lemma reads_frame `{Readable A V} h h' xs : (forall l, l ∈ foots (A := A) h xs -> h' !! l = h !! l) ->
  mapM (read h') xs = mapM (read h) xs /\ foots h' xs = foots h xs.
Proof.
  induction xs as [|x xs IH]; [done|]. unfold foots in *. cbn. intros Hf.
  destruct (read_frame h h' x) as [-> ->]; [intros; apply Hf; set_solver|].
  destruct IH as [-> ->]; [intros; apply Hf; set_solver | done].
Qed.

Lemma reads_dom `{Readable A V} h (xs : list A) vs : mapM (read h) xs = Some vs -> foots h xs ⊆ dom h.
Proof.
  rewrite mapM_Some. intros Hf l (x & Hx & Hl)%elem_of_foots.
  apply list_elem_of_lookup in Hx as [i Hi]. eapply Forall2_lookup_l in Hf as (v & _ & Hv); [|exact Hi].
  by apply read_dom in Hv; apply Hv.
Qed.

Definition at_slice {A B} (d : B) (f : loc -> nat -> nat -> B) (s : slice A) : B :=
  match s with NilSlice => d | Slice l off len _ => f l off len end.

Global Program Instance read_slice `{Stored (list A), Readable A V} : Readable (slice A) (option (list V)) := {|
  read h := at_slice (Some None) (fun l off len => xs ← elems h l off len; vs ← mapM (read h) (xs : list A); Some (Some vs));
  foot h := at_slice ∅ (fun l off len => {[l]} ∪ from_option (foots (A := A) h) ∅ (elems h l off len))
|}.
Next Obligation.
  intros A Hs V Hr h h' [|l off len cap] Hf; cbn in *; [done|]. unfold elems in *.
  rewrite (look_frame h h') by (apply Hf; set_solver).
  destruct (look h l ≫= window off len) as [xs|]; cbn in *; [|done].
  destruct (reads_frame h h' xs) as [-> ->]; [|done]. intros k Hk. apply Hf. set_solver.
Qed.
Next Obligation.
  intros A Hs V Hr h [|l off len cap] v; cbn; [set_solver|].
  intros (xs & Hx & (w & Hw & _)%bind_Some)%bind_Some. rewrite Hx. cbn.
  unfold elems in Hx. apply bind_Some in Hx as (ys & Hy%look_dom & _). apply reads_dom in Hw. set_solver.
Qed.

(** Maps to values without pointers. *)
Definition at_map {A B} (d : B) (f : loc -> B) (m : gomap A) : B :=
  match m with NilMap => d | Map l => f l end.

Global Program Instance read_map `{Stored (gmap string A)} : Readable (gomap A) (option (gmap string A)) := {|
  read h := at_map (Some None) (fun l => Some <$> look h l);
  foot h := at_map ∅ (fun l => {[l]})
|}.
Next Obligation.
  intros A Hs h h' [|l] Hf; cbn in *; [done|]. by rewrite (look_frame h h') by (apply Hf; set_solver).
Qed.
Next Obligation.
  intros A Hs h [|l] v; cbn; [set_solver|]. intros (m & Hm%look_dom & _)%fmap_Some. set_solver.
Qed.

(** ** Copying *)

(** [y] is a copy of the value [v] made in the heap [h] and left in [h']: all of
    the old memory is as it was, and the copy reaches none of it. *)
Record copied `{Readable T V} (h : heap) (v : V) (y : T) (h' : heap) : Prop := MkCopied {
  copied_old : h ⊆ h';
  copied_read : read h' y = Some v;
  copied_new : foot h' y ## dom h
}.

(** The contract of a deep-copy function: it returns, and returns a copy. *)
Definition deep_copies `{Readable T V} (f : T -> heapM T) : Prop :=
  forall h x v, read h x = Some v -> exists y h', f x h = Val (y, h') /\ copied h v y h'.

Lemma copied_mono `{Readable T V} h0 h h' h'' v (y : T) :
  h0 ⊆ h -> copied h v y h' -> h' ⊆ h'' -> copied h0 v y h''.
Proof.
  intros H0 [Ho Hr Hn] Hs. destruct (read_mono h' h'' y v Hs Hr) as [Hr' Hf].
  split; [by etrans; [exact H0|]; etrans | done |].
  rewrite Hf. apply subseteq_dom in H0. set_solver.
Qed.

Lemma subset_insert_out (h h' : heap) l c : h ⊆ h' -> l ∉ dom h -> h ⊆ <[l := c]> h'.
Proof.
  intros Hs Hl. apply map_subseteq_spec. intros k d Hk.
  rewrite lookup_insert_ne; [by eapply lookup_weaken | by intros ->; apply elem_of_dom_2 in Hk].
Qed.

Lemma heapM_step {A B} (m : heapM A) (f : A -> heapM B) h a h' : m h = Val (a, h') -> (m ≫= f) h = f a h'.
Proof. unfold mbind, heapM_bind. by intros ->. Qed.

(** [*out = new(T); **out = **in], for a type without pointers. *)
Definition copy_ptr `{Stored A, Zero A} (p : ptr A) : heapM (ptr A) :=
  match p with
  | Nil => mret Nil
  | Ptr l => l' ← new (zero : A); a ← load l; _ ← store l' (a : A); mret (Ptr l')
  end.

(** [*out = make([]T, len(in)); copy(out, in)] *)
Definition copy_slice `{Stored (list A), Zero A} (s : slice A) : heapM (slice A) :=
  match s with
  | NilSlice => mret NilSlice
  | Slice l off len _ =>
      l' ← new (replicate len (zero : A));
      xs ← load l;
      match window off len (xs : list A) with
      | Some ys => _ ← store l' ys; mret (Slice l' 0 len len)
      | None => panics
      end
  end.

(** [for key, val := range in { out[key] = val }] *)
Fixpoint copy_entries `{Stored (gmap string A)} (l : loc) (kvs : list (string * A)) : heapM unit :=
  match kvs with
  | [] => mret tt
  | (k, v) :: kvs' => m ← load l; _ ← store l (<[k := v]> (m : gmap string A)); copy_entries l kvs'
  end.

Definition copy_map `{Stored (gmap string A)} (p : gomap A) : heapM (gomap A) :=
  match p with
  | NilMap => mret NilMap
  | Map l => l' ← new (∅ : gmap string A); m ← load l; _ ← copy_entries l' (map_to_list (m : gmap string A)); mret (Map l')
  end.

(** [for i := range in { in[i].DeepCopyInto(&out[i]) }] *)
Fixpoint copy_elems `{Stored (list A)} (f : A -> heapM A) (l l' : loc) (off i n : nat) : heapM unit :=
  match n with
  | O => mret tt
  | S n' =>
      xs ← load l;
      match (xs : list A) !! (off + i)%nat with
      | Some x =>
          y ← f x;
          ys ← load l';
          _ ← store l' (<[i := y]> (ys : list A));
          copy_elems f l l' off (S i) n'
      | None => panics
      end
  end.

Definition copy_slice_with `{Stored (list A), Zero A} (f : A -> heapM A) (s : slice A) : heapM (slice A) :=
  match s with
  | NilSlice => mret NilSlice
  | Slice l off len _ =>
      l' ← new (replicate len (zero : A));
      _ ← copy_elems f l l' off 0 len;
      mret (Slice l' 0 len len)
  end.

(** [func (in *T) DeepCopy() *T]: nil stays nil; [DeepCopyInto] is [f]. *)
Definition DeepCopy `{Stored A, Zero A} (f : A -> heapM A) (p : ptr A) : heapM (ptr A) :=
  match p with
  | Nil => mret Nil
  | Ptr l => l' ← new (zero : A); x ← load l; y ← f x; _ ← store l' (y : A); mret (Ptr l')
  end.

(** An interface value that holds a pointer to [A], or is nil. *)
Inductive iface (A : Type) : Type := NilInterface | Interface (p : ptr A).
Arguments NilInterface {A}.
Arguments Interface {A} p.

(** [if c := in.DeepCopy(); c != nil { return c }; return nil] *)
Definition DeepCopyObject `{Stored A, Zero A} (f : A -> heapM A) (p : ptr A) : heapM (iface A) :=
  c ← DeepCopy f p;
  match c with
  | Nil => mret NilInterface
  | Ptr l => mret (Interface (Ptr l))
  end.
End Heap.

Arguments heapM cell A : clear implicits.
Arguments Stored cell A : clear implicits.
Arguments Readable cell T V : clear implicits.
Arguments iface A : clear implicits.
Arguments NilInterface {A}.
Arguments Interface {A} p.
