(* ===== verification/GoHeapFacts.v ===== *)
(** * The contracts of the copying idioms

    Each way of copying a field satisfies [deep_copies] when the copy of what it
    holds does. *)
From S2P Require Import Prelude GoHeap.

Section Facts.
Context {cell : Type}.

Abbreviation heap := (gmap loc cell).

(** ** Memory *)
Lemma new_spec `{Stored cell A} (a : A) (h : heap) : exists l,
  new a h = Val (l, <[l := into a]> h) /\ l ∉ dom h.
Proof. exists (fresh (dom h)). split; [done | apply is_fresh]. Qed.

Lemma load_spec `{Stored cell A} (h : heap) l (a : A) : look h l = Some a -> load l h = Val (a, h).
Proof. unfold load. by intros ->. Qed.

Lemma heap_store_spec `{Stored cell A} (h : heap) l (a b : A) :
  look h l = Some b -> store l a h = Val (tt, <[l := into a]> h).
Proof. unfold store. by intros ->. Qed.

(** Allocating outside of the domain. *)
Lemma copied_into `{Stored cell A, Readable cell T V} (h h' : heap) (v : V) (y : T) l (a : A) :
  h ⊆ h' -> l ∉ dom h -> read (<[l := into a]> h') y = Some v ->
  foot (<[l := into a]> h') y ## dom h -> copied h v y (<[l := into a]> h').
Proof. intros. split; [by apply subset_insert_out | done | done]. Qed.

(** ** The idioms *)

(** A value without references is its own copy. *)
Lemma flat_copies {T} : deep_copies (H := Flat T) (fun (x : T) (h : heap) => Val (x, h)).
Proof. intros h x v [= <-]. exists x, h. split; [done|]. split; [done | done | set_solver]. Qed.

Lemma copy_ptr_copies `{Stored cell A, Zero A, Readable cell A V} :
  (forall h (x : A), foot h x = ∅) -> deep_copies (copy_ptr (A := A)).
Proof.
  intros Hflat h [|l] v Hr; cbn in *.
  { exists Nil, h. injection Hr as <-. split; [done|]. split; [done | done | set_solver]. }
  apply bind_Some in Hr as (a & Ha & (w & Hw & [= <-])%bind_Some).
  destruct (new_spec (zero : A) h) as (l' & En & Hl').
  exists (Ptr l'), (<[l' := into a]> h). assert (l' <> l) by (by intros ->; apply Hl', (look_dom h l a)).
  split.
  - rewrite (heapM_step _ _ _ _ _ En).
    rewrite (heapM_step _ _ _ _ _ (load_spec _ l a ltac:(by rewrite look_insert_ne))).
    rewrite (heapM_step _ _ _ _ _ (heap_store_spec _ l' a zero ltac:(apply look_insert))). by rewrite insert_insert_eq.
  - apply copied_into; [done | done | |]; cbn; rewrite look_insert; cbn; [|rewrite Hflat; set_solver].
    destruct (read_frame h (<[l' := into a]> h) a) as [-> _]; [rewrite Hflat; set_solver|]. by rewrite Hw.
Qed.

Lemma window_length {A} off len (xs ys : list A) : window off len xs = Some ys -> length ys = len.
Proof. unfold window. case_decide; [|done]. intros [= <-]. rewrite length_take, length_drop. lia. Qed.

Lemma window_all {A} (ys : list A) : window 0 (length ys) ys = Some ys.
Proof. unfold window. rewrite decide_True by lia. by rewrite drop_0, firstn_all. Qed.

Lemma window_lookup {A} off len (xs ys : list A) i :
  window off len xs = Some ys -> (i < len)%nat -> xs !! (off + i)%nat = ys !! i.
Proof.
  unfold window. case_decide; [|done]. intros [= <-] Hi. by rewrite lookup_take_lt, lookup_drop by lia.
Qed.

Lemma foots_flat `{Readable cell A V} (h : heap) (xs : list A) : (forall x, foot h x = ∅) -> foots h xs = ∅.
Proof.
  intros Hf. apply set_eq. intros l. rewrite elem_of_foots. setoid_rewrite Hf. set_solver.
Qed.

Lemma copy_slice_copies `{Stored cell (list A), Zero A, Readable cell A V} :
  (forall h (x : A), foot h x = ∅) -> deep_copies (copy_slice (A := A)).
Proof.
  intros Hflat h [|l off len cap] v Hr; cbn in *.
  { exists NilSlice, h. injection Hr as <-. split; [done|]. split; [done | done | set_solver]. }
  apply bind_Some in Hr as (ys & (xs & Hx & Hw)%bind_Some & (vs & Hvs & [= <-])%bind_Some).
  destruct (new_spec (replicate len (zero : A)) h) as (l' & En & Hl').
  assert (l' <> l) by (by intros ->; apply Hl', (look_dom h l xs)).
  exists (Slice l' 0 len len), (<[l' := into ys]> h). split.
  - rewrite (heapM_step _ _ _ _ _ En).
    rewrite (heapM_step _ _ _ _ _ (load_spec _ l xs ltac:(by rewrite look_insert_ne))), Hw.
    rewrite (heapM_step _ _ _ _ _ (heap_store_spec _ l' ys _ ltac:(apply look_insert))). by rewrite insert_insert_eq.
  - assert (He : elems (<[l' := into ys]> h) l' 0 len = Some ys).
    { unfold elems. rewrite look_insert. cbn. rewrite <- (window_length _ _ _ _ Hw). apply window_all. }
    apply copied_into; [done | done | |]; cbn; rewrite He; cbn; [|rewrite foots_flat by done; set_solver].
    destruct (reads_frame h (<[l' := into ys]> h) ys) as [-> _]; [rewrite foots_flat by done; set_solver|].
    by rewrite Hvs.
Qed.

(** Entries are copied into a map in any order. *)
Lemma copy_entries_spec `{Stored cell (gmap string A)} l kvs : forall (h : heap) (m : gmap string A),
  look h l = Some m ->
  copy_entries l kvs h = Val (tt, <[l := into (foldl (fun m kv => <[kv.1 := kv.2]> m) m kvs)]> h)
  \/ kvs = [] /\ copy_entries l kvs h = Val (tt, h).
Proof.
  induction kvs as [|[k v] kvs IH]; intros h m Hm; [by right|]. left. cbn [copy_entries foldl fst snd].
  rewrite (heapM_step _ _ _ _ _ (load_spec _ _ _ Hm)), (heapM_step _ _ _ _ _ (heap_store_spec _ _ (<[k := v]> m) _ Hm)).
  destruct (IH (<[l := into (<[k := v]> m)]> h) (<[k := v]> m)) as [-> | [-> ->]]; [apply look_insert | |done].
  by rewrite insert_insert_eq.
Qed.

Lemma insert_all {A} (kvs : list (string * A)) (m : gmap string A) :
  NoDup kvs.*1 -> (forall k, k ∈ kvs.*1 -> m !! k = None) ->
  foldl (fun m kv => <[kv.1 := kv.2]> m) m kvs = m ∪ list_to_map kvs.
Proof.
  revert m. induction kvs as [|[k v] kvs IH]; intros m; cbn; [by rewrite map_union_empty|].
  intros [Hk Hn]%NoDup_cons Hm. rewrite IH; [|done|].
  - rewrite <- insert_union_l. rewrite insert_union_r; [done | apply Hm; left].
  - intros k' Hk'. rewrite lookup_insert_ne by set_solver. apply Hm. set_solver.
Qed.

Lemma copy_map_copies `{Stored cell (gmap string A)} : deep_copies (copy_map (A := A)).
Proof.
  intros h [|l] v Hr; cbn in *.
  { exists NilMap, h. injection Hr as <-. split; [done|]. split; [done | done | set_solver]. }
  apply fmap_Some in Hr as (m & Hm & ->).
  destruct (new_spec (∅ : gmap string A) h) as (l' & En & Hl').
  assert (l' <> l) by (by intros ->; apply Hl', (look_dom h l m)).
  exists (Map l'), (<[l' := into m]> h). split.
  - rewrite (heapM_step _ _ _ _ _ En).
    rewrite (heapM_step _ _ _ _ _ (load_spec _ l m ltac:(by rewrite look_insert_ne))).
    destruct (copy_entries_spec l' (map_to_list m) (<[l' := into ∅]> h) ∅) as [E | [Hn E]]; [apply look_insert | |];
      rewrite (heapM_step _ _ _ _ _ E).
    + rewrite insert_insert_eq, insert_all, list_to_map_to_list, map_empty_union; [done | apply NoDup_fst_map_to_list | done].
    + by apply map_to_list_empty_iff in Hn as ->.
  - apply copied_into; [done | done | |]; cbn; [by rewrite look_insert | set_solver].
Qed.

(** ** Elements that are copied one by one *)

(** The first elements of the new array are copies, and reach neither the old
    memory nor the array itself. *)
Definition copied_upto `{Stored cell (list A), Readable cell A V} (h0 : heap) (l' : loc) (vs : list V) (i : nat)
    (h : heap) : Prop :=
  h0 ⊆ h /\ exists ys : list A, look h l' = Some ys /\ length ys = length vs /\
    Forall2 (fun y v => read h y = Some v /\ foot h y ## {[l']} ∪ dom h0) (take i ys) (take i vs).

Lemma copied_upto_step `{Stored cell (list A), Readable cell A V} (h0 h h1 : heap) l' vs i (y : A) v ys :
  copied_upto (A := A) h0 l' vs i h -> l' ∉ dom h0 -> vs !! i = Some v -> look h l' = Some ys ->
  copied h v y h1 -> copied_upto (A := A) h0 l' vs (S i) (<[l' := into (<[i := y]> ys)]> h1).
Proof.
  intros (Hbase & ys' & Hy & Hlen & Hf) Hl' Hv Hys [Hs Hr Hn].
  assert (ys' = ys) as -> by congruence.
  assert (Hld : l' ∈ dom h) by by eapply look_dom. pose proof (subseteq_dom _ _ Hbase) as Hd.
  split; [apply subset_insert_out; [by etrans | done]|].
  exists (<[i := y]> ys). split; [apply look_insert|]. rewrite length_insert. split; [done|].
  assert (Hi : (i < length ys)%nat) by (rewrite Hlen; by eapply lookup_lt_Some).
  rewrite (take_S_r vs i v Hv), (take_S_r (<[i := y]> ys) i y) by (by apply list_lookup_insert_eq).
  rewrite take_insert_ge by done. apply Forall2_app.
  - eapply Forall2_impl; [exact Hf|]. cbn. intros z w [Hz Hzf].
    destruct (read_mono h h1 z w Hs Hz) as [Hz1 Hf1].
    destruct (read_frame h1 (<[l' := into (<[i := y]> ys)]> h1) z) as [-> ->]; [|by rewrite Hf1].
    intros k Hk. apply lookup_insert_ne. intros ->. set_solver.
  - constructor; [|constructor].
    destruct (read_frame h1 (<[l' := into (<[i := y]> ys)]> h1) y) as [-> ->]; [|set_solver].
    intros k Hk. apply lookup_insert_ne. intros ->. set_solver.
Qed.

Lemma copy_elems_spec `{Stored cell (list A), Readable cell A V} (f : A -> heapM cell A) l l' off (h0 : heap) xs vs n :
  deep_copies f -> l' ∉ dom h0 -> look h0 l = Some xs -> window off (length vs) xs ≫= mapM (read h0) = Some vs ->
  forall i h, (i + n)%nat = length vs -> copied_upto (A := A) h0 l' vs i h ->
  exists h', copy_elems f l l' off i n h = Val (tt, h') /\ copied_upto (A := A) h0 l' vs (length vs) h'.
Proof.
  intros Hf Hl' Hxs (ws & Hw & Hvs%mapM_Some)%bind_Some.
  induction n as [|n IH]; intros i h Hin Hc; cbn [copy_elems].
  { exists h. replace (length vs) with i by lia. done. }
  pose proof Hc as (Hbase & ys & Hys & Hlen & _).
  assert (is_Some (vs !! i)) as [v Hv] by (apply lookup_lt_is_Some; lia).
  destruct (Forall2_lookup_r _ _ _ _ _ Hvs Hv) as (x & Hx & Hrx).
  rewrite (heapM_step _ _ _ _ _ (load_spec _ _ _ (look_mono _ _ _ _ Hbase Hxs))).
  rewrite (window_lookup _ _ _ _ i Hw) by lia. rewrite Hx.
  destruct (read_mono h0 h x v Hbase Hrx) as [Hrx' _].
  destruct (Hf h x v Hrx') as (y & h1 & Ey & Hcy).
  pose proof (look_mono _ _ _ _ (copied_old _ _ _ _ Hcy) Hys) as Hys1.
  rewrite (heapM_step _ _ _ _ _ Ey), (heapM_step _ _ _ _ _ (load_spec _ _ _ Hys1)).
  rewrite (heapM_step _ _ _ _ _ (heap_store_spec _ _ (<[i := y]> ys) _ Hys1)).
  apply IH; [lia|]. by eapply copied_upto_step.
Qed.

Lemma copy_slice_with_copies `{Stored cell (list A), Zero A, Readable cell A V} (f : A -> heapM cell A) :
  deep_copies f -> deep_copies (copy_slice_with f).
Proof.
  intros Hf h [|l off len cap] v Hr; cbn in *.
  { exists NilSlice, h. injection Hr as <-. split; [done|]. split; [done | done | set_solver]. }
  apply bind_Some in Hr as (ys & (xs & Hx & Hw)%bind_Some & (vs & Hvs & [= <-])%bind_Some).
  assert (Hlen : length vs = len).
  { rewrite <- (window_length _ _ _ _ Hw). symmetry. eapply Forall2_length. by apply mapM_Some. }
  destruct (new_spec (replicate len (zero : A)) h) as (l' & En & Hl').
  rewrite (heapM_step _ _ _ _ _ En).
  destruct (copy_elems_spec f l l' off h xs vs len) with (i := 0%nat) (h := <[l' := into (replicate len (zero : A))]> h)
    as (h' & E & Ho & zs & Hz & Hzl & Hc); [done | done | done | by rewrite Hlen, Hw | lia | |].
  { split; [by apply subset_insert_out|]. exists (replicate len zero). split; [apply look_insert|].
    by rewrite length_replicate. }
  exists (Slice l' 0 len len), h'. rewrite (heapM_step _ _ _ _ _ E). split; [done|].
  rewrite firstn_all, <- Hzl, firstn_all in Hc.
  assert (He : elems h' l' 0 len = Some zs) by (unfold elems; rewrite Hz, <- Hlen, <- Hzl; apply window_all).
  split; [done | cbn; rewrite He; cbn | cbn; rewrite He; cbn].
  - assert (mapM (read h') zs = Some vs) as -> by (apply mapM_Some; eapply Forall2_impl; [exact Hc|]; naive_solver).
    done.
  - intros k [->%elem_of_singleton | (z & Hzs & Hk)%elem_of_foots]%elem_of_union Hd; [done|].
    apply list_elem_of_lookup in Hzs as [i Hi]. destruct (Forall2_lookup_l _ _ _ _ _ Hc Hi) as (w & _ & _ & Hdis).
    set_solver.
Qed.

(** ** Whole objects *)
Lemma DeepCopy_copies `{Stored cell A, Zero A, Readable cell A V} (f : A -> heapM cell A) :
  deep_copies f -> deep_copies (DeepCopy f).
Proof.
  intros Hf h [|l] v Hr; cbn in *.
  { exists Nil, h. injection Hr as <-. split; [done|]. split; [done | done | set_solver]. }
  apply bind_Some in Hr as (a & Ha & (w & Hw & [= <-])%bind_Some).
  destruct (new_spec (zero : A) h) as (l' & En & Hl'). rewrite (heapM_step _ _ _ _ _ En).
  set (h1 := <[l' := into zero]> h) in *.
  assert (Hs : h ⊆ h1) by (by apply subset_insert_out).
  rewrite (heapM_step _ _ _ _ _ (load_spec _ _ _ (look_mono _ _ _ _ Hs Ha))).
  destruct (Hf h1 a w) as (y & h2 & Ey & [Ho Hry Hn]); [by apply (read_mono h h1)|].
  rewrite (heapM_step _ _ _ _ _ Ey).
  assert (Hz : look h2 l' = Some (zero : A)) by (apply (look_mono h1); [done | apply look_insert]).
  exists (Ptr l'), (<[l' := into y]> h2). rewrite (heapM_step _ _ _ _ _ (heap_store_spec _ _ _ _ Hz)). split; [done|].
  assert (Hd : l' ∈ dom h1) by (unfold h1; set_solver). pose proof (subseteq_dom _ _ Hs).
  destruct (read_frame h2 (<[l' := into y]> h2) y) as [Hr2 Hf2].
  { intros k Hk. apply lookup_insert_ne. intros ->. set_solver. }
  apply copied_into; [by etrans | done | |]; cbn; rewrite look_insert; cbn.
  - by rewrite Hr2, Hry.
  - rewrite Hf2. set_solver.
Qed.

(** ** Structs: the fields one after the other *)
Definition yields {B} (m : heapM cell B) (h : heap) (Q : B -> heap -> Prop) : Prop :=
  exists b h', m h = Val (b, h') /\ Q b h'.

Lemma deep_copies_yields `{Readable cell T V} (f : T -> heapM cell T) :
  (forall h x v, read h x = Some v -> yields (f x) h (copied h v)) -> deep_copies f.
Proof. done. Qed.

Lemma yields_copy `{Readable cell T V} {B} (f : T -> heapM cell T) (k : T -> heapM cell B) (h0 h : heap) x v Q :
  deep_copies f -> h0 ⊆ h -> read h0 x = Some v ->
  (forall y h1, h0 ⊆ h1 -> h ⊆ h1 -> (forall h2, h1 ⊆ h2 -> copied h0 v y h2) -> yields (k y) h1 Q) ->
  yields (f x ≫= k) h Q.
Proof.
  intros Hf Hs Hr Hk. destruct (read_mono h0 h x v Hs Hr) as [Hr' _].
  destruct (Hf h x v Hr') as (y & h1 & E & Hc). unfold yields. rewrite (heapM_step _ _ _ _ _ E).
  pose proof (copied_old _ _ _ _ Hc) as Ho.
  apply Hk; [by etrans | done |]. intros h2 H2. by eapply copied_mono.
Qed.

(** What is written later: memory that is new since the copy is not seen by the
    original, and old memory not by the copy. *)
Lemma copied_independent `{Readable cell T V} (h h' h'' : heap) (v : V) (x y : T) :
  read h x = Some v -> copied h v y h' ->
  ((forall l, l ∈ dom h -> h'' !! l = h' !! l) -> read h'' x = Some v) /\
  ((forall l, l ∉ dom h -> h'' !! l = h' !! l) -> read h'' y = Some v).
Proof.
  intros Hx [Ho Hr Hn]. destruct (read_mono h h' x v Ho Hx) as [Hx' Hf]. split; intros Ha.
  - destruct (read_frame h' h'' x) as [-> _]; [|done]. intros l Hl. apply Ha.
    rewrite Hf in Hl. by apply read_dom in Hx; apply Hx.
  - destruct (read_frame h' h'' y) as [-> _]; [|done]. intros l Hl. apply Ha. set_solver.
Qed.

(** [DeepCopyObject]: nil gives a nil interface; an object gives a pointer to new
    memory with the same value.  No later write to the memory that is new since
    then is seen in the original, and none to the old memory in the copy. *)
Definition independent_copy `{Stored cell A, Readable cell A V} (copy : ptr A -> heapM cell (iface A)) : Prop :=
  (forall h, copy Nil h = Val (NilInterface, h)) /\
  forall h l v, read h (Ptr l : ptr A) = Some (Some v) ->
    exists l' h', copy (Ptr l) h = Val (Interface (Ptr l'), h') /\ h ⊆ h' /\ (l' ∉ dom h) /\
      (forall h'', ((forall k, k ∈ dom h -> h'' !! k = h' !! k) -> read h'' (Ptr l : ptr A) = Some (Some v)) /\
                   ((forall k, k ∉ dom h -> h'' !! k = h' !! k) -> read h'' (Ptr l' : ptr A) = Some (Some v))).

Lemma DeepCopyObject_independent `{Stored cell A, Zero A, Readable cell A V} (f : A -> heapM cell A) :
  deep_copies f -> independent_copy (DeepCopyObject f).
Proof.
  intros Hf. split; [done|]. intros h l v Hr.
  destruct (DeepCopy_copies f Hf h (Ptr l) (Some v) Hr) as ([|l'] & h' & E & Hc).
  { by destruct Hc. }
  exists l', h'. unfold DeepCopyObject. rewrite (heapM_step _ _ _ _ _ E). split; [done|].
  split; [by destruct Hc|]. split.
  - destruct Hc as [_ _ Hn]. cbn in Hn. set_solver.
  - intros h''. by apply (copied_independent h h' h'' (Some v)).
Qed.
End Facts.
