(* ===== verification/GoStrings.v ===== *)
(** * The parts of Go's [strings], [strconv] and [sort] the program uses

    Go strings are byte sequences; [string] is a list of 8-bit characters, so
    every function below works on bytes exactly as the library does. *)
From S2P Require Import Prelude.
Local Open Scope Z_scope.

(** ** Bytes *)
Definition code (c : ascii) : Z := Z.of_N (N_of_ascii c).

Definition byte_is (n : Z) (c : ascii) : bool := code c =? n.

Definition is_digit (c : ascii) : bool := (48 <=? code c) && (code c <=? 57).

Definition digit_val (c : ascii) : Z := code c - 48.

(** [str_forall f s]: every byte of [s] satisfies [f]. *)
Fixpoint str_forall (f : ascii -> bool) (s : string) : bool :=
  match s with
  | EmptyString => true
  | String c s' => f c && str_forall f s'
  end.

(** ** [strings] *)
Definition HasPrefix (s p : string) : bool := String.prefix p s.

(** [strings.CutPrefix]: the rest after the prefix, [None] without it. *)
Fixpoint CutPrefix (s p : string) {struct p} : option string :=
  match p with
  | EmptyString => Some s
  | String d p' =>
      match s with
      | String c s' => if bool_decide (c = d) then CutPrefix s' p' else None
      | EmptyString => None
      end
  end.

Definition TrimPrefix (s p : string) : string := default s (CutPrefix s p).

(** [strings.Split] for a one-byte separator. *)
Fixpoint Split (s : string) (sep : ascii) : list string :=
  match s with
  | EmptyString => [""]
  | String c s' =>
      if bool_decide (c = sep) then "" :: Split s' sep
      else match Split s' sep with
           | [] => [String c ""]
           | w :: ws => String c w :: ws
           end
  end.

Definition Join (l : list string) (sep : string) : string := String.concat sep l.

(** White space of [unicode.IsSpace], in its UTF-8 encodings of one, two and
    three bytes. *)
Definition is_space1 (c : ascii) : bool :=
  ((9 <=? code c) && (code c <=? 13)) || (code c =? 32).
Definition is_space2 (c d : ascii) : bool :=
  (code c =? 194) && ((code d =? 133) || (code d =? 160)).
Definition is_space3 (c d e : ascii) : bool :=
  ((code c =? 225) && (code d =? 154) && (code e =? 128))
  || ((code c =? 226) && (code d =? 128)
      && (((128 <=? code e) && (code e <=? 138))
          || (code e =? 168) || (code e =? 169) || (code e =? 175)))
  || ((code c =? 226) && (code d =? 129) && (code e =? 159))
  || ((code c =? 227) && (code d =? 128) && (code e =? 128)).

Fixpoint trim_left (s : string) : string :=
  match s with
  | EmptyString => ""
  | String c r =>
      if is_space1 c then trim_left r
      else match r with
           | EmptyString => s
           | String d r2 =>
               if is_space2 c d then trim_left r2
               else match r2 with
                    | EmptyString => s
                    | String e r3 => if is_space3 c d e then trim_left r3 else s
                    end
           end
  end.

(** [strings.Fields]: the word a string starts with, empty when it starts with
    white space, and the words after it. *)
Definition add_word (p : string * list string) : list string :=
  if bool_decide (fst p = "") then snd p else fst p :: snd p.

Fixpoint fields_go (s : string) : string * list string :=
  match s with
  | EmptyString => ("", [])
  | String c r =>
      let word := let '(w, ws) := fields_go r in (String c w, ws) in
      if is_space1 c then ("", add_word (fields_go r))
      else match r with
           | EmptyString => word
           | String d r2 =>
               if is_space2 c d then ("", add_word (fields_go r2))
               else match r2 with
                    | EmptyString => word
                    | String e r3 => if is_space3 c d e then ("", add_word (fields_go r3)) else word
                    end
           end
  end.

Definition Fields (s : string) : list string := add_word (fields_go s).

(** The same scan over the reversed string, for the right end. *)
Fixpoint trim_left_rev (s : string) : string :=
  match s with
  | EmptyString => ""
  | String c r =>
      if is_space1 c then trim_left_rev r
      else match r with
           | EmptyString => s
           | String d r2 =>
               if is_space2 d c then trim_left_rev r2
               else match r2 with
                    | EmptyString => s
                    | String e r3 => if is_space3 e d c then trim_left_rev r3 else s
                    end
           end
  end.

Definition TrimSpace (s : string) : string :=
  String.rev (trim_left_rev (String.rev (trim_left s))).

(** [strings.TrimRight] with a one-byte cut set. *)
Fixpoint trim_byte_left (n : Z) (s : string) : string :=
  match s with
  | EmptyString => ""
  | String c r => if byte_is n c then trim_byte_left n r else s
  end.
Definition TrimRightByte (n : Z) (s : string) : string :=
  String.rev (trim_byte_left n (String.rev s)).

(** [strings.TrimSuffix] with a one-byte suffix. *)
Definition TrimSuffixByte (n : Z) (s : string) : string :=
  match String.rev s with
  | String c r => if byte_is n c then String.rev r else s
  | EmptyString => s
  end.

(** Cut at the first, or at the last, occurrence of a byte. *)
Fixpoint cut_first (n : Z) (s : string) : option (string * string) :=
  match s with
  | EmptyString => None
  | String c r =>
      if byte_is n c then Some ("", r)
      else match cut_first n r with
           | Some (a, b) => Some (String c a, b)
           | None => None
           end
  end.

Fixpoint cut_last (n : Z) (s : string) : option (string * string) :=
  match s with
  | EmptyString => None
  | String c r =>
      match cut_last n r with
      | Some (a, b) => Some (String c a, b)
      | None => if byte_is n c then Some ("", r) else None
      end
  end.

(** ** [strconv] *)
Definition itoa (z : Z) : string := pretty z.

Fixpoint atoi_digits (s : string) (acc : Z) : option Z :=
  match s with
  | EmptyString => Some acc
  | String c r => if is_digit c then atoi_digits r (acc * 10 + digit_val c) else None
  end.

(** [strconv.Atoi] on a string without a sign (int is 64 bits wide). *)
Definition atoi_unsigned (s : string) : option Z :=
  match s with
  | EmptyString => None
  | _ => match atoi_digits s 0 with
         | Some n => if n <? 2 ^ 63 then Some n else None
         | None => None
         end
  end.

Definition ParseBool (s : string) : option bool :=
  if bool_decide (s ∈ ["1"; "t"; "T"; "TRUE"; "true"; "True"]) then Some true
  else if bool_decide (s ∈ ["0"; "f"; "F"; "FALSE"; "false"; "False"]) then Some false
  else None.

Definition FormatBool (b : bool) : string := if b then "true" else "false".

(** ** [sort]: the sorted order of strings is bytewise *)
Definition sort_strings (l : list string) : list string := merge_sort String.le l.

(** [filepath.Clean] and [filepath.Join] on slash-separated paths. *)
Fixpoint clean_parts (rooted : bool) (stack parts : list string) : list string :=
  match parts with
  | [] => rev stack
  | p :: ps =>
      if bool_decide (p = "") || bool_decide (p = ".") then clean_parts rooted stack ps
      else if bool_decide (p = "..") then
        match stack with
        | top :: rest =>
            if bool_decide (top = "..") then clean_parts rooted (".." :: stack) ps
            else clean_parts rooted rest ps
        | [] => if rooted then clean_parts rooted [] ps else clean_parts rooted [".."] ps
        end
      else clean_parts rooted (p :: stack) ps
  end.

Definition Clean (path : string) : string :=
  let rooted := HasPrefix path "/" in
  let body := Join (clean_parts rooted [] (Split path "/")) "/" in
  if rooted then "/" +:+ body
  else if bool_decide (body = "") then "." else body.

Definition JoinPath (elems : list string) : string :=
  let elems := filter (fun e => e <> "") elems in
  if bool_decide (elems = []) then "" else Clean (Join elems "/").

(** [filepath.Split]: up to and including the last slash, and the rest. *)
Definition SplitPath (path : string) : string * string :=
  match cut_last 47 path with
  | Some (dir, file) => (dir +:+ "/", file)
  | None => ("", path)
  end.

(** [filepath.Base]: the last element, trailing slashes apart. *)
Definition BasePath (path : string) : string :=
  if bool_decide (path = "") then "."
  else
    let last := snd (SplitPath (TrimRightByte 47 path)) in
    if bool_decide (last = "") then "/" else last.

(** ** Lemmas *)
Lemma str_forall_app f s t : str_forall f (s +:+ t) = str_forall f s && str_forall f t.
Proof.
  induction s as [|c s IH]; [done|]. change (String c s +:+ t) with (String c (s +:+ t)).
  cbn. rewrite IH. by rewrite andb_assoc.
Qed.

Lemma str_forall_weaken f g s :
  (forall c, f c = true -> g c = true) -> str_forall f s = true -> str_forall g s = true.
Proof.
  intros Hfg. induction s as [|c s IH]; cbn; [done|].
  intros [Hc Hs]%andb_prop. by rewrite (Hfg _ Hc), IH.
Qed.

Lemma string_app_nil_r s : s +:+ "" = s.
Proof. induction s as [|c s IH]; [done|]. change (String c (s +:+ "") = String c s). by f_equal. Qed.

Lemma string_app_assoc s t u : (s +:+ t) +:+ u = s +:+ (t +:+ u).
Proof.
  induction s as [|c s IH]; [done|].
  change (String c ((s +:+ t) +:+ u) = String c (s +:+ (t +:+ u))). by f_equal.
Qed.

Lemma string_cons_app c s t : String c s +:+ t = String c (s +:+ t).
Proof. done. Qed.

Lemma HasPrefix_app p s : HasPrefix (p +:+ s) p = true.
Proof.
  unfold HasPrefix. induction p as [|c p IH]; [by destruct s|].
  rewrite string_cons_app. cbn. by destruct (ascii_dec c c).
Qed.

Lemma CutPrefix_Some s p r : CutPrefix s p = Some r <-> s = p +:+ r.
Proof.
  revert s. induction p as [|d p IH]; intros s; cbn.
  - split; [by intros [= ->] | by intros ->].
  - destruct s as [|c s]; cbn; [split; [done | discriminate]|].
    rewrite string_cons_app. case_bool_decide as Hc.
    + subst. rewrite IH. split; [by intros -> | by intros [= ->]].
    + split; [done | by intros [= ? ?]].
Qed.

Lemma HasPrefix_CutPrefix s p : HasPrefix s p = true <-> exists r, s = p +:+ r.
Proof.
  split; [|intros [r ->]; apply HasPrefix_app].
  unfold HasPrefix. revert s. induction p as [|d p IH]; intros s; [by exists s|].
  destruct s as [|c s]; cbn; [done|]. destruct (ascii_dec d c) as [->|]; [|done].
  intros [r ->]%IH. by exists r.
Qed.

Lemma TrimPrefix_app p s : TrimPrefix (p +:+ s) p = s.
Proof. unfold TrimPrefix. by rewrite (proj2 (CutPrefix_Some _ _ s)). Qed.

Lemma sort_strings_Permutation l : sort_strings l ≡ₚ l.
Proof. apply merge_sort_Permutation. Qed.

Lemma sort_strings_sorted l : Sorted String.le (sort_strings l).
Proof. apply (Sorted_merge_sort _). Qed.

Lemma elem_of_sort_strings x l : x ∈ sort_strings l <-> x ∈ l.
Proof. by rewrite sort_strings_Permutation. Qed.

(** Two sorted arrangements of one multiset are the same list: the result of
    [sort.Strings] does not depend on the algorithm or the input order. *)
Lemma sort_strings_perm l k : l ≡ₚ k -> sort_strings l = sort_strings k.
Proof.
  intros H. apply (StronglySorted_unique String.le).
  - apply (StronglySorted_merge_sort _).
  - apply (StronglySorted_merge_sort _).
  - by rewrite !sort_strings_Permutation.
Qed.

(** ** [Split] undoes [Join] *)
Definition lacks (sep : ascii) (s : string) : bool :=
  str_forall (fun c => negb (bool_decide (c = sep))) s.

Lemma Split_ne s sep : Split s sep <> [].
Proof. destruct s as [|c s]; cbn; [done|]. case_bool_decide; [done|]. by destruct (Split s sep). Qed.

Lemma Split_lacks s sep : lacks sep s = true -> Split s sep = [s].
Proof.
  unfold lacks. induction s as [|c s IH]; cbn; [done|]. intros [Hc Hs]%andb_prop.
  case_bool_decide; [done|]. by rewrite IH.
Qed.

Lemma Split_app s t sep : lacks sep s = true ->
  Split (s +:+ String sep t) sep = s :: Split t sep.
Proof.
  unfold lacks. induction s as [|c s IH]; intros Hs.
  - change ("" +:+ String sep t) with (String sep t). cbn. by rewrite bool_decide_eq_true_2.
  - rewrite string_cons_app. cbn in *. apply andb_prop in Hs as [Hc Hs].
    case_bool_decide; [done|]. by rewrite IH.
Qed.

Lemma Join_cons2 x y l sep : Join (x :: y :: l) sep = x +:+ sep +:+ Join (y :: l) sep.
Proof. done. Qed.

Lemma Split_Join l sep : l <> [] -> Forall (fun s => lacks sep s = true) l ->
  Split (Join l (String sep "")) sep = l.
Proof.
  intros Hne Hl. induction l as [|x [|y l] IH]; [done| |].
  - change (Split x sep = [x]). apply Split_lacks. by inversion Hl.
  - rewrite Join_cons2. change (String sep "" +:+ ?t) with (String sep t).
    inversion Hl; subst. rewrite Split_app by done. f_equal. by apply IH.
Qed.

(** Lines, each ended by the separator. *)
Fixpoint unlines (l : list string) (sep : ascii) : string :=
  match l with
  | [] => ""
  | x :: l' => x +:+ String sep (unlines l' sep)
  end.

Lemma unlines_app l k sep : unlines (l ++ k) sep = unlines l sep +:+ unlines k sep.
Proof.
  induction l as [|x l IH]; [done|]. cbn [app unlines]. rewrite IH.
  by rewrite string_app_assoc, string_cons_app.
Qed.

Lemma Split_unlines l sep : Forall (fun s => lacks sep s = true) l ->
  Split (unlines l sep) sep = l ++ [""].
Proof.
  induction 1 as [|x l Hx Hl IH]; [done|]. cbn [unlines app].
  rewrite Split_app by done. by rewrite IH.
Qed.

Lemma lacks_app sep s t : lacks sep (s +:+ t) = lacks sep s && lacks sep t.
Proof. apply str_forall_app. Qed.

Lemma lacks_Join sep d l : lacks sep d = true -> Forall (fun s => lacks sep s = true) l ->
  lacks sep (Join l d) = true.
Proof.
  intros Hd. induction l as [|x [|y l] IH]; intros Hl; [done| |].
  - by inversion Hl.
  - inversion Hl; subst. rewrite Join_cons2, !lacks_app. rewrite IH by done. by rewrite H1, Hd.
Qed.

#[export] Hint Rewrite elem_of_sort_strings TrimPrefix_app HasPrefix_app : scion.

(** Printable ASCII without the space: nothing [TrimSpace] would remove. *)
Definition plain_char (c : ascii) : bool := (33 <=? code c) && (code c <=? 126).

Lemma plain_not_space1 c : plain_char c = true -> is_space1 c = false.
Proof. unfold plain_char, is_space1. intros. lia. Qed.

Lemma plain_not_space2 c d : plain_char c = true -> is_space2 c d = false.
Proof. unfold plain_char, is_space2. intros. lia. Qed.

Lemma plain_not_space2' c d : plain_char d = true -> is_space2 c d = false.
Proof. unfold plain_char, is_space2. intros. lia. Qed.

Lemma plain_not_space3 c d e : plain_char c = true -> is_space3 c d e = false.
Proof. unfold plain_char, is_space3. intros. lia. Qed.

Lemma plain_not_space3' c d e : plain_char e = true -> is_space3 c d e = false.
Proof. unfold plain_char, is_space3. intros. lia. Qed.

Lemma trim_left_plain s : str_forall plain_char s = true -> trim_left s = s.
Proof.
  destruct s as [|c r]; [done|]. cbn [str_forall]. intros [Hc _]%andb_prop. cbn [trim_left].
  rewrite plain_not_space1 by done. destruct r as [|d r]; [done|].
  rewrite plain_not_space2 by done. destruct r as [|e r]; [done|].
  by rewrite plain_not_space3.
Qed.

Lemma trim_left_rev_plain s : str_forall plain_char s = true -> trim_left_rev s = s.
Proof.
  destruct s as [|c r]; [done|]. cbn [str_forall]. intros [Hc _]%andb_prop. cbn [trim_left_rev].
  rewrite plain_not_space1 by done. destruct r as [|d r]; [done|].
  rewrite plain_not_space2' by done. destruct r as [|e r]; [done|].
  by rewrite plain_not_space3'.
Qed.

Lemma rev_app_app s t : String.rev_app s t = String.rev s +:+ t.
Proof.
  unfold String.rev. revert t. induction s as [|c s IH]; intros t; [done|]. cbn.
  rewrite IH, (IH (String c "")), string_app_assoc. done.
Qed.

Lemma rev_cons c s : String.rev (String c s) = String.rev s +:+ String c "".
Proof. unfold String.rev at 1. cbn. apply rev_app_app. Qed.

Lemma rev_snoc s c : String.rev (s +:+ String c "") = String c (String.rev s).
Proof.
  induction s as [|d s IH]; [done|].
  rewrite string_cons_app, rev_cons, IH, rev_cons. done.
Qed.

Lemma rev_rev s : String.rev (String.rev s) = s.
Proof. induction s as [|c s IH]; [done|]. by rewrite rev_cons, rev_snoc, IH. Qed.

Lemma str_forall_rev f s : str_forall f (String.rev s) = str_forall f s.
Proof.
  induction s as [|c s IH]; [done|]. rewrite rev_cons, str_forall_app, IH. cbn.
  by rewrite andb_true_r, andb_comm.
Qed.

Lemma TrimSpace_plain s : str_forall plain_char s = true -> TrimSpace s = s.
Proof.
  intros H. unfold TrimSpace. rewrite trim_left_plain by done.
  rewrite trim_left_rev_plain by (by rewrite str_forall_rev). apply rev_rev.
Qed.

Lemma cut_first_Some n s a b : cut_first n s = Some (a, b) ->
  exists c, byte_is n c = true /\ s = a +:+ String c b.
Proof.
  revert a. induction s as [|c s IH]; intros a; cbn; [done|].
  destruct (byte_is n c) eqn:E; [intros [= <- <-]; by exists c|].
  destruct (cut_first n s) as [[a' b']|]; [|done]. intros [= <- ->].
  destruct (IH a' eq_refl) as (c' & Hc & ->). by exists c'.
Qed.

(** ** A name without a slash is its own base *)
Lemma cut_last_lacks s : lacks "/" s = true -> cut_last 47 s = None.
Proof.
  induction s as [|c s IH]; [done|]. unfold lacks. cbn.
  intros [Hc Hr]%andb_prop. rewrite (IH Hr).
  apply negb_true_iff, bool_decide_eq_false in Hc.
  destruct (byte_is 47 c) eqn:E; [|done]. exfalso. apply Hc. unfold byte_is, code in E.
  apply Z.eqb_eq in E. rewrite <- (ascii_N_embedding c). by replace (N_of_ascii c) with 47%N by lia.
Qed.

Lemma BasePath_plain s : s <> "" -> lacks "/" s = true -> BasePath s = s.
Proof.
  intros Hne Hs. unfold BasePath. rewrite bool_decide_eq_false_2 by done.
  assert (Ht : TrimRightByte 47 s = s).
  { unfold TrimRightByte. rewrite <- (rev_rev s) at 2. f_equal.
    assert (Hr : lacks "/" (String.rev s) = true) by (unfold lacks in *; by rewrite str_forall_rev).
    apply cut_last_lacks in Hr. destruct (String.rev s) as [|c r]; [done|]. cbn in *.
    destruct (byte_is 47 c); [|done]. by destruct (cut_last 47 r) as [[]|]. }
  rewrite Ht. unfold SplitPath. rewrite cut_last_lacks by done. cbn.
  by rewrite bool_decide_eq_false_2.
Qed.

(** ** Paths

    The last element of a joined path, when it is a plain name. *)
Lemma Split_slash_last p n : lacks "/" n = true -> Split (p +:+ String "/" n) "/" = Split p "/" ++ [n].
Proof.
  intros Hn. induction p as [|c p IH].
  - change (Split (String "/" n) "/" = [""] ++ [n]). cbn [Split].
    by rewrite bool_decide_eq_true_2, Split_lacks.
  - rewrite string_cons_app. cbn [Split]. rewrite IH. destruct (bool_decide (c = "/"%char)); [done|].
    destruct (Split p "/") eqn:Es; [by apply Split_ne in Es | done].
Qed.

Lemma clean_parts_last rooted stack l n : n <> "" -> n <> "." -> n <> ".." ->
  clean_parts rooted stack (l ++ [n]) = clean_parts rooted stack l ++ [n].
Proof.
  intros H1 H2 H3. revert stack. induction l as [|p l IH]; intros stack; cbn [app clean_parts].
  - by rewrite !bool_decide_eq_false_2 by done.
  - repeat case_match; apply IH.
Qed.

Definition plain_name (n : string) : Prop := n <> "" /\ n <> "." /\ n <> ".." /\ lacks "/" n = true.

Lemma Join_snoc l n : exists p, Join (l ++ [n]) "/" = p +:+ n /\ (l <> [] -> p = Join l "/" +:+ "/").
Proof.
  induction l as [|x l IH].
  - exists "". done.
  - destruct IH as (p & IH & Hp). destruct l as [|y l].
    + exists (x +:+ "/"). split; [|done]. change (Join ([x] ++ [n]) "/") with (x +:+ "/" +:+ n). by rewrite string_app_assoc.
    + exists (x +:+ "/" +:+ p). cbn [app] in *. rewrite !Join_cons2, IH.
      split; [by rewrite !string_app_assoc|]. intros _. rewrite (Hp ltac:(done)).
      by rewrite !string_app_assoc.
Qed.

Lemma JoinPath_ends elems n : plain_name n -> exists p, JoinPath (elems ++ [n]) = p +:+ n.
Proof.
  intros (H1 & H2 & H3 & Hn). unfold JoinPath. rewrite filter_app, (filter_cons_True _ n) by done.
  change (filter _ []) with (@nil string). set (l := filter _ elems).
  rewrite bool_decide_eq_false_2 by (by intros [_ ?]%app_nil). unfold Clean.
  destruct (Join_snoc l n) as (p & Hj & Hp). rewrite Hj.
  assert (Hs : exists ps, Split (p +:+ n) "/" = ps ++ [n]).
  { destruct l as [|x l]; [exists []; rewrite <- Hj; by apply Split_lacks|].
    rewrite (Hp ltac:(done)), string_app_assoc. change ("/" +:+ n) with (String "/" n). rewrite Split_slash_last by done. by eexists. }
  destruct Hs as [ps ->]. rewrite clean_parts_last by done.
  set (rooted := HasPrefix _ _). destruct (Join_snoc (clean_parts rooted [] ps) n) as (q & -> & _).
  destruct rooted; [exists ("/" +:+ q); by rewrite string_app_assoc|].
  rewrite bool_decide_eq_false_2; [by exists q|]. destruct q; cbn; [done | discriminate].
Qed.

Lemma rev_app s t : String.rev (s +:+ t) = String.rev t +:+ String.rev s.
Proof.
  induction s as [|c s IH]; [by rewrite string_app_nil_r|].
  by rewrite string_cons_app, !rev_cons, IH, string_app_assoc.
Qed.

Lemma lacks_itoa z : lacks "/" (itoa z) = true.
Proof.
  assert (Hgo : forall x s, lacks "/" s = true -> lacks "/" (pretty_N_go x s) = true).
  { intros x. induction (N.lt_wf_0 x) as [x _ IH]. intros s Hs.
    destruct (decide (0 < x)%N) as [Hx|Hx].
    - rewrite pretty_N_go_step by done. apply IH; [by apply N.div_lt|]. unfold lacks in *. cbn [str_forall]. rewrite Hs.
      unfold pretty_N_char. by repeat case_match.
    - replace x with 0%N by lia. by rewrite pretty_N_go_0. }
  assert (Hn : forall x : N, lacks "/" (pretty x) = true).
  { intros x. unfold pretty, pretty_N. case_decide; [done | by apply Hgo]. }
  unfold itoa, pretty, pretty_Z. destruct z; [done | apply Hn |]. apply Hn.
Qed.
