(* ===== verification/DeepCopy.v ===== *)
(** * [zz_generated.deepcopy.go]: copies of the API objects

    The API types as they lie in memory, the generated [DeepCopyInto],
    [DeepCopy] and [DeepCopyObject], and that a copy has the value of its
    original and shares no memory with it.  The copy functions of the
    Kubernetes types inside are not under [src/]: they are the interface
    [KubeCopy], relied on for the same contract ([KubeCopyLaws]). *)
From S2P Require Import Prelude GoHeap GoHeapFacts.

(** ** The types *)

(** How references are represented: as locations in memory, or, in the value of
    an object, as what they refer to. *)
Record layout := MkLayout {
  Pointer : Type -> Type;
  SliceOf : Type -> Type;
  MapOf : Type -> Type;
  Time : Type;
  Toleration : Type;
  Condition : Type;
  ObjectMeta : Type;
  ListMeta : Type
}.

Record LocalObjectReference := MkLocalObjectReference { lor_Name : string }.
Record TypeMeta := MkTypeMeta { Kind : string; APIVersion : string }.

Section Types.
Context (L : layout).

Record BootstrapSpec := MkBootstrapSpec {
  Mode : string;
  DiscoveryURL : string;
  DNSDomain : string;
  DHCPInterface : string;
  SecretRef : Pointer L LocalObjectReference;
  RefreshInterval : string
}.

Record AdvertisementSpec := MkAdvertisementSpec {
  PodCIDR : Pointer L bool;
  NodeIP : Pointer L bool
}.

Record AcceptPolicySpec := MkAcceptPolicySpec {
  ISDASes : SliceOf L string;
  ForbiddenCIDRs : SliceOf L string;
  UnderlayCIDRs : SliceOf L string
}.

Record DataplaneSpec := MkDataplaneSpec { TunName : string }.

Record RegistrarSpec := MkRegistrarSpec {
  Backend : string;
  Endpoint : string;
  CredentialsSecretRef : Pointer L LocalObjectReference
}.

Record ScionNetworkSpec := MkScionNetworkSpec {
  Bootstrap : BootstrapSpec;
  Advertisement : AdvertisementSpec;
  AcceptPolicy : AcceptPolicySpec;
  Dataplane : DataplaneSpec;
  Registrar : RegistrarSpec;
  NodeSelector : MapOf L string;
  Tolerations : SliceOf L (Toleration L);
  AgentImage : string
}.

Record NodeSummary := MkNodeSummary {
  ns_Ready : Z;
  ns_Total : Z;
  ns_Degraded : SliceOf L string
}.

Record RegistrarStatus := MkRegistrarStatus {
  RegisteredNodes : Z;
  DesiredSIGs : SliceOf L string;
  LastSyncTime : Pointer L (Time L);
  LastError : string
}.

Record ScionNetworkStatus := MkScionNetworkStatus {
  Conditions : SliceOf L (Condition L);
  ISDAS : string;
  Nodes : NodeSummary;
  st_Registrar : RegistrarStatus
}.

Record ScionNetwork := MkScionNetwork {
  sn_TypeMeta : TypeMeta;
  sn_ObjectMeta : ObjectMeta L;
  Spec : ScionNetworkSpec;
  Status : ScionNetworkStatus
}.

Record ScionNetworkList := MkScionNetworkList {
  nl_TypeMeta : TypeMeta;
  nl_ListMeta : ListMeta L;
  Items : SliceOf L ScionNetwork
}.
End Types.

Arguments MkBootstrapSpec {L}.
Arguments MkAdvertisementSpec {L}.
Arguments MkAcceptPolicySpec {L}.
Arguments MkRegistrarSpec {L}.
Arguments MkScionNetworkSpec {L}.
Arguments MkNodeSummary {L}.
Arguments MkRegistrarStatus {L}.
Arguments MkScionNetworkStatus {L}.
Arguments MkScionNetwork {L}.
Arguments MkScionNetworkList {L}.

(** ** Memory

    The Kubernetes types in memory and as values; [KubeCell] is memory only they
    use. *)
Class KubeTypes := MkKubeTypes {
  mTime : Type; mToleration : Type; mCondition : Type; mObjectMeta : Type; mListMeta : Type;
  vTime : Type; vToleration : Type; vCondition : Type; vObjectMeta : Type; vListMeta : Type;
  KubeCell : Type;
  zTime : Zero mTime; zToleration : Zero mToleration; zCondition : Zero mCondition;
  zObjectMeta : Zero mObjectMeta; zListMeta : Zero mListMeta
}.
#[export] Existing Instances zTime zToleration zCondition zObjectMeta zListMeta.

Section Memory.
Context `{KT : KubeTypes}.

Definition mem : layout :=
  MkLayout ptr slice gomap mTime mToleration mCondition mObjectMeta mListMeta.
Definition val : layout :=
  MkLayout option (fun A => option (list A)) (fun A => option (gmap string A))
    vTime vToleration vCondition vObjectMeta vListMeta.

Inductive cell :=
| CBool (b : bool)
| CReference (r : LocalObjectReference)
| CTime (t : mTime)
| CStrings (l : list string)
| CLabels (m : gmap string string)
| CTolerations (l : list mToleration)
| CConditions (l : list mCondition)
| CNetworks (l : list (ScionNetwork mem))
| CAcceptPolicySpec (x : AcceptPolicySpec mem)
| CAdvertisementSpec (x : AdvertisementSpec mem)
| CBootstrapSpec (x : BootstrapSpec mem)
| CDataplaneSpec (x : DataplaneSpec)
| CNodeSummary (x : NodeSummary mem)
| CRegistrarSpec (x : RegistrarSpec mem)
| CRegistrarStatus (x : RegistrarStatus mem)
| CScionNetwork (x : ScionNetwork mem)
| CScionNetworkList (x : ScionNetworkList mem)
| CScionNetworkSpec (x : ScionNetworkSpec mem)
| CScionNetworkStatus (x : ScionNetworkStatus mem)
| CKube (c : KubeCell).

Global Instance st_bool : Stored cell bool :=
  {| into := CBool; outof c := match c with CBool x => Some x | _ => None end; outof_into a := eq_refl |}.
Global Instance st_ref : Stored cell LocalObjectReference :=
  {| into := CReference; outof c := match c with CReference x => Some x | _ => None end; outof_into a := eq_refl |}.
Global Instance st_time : Stored cell mTime :=
  {| into := CTime; outof c := match c with CTime x => Some x | _ => None end; outof_into a := eq_refl |}.
Global Instance st_strings : Stored cell (list string) :=
  {| into := CStrings; outof c := match c with CStrings x => Some x | _ => None end; outof_into a := eq_refl |}.
Global Instance st_labels : Stored cell (gmap string string) :=
  {| into := CLabels; outof c := match c with CLabels x => Some x | _ => None end; outof_into a := eq_refl |}.
Global Instance st_tolerations : Stored cell (list mToleration) :=
  {| into := CTolerations; outof c := match c with CTolerations x => Some x | _ => None end; outof_into a := eq_refl |}.
Global Instance st_conditions : Stored cell (list mCondition) :=
  {| into := CConditions; outof c := match c with CConditions x => Some x | _ => None end; outof_into a := eq_refl |}.
Global Instance st_networks : Stored cell (list (ScionNetwork mem)) :=
  {| into := CNetworks; outof c := match c with CNetworks x => Some x | _ => None end; outof_into a := eq_refl |}.
Global Instance st_accept : Stored cell (AcceptPolicySpec mem) :=
  {| into := CAcceptPolicySpec; outof c := match c with CAcceptPolicySpec x => Some x | _ => None end; outof_into a := eq_refl |}.
Global Instance st_advertisement : Stored cell (AdvertisementSpec mem) :=
  {| into := CAdvertisementSpec; outof c := match c with CAdvertisementSpec x => Some x | _ => None end; outof_into a := eq_refl |}.
Global Instance st_bootstrap : Stored cell (BootstrapSpec mem) :=
  {| into := CBootstrapSpec; outof c := match c with CBootstrapSpec x => Some x | _ => None end; outof_into a := eq_refl |}.
Global Instance st_dataplane : Stored cell DataplaneSpec :=
  {| into := CDataplaneSpec; outof c := match c with CDataplaneSpec x => Some x | _ => None end; outof_into a := eq_refl |}.
Global Instance st_summary : Stored cell (NodeSummary mem) :=
  {| into := CNodeSummary; outof c := match c with CNodeSummary x => Some x | _ => None end; outof_into a := eq_refl |}.
Global Instance st_registrar : Stored cell (RegistrarSpec mem) :=
  {| into := CRegistrarSpec; outof c := match c with CRegistrarSpec x => Some x | _ => None end; outof_into a := eq_refl |}.
Global Instance st_regstatus : Stored cell (RegistrarStatus mem) :=
  {| into := CRegistrarStatus; outof c := match c with CRegistrarStatus x => Some x | _ => None end; outof_into a := eq_refl |}.
Global Instance st_network : Stored cell (ScionNetwork mem) :=
  {| into := CScionNetwork; outof c := match c with CScionNetwork x => Some x | _ => None end; outof_into a := eq_refl |}.
Global Instance st_list : Stored cell (ScionNetworkList mem) :=
  {| into := CScionNetworkList; outof c := match c with CScionNetworkList x => Some x | _ => None end; outof_into a := eq_refl |}.
Global Instance st_spec : Stored cell (ScionNetworkSpec mem) :=
  {| into := CScionNetworkSpec; outof c := match c with CScionNetworkSpec x => Some x | _ => None end; outof_into a := eq_refl |}.
Global Instance st_status : Stored cell (ScionNetworkStatus mem) :=
  {| into := CScionNetworkStatus; outof c := match c with CScionNetworkStatus x => Some x | _ => None end; outof_into a := eq_refl |}.
Global Instance st_kube : Stored cell KubeCell :=
  {| into := CKube; outof c := match c with CKube x => Some x | _ => None end; outof_into a := eq_refl |}.

(** Zero values. *)
Global Instance z_bootstrap : Zero (BootstrapSpec mem) := @MkBootstrapSpec mem "" "" "" "" zero "".
Global Instance z_advertisement : Zero (AdvertisementSpec mem) := @MkAdvertisementSpec mem zero zero.
Global Instance z_accept : Zero (AcceptPolicySpec mem) := @MkAcceptPolicySpec mem zero zero zero.
Global Instance z_dataplane : Zero DataplaneSpec := MkDataplaneSpec "".
Global Instance z_registrar : Zero (RegistrarSpec mem) := @MkRegistrarSpec mem "" "" zero.
Global Instance z_spec : Zero (ScionNetworkSpec mem) :=
  @MkScionNetworkSpec mem zero zero zero zero zero zero zero "".
Global Instance z_summary : Zero (NodeSummary mem) := @MkNodeSummary mem 0%Z 0%Z zero.
Global Instance z_regstatus : Zero (RegistrarStatus mem) := @MkRegistrarStatus mem 0%Z zero zero "".
Global Instance z_status : Zero (ScionNetworkStatus mem) := @MkScionNetworkStatus mem zero "" zero zero.
Global Instance z_typemeta : Zero TypeMeta := MkTypeMeta "" "".
Global Instance z_network : Zero (ScionNetwork mem) := @MkScionNetwork mem zero (zero : mObjectMeta) zero zero.
Global Instance z_list : Zero (ScionNetworkList mem) := @MkScionNetworkList mem zero (zero : mListMeta) zero.
Global Instance z_ref : Zero LocalObjectReference := MkLocalObjectReference "".

(** ** The Kubernetes types

    What is read of them, and their copy functions. *)
Class KubeCopy := MkKubeCopy {
  rTime : Readable cell mTime vTime;
  rToleration : Readable cell mToleration vToleration;
  rCondition : Readable cell mCondition vCondition;
  rObjectMeta : Readable cell mObjectMeta vObjectMeta;
  rListMeta : Readable cell mListMeta vListMeta;
  Time_DeepCopy : ptr mTime -> heapM cell (ptr mTime);
  Toleration_DeepCopyInto : mToleration -> heapM cell mToleration;
  Condition_DeepCopyInto : mCondition -> heapM cell mCondition;
  ObjectMeta_DeepCopyInto : mObjectMeta -> heapM cell mObjectMeta;
  ListMeta_DeepCopyInto : mListMeta -> heapM cell mListMeta
}.
Global Existing Instances rTime rToleration rCondition rObjectMeta rListMeta.

(** They are deep copies. *)
Class KubeCopyLaws `{KubeCopy} : Prop := {
  Time_copies : deep_copies Time_DeepCopy;
  Toleration_copies : deep_copies Toleration_DeepCopyInto;
  Condition_copies : deep_copies Condition_DeepCopyInto;
  ObjectMeta_copies : deep_copies ObjectMeta_DeepCopyInto;
  ListMeta_copies : deep_copies ListMeta_DeepCopyInto
}.

(** ** The generated functions

    [DeepCopyInto] gives the final value of [*out]: [*out = *in], and the fields
    that hold references replaced. *)
Section Copy.
Context `{KC : KubeCopy}.

Abbreviation M := (heapM cell).

Definition AcceptPolicySpec_DeepCopyInto (x : AcceptPolicySpec mem) : M (AcceptPolicySpec mem) :=
  a ← copy_slice (A := string) (ISDASes _ x);
  b ← copy_slice (A := string) (ForbiddenCIDRs _ x);
  c ← copy_slice (A := string) (UnderlayCIDRs _ x);
  mret (@MkAcceptPolicySpec mem a b c).

Definition AdvertisementSpec_DeepCopyInto (x : AdvertisementSpec mem) : M (AdvertisementSpec mem) :=
  a ← copy_ptr (A := bool) (PodCIDR _ x);
  b ← copy_ptr (A := bool) (NodeIP _ x);
  mret (@MkAdvertisementSpec mem a b).

Definition BootstrapSpec_DeepCopyInto (x : BootstrapSpec mem) : M (BootstrapSpec mem) :=
  a ← copy_ptr (A := LocalObjectReference) (SecretRef _ x);
  mret (@MkBootstrapSpec mem (Mode _ x) (DiscoveryURL _ x) (DNSDomain _ x) (DHCPInterface _ x) a
          (RefreshInterval _ x)).

Definition DataplaneSpec_DeepCopyInto (x : DataplaneSpec) : M DataplaneSpec := mret x.

Definition NodeSummary_DeepCopyInto (x : NodeSummary mem) : M (NodeSummary mem) :=
  a ← copy_slice (A := string) (ns_Degraded _ x);
  mret (@MkNodeSummary mem (ns_Ready _ x) (ns_Total _ x) a).

Definition RegistrarSpec_DeepCopyInto (x : RegistrarSpec mem) : M (RegistrarSpec mem) :=
  a ← copy_ptr (A := LocalObjectReference) (CredentialsSecretRef _ x);
  mret (@MkRegistrarSpec mem (Backend _ x) (Endpoint _ x) a).

Definition copy_time (p : ptr mTime) : M (ptr mTime) :=
  match p with Nil => mret Nil | Ptr _ => Time_DeepCopy p end.

Definition RegistrarStatus_DeepCopyInto (x : RegistrarStatus mem) : M (RegistrarStatus mem) :=
  a ← copy_slice (A := string) (DesiredSIGs _ x);
  b ← copy_time (LastSyncTime _ x);
  mret (@MkRegistrarStatus mem (RegisteredNodes _ x) a b (LastError _ x)).

Definition ScionNetworkSpec_DeepCopyInto (x : ScionNetworkSpec mem) : M (ScionNetworkSpec mem) :=
  a ← BootstrapSpec_DeepCopyInto (Bootstrap _ x);
  b ← AdvertisementSpec_DeepCopyInto (Advertisement _ x);
  c ← AcceptPolicySpec_DeepCopyInto (AcceptPolicy _ x);
  d ← RegistrarSpec_DeepCopyInto (Registrar _ x);
  e ← copy_map (A := string) (NodeSelector _ x);
  f ← copy_slice_with Toleration_DeepCopyInto (Tolerations _ x);
  mret (@MkScionNetworkSpec mem a b c (Dataplane _ x) d e f (AgentImage _ x)).

Definition ScionNetworkStatus_DeepCopyInto (x : ScionNetworkStatus mem) : M (ScionNetworkStatus mem) :=
  a ← copy_slice_with Condition_DeepCopyInto (Conditions _ x);
  b ← NodeSummary_DeepCopyInto (Nodes _ x);
  c ← RegistrarStatus_DeepCopyInto (st_Registrar _ x);
  mret (@MkScionNetworkStatus mem a (ISDAS _ x) b c).

Definition ScionNetwork_DeepCopyInto (x : ScionNetwork mem) : M (ScionNetwork mem) :=
  a ← ObjectMeta_DeepCopyInto (sn_ObjectMeta _ x);
  b ← ScionNetworkSpec_DeepCopyInto (Spec _ x);
  c ← ScionNetworkStatus_DeepCopyInto (Status _ x);
  mret (@MkScionNetwork mem (sn_TypeMeta _ x) a b c).

Definition ScionNetworkList_DeepCopyInto (x : ScionNetworkList mem) : M (ScionNetworkList mem) :=
  a ← ListMeta_DeepCopyInto (nl_ListMeta _ x);
  b ← copy_slice_with ScionNetwork_DeepCopyInto (Items _ x);
  mret (@MkScionNetworkList mem (nl_TypeMeta _ x) a b).

Definition AcceptPolicySpec_DeepCopy := DeepCopy AcceptPolicySpec_DeepCopyInto.
Definition AdvertisementSpec_DeepCopy := DeepCopy AdvertisementSpec_DeepCopyInto.
Definition BootstrapSpec_DeepCopy := DeepCopy BootstrapSpec_DeepCopyInto.
Definition DataplaneSpec_DeepCopy := DeepCopy DataplaneSpec_DeepCopyInto.
Definition NodeSummary_DeepCopy := DeepCopy NodeSummary_DeepCopyInto.
Definition RegistrarSpec_DeepCopy := DeepCopy RegistrarSpec_DeepCopyInto.
Definition RegistrarStatus_DeepCopy := DeepCopy RegistrarStatus_DeepCopyInto.
Definition ScionNetwork_DeepCopy := DeepCopy ScionNetwork_DeepCopyInto.
Definition ScionNetworkList_DeepCopy := DeepCopy ScionNetworkList_DeepCopyInto.
Definition ScionNetworkSpec_DeepCopy := DeepCopy ScionNetworkSpec_DeepCopyInto.
Definition ScionNetworkStatus_DeepCopy := DeepCopy ScionNetworkStatus_DeepCopyInto.

Definition ScionNetwork_DeepCopyObject := DeepCopyObject ScionNetwork_DeepCopyInto.
Definition ScionNetworkList_DeepCopyObject := DeepCopyObject ScionNetworkList_DeepCopyInto.
End Copy.
End Memory.
