(* ===== verification/DeepCopyProps.v ===== *)
(** * Properties of the generated copy functions

    What the API objects stand for in memory, the contract of every generated
    function, and the independence of a copy from its original. *)
From S2P Require Import Prelude GoHeap GoHeapFacts DeepCopy.

(** Obligations of a struct: field by field. *)
Local Ltac frame_fields :=
  intros h h' x Hf; cbv beta in *;
  repeat match goal with
  | |- context [@read _ ?T ?V ?R h' ?a] =>
      let E1 := fresh in let E2 := fresh in
      destruct (@read_frame _ T V R h h' a) as [E1 E2]; [intros; apply Hf; first [assumption | set_solver]|]; rewrite E1; clear E1
  end; (split; [done|]); repeat first [assumption | apply (f_equal2 (∪))].

Local Ltac dom_fields :=
  intros h x v Hr; cbv beta in *;
  repeat match type of Hr with
  | mbind _ _ = Some _ =>
      let w := fresh "w" in let E := fresh in
      apply bind_Some in Hr as (w & E & Hr); apply read_dom in E
  end; first [assumption | set_solver].

Local Obligation Tactic := first [frame_fields | dom_fields].

Section Props.
Context `{KT : KubeTypes} `{!KubeCopy}.

Abbreviation heap := (gmap loc cell).

(** ** The values of the objects *)

Global Instance r_ref : Readable cell LocalObjectReference LocalObjectReference := Flat _.
Global Instance r_dataplane : Readable cell DataplaneSpec DataplaneSpec := Flat _.

Global Program Instance r_accept : Readable cell (AcceptPolicySpec mem) (AcceptPolicySpec val) := {|
  read h x :=
    a ← read h (ISDASes _ x : slice string);
    b ← read h (ForbiddenCIDRs _ x : slice string);
    c ← read h (UnderlayCIDRs _ x : slice string);
    Some (@MkAcceptPolicySpec val a b c);
  foot h x := foot h (ISDASes _ x : slice string) ∪ foot h (ForbiddenCIDRs _ x : slice string)
              ∪ foot h (UnderlayCIDRs _ x : slice string)
|}.

Global Program Instance r_advertisement : Readable cell (AdvertisementSpec mem) (AdvertisementSpec val) := {|
  read h x :=
    a ← read h (PodCIDR _ x : ptr bool);
    b ← read h (NodeIP _ x : ptr bool);
    Some (@MkAdvertisementSpec val a b);
  foot h x := foot h (PodCIDR _ x : ptr bool) ∪ foot h (NodeIP _ x : ptr bool)
|}.

Global Program Instance r_bootstrap : Readable cell (BootstrapSpec mem) (BootstrapSpec val) := {|
  read h x :=
    a ← read h (SecretRef _ x : ptr LocalObjectReference);
    Some (@MkBootstrapSpec val (Mode _ x) (DiscoveryURL _ x) (DNSDomain _ x) (DHCPInterface _ x) a
            (RefreshInterval _ x));
  foot h x := foot h (SecretRef _ x : ptr LocalObjectReference)
|}.

Global Program Instance r_registrar : Readable cell (RegistrarSpec mem) (RegistrarSpec val) := {|
  read h x :=
    a ← read h (CredentialsSecretRef _ x : ptr LocalObjectReference);
    Some (@MkRegistrarSpec val (Backend _ x) (Endpoint _ x) a);
  foot h x := foot h (CredentialsSecretRef _ x : ptr LocalObjectReference)
|}.

Global Program Instance r_spec : Readable cell (ScionNetworkSpec mem) (ScionNetworkSpec val) := {|
  read h x :=
    a ← read h (Bootstrap _ x);
    b ← read h (Advertisement _ x);
    c ← read h (AcceptPolicy _ x);
    d ← read h (Registrar _ x);
    e ← read h (NodeSelector _ x : gomap string);
    f ← read h (Tolerations _ x : slice mToleration);
    Some (@MkScionNetworkSpec val a b c (Dataplane _ x) d e f (AgentImage _ x));
  foot h x := foot h (Bootstrap _ x) ∪ foot h (Advertisement _ x) ∪ foot h (AcceptPolicy _ x)
              ∪ foot h (Registrar _ x) ∪ foot h (NodeSelector _ x : gomap string)
              ∪ foot h (Tolerations _ x : slice mToleration)
|}.

Global Program Instance r_summary : Readable cell (NodeSummary mem) (NodeSummary val) := {|
  read h x :=
    a ← read h (ns_Degraded _ x : slice string);
    Some (@MkNodeSummary val (ns_Ready _ x) (ns_Total _ x) a);
  foot h x := foot h (ns_Degraded _ x : slice string)
|}.

Global Program Instance r_regstatus : Readable cell (RegistrarStatus mem) (RegistrarStatus val) := {|
  read h x :=
    a ← read h (DesiredSIGs _ x : slice string);
    b ← read h (LastSyncTime _ x : ptr mTime);
    Some (@MkRegistrarStatus val (RegisteredNodes _ x) a b (LastError _ x));
  foot h x := foot h (DesiredSIGs _ x : slice string) ∪ foot h (LastSyncTime _ x : ptr mTime)
|}.

Global Program Instance r_status : Readable cell (ScionNetworkStatus mem) (ScionNetworkStatus val) := {|
  read h x :=
    a ← read h (Conditions _ x : slice mCondition);
    b ← read h (Nodes _ x);
    c ← read h (st_Registrar _ x);
    Some (@MkScionNetworkStatus val a (ISDAS _ x) b c);
  foot h x := foot h (Conditions _ x : slice mCondition) ∪ foot h (Nodes _ x) ∪ foot h (st_Registrar _ x)
|}.

Global Program Instance r_network : Readable cell (ScionNetwork mem) (ScionNetwork val) := {|
  read h x :=
    a ← read h (sn_ObjectMeta _ x : mObjectMeta);
    b ← read h (Spec _ x);
    c ← read h (Status _ x);
    Some (@MkScionNetwork val (sn_TypeMeta _ x) a b c);
  foot h x := foot h (sn_ObjectMeta _ x : mObjectMeta) ∪ foot h (Spec _ x) ∪ foot h (Status _ x)
|}.

Global Program Instance r_list : Readable cell (ScionNetworkList mem) (ScionNetworkList val) := {|
  read h x :=
    a ← read h (nl_ListMeta _ x : mListMeta);
    b ← read h (Items _ x : slice (ScionNetwork mem));
    Some (@MkScionNetworkList val (nl_TypeMeta _ x) a b);
  foot h x := foot h (nl_ListMeta _ x : mListMeta) ∪ foot h (Items _ x : slice (ScionNetwork mem))
|}.

(** ** The contracts *)
Context `{!KubeCopyLaws}.

Lemma copy_string_slice : deep_copies (copy_slice (cell := cell) (A := string)).
Proof. by apply copy_slice_copies. Qed.

Lemma copy_bool : deep_copies (copy_ptr (cell := cell) (A := bool)).
Proof. by apply copy_ptr_copies. Qed.

Lemma copy_reference : deep_copies (copy_ptr (cell := cell) (A := LocalObjectReference)).
Proof. by apply copy_ptr_copies. Qed.

Lemma copy_time_copies : deep_copies copy_time.
Proof.
  intros h [|l] v Hr; [|by apply Time_copies]. injection Hr as <-.
  exists Nil, h. split; [done|]. split; [done | done | set_solver].
Qed.

Local Create HintDb copies.
Local Hint Resolve copy_string_slice copy_bool copy_reference copy_time_copies copy_map_copies : copies.
Local Hint Resolve copy_slice_with_copies Toleration_copies Condition_copies ObjectMeta_copies ListMeta_copies : copies.

(** The later heap extends the earlier one. *)
Local Ltac extends := repeat first [reflexivity | assumption | etrans; [eassumption|]].

Lemma bind_Some_intro {A B} (m : option A) (f : A -> option B) a r : m = Some a -> f a = r -> m ≫= f = r.
Proof. by intros ->. Qed.

Local Tactic Notation "copy_fields" reference(f) reference(r) :=
  apply deep_copies_yields; intros h x v Hr; unfold f; cbn [read r] in Hr;
  repeat (let w := fresh "w" in let E := fresh in apply bind_Some in Hr as (w & E & Hr)); injection Hr as <-;
  repeat (eapply yields_copy; [solve [eauto with copies] | | eassumption | intros ?????]; [extends|]);
  match goal with |- yields _ ?hn _ =>
    repeat match goal with
    | Hc : forall h2, _ ⊆ h2 -> copied _ _ _ h2 |- _ => specialize (Hc hn ltac:(extends)); destruct Hc
    end;
    eexists _, hn; split; [reflexivity|]; split; [extends | |]
  end;
  cbn [read foot r];
  [ repeat (eapply bind_Some_intro; [eassumption|]); reflexivity
  | rewrite ?disjoint_union_l; repeat split; assumption ].

Lemma AcceptPolicySpec_copies : deep_copies AcceptPolicySpec_DeepCopyInto.
Proof. copy_fields AcceptPolicySpec_DeepCopyInto r_accept. Qed.
Local Hint Resolve AcceptPolicySpec_copies : copies.

Lemma AdvertisementSpec_copies : deep_copies AdvertisementSpec_DeepCopyInto.
Proof. copy_fields AdvertisementSpec_DeepCopyInto r_advertisement. Qed.
Local Hint Resolve AdvertisementSpec_copies : copies.

Lemma BootstrapSpec_copies : deep_copies BootstrapSpec_DeepCopyInto.
Proof. copy_fields BootstrapSpec_DeepCopyInto r_bootstrap. Qed.
Local Hint Resolve BootstrapSpec_copies : copies.

Lemma NodeSummary_copies : deep_copies NodeSummary_DeepCopyInto.
Proof. copy_fields NodeSummary_DeepCopyInto r_summary. Qed.
Local Hint Resolve NodeSummary_copies : copies.

Lemma RegistrarSpec_copies : deep_copies RegistrarSpec_DeepCopyInto.
Proof. copy_fields RegistrarSpec_DeepCopyInto r_registrar. Qed.
Local Hint Resolve RegistrarSpec_copies : copies.

Lemma RegistrarStatus_copies : deep_copies RegistrarStatus_DeepCopyInto.
Proof. copy_fields RegistrarStatus_DeepCopyInto r_regstatus. Qed.
Local Hint Resolve RegistrarStatus_copies : copies.

Lemma ScionNetworkSpec_copies : deep_copies ScionNetworkSpec_DeepCopyInto.
Proof. copy_fields ScionNetworkSpec_DeepCopyInto r_spec. Qed.
Local Hint Resolve ScionNetworkSpec_copies : copies.

Lemma ScionNetworkStatus_copies : deep_copies ScionNetworkStatus_DeepCopyInto.
Proof. copy_fields ScionNetworkStatus_DeepCopyInto r_status. Qed.
Local Hint Resolve ScionNetworkStatus_copies : copies.

Lemma ScionNetwork_copies : deep_copies ScionNetwork_DeepCopyInto.
Proof. copy_fields ScionNetwork_DeepCopyInto r_network. Qed.
Local Hint Resolve ScionNetwork_copies : copies.

Lemma ScionNetworkList_copies : deep_copies ScionNetworkList_DeepCopyInto.
Proof. copy_fields ScionNetworkList_DeepCopyInto r_list. Qed.
Local Hint Resolve ScionNetworkList_copies : copies.

Lemma DataplaneSpec_copies : deep_copies DataplaneSpec_DeepCopyInto.
Proof. apply flat_copies. Qed.

(** ** Copies of the API objects *)

(** Every generated [DeepCopy] makes a deep copy. *)
Lemma all_DeepCopy :
  deep_copies AcceptPolicySpec_DeepCopy /\ deep_copies AdvertisementSpec_DeepCopy /\
  deep_copies BootstrapSpec_DeepCopy /\ deep_copies DataplaneSpec_DeepCopy /\
  deep_copies NodeSummary_DeepCopy /\ deep_copies RegistrarSpec_DeepCopy /\
  deep_copies RegistrarStatus_DeepCopy /\ deep_copies ScionNetwork_DeepCopy /\
  deep_copies ScionNetworkList_DeepCopy /\ deep_copies ScionNetworkSpec_DeepCopy /\
  deep_copies ScionNetworkStatus_DeepCopy.
Proof. split_and!; apply DeepCopy_copies; auto using DataplaneSpec_copies with copies. Qed.

(** C18: [DeepCopyObject] of a ScionNetwork and of a ScionNetworkList, which the
    client library calls on the objects of its shared cache, always returns; the
    copy has the value of the original, nil references and empty ones told
    apart; and the two share no memory: whatever is written later to memory that
    is not the original's is not seen in the original, and whatever is written
    to memory that existed before the copy is not seen in the copy. *)
Theorem objects_copied :
  independent_copy ScionNetwork_DeepCopyObject /\ independent_copy ScionNetworkList_DeepCopyObject.
Proof. split; apply DeepCopyObject_independent; auto with copies. Qed.
End Props.

(** ** A reference instance

    The Kubernetes types reduced to a field of each kind. *)
Record Seconds := MkSeconds { seconds : Z }.
Record RefToleration (P : Type -> Type) := MkRefToleration { rt_Key : string; rt_Seconds : P Seconds }.
Record RefMeta (M : Type -> Type) := MkRefMeta { rm_Name : string; rm_Labels : M string }.
Abbreviation labels := (fun A => option (gmap string A)).

#[local] Instance ref_types : KubeTypes :=
  MkKubeTypes Z (RefToleration ptr) string (RefMeta gomap) string
    Z (RefToleration option) string (RefMeta labels) string Seconds
    0%Z (MkRefToleration ptr "" Nil) "" (MkRefMeta gomap "" NilMap) "".

#[local] Instance zero_seconds : Zero Seconds := MkSeconds 0.
#[local] Instance store_seconds : Stored cell Seconds := st_kube.
#[local] Instance read_seconds : Readable cell Seconds Seconds := Flat Seconds.

#[local] Program Instance ref_toleration : Readable cell (RefToleration ptr) (RefToleration option) := {|
  read h x := a ← read h (rt_Seconds _ x); Some (MkRefToleration option (rt_Key _ x) a);
  foot h x := foot h (rt_Seconds _ x)
|}.

#[local] Program Instance ref_meta : Readable cell (RefMeta gomap) (RefMeta labels) := {|
  read h x := a ← read h (rm_Labels _ x); Some (MkRefMeta labels (rm_Name _ x) a);
  foot h x := foot h (rm_Labels _ x)
|}.

#[local] Instance ref_copy : KubeCopy := {|
  rTime := Flat Z; rToleration := ref_toleration; rCondition := Flat string;
  rObjectMeta := ref_meta; rListMeta := Flat string;
  Time_DeepCopy := copy_ptr (A := Z);
  Toleration_DeepCopyInto x := a ← copy_ptr (rt_Seconds _ x); mret (MkRefToleration ptr (rt_Key _ x) a);
  Condition_DeepCopyInto x := mret x;
  ObjectMeta_DeepCopyInto x := a ← copy_map (rm_Labels _ x); mret (MkRefMeta gomap (rm_Name _ x) a);
  ListMeta_DeepCopyInto x := mret x
|}.

Lemma copy_seconds : deep_copies (copy_ptr (cell := cell) (A := Seconds)).
Proof. by apply copy_ptr_copies. Qed.

#[local] Instance ref_copy_laws : KubeCopyLaws.
Proof.
  split; [by apply copy_ptr_copies | | apply flat_copies | | apply flat_copies].
  - apply deep_copies_yields. intros h x v (a & Ha & [= <-])%bind_Some.
    eapply yields_copy; [exact copy_seconds | done | exact Ha |]. intros y h1 Hs _ Hc.
    destruct (Hc h1 ltac:(done)) as [_ Hr Hn].
    eexists _, h1. split; [done|]. split; [done | by eapply bind_Some_intro; [exact Hr|] | done].
  - apply deep_copies_yields. intros h x v (a & Ha & [= <-])%bind_Some.
    eapply yields_copy; [exact copy_map_copies | done | exact Ha |]. intros y h1 Hs _ Hc.
    destruct (Hc h1 ltac:(done)) as [_ Hr Hn].
    eexists _, h1. split; [done|]. split; [done | by eapply bind_Some_intro; [exact Hr|] | done].
Qed.

(** The object of the source's own test, in memory. *)
Definition sample_network : ScionNetwork mem :=
  @MkScionNetwork mem zero (MkRefMeta gomap "cluster" NilMap)
    (@MkScionNetworkSpec mem
       (@MkBootstrapSpec mem "url" "https://bootstrap.example" "" "" Nil "1h")
       (@MkAdvertisementSpec mem (Ptr 2) (Ptr 2))
       (@MkAcceptPolicySpec mem (Slice 3 1 1 1) (Slice 4 0 1 1) NilSlice)
       zero zero (Map 5) NilSlice "")
    (@MkScionNetworkStatus mem NilSlice "1-ff00:0:111" (@MkNodeSummary mem 2 3 (Slice 4 0 0 1)) zero).

Definition sample_heap : gmap loc cell :=
  {[ 1%positive := CScionNetwork sample_network; 2%positive := CBool true;
     3%positive := CStrings ["1-ff00:0:109"; "1-ff00:0:110"]; 4%positive := CStrings ["10.0.0.0/8"];
     5%positive := CLabels {["role" := "edge"]} ]}.

Lemma objects_copied_witness : exists v l' h',
  read sample_heap (Ptr 1 : ptr (ScionNetwork mem)) = Some (Some v) /\
  ISDASes _ (AcceptPolicy _ (Spec _ v)) = Some ["1-ff00:0:110"] /\
  ScionNetwork_DeepCopyObject (Ptr 1) sample_heap = Val (Interface (Ptr l'), h') /\
  read (<[3%positive := CStrings ["changed"]]> h') (Ptr l' : ptr (ScionNetwork mem)) = Some (Some v).
Proof.
  destruct (read sample_heap (Ptr 1 : ptr (ScionNetwork mem))) as [[v|]|] eqn:E; [|discriminate E | discriminate E].
  destruct objects_copied as [[_ Hc] _]. destruct (Hc sample_heap 1%positive v E) as (l' & h' & Ec & _ & _ & Hi).
  exists v, l', h'. split; [done|]. split; [by injection E as <-|]. split; [done|].
  apply Hi. intros k Hk. apply lookup_insert_ne. intros <-. apply Hk. vm_compute. eexists; reflexivity.
Defined.
