(* ===== verification/Api.v ===== *)
(** * [api/v1alpha1]: the ScionNetwork resource

    The types of [scionnetwork_types.go], with the metadata fields the
    controller reads, and the validation the API server performs from the
    kubebuilder markers on them (enums, patterns, [MinItems], CEL rules). *)
From S2P Require Import Prelude GoStrings.
Local Open Scope Z_scope.

Record BootstrapSpec := MkBootstrapSpec {
  Mode : string;
  DiscoveryURL : string;
  DNSDomain : string;
  DHCPInterface : string;
  SecretRef : option string;
  RefreshInterval : string
}.

Record AdvertisementSpec := MkAdvertisementSpec {
  PodCIDR : option bool;
  NodeIP : option bool
}.

Record AcceptPolicySpec := MkAcceptPolicySpec {
  ISDASes : list string;
  ForbiddenCIDRs : list string;
  UnderlayCIDRs : list string
}.

Record DataplaneSpec := MkDataplaneSpec { TunName : string }.

Record RegistrarSpec := MkRegistrarSpec {
  Backend : string;
  Endpoint : string;
  CredentialsSecretRef : option string
}.

(** [corev1.Toleration]. *)
Record Toleration := MkToleration {
  tol_key : string;
  tol_operator : string;
  tol_value : string;
  tol_effect : string;
  tol_seconds : option Z
}.

Record ScionNetworkSpec := MkSpec {
  Bootstrap : BootstrapSpec;
  Advertisement : AdvertisementSpec;
  AcceptPolicy : AcceptPolicySpec;
  Dataplane : DataplaneSpec;
  Registrar : RegistrarSpec;
  NodeSelector : gmap string string;
  Tolerations : list Toleration;
  AgentImage : string
}.

Record NodeSummary := MkNodeSummary {
  ns_Ready : Z;
  ns_Total : Z;
  ns_Degraded : list string
}.

Record RegistrarStatus := MkRegistrarStatus {
  RegisteredNodes : Z;
  DesiredSIGs : list string;
  LastSyncTime : option Z;
  LastError : msg
}.

(** [metav1.ConditionStatus] and [metav1.Condition]. *)
Inductive ConditionStatus := ConditionTrue | ConditionFalse | ConditionUnknown.

Global Instance ConditionStatus_eq_dec : EqDecision ConditionStatus.
Proof. solve_decision. Defined.

Record Condition := MkCondition {
  c_Type : string;
  c_Status : ConditionStatus;
  c_Reason : string;
  c_Message : msg;
  c_ObservedGeneration : Z
}.

Record ScionNetworkStatus := MkStatus {
  Conditions : list Condition;
  ISDAS : string;
  Nodes : NodeSummary;
  st_Registrar : RegistrarStatus
}.

Record ScionNetwork := MkScionNetwork {
  sn_Name : string;
  sn_UID : string;
  sn_Generation : Z;
  sn_DeletionTimestamp : option Z;
  sn_Finalizers : list string;
  Spec : ScionNetworkSpec;
  Status : ScionNetworkStatus
}.

(** Field updates of the status and the finalizers. *)
Definition with_finalizers (fs : list string) (sn : ScionNetwork) : ScionNetwork :=
  MkScionNetwork (sn_Name sn) (sn_UID sn) (sn_Generation sn) (sn_DeletionTimestamp sn) fs
    (Spec sn) (Status sn).

Definition with_status (st : ScionNetworkStatus) (sn : ScionNetwork) : ScionNetwork :=
  MkScionNetwork (sn_Name sn) (sn_UID sn) (sn_Generation sn) (sn_DeletionTimestamp sn)
    (sn_Finalizers sn) (Spec sn) st.

Definition with_conditions (cs : list Condition) (sn : ScionNetwork) : ScionNetwork :=
  with_status (MkStatus cs (ISDAS (Status sn)) (Nodes (Status sn)) (st_Registrar (Status sn))) sn.

Definition with_isdas (ia : string) (sn : ScionNetwork) : ScionNetwork :=
  with_status (MkStatus (Conditions (Status sn)) ia (Nodes (Status sn))
                 (st_Registrar (Status sn))) sn.

(** ** The markers *)

(** [^\d+-([0-9a-fA-F_:]+|\d+)$]: the second alternative is part of the first. *)
Definition ia_char (c : ascii) : bool :=
  is_digit c || ((97 <=? code c) && (code c <=? 102)) || ((65 <=? code c) && (code c <=? 70))
  || byte_is 95 c || byte_is 58 c.

Definition isd_as_pattern (s : string) : bool :=
  match cut_first 45 s with
  | Some (isd, asn) =>
      negb (bool_decide (isd = "")) && str_forall is_digit isd
      && negb (bool_decide (asn = "")) && str_forall ia_char asn
  | None => false
  end.

(** The units of the [refreshInterval] pattern; the micro sign is U+00B5. *)
Definition micro : string := String (ascii_of_N 194) (String (ascii_of_N 181) "s").
Definition duration_units : list string := ["ns"; "us"; micro; "ms"; "s"; "m"; "h"].

Fixpoint strip_digits (s : string) : string :=
  match s with
  | String c r => if is_digit c then strip_digits r else s
  | EmptyString => ""
  end.

(** One or more of digits followed by a unit, to the end of the string. *)
Fixpoint duration_groups (fuel : nat) (s : string) : bool :=
  match fuel with
  | O => false
  | S f =>
      match s with
      | String c _ =>
          is_digit c
          && existsb (fun u => match CutPrefix (strip_digits s) u with
                               | Some r => bool_decide (r = "") || duration_groups f r
                               | None => false
                               end) duration_units
      | EmptyString => false
      end
  end.

Definition refresh_pattern (s : string) : bool := duration_groups (String.length s) s.

(** [^([0-9]{1,3}\.){3}[0-9]{1,3}/[0-9]{1,2}$] *)
Definition digits_upto (n : nat) (s : string) : bool :=
  str_forall is_digit s && (1 <=? String.length s)%nat && (String.length s <=? n)%nat.

Definition cidr_pattern (s : string) : bool :=
  match cut_first 47 s with
  | Some (a, b) =>
      match Split a "." with
      | [w; x; y; z] => digits_upto 3 w && digits_upto 3 x && digits_upto 3 y && digits_upto 3 z
      | _ => false
      end && digits_upto 2 b
  | None => false
  end.

Definition cidr_list (l : list string) : bool :=
  (length l <=? 64)%nat && forallb cidr_pattern l.

(** A registrar section that is left out has the empty backend: the default
    and the endpoint rule apply only to a section that is present. *)
Definition crd_valid (spec : ScionNetworkSpec) : bool :=
  bool_decide (Mode (Bootstrap spec) ∈ ["url"; "dns"; "dhcp"; "mdns"])
  && (negb (bool_decide (Mode (Bootstrap spec) = "url"))
      || negb (bool_decide (DiscoveryURL (Bootstrap spec) = "")))
  && (bool_decide (RefreshInterval (Bootstrap spec) = "")
      || refresh_pattern (RefreshInterval (Bootstrap spec)))
  && negb (bool_decide (ISDASes (AcceptPolicy spec) = []))
  && forallb isd_as_pattern (ISDASes (AcceptPolicy spec))
  && cidr_list (ForbiddenCIDRs (AcceptPolicy spec))
  && cidr_list (UnderlayCIDRs (AcceptPolicy spec))
  && bool_decide (Backend (Registrar spec) ∈ [""; "manual"; "http"; "anapaya"])
  && (bool_decide (Backend (Registrar spec) ∈ [""; "manual"])
      || negb (bool_decide (Endpoint (Registrar spec) = ""))).
