(* ===== verification/K8s.v ===== *)
(** * Kubernetes objects and the client libraries the program links

    The API objects carry the fields the program reads.  The helper functions
    of [apimachinery] and [controller-runtime] are not part of the repository:
    they are the operations of the class [K8sLib], and [K8sLaws] states what
    their documentation promises.  [ref_lib] is one implementation that
    satisfies the laws. *)
From S2P Require Import Prelude GoStrings Api.
Local Open Scope Z_scope.

(** ** Dynamic values: [interface{}] as decoded from JSON *)
Inductive gval :=
| GNil
| GStr (s : string)
| GBool (b : bool)
| GInt (z : Z)
| GMap (m : list (string * gval))
| GSlice (l : list gval).

Abbreviation gobj := (list (string * gval)).

(** Indexing a [map[string]interface{}]: [nil] for a missing key. *)
Fixpoint gfield (m : gobj) (k : string) : gval :=
  match m with
  | [] => GNil
  | (k', v) :: m' => if bool_decide (k = k') then v else gfield m' k
  end.

(** [m[k] = v] on such a map. *)
Fixpoint gset_field (m : gobj) (k : string) (v : gval) : gobj :=
  match m with
  | [] => [(k, v)]
  | (k', v') :: m' => if bool_decide (k = k') then (k, v) :: m' else (k', v') :: gset_field m' k v
  end.

(** [x == "s"] on an [interface{}] operand. *)
Definition geq_str (v : gval) (s : string) : bool :=
  match v with GStr t => bool_decide (t = s) | _ => false end.

(** The value at a path of map keys. *)
Fixpoint gpath (v : gval) (path : list string) : option gval :=
  match path with
  | [] => Some v
  | k :: path' =>
      match v with
      | GMap m => if bool_decide (k ∈ m.*1) then gpath (gfield m k) path' else None
      | _ => None
      end
  end.

Fixpoint gstrings (l : list gval) : option (list string) :=
  match l with
  | [] => Some []
  | GStr s :: l' => (s ::.) <$> gstrings l'
  | _ => None
  end.

(** ** Typed objects *)
Record NodeAddress := MkNodeAddress { na_Type : string; na_Address : string }.

Record Node := MkNode {
  n_Name : string;
  n_Labels : gmap string string;
  n_Annotations : gmap string string;
  n_PodCIDR : string;
  n_PodCIDRs : list string;
  n_Addresses : list NodeAddress
}.

Record PodCondition := MkPodCondition {
  pc_Type : string;
  pc_Status : ConditionStatus;
  pc_LastTransitionTime : Z
}.

Record Pod := MkPod {
  p_Name : string;
  p_NodeName : string;
  p_CreationTimestamp : Z;
  p_Conditions : list PodCondition
}.

(** The generation and status of a DaemonSet. *)
Record DaemonSetState := MkDaemonSetState {
  ds_Generation : Z;
  ds_ObservedGeneration : Z;
  ds_DesiredNumberScheduled : Z
}.

(** An unstructured object: its name and its [Object] map. *)
Record Unstructured := MkUnstructured { u_Name : string; u_Object : gobj }.

(** ** The libraries *)
Class K8sLib := {
  NestedString : gobj -> list string -> string * bool * option gerror;
  NestedBool : gobj -> list string -> bool * bool * option gerror;
  NestedSlice : gobj -> list string -> list gval * bool * option gerror;
  NestedStringSlice : gobj -> list string -> list string * bool * option gerror;
  SelectorMatches : gmap string string -> gmap string string -> bool;
  SetStatusCondition : list Condition -> Condition -> list Condition;
  ContainsFinalizer : list string -> string -> bool;
  AddFinalizer : list string -> string -> list string;
  RemoveFinalizer : list string -> string -> list string
}.

Definition find_condition (t : string) (cs : list Condition) : option Condition :=
  List.find (fun c => bool_decide (c_Type c = t)) cs.

Class K8sLaws (L : K8sLib) : Prop := {
  nested_string_value : forall o p,
    fst (fst (NestedString o p)) = match gpath (GMap o) p with Some (GStr s) => s | _ => "" end;
  nested_bool_value : forall o p,
    match gpath (GMap o) p with
    | Some (GBool b) => NestedBool o p = (b, true, None)
    | _ => fst (fst (NestedBool o p)) = false
    end;
  nested_slice_value : forall o p,
    fst (fst (NestedSlice o p)) = match gpath (GMap o) p with Some (GSlice l) => l | _ => [] end;
  nested_strings_value : forall o p,
    fst (fst (NestedStringSlice o p))
    = match gpath (GMap o) p with Some (GSlice l) => default [] (gstrings l) | _ => [] end;
  selector_matches_spec : forall sel ls, SelectorMatches sel ls = true <-> sel ⊆ ls;
  set_condition_spec : forall cs c t,
    find_condition t (SetStatusCondition cs c)
    = if bool_decide (t = c_Type c) then Some c else find_condition t cs;
  contains_finalizer_spec : forall fs f, ContainsFinalizer fs f = true <-> f ∈ fs;
  add_finalizer_spec : forall fs f g, g ∈ AddFinalizer fs f <-> g = f \/ g ∈ fs;
  remove_finalizer_spec : forall fs f g, g ∈ RemoveFinalizer fs f <-> g <> f /\ g ∈ fs
}.

(** ** An implementation of the interface *)
Definition ref_nested {A} (dflt : A) (conv : gval -> option A) (o : gobj) (p : list string)
    : A * bool * option gerror :=
  match gpath (GMap o) p with
  | None => (dflt, false, None)
  | Some v => match conv v with
              | Some a => (a, true, None)
              | None => (dflt, false, Some (errorf [Lit "accessor error"]))
              end
  end.

Fixpoint ref_set_condition (cs : list Condition) (c : Condition) : list Condition :=
  match cs with
  | [] => [c]
  | c' :: cs' => if bool_decide (c_Type c' = c_Type c) then c :: cs'
                 else c' :: ref_set_condition cs' c
  end.

Definition ref_lib : K8sLib := {|
  NestedString := ref_nested "" (fun v => match v with GStr s => Some s | _ => None end);
  NestedBool := ref_nested false (fun v => match v with GBool b => Some b | _ => None end);
  NestedSlice := ref_nested [] (fun v => match v with GSlice l => Some l | _ => None end);
  NestedStringSlice :=
    ref_nested [] (fun v => match v with GSlice l => gstrings l | _ => None end);
  SelectorMatches := fun sel ls => bool_decide (sel ⊆ ls);
  SetStatusCondition := ref_set_condition;
  ContainsFinalizer := fun fs f => bool_decide (f ∈ fs);
  AddFinalizer := fun fs f => if bool_decide (f ∈ fs) then fs else fs ++ [f];
  RemoveFinalizer := fun fs f => filter (fun g => g <> f) fs
|}.

Lemma ref_set_condition_find cs c t :
  find_condition t (ref_set_condition cs c)
  = if bool_decide (t = c_Type c) then Some c else find_condition t cs.
Proof.
  unfold find_condition. induction cs as [|c' cs IH]; cbn.
  - rewrite (bool_decide_ext (c_Type c = t) (t = c_Type c)) by done.
    by destruct (bool_decide (t = c_Type c)).
  - destruct (bool_decide (c_Type c' = c_Type c)) eqn:E; cbn; case_bool_eq.
    + rewrite E, (bool_decide_ext (c_Type c = t) (t = c_Type c)) by done.
      by destruct (bool_decide (t = c_Type c)).
    + rewrite IH. destruct (bool_decide (c_Type c' = t)) eqn:E2; [|done].
      case_bool_eq. subst. rewrite bool_decide_eq_false_2; done.
Qed.

Lemma ref_laws : K8sLaws ref_lib.
Proof.
  split; cbn.
  - intros. unfold ref_nested. by destruct (gpath _ _) as [[]|].
  - intros o p. unfold ref_nested. by destruct (gpath _ _) as [[]|].
  - intros. unfold ref_nested. by destruct (gpath _ _) as [[]|].
  - intros. unfold ref_nested. destruct (gpath _ _) as [[]|]; try done.
    by destruct (gstrings l).
  - intros. apply bool_decide_eq_true.
  - intros. apply ref_set_condition_find.
  - intros. apply bool_decide_eq_true.
  - intros fs f g. case_bool_decide.
    + split; [by right | by intros [-> |]].
    + rewrite elem_of_app, list_elem_of_singleton. tauto.
  - intros. rewrite list_elem_of_filter. done.
Qed.

(** ** Times: nanoseconds, with the saturation of [Time.Sub] *)
Definition maxDuration : Z := 2 ^ 63 - 1.
Definition minDuration : Z := - 2 ^ 63.
Definition time_sub (t u : Z) : Z := Z.max minDuration (Z.min maxDuration (t - u)).

Definition Second : Z := 1000000000.
Definition Minute : Z := 60 * Second.
Definition Hour : Z := 60 * Minute.

(** Conversion to [int32]. *)
Definition int32 (z : Z) : Z := (z + 2 ^ 31) mod 2 ^ 32 - 2 ^ 31.

Lemma int32_small z : - 2 ^ 31 <= z < 2 ^ 31 -> int32 z = z.
Proof. intros. unfold int32. rewrite Z.mod_small by lia. lia. Qed.
