(* ===== verification/Render.v ===== *)
(** * [internal/operator/render]: the objects the operator owns

    The builders of [render.go]; all are pure functions of the ScionNetwork. *)
From S2P Require Import Prelude GoStrings Api K8s.
Local Open Scope Z_scope.

Definition Namespace : string := "scion-system".
Definition agentName : string := "scion-node-agent".
Definition metricsTLSSecret : string := "scion-node-agent-metrics-tls".
Definition metricsTLSDir : string := "/etc/scion-metrics-tls".
Definition stateDir : string := "/var/lib/scion-node-agent".
Definition pinnedTRCsDir : string := stateDir +:+ "/pinned-trcs".
Definition metricsPort : Z := 9465.

Definition labels : gmap string string := {["app" := agentName]}.

Definition boolOr (b : option bool) (def : bool) : bool :=
  match b with None => def | Some b => b end.

Definition boolStr (b : bool) : string := FormatBool b.

(** ** The parts of the API objects that are set *)
Record EnvVar := MkEnvVar { ev_Name : string; ev_Value : string; ev_FieldPath : option string }.

Inductive VolumeSource :=
| HostPath (path type : string)
| SecretVolume (name : string) (optional : option bool).

Record Volume := MkVolume { v_Name : string; v_Source : VolumeSource }.

Record VolumeMount := MkVolumeMount {
  vm_Name : string; vm_MountPath : string; vm_ReadOnly : bool
}.

Record Probe := MkProbe { pr_Path : string; pr_Port : Z; pr_Scheme : string }.

Record Container := MkContainer {
  ct_Name : string;
  ct_Image : string;
  ct_Env : list EnvVar;
  ct_Privileged : bool;
  ct_RunAsUser : Z;
  ct_Requests : list (string * string);
  ct_VolumeMounts : list VolumeMount;
  ct_ReadinessProbe : Probe;
  ct_LivenessProbe : Probe
}.

Record PodSpec := MkPodSpec {
  ps_ServiceAccountName : string;
  ps_HostNetwork : bool;
  ps_PriorityClassName : string;
  ps_NodeSelector : gmap string string;
  ps_Tolerations : list Toleration;
  ps_Containers : list Container;
  ps_Volumes : list Volume
}.

Record DaemonSetSpec := MkDaemonSetSpec {
  dss_Selector : gmap string string;
  dss_TemplateLabels : gmap string string;
  dss_Template : PodSpec
}.

Record PolicyRule := MkPolicyRule {
  pr_APIGroups : list string; pr_Resources : list string; pr_Verbs : list string
}.
Record RoleRef := MkRoleRef { rr_APIGroup : string; rr_Kind : string; rr_Name : string }.
Record Subject := MkSubject { sb_Kind : string; sb_Name : string; sb_Namespace : string }.

Record ObjectMeta := MkMeta {
  m_Name : string;
  m_Namespace : string;
  m_Labels : gmap string string;
  m_Owner : option string
}.

(** What distinguishes the kinds. *)
Inductive payload :=
| PNamespace
| PServiceAccount
| PClusterRole (rules : list PolicyRule)
| PClusterRoleBinding (ref : RoleRef) (subjects : list Subject)
| PDaemonSet (spec : DaemonSetSpec)
| PSCC (object : gobj)
| PSecret (type : string) (data : gmap string string)
| PConfigMap (data : gmap string string).

Record KObj := MkObj { o_Meta : ObjectMeta; o_Payload : payload }.

(** ** The builders *)
Definition probe (path : string) (tls : bool) : Probe :=
  MkProbe path metricsPort (if tls then "HTTPS" else "HTTP").

Definition env_var (name value : string) : EnvVar := MkEnvVar name value None.

Definition base_env (sn : ScionNetwork) (forbiddenCIDRs : list string) : list EnvVar :=
  let b := Bootstrap (Spec sn) in
  [ MkEnvVar "NODE_NAME" "" (Some "spec.nodeName");
    env_var "SCION_BOOTSTRAP_MODE" (Mode b);
    env_var "SCION_DISCOVERY_URL" (DiscoveryURL b);
    env_var "SCION_DNS_DOMAIN" (DNSDomain b);
    env_var "SCION_DHCP_INTERFACE" (DHCPInterface b);
    env_var "SCION_REFRESH_INTERVAL" (RefreshInterval b);
    env_var "SCION_TUN_NAME" (TunName (Dataplane (Spec sn)));
    env_var "SCION_ACCEPT_ISD_ASES" (Join (ISDASes (AcceptPolicy (Spec sn))) ",");
    env_var "SCION_FORBIDDEN_CIDRS" (Join forbiddenCIDRs ",");
    env_var "SCION_ADVERTISE_POD_CIDR" (boolStr (boolOr (PodCIDR (Advertisement (Spec sn))) true));
    env_var "SCION_ADVERTISE_NODE_IP" (boolStr (boolOr (NodeIP (Advertisement (Spec sn))) false)) ].

Definition tls_env : list EnvVar :=
  [ env_var "SCION_METRICS_TLS_CERT" (metricsTLSDir +:+ "/tls.crt");
    env_var "SCION_METRICS_TLS_KEY" (metricsTLSDir +:+ "/tls.key") ].

Definition DaemonSet (sn : ScionNetwork) (image : string) (forbiddenCIDRs : list string)
    (metricsTLS : bool) : KObj :=
  let env := base_env sn forbiddenCIDRs in
  let volumes :=
    [ MkVolume "state" (HostPath stateDir "DirectoryOrCreate");
      MkVolume "tun" (HostPath "/dev/net/tun" "CharDevice") ] in
  let mounts :=
    [ MkVolumeMount "state" stateDir false; MkVolumeMount "tun" "/dev/net/tun" false ] in
  let '(volumes, mounts) :=
    match SecretRef (Bootstrap (Spec sn)) with
    | Some ref =>
        (volumes ++ [MkVolume "pinned-trcs" (SecretVolume ref None)],
         mounts ++ [MkVolumeMount "pinned-trcs" pinnedTRCsDir true])
    | None => (volumes, mounts)
    end in
  let '(volumes, mounts, env) :=
    if metricsTLS then
      (volumes ++ [MkVolume "metrics-tls" (SecretVolume metricsTLSSecret (Some true))],
       mounts ++ [MkVolumeMount "metrics-tls" metricsTLSDir true],
       env ++ tls_env)
    else (volumes, mounts, env) in
  MkObj (MkMeta agentName Namespace labels None)
    (PDaemonSet (MkDaemonSetSpec labels labels
      (MkPodSpec agentName true "system-node-critical"
        (NodeSelector (Spec sn))
        (Tolerations (Spec sn) ++ [MkToleration "" "Exists" "" "" None])
        [ MkContainer "agent" image env true 0
            [("cpu", "50m"); ("memory", "64Mi")]
            mounts (probe "/readyz" metricsTLS) (probe "/healthz" metricsTLS) ]
        volumes))).

Definition ServiceAccount : KObj :=
  MkObj (MkMeta agentName Namespace labels None) PServiceAccount.

Definition ClusterRole_Rules : list PolicyRule :=
  [ MkPolicyRule [""] ["nodes"] ["get"];
    MkPolicyRule ["crd.projectcalico.org"] ["blockaffinities"] ["get"; "list"];
    MkPolicyRule ["cilium.io"] ["ciliumnodes"] ["get"; "list"];
    MkPolicyRule ["authentication.k8s.io"] ["tokenreviews"] ["create"];
    MkPolicyRule ["authorization.k8s.io"] ["subjectaccessreviews"] ["create"] ].

Definition ClusterRole : KObj :=
  MkObj (MkMeta agentName "" labels None) (PClusterRole ClusterRole_Rules).

Definition ClusterRoleBinding_Subjects : list Subject :=
  [ MkSubject "ServiceAccount" agentName Namespace ].

Definition ClusterRoleBinding : KObj :=
  MkObj (MkMeta agentName "" labels None)
    (PClusterRoleBinding (MkRoleRef "rbac.authorization.k8s.io" "ClusterRole" agentName)
       ClusterRoleBinding_Subjects).

Definition run_as_any : gval := GMap [("type", GStr "RunAsAny")].

(** The unstructured SCC; its [metadata] map is also the object's [ObjectMeta]. *)
Definition SCC_Object : gobj :=
  [ ("apiVersion", GStr "security.openshift.io/v1");
    ("kind", GStr "SecurityContextConstraints");
    ("metadata", GMap [("name", GStr agentName); ("labels", GMap [("app", GStr agentName)])]);
    ("allowHostDirVolumePlugin", GBool true);
    ("allowHostIPC", GBool false);
    ("allowHostNetwork", GBool true);
    ("allowHostPID", GBool false);
    ("allowHostPorts", GBool true);
    ("allowPrivilegeEscalation", GBool true);
    ("allowPrivilegedContainer", GBool true);
    ("allowedCapabilities", GSlice []);
    ("fsGroup", run_as_any);
    ("readOnlyRootFilesystem", GBool false);
    ("runAsUser", run_as_any);
    ("seLinuxContext", run_as_any);
    ("supplementalGroups", run_as_any);
    ("volumes", GSlice (map GStr ["hostPath"; "secret"; "downwardAPI"; "configMap";
                                  "projected"; "emptyDir"]));
    ("users", GSlice [GStr ("system:serviceaccount:" +:+ Namespace +:+ ":" +:+ agentName)]);
    ("groups", GSlice []) ].

Definition SCC : KObj := MkObj (MkMeta agentName "" labels None) (PSCC SCC_Object).

Definition NamespaceLabels : gmap string string :=
  foldl (fun l k => <["pod-security.kubernetes.io/" +:+ k := "privileged"]> l) labels
    ["enforce"; "audit"; "warn"].

Definition NamespaceObj : KObj := MkObj (MkMeta Namespace "" NamespaceLabels None) PNamespace.
