(* ===== verification/GoTime.v ===== *)
(** * Go's [time.ParseDuration]

    Durations are [int64] nanoseconds.  The unsigned 64-bit accumulator, its
    overflow checks and the floating-point fraction are those of the library;
    the binary64 arithmetic is the standard library's specification of it. *)
From Stdlib Require Import SpecFloat.
From S2P Require Import Prelude GoStrings Api.
Local Open Scope Z_scope.

Definition uint64 (z : Z) : Z := z mod 2 ^ 64.
Definition int64 (z : Z) : Z := (z + 2 ^ 63) mod 2 ^ 64 - 2 ^ 63.

(** ** binary64 *)
Definition f64_of_Z (z : Z) : spec_float := binary_normalize 53 1024 z 0 false.
Definition f64_mul : spec_float -> spec_float -> spec_float := SFmul 53 1024.
Definition f64_div : spec_float -> spec_float -> spec_float := SFdiv 53 1024.

(** Truncation of a non-negative finite float. *)
Definition Z_of_f64 (f : spec_float) : Z :=
  match f with
  | S754_finite false m e => Z.shiftl (Zpos m) e
  | _ => 0
  end.

(** ** The scanner *)
Fixpoint leadingInt (s : string) (x : Z) : option (Z * string) :=
  match s with
  | EmptyString => Some (x, "")
  | String c r =>
      if is_digit c then
        if 2 ^ 63 / 10 <? x then None
        else let x' := uint64 (x * 10 + digit_val c) in
             if 2 ^ 63 <? x' then None else leadingInt r x'
      else Some (x, s)
  end.

Fixpoint leadingFraction (s : string) (x : Z) (scale : spec_float) (overflow : bool)
    : Z * spec_float * string :=
  match s with
  | EmptyString => (x, scale, "")
  | String c r =>
      if is_digit c then
        if overflow then leadingFraction r x scale true
        else if (2 ^ 63 - 1) / 10 <? x then leadingFraction r x scale true
        else let y := uint64 (x * 10 + digit_val c) in
             if 2 ^ 63 <? y then leadingFraction r x scale true
             else leadingFraction r y (f64_mul scale (f64_of_Z 10)) false
      else (x, scale, s)
  end.

(** The unit: the bytes up to the next digit or dot. *)
Fixpoint take_unit (s : string) : string * string :=
  match s with
  | EmptyString => ("", "")
  | String c r =>
      if byte_is 46 c || is_digit c then ("", s)
      else let '(u, rest) := take_unit r in (String c u, rest)
  end.

(** The Greek mu, U+03BC. *)
Definition mu : string := String (ascii_of_N 206) (String (ascii_of_N 188) "s").

Definition unitMap (u : string) : option Z :=
  if bool_decide (u = "ns") then Some 1
  else if bool_decide (u ∈ ["us"; micro; mu]) then Some 1000
  else if bool_decide (u = "ms") then Some 1000000
  else if bool_decide (u = "s") then Some 1000000000
  else if bool_decide (u = "m") then Some (60 * 1000000000)
  else if bool_decide (u = "h") then Some (3600 * 1000000000)
  else None.

Definition invalid_duration {A} (orig : string) : result A :=
  Err (errorf [Lit "time: invalid duration "; Quo orig]).

(** One [value unit] group: its nanoseconds and the rest of the text. *)
Definition duration_group (orig s : string) : result (Z * string) :=
  match s with
  | EmptyString => invalid_duration orig
  | String c _ =>
      if negb (byte_is 46 c || is_digit c) then invalid_duration orig
      else
      match leadingInt s 0 with
      | None => invalid_duration orig
      | Some (v, s1) =>
          let pre := negb (bool_decide (s1 = s)) in
          let '(f, scale, s2, post) :=
            match s1 with
            | String d r =>
                if byte_is 46 d then
                  let '(f, scale, r') := leadingFraction r 0 (f64_of_Z 1) false in
                  (f, scale, r', negb (bool_decide (r' = r)))
                else (0, f64_of_Z 1, s1, false)
            | EmptyString => (0, f64_of_Z 1, s1, false)
            end in
          if negb pre && negb post then invalid_duration orig
          else
          let '(u, s3) := take_unit s2 in
          if bool_decide (u = "")
          then Err (errorf [Lit "time: missing unit in duration "; Quo orig])
          else match unitMap u with
          | None => Err (errorf [Lit "time: unknown unit "; Quo u; Lit " in duration "; Quo orig])
          | Some unit =>
              if 2 ^ 63 / unit <? v then invalid_duration orig
              else
              let v1 := uint64 (v * unit) in
              let v2 := if 0 <? f
                        then uint64 (v1 + Z_of_f64 (f64_mul (f64_of_Z f)
                                                      (f64_div (f64_of_Z unit) scale)))
                        else v1 in
              if (0 <? f) && (2 ^ 63 <? v2) then invalid_duration orig
              else Ok (v2, s3)
          end
      end
  end.

(** The loop over the groups; each consumes at least one byte. *)
Fixpoint duration_loop (fuel : nat) (orig s : string) (d : Z) : result Z :=
  match s with
  | EmptyString => Ok d
  | _ =>
      match fuel with
      | O => invalid_duration orig
      | S f =>
          '(v, r) ← duration_group orig s;
          let d' := uint64 (d + v) in
          if 2 ^ 63 <? d' then invalid_duration orig else duration_loop f orig r d'
      end
  end.

Definition ParseDuration (orig : string) : result Z :=
  let '(neg, s) :=
    match orig with
    | String c r => if byte_is 45 c then (true, r) else if byte_is 43 c then (false, r)
                    else (false, orig)
    | EmptyString => (false, orig)
    end in
  if bool_decide (s = "0") then Ok 0
  else if bool_decide (s = "") then invalid_duration orig
  else
    d ← duration_loop (String.length s) orig s 0;
    if neg : bool then Ok (int64 (- int64 d))
    else if 2 ^ 63 - 1 <? d then invalid_duration orig
    else Ok d.
