(* ===== verification/Config.v ===== *)
(** * [internal/agent/config]: the agent's configuration from its environment *)
From S2P Require Import Prelude GoStrings Api GoTime.
Local Open Scope Z_scope.

Record Config := MkConfig {
  NodeName : string;
  BootstrapMode : string;
  cfg_DiscoveryURL : string;
  cfg_DNSDomain : string;
  cfg_DHCPInterface : string;
  cfg_RefreshInterval : Z;
  StateDir : string;
  cfg_TunName : string;
  AdvertisePodCIDR : bool;
  AdvertiseNodeIP : bool;
  EnableDaemonAPI : bool;
  AcceptISDASes : string;
  cfg_ForbiddenCIDRs : string;
  MetricsAddr : string;
  MetricsTLSCert : string;
  MetricsTLSKey : string
}.

(** [os.Getenv]: the empty string for an unset variable. *)
Abbreviation environ := (string -> string).

Definition getenv (env : environ) (k def : string) : string :=
  let v := env k in if negb (bool_decide (v = "")) then v else def.

Definition getenvBool (env : environ) (k : string) (def : bool) : bool :=
  let v := env k in
  if bool_decide (v = "") then def
  else match ParseBool v with Some b => b | None => def end.

Definition with_refresh (d : Z) (c : Config) : Config :=
  MkConfig (NodeName c) (BootstrapMode c) (cfg_DiscoveryURL c) (cfg_DNSDomain c)
    (cfg_DHCPInterface c) d (StateDir c) (cfg_TunName c) (AdvertisePodCIDR c)
    (AdvertiseNodeIP c) (EnableDaemonAPI c) (AcceptISDASes c) (cfg_ForbiddenCIDRs c)
    (MetricsAddr c) (MetricsTLSCert c) (MetricsTLSKey c).

(** The configuration is returned beside the error, as in the code. *)
Definition FromEnv (env : environ) : Config * option gerror :=
  let c := {|
    NodeName := env "NODE_NAME";
    BootstrapMode := getenv env "SCION_BOOTSTRAP_MODE" "url";
    cfg_DiscoveryURL := env "SCION_DISCOVERY_URL";
    cfg_DNSDomain := env "SCION_DNS_DOMAIN";
    cfg_DHCPInterface := env "SCION_DHCP_INTERFACE";
    cfg_RefreshInterval := 0;
    StateDir := getenv env "SCION_STATE_DIR" "/var/lib/scion-node-agent";
    cfg_TunName := getenv env "SCION_TUN_NAME" "scion0";
    AdvertisePodCIDR := getenvBool env "SCION_ADVERTISE_POD_CIDR" true;
    AdvertiseNodeIP := getenvBool env "SCION_ADVERTISE_NODE_IP" false;
    EnableDaemonAPI := getenvBool env "SCION_ENABLE_DAEMON_API" true;
    AcceptISDASes := env "SCION_ACCEPT_ISD_ASES";
    cfg_ForbiddenCIDRs := env "SCION_FORBIDDEN_CIDRS";
    MetricsAddr := getenv env "SCION_METRICS_ADDR" ":9465";
    MetricsTLSCert := env "SCION_METRICS_TLS_CERT";
    MetricsTLSKey := env "SCION_METRICS_TLS_KEY"
  |} in
  if negb (Bool.eqb (bool_decide (MetricsTLSCert c = "")) (bool_decide (MetricsTLSKey c = "")))
  then (c, Some (errorf [Lit "SCION_METRICS_TLS_CERT and SCION_METRICS_TLS_KEY must be set together"]))
  else
  match ParseDuration (getenv env "SCION_REFRESH_INTERVAL" "1h") with
  | Err err => (with_refresh 0 c, Some (wrapf [Lit "SCION_REFRESH_INTERVAL: "] err))
  | Ok d =>
      let c := with_refresh d c in
      if bool_decide (NodeName c = "") then (c, Some (errorf [Lit "NODE_NAME is required"]))
      else if negb (bool_decide (BootstrapMode c ∈ ["url"; "dns"; "dhcp"; "mdns"]))
      then (c, Some (errorf [Lit "SCION_BOOTSTRAP_MODE "; Quo (BootstrapMode c);
                             Lit " invalid: must be one of url, dns, dhcp, mdns"]))
      else if bool_decide (BootstrapMode c = "url") && bool_decide (cfg_DiscoveryURL c = "")
      then (c, Some (errorf [Lit "SCION_DISCOVERY_URL required for bootstrap mode url"]))
      else (c, None)
  end.
