(* ===== verification/AgentEnv.v ===== *)
(** * The environment of the node agent and of the registrar

    The commands by which they reach the Kubernetes API, discovery servers, the
    file system, other processes and their own channels.  The environment's answers
    are not constrained here. *)
From S2P Require Import Prelude Effects Api K8s.
Local Open Scope Z_scope.

(** An HTTP response: [body_err] is a read error after the bytes of [body]. *)
Record HttpResp := MkHttpResp {
  hr_code : Z;
  hr_status : string;
  hr_body : string;
  hr_err : option gerror
}.

(** [net.UDPAddr]; an [net.IP] is a list of bytes. *)
Record UDPAddr := MkUDPAddr { udp_IP : list Z; udp_Port : Z }.

Global Instance UDPAddr_eq_dec : EqDecision UDPAddr.
Proof. solve_decision. Defined.

(** The configuration of [gateway.Gateway]: its addresses, files and names. *)
Record Gateway := MkGateway {
  gw_ID : string;
  gw_TrafficPolicyFile : string;
  gw_RoutingPolicyFile : string;
  gw_ControlServerAddr : UDPAddr;
  gw_ControlClientIP : list Z;
  gw_ServiceDiscoveryClientIP : list Z;
  gw_PathMonitorIP : list Z;
  gw_ProbeServerAddr : UDPAddr;
  gw_ProbeClientIP : list Z;
  gw_DataServerAddr : UDPAddr;
  gw_DataClientIP : list Z;
  gw_TunnelName : string;
  gw_MetricsIA : string
}.

Global Instance Gateway_eq_dec : EqDecision Gateway.
Proof. solve_decision. Defined.

(** The objects that the daemon API is built from; a database is named as it is
    opened. *)
Inductive object :=
| TopologyLoader
| RevocationCache
| Database (kind path : string)
| TCPDialer (topo : object)
| TrustEngine (certsDir : string) (db dialer : object)
| Requester (dialer : object)
| Verifier (engine : object).

Global Instance object_eq_dec : EqDecision object.
Proof. solve_decision. Defined.

(** [fetcher.FetcherConfig] and [daemon.ServerConfig]; the fields [IA], [MTU] and
    [Core], which are read from the topology, name the object they are read from. *)
Record FetcherConfig := MkFetcherConfig {
  fc_IA : object;
  fc_MTU : object;
  fc_Core : object;
  fc_NextHopper : object;
  fc_RPC : object;
  fc_PathDB : object;
  fc_Inspector : object;
  fc_Verifier : object;
  fc_RevCache : object;
  fc_QueryInterval : Z
}.

Record ServerConfig := MkServerConfig {
  sc_IA : object;
  sc_MTU : object;
  sc_LocalASInfo : object;
  sc_Fetcher : FetcherConfig;
  sc_Engine : object;
  sc_RevCache : object;
  sc_DRKeyClient : option object
}.

Global Instance FetcherConfig_eq_dec : EqDecision FetcherConfig.
Proof. solve_decision. Defined.

Global Instance ServerConfig_eq_dec : EqDecision ServerConfig.
Proof. solve_decision. Defined.

Inductive acmd :=
(* Kubernetes *)
| InClusterConfig
| NewClientset
| NewDynamicClient
| GetNode (name : string)
| ListBlockAffinities
| ListCiliumNodes
(* HTTP *)
| NewRequest (url : string)
| HttpDo (url : string)
(* discovery *)
| LookupSRV (service proto name : string)
| DHCPClient (iface : string)
| DHCPDiscover (iface : string)
| MDNSResolver
| MDNSBrowse
(* files *)
| MkdirAll (path : string)
| ReadFile (path : string)
| WriteFile (path data : string)
| CreateTemp (dir pattern : string)
| FileWrite (path data : string)
| FileSync (path : string)
| FileChmod (path : string) (mode : Z)
| FileClose (path : string)
| Rename (from to : string)
| Remove (path : string)
| Stat (path : string)
(* processes *)
| Exec (argv : list string)
(* an HTTP server *)
| Serve (addr cert key : string)
| Shutdown (timeout : Z)
(* the SCION libraries *)
| LoadASInfo (path : string)
| LocalIA
| DefaultLocalIP
| GatewayRun (gw : Gateway)
| LoadTRCs (certsDir db : string)
| Construct (what arg : string)
| Acquire (res arg : string)
| Release (res arg : string)
| Start (task : string)
| Stop (task : string)
| NewStorage (what : string)
| Close (what : string)
| Listen (addr : string)
| Register (metric : string)
| RegisterServer (cfg : ServerConfig)
(* goroutines and callbacks *)
| Spawn (task : string)
| GroupWait
| Cancel
| OnUp
(* channels and timers *)
| TrySend (chan : string)
| Sleep (d : Z)
(* the runtime's choice of an iteration order over a map *)
| MapRange (n : nat).

Global Instance acmd_eq_dec : EqDecision acmd.
Proof. solve_decision. Defined.

(** [net.SRV]: the target and the port. *)
Record SRV := MkSRV { srv_Target : string; srv_Port : Z }.

(** [zeroconf.ServiceEntry]: its IPv4 addresses, in text form, and the port. *)
Record ServiceEntry := MkServiceEntry { se_AddrIPv4 : list string; se_Port : Z }.

(** [Registerer.Register]: [AlreadyRegistered None] is a collector of another
    type. *)
Inductive RegAnswer :=
| Registered
| AlreadyRegistered (existing : option string)
| RegisterFailed (err : gerror).

(** [TrySend] is a non-blocking send ([select] with a default case).  [Sleep d]
    is a [select] between [ctx.Done()] and [time.After(d)]: [Some err] is
    [ctx.Err()] of a cancelled context.  [MapRange] answers with a code for the
    order in which the entries of a map of that size are visited.  [Stat] answers
    with the permission bits, [Exec] with the output and the error of a command.
    [Serve] runs the server until it fails ([Some err]) or a signal arrives.
    [Acquire] opens a database or the like of a library and [Release] closes it,
    [Start] and [Stop] do so for a periodic task, [NewStorage] and [Close] for a
    storage in memory; [Listen] opens a listener, which the server closes that
    serves it; what [Construct] makes needs no closing.  [RegisterServer] registers the daemon
    service with a new gRPC server.  [Spawn] is a [go] statement, [GroupWait] the
    [Wait] of an error group, [Cancel] the cancellation of its context.  A call
    that only reports success answers with [None] or its error. *)
Definition aresp (c : acmd) : Type :=
  match c with
  | InClusterConfig | NewClientset | NewDynamicClient => option gerror
  | GetNode _ => result Node
  | ListBlockAffinities | ListCiliumNodes => result (list Unstructured)
  | NewRequest _ => option gerror
  | HttpDo _ => result HttpResp
  | LookupSRV _ _ _ => result (list SRV)
  | DHCPClient _ => option gerror
  | DHCPDiscover _ => result (list string)
  | MDNSResolver => option gerror
  | MDNSBrowse => result (list ServiceEntry)
  | MkdirAll _ => option gerror
  | ReadFile _ => result string
  | WriteFile _ _ => option gerror
  | CreateTemp _ _ => result string
  | FileWrite _ _ | FileSync _ | FileChmod _ _ | FileClose _ => option gerror
  | Rename _ _ | Remove _ => option gerror
  | Stat _ => result Z
  | Exec _ => string * option gerror
  | Serve _ _ _ => option gerror
  | Shutdown _ => option gerror
  | LoadASInfo _ => option gerror
  | LocalIA => result string
  | DefaultLocalIP => result (list Z)
  | GatewayRun _ => option gerror
  | LoadTRCs _ _ => option gerror
  | Construct _ _ | Acquire _ _ | Release _ _ => option gerror
  | Start _ | Stop _ | NewStorage _ | Close _ => unit
  | Listen _ => option gerror
  | Register _ => RegAnswer
  | RegisterServer _ => unit
  | Spawn _ => unit
  | GroupWait => option gerror
  | Cancel | OnUp => unit
  | TrySend _ => unit
  | Sleep _ => option gerror
  | MapRange _ => list nat
  end.

Abbreviation agent := (prog aresp).

(** Turn the nil-or-error answer into a [result]. *)
Definition check (o : option gerror) : result unit :=
  match o with None => Ok tt | Some e => Err e end.

(** Every order of a list is [visit code l] for some code: the next element is
    picked by its index among the remaining ones. *)
Fixpoint visit_go {A} (fuel : nat) (code : list nat) (l : list A) : list A :=
  match fuel, l with
  | S f, x :: l' =>
      let '(c, code') := match code with c :: cs => (c, cs) | [] => (0%nat, []) end in
      let i := (c mod length (x :: l'))%nat in
      default x ((x :: l') !! i)
        :: visit_go f code' (take i (x :: l') ++ drop (S i) (x :: l'))
  | _, _ => []
  end.

Definition visit {A} (code : list nat) (l : list A) : list A := visit_go (length l) code l.

Lemma visit_perm {A} (code : list nat) (l : list A) : visit code l ≡ₚ l.
Proof.
  unfold visit. remember (length l) as n eqn:En. revert code l En.
  induction n as [|n IH]; intros code [|x l] En; try done.
  cbn [visit_go]. destruct code as [|c code];
  match goal with |- context[(?c mod ?k)%nat] => set (i := (c mod k)%nat) end;
  (assert (Hi : (i < length (x :: l))%nat) by (apply Nat.mod_upper_bound; done);
   destruct (lookup_lt_is_Some_2 _ _ Hi) as [y Hy]; rewrite Hy; cbn [default];
   rewrite IH by (rewrite length_app, length_take, length_drop; cbn in *; lia);
   rewrite <- (take_drop_middle (x :: l) i y Hy) at 3; by rewrite Permutation_middle).
Qed.

(** The map's entries in the order chosen. *)
Definition range_map {V} (m : gmap string V) : agent (list (string * V)) :=
  c ← call (MapRange (size m)); Ret (visit c (map_to_list m)).

Lemma exec_range_map {V} (m : gmap string V) tr l : exec (range_map m) tr l ->
  l ≡ₚ map_to_list m /\ exists c, tr = [existT (MapRange (size m)) c].
Proof.
  unfold range_map. intros H. exec_inv H. subst l. split; [apply visit_perm | by eexists].
Qed.
