(* ===== verification/Netip.v ===== *)
(** * Go's [net/netip]: addresses and prefixes

    The operations of [netip.Addr] and [netip.Prefix] (and [net.ParseIP]) that
    the operator and the agent rely on, with the text formats.  An IPv4 address
    is a 32-bit [Z], an IPv6 address a 128-bit [Z] with its zone. *)
From S2P Require Import Prelude GoStrings.
Local Open Scope Z_scope.

Inductive Addr :=
| AddrZero
| Addr4 (v : Z)
| Addr6 (v : Z) (zone : string).

Global Instance Addr_eq_dec : EqDecision Addr.
Proof. solve_decision. Defined.

(** [pbits] is [-1] in the invalid prefix, as [Prefix.Bits] reports it. *)
Record Prefix := MkPrefix { paddr : Addr; pbits : Z }.

Global Instance Prefix_eq_dec : EqDecision Prefix.
Proof. solve_decision. Defined.

Definition Is4 (a : Addr) : bool := match a with Addr4 _ => true | _ => false end.
Definition Is6 (a : Addr) : bool := match a with Addr6 _ _ => true | _ => false end.
Definition BitLen (a : Addr) : Z :=
  match a with AddrZero => 0 | Addr4 _ => 32 | Addr6 _ _ => 128 end.
Definition hasZone (a : Addr) : bool :=
  match a with Addr6 _ z => negb (bool_decide (z = "")) | _ => false end.
Definition withoutZone (a : Addr) : Addr :=
  match a with Addr6 v _ => Addr6 v "" | _ => a end.

Definition IsValid (p : Prefix) : bool := 0 <=? pbits p.

Definition PrefixFrom (a : Addr) (bits : Z) : Prefix :=
  MkPrefix (withoutZone a)
    (if negb (bool_decide (a = AddrZero)) && (0 <=? bits) && (bits <=? BitLen a)
     then bits else -1).

(** The [b] high bits of a [w]-bit word. *)
Definition mask (w b : Z) : Z := Z.shiftl (Z.ones b) (w - b).

(** [Addr.Prefix]: the address masked to [b] bits; [None] when [b] is out of
    range. *)
Definition Addr_Prefix (a : Addr) (b : Z) : option Prefix :=
  if b <? 0 then None
  else match a with
       | AddrZero => Some (MkPrefix AddrZero (-1))
       | Addr4 v => if 32 <? b then None
                    else Some (PrefixFrom (Addr4 (Z.land v (mask 32 b))) b)
       | Addr6 v z => if 128 <? b then None
                      else Some (PrefixFrom (Addr6 (Z.land v (mask 128 b)) "") b)
       end.

Definition Masked (p : Prefix) : Prefix :=
  default (MkPrefix AddrZero (-1)) (Addr_Prefix (paddr p) (pbits p)).

Definition Contains (p : Prefix) (a : Addr) : bool :=
  if negb (IsValid p) || hasZone a then false
  else match paddr p, a with
       | Addr4 v, Addr4 w => Z.shiftr (Z.lxor w v) (32 - pbits p) =? 0
       | Addr6 v _, Addr6 w _ => Z.land (Z.lxor w v) (mask 128 (pbits p)) =? 0
       | _, _ => false
       end.

Definition Overlaps (p o : Prefix) : bool :=
  if negb (IsValid p) || negb (IsValid o) then false
  else if bool_decide (p = o) then true
  else if negb (Bool.eqb (Is4 (paddr p)) (Is4 (paddr o))) then false
  else let minBits := if pbits p <? pbits o then pbits p else pbits o in
       if minBits =? 0 then true
       else match Addr_Prefix (paddr p) minBits, Addr_Prefix (paddr o) minBits with
            | Some p', Some o' => bool_decide (paddr p' = paddr o')
            | _, _ => false
            end.

(** ** IPv4 bytes *)
Definition byte_of (v i : Z) : Z := Z.land (Z.shiftr v (24 - 8 * i)) 255.

(** [Addr.As4]; [None] is its panic on an address that is not IPv4 (or an
    IPv4-mapped IPv6 address). *)
Definition As4 (a : Addr) : option (list Z) :=
  match a with
  | Addr4 v => Some [byte_of v 0; byte_of v 1; byte_of v 2; byte_of v 3]
  | Addr6 v _ =>
      if Z.shiftr v 32 =? 65535
      then Some [byte_of v 0; byte_of v 1; byte_of v 2; byte_of v 3] else None
  | AddrZero => None
  end.

Definition of_bytes (l : list Z) : Z := fold_left (fun acc b => acc * 256 + b) l 0.

Definition AddrFrom4 (l : list Z) : Addr := Addr4 (of_bytes l).

(** ** Parsing addresses *)
Definition addr_err {A} (inp text : string) (at_ : string) : result A :=
  Err (errorf ([Lit "ParseAddr("; Quo inp; Lit "): "; Lit text]
               ++ (if bool_decide (at_ = "") then [] else [Lit " (at "; Quo at_; Lit ")"]))).

(** [parseIPv4Fields]: [val] and [digLen] of the current octet, the finished
    octets, and whether the previous byte was a dot (or there was none). *)
Fixpoint parseIPv4Fields (inp s : string) (val digLen : Z) (fields : list Z)
    (afterDot : bool) : result (list Z) :=
  match s with
  | EmptyString =>
      if (length fields <? 3)%nat then addr_err inp "IPv4 address too short" ""
      else Ok (fields ++ [val])
  | String c r =>
      if is_digit c then
        if (digLen =? 1) && (val =? 0)
        then addr_err inp "IPv4 field has octet with leading zero" ""
        else let val' := val * 10 + digit_val c in
             if 255 <? val' then addr_err inp "IPv4 field has value >255" ""
             else parseIPv4Fields inp r val' (digLen + 1) fields false
      else if byte_is 46 c then
        if afterDot || bool_decide (r = "")
        then addr_err inp "IPv4 field must have at least one digit" s
        else if (length fields =? 3)%nat then addr_err inp "IPv4 address too long" ""
        else parseIPv4Fields inp r 0 0 (fields ++ [val]) true
      else addr_err inp "unexpected character" s
  end.

Definition parseIPv4 (s : string) : result Addr :=
  AddrFrom4 <$> parseIPv4Fields s s 0 0 [] true.

Definition hex_val (c : ascii) : option Z :=
  let n := code c in
  if (48 <=? n) && (n <=? 57) then Some (n - 48)
  else if (97 <=? n) && (n <=? 102) then Some (n - 97 + 10)
  else if (65 <=? n) && (n <=? 70) then Some (n - 65 + 10)
  else None.

(** The hex group at the head of [s]: its value, how many digits it has, and
    what follows. *)
Fixpoint hex_group (inp s0 s : string) (acc off : Z) : result (Z * Z * string) :=
  match s with
  | EmptyString => Ok (acc, off, s)
  | String c r =>
      match hex_val c with
      | None => Ok (acc, off, s)
      | Some d =>
          let acc' := acc * 16 + d in
          if 3 <? off then addr_err inp "each group must have 4 or less digits" s0
          else if 65535 <? acc' then addr_err inp "IPv6 field has value >=2^16" s0
          else hex_group inp s0 r acc' (off + 1)
      end
  end.

(** The groups parsed so far, where the [::] stands among them, and the rest.
    [fuel] is the number of groups there is still room for ([i < 16]). *)
Fixpoint parseIPv6Groups (fuel : nat) (inp s : string) (groups : list Z)
    (ellipsis : option nat) : result (list Z * option nat * string) :=
  match fuel with
  | O => Ok (groups, ellipsis, s)
  | S fuel' =>
      '(acc, off, rest) ← hex_group inp s s 0 0;
      if off =? 0
      then addr_err inp "each colon-separated field must have at least one digit" s
      else
      match rest with
      | EmptyString => Ok (groups ++ [acc], ellipsis, "")
      | String c r =>
          if byte_is 46 c then
            if negb (bool_decide (is_Some ellipsis)) && negb (length groups =? 6)%nat
            then addr_err inp "embedded IPv4 address must replace the final 2 fields of the address" s
            else if (6 <? length groups)%nat
            then addr_err inp "too many hex fields to fit an embedded IPv4 at the end of the address" s
            else match parseIPv4Fields inp s 0 0 [] true with
                 | Ok [a; b; c4; d] =>
                     Ok (groups ++ [a * 256 + b; c4 * 256 + d], ellipsis, "")
                 | Ok _ => addr_err inp "" ""
                 | Err e => Err e
                 end
          else if negb (byte_is 58 c)
          then addr_err inp "unexpected character, want colon" rest
          else
          match r with
          | EmptyString => addr_err inp "colon must be followed by more characters" rest
          | String c2 r2 =>
              let groups' := groups ++ [acc] in
              if byte_is 58 c2 then
                if bool_decide (is_Some ellipsis)
                then addr_err inp "multiple :: in address" r
                else match r2 with
                     | EmptyString => Ok (groups', Some (length groups'), "")
                     | _ => parseIPv6Groups fuel' inp r2 groups' (Some (length groups'))
                     end
              else parseIPv6Groups fuel' inp r groups' ellipsis
          end
      end
  end.

Definition of_groups (l : list Z) : Z := fold_left (fun acc g => acc * 65536 + g) l 0.

Definition parseIPv6 (inp : string) : result Addr :=
  let '(s, zone, badZone) :=
    match cut_first 37 inp with
    | Some (s, z) => (s, z, bool_decide (z = ""))
    | None => (inp, "", false)
    end in
  if badZone : bool then addr_err inp "zone must be a non-empty string" ""
  else
  let '(s, ellipsis) :=
    match s with
    | String c1 (String c2 r) =>
        if byte_is 58 c1 && byte_is 58 c2 then (r, Some O) else (s, None)
    | _ => (s, None)
    end in
  if bool_decide (ellipsis = Some O) && bool_decide (s = "") then Ok (Addr6 0 zone)
  else
  '(groups, ellipsis', rest) ← parseIPv6Groups 8 inp s [] ellipsis;
  if negb (bool_decide (rest = "")) then addr_err inp "trailing garbage after address" rest
  else if (length groups <? 8)%nat then
    match ellipsis' with
    | None => addr_err inp "address string too short" ""
    | Some e => Ok (Addr6 (of_groups (take e groups ++ replicate (8 - length groups) 0
                                      ++ drop e groups)) zone)
    end
  else match ellipsis' with
       | Some _ => addr_err inp "the :: must expand to at least one field of zeros" ""
       | None => Ok (Addr6 (of_groups groups) zone)
       end.

Fixpoint ParseAddr_scan (inp s : string) : result Addr :=
  match s with
  | EmptyString => addr_err inp "unable to parse IP" ""
  | String c r =>
      if byte_is 46 c then parseIPv4 inp
      else if byte_is 58 c then parseIPv6 inp
      else if byte_is 37 c then addr_err inp "missing IPv6 address" ""
      else ParseAddr_scan inp r
  end.

Definition ParseAddr (s : string) : result Addr := ParseAddr_scan s s.

Definition prefix_err {A} (inp : string) (m : msg) : result A :=
  Err (errorf ([Lit "netip.ParsePrefix("; Quo inp; Lit "): "] ++ m)).

Definition ParsePrefix (s : string) : result Prefix :=
  match cut_last 47 s with
  | None => prefix_err s [Lit "no '/'"]
  | Some (a, bitsStr) =>
      match ParseAddr a with
      | Err e => prefix_err s (e_msg e)
      | Ok ip =>
          if Is6 ip && hasZone ip
          then prefix_err s [Lit "IPv6 zones cannot be present in a prefix"]
          else if match bitsStr with
                  | String c (String _ _) => (code c <? 49) || (57 <? code c)
                  | _ => false
                  end
          then prefix_err s [Lit "bad bits after slash: "; Quo bitsStr]
          else match atoi_unsigned bitsStr with
               | None => prefix_err s [Lit "bad bits after slash: "; Quo bitsStr]
               | Some bits =>
                   if (bits <? 0) || (BitLen ip <? bits)
                   then prefix_err s [Lit "prefix length out of range"]
                   else Ok (PrefixFrom ip bits)
               end
      end
  end.

(** [net.ParseIP] and [IP.To4() != nil]. *)
Definition ParseIP (s : string) : option Addr :=
  match ParseAddr s with
  | Ok a => if hasZone a then None else Some a
  | Err _ => None
  end.

Definition To4_ok (a : Addr) : bool :=
  match a with
  | Addr4 _ => true
  | Addr6 v _ => Z.shiftr v 32 =? 65535
  | AddrZero => false
  end.

(** ** Printing *)
Definition string4 (v : Z) : string :=
  itoa (byte_of v 0) +:+ "." +:+ itoa (byte_of v 1) +:+ "."
  +:+ itoa (byte_of v 2) +:+ "." +:+ itoa (byte_of v 3).

Definition hex_digit (d : Z) : ascii :=
  ascii_of_N (Z.to_N (if d <? 10 then 48 + d else 87 + d)).

Fixpoint hex_digits (fuel : nat) (v : Z) (acc : string) : string :=
  match fuel with
  | O => acc
  | S f => let acc' := String (hex_digit (v mod 16)) acc in
           if v / 16 =? 0 then acc' else hex_digits f (v / 16) acc'
  end.

Definition hex16 (v : Z) : string := hex_digits 4 v "".

Definition groups_of (v : Z) : list Z :=
  map (fun i => Z.land (Z.shiftr v (112 - 16 * i)) 65535) [0; 1; 2; 3; 4; 5; 6; 7].

Fixpoint zero_run (l : list Z) : nat :=
  match l with
  | g :: r => if g =? 0 then S (zero_run r) else O
  | [] => O
  end.

(** The first longest run of at least two zero groups: start and length. *)
Fixpoint longest_run (i : nat) (l : list Z) (best : nat * nat) : nat * nat :=
  match l with
  | [] => best
  | _ :: r =>
      let n := zero_run l in
      longest_run (S i) r
        (if ((2 <=? n) && (snd best <? n))%nat then (i, n) else best)
  end.

Definition string6 (v : Z) (zone : string) : string :=
  let gs := groups_of v in
  let '(start, len) := longest_run 0 gs (O, O) in
  (if (len =? 0)%nat then Join (map hex16 gs) ":"
   else Join (map hex16 (take start gs)) ":" +:+ "::"
        +:+ Join (map hex16 (drop (start + len) gs)) ":")
  +:+ (if bool_decide (zone = "") then "" else "%" +:+ zone).

Definition Addr_String (a : Addr) : string :=
  match a with
  | AddrZero => "invalid IP"
  | Addr4 v => string4 v
  | Addr6 v z =>
      if Z.shiftr v 32 =? 65535
      then "::ffff:" +:+ string4 (Z.land v (Z.ones 32))
           +:+ (if bool_decide (z = "") then "" else "%" +:+ z)
      else string6 v z
  end.

Definition Prefix_String (p : Prefix) : string :=
  if IsValid p then Addr_String (paddr p) +:+ "/" +:+ itoa (pbits p)
  else "invalid Prefix".
