(* ===== verification/NetipFacts.v ===== *)
(** * IPv4 prefixes as sets of addresses

    [Contains], [Overlaps] and [Masked] in terms of division by powers of two,
    the aligned-block facts the policy engine relies on, and the text round
    trip of IPv4 prefixes. *)
From S2P Require Import Prelude GoStrings Netip.
Local Open Scope Z_scope.

(** ** Well-formed IPv4 prefixes *)
Definition P4 (v b : Z) : Prefix := MkPrefix (Addr4 v) b.

Definition valid4 (p : Prefix) : Prop :=
  exists v b, p = P4 v b /\ 0 <= v < 2 ^ 32 /\ 0 <= b <= 32.

Definition aligned4 (p : Prefix) : Prop :=
  exists v b, p = P4 v b /\ 0 <= v < 2 ^ 32 /\ 0 <= b <= 32 /\ v mod 2 ^ (32 - b) = 0.

Definition in4 (p : Prefix) (a : Z) : Prop := Contains p (Addr4 a) = true.

Lemma aligned4_valid p : aligned4 p -> valid4 p.
Proof. intros (v & b & ? & ? & ? & ?). by exists v, b. Qed.
#[export] Hint Resolve aligned4_valid : scion.

(** ** Arithmetic *)
Lemma pow2_split b c : 0 <= b -> b <= c -> 2 ^ c = 2 ^ (c - b) * 2 ^ b.
Proof. intros. rewrite <- Z.pow_add_r by lia. f_equal. lia. Qed.

Lemma lxor_shiftr_0 a v k : 0 <= k ->
  (Z.shiftr (Z.lxor a v) k =? 0) = true <-> a / 2 ^ k = v / 2 ^ k.
Proof.
  intros. rewrite Z.eqb_eq, Z.shiftr_lxor, Z.lxor_eq_0_iff.
  by rewrite !Z.shiftr_div_pow2 by lia.
Qed.

Lemma land_mask v b : 0 <= v < 2 ^ 32 -> 0 <= b <= 32 ->
  Z.land v (mask 32 b) = v / 2 ^ (32 - b) * 2 ^ (32 - b).
Proof.
  intros Hv Hb. rewrite <- Z.shiftr_div_pow2, <- Z.shiftl_mul_pow2 by lia.
  apply Z.bits_inj'. intros i Hi. unfold mask.
  rewrite Z.land_spec, !Z.shiftl_spec by lia.
  destruct (decide (i < 32 - b)).
  - rewrite !(Z.testbit_neg_r _ (i - (32 - b))) by lia. apply andb_false_r.
  - rewrite Z.shiftr_spec by lia. replace (i - (32 - b) + (32 - b)) with i by lia.
    destruct (decide (i < 32)).
    + rewrite Z.ones_spec_low by lia. apply andb_true_r.
    + rewrite Z.ones_spec_high by lia. rewrite andb_false_r. symmetry.
      rewrite <- (Z.mod_small v (2 ^ 32)) by lia. by apply Z.mod_pow2_bits_high; lia.
Qed.

Lemma div_block a k : 0 <= k -> 0 <= a -> a / 2 ^ k * 2 ^ k <= a < (a / 2 ^ k + 1) * 2 ^ k.
Proof.
  intros Hk Ha. pose proof (Z_pow2_pos k Hk). pose proof (Z.div_mod a (2 ^ k)).
  pose proof (Z.mod_pos_bound a (2 ^ k)). lia.
Qed.

(** A coarser block index is determined by a finer one. *)
Lemma div_coarser a v j k : 0 <= j <= k ->
  a / 2 ^ j = v / 2 ^ j -> a / 2 ^ k = v / 2 ^ k.
Proof.
  intros Hjk H. rewrite (pow2_split j k) by lia.
  rewrite (Z.mul_comm (2 ^ (k - j))), <- !Z.div_div;
    [by rewrite H | pose proof (Z_pow2_pos j); lia | apply Z_pow2_pos; lia
    | pose proof (Z_pow2_pos j); lia | apply Z_pow2_pos; lia].
Qed.

(** ** The operations on IPv4 prefixes *)
Lemma Contains4 v b a : 0 <= b <= 32 ->
  Contains (P4 v b) (Addr4 a) = true <-> a / 2 ^ (32 - b) = v / 2 ^ (32 - b).
Proof.
  intros Hb. unfold Contains, IsValid, P4; cbn.
  rewrite (proj2 (Z.leb_le 0 b)) by lia. cbn. apply lxor_shiftr_0. lia.
Qed.

Lemma in4_iff v b a : 0 <= b <= 32 ->
  in4 (P4 v b) a <-> a / 2 ^ (32 - b) = v / 2 ^ (32 - b).
Proof. apply Contains4. Qed.

Lemma Addr_Prefix4 v b : 0 <= v < 2 ^ 32 -> 0 <= b <= 32 ->
  Addr_Prefix (Addr4 v) b = Some (P4 (v / 2 ^ (32 - b) * 2 ^ (32 - b)) b).
Proof.
  intros Hv Hb. unfold Addr_Prefix.
  rewrite (proj2 (Z.ltb_ge b 0)), (proj2 (Z.ltb_ge 32 b)) by lia.
  rewrite land_mask by lia. unfold PrefixFrom; cbn.
  by rewrite (proj2 (Z.leb_le 0 b)), (proj2 (Z.leb_le b 32)) by lia.
Qed.

Lemma Overlaps4 v b w c : 0 <= v < 2 ^ 32 -> 0 <= b <= 32 -> 0 <= w < 2 ^ 32 -> 0 <= c <= 32 ->
  Overlaps (P4 v b) (P4 w c) = true
  <-> v / 2 ^ (32 - Z.min b c) = w / 2 ^ (32 - Z.min b c).
Proof.
  intros Hv Hb Hw Hc. unfold Overlaps, IsValid; cbn -[Addr_Prefix].
  rewrite (proj2 (Z.leb_le 0 b)), (proj2 (Z.leb_le 0 c)) by lia.
  cbn -[Addr_Prefix]. case_bool_decide as Heq.
  { unfold P4 in Heq. simplify_eq. done. }
  replace (if b <? c then b else c) with (Z.min b c)
    by (destruct (Z.ltb_spec b c); lia).
  destruct (Z.eqb_spec (Z.min b c) 0) as [H0|H0].
  - rewrite H0. rewrite !Z.div_small by lia. done.
  - rewrite !Addr_Prefix4 by lia. cbn. rewrite bool_decide_eq_true.
    assert (0 < 2 ^ (32 - Z.min b c)) by (apply Z_pow2_pos; lia).
    split; [intros [= H1]; nia | by intros ->].
Qed.

Lemma Masked4 v b : 0 <= v < 2 ^ 32 -> 0 <= b <= 32 ->
  Masked (P4 v b) = P4 (v / 2 ^ (32 - b) * 2 ^ (32 - b)) b.
Proof. intros. unfold Masked; cbn [paddr pbits P4]. by rewrite Addr_Prefix4. Qed.

Lemma Masked_aligned p : valid4 p -> aligned4 (Masked p).
Proof.
  intros (v & b & -> & Hv & Hb). rewrite Masked4 by lia.
  assert (0 < 2 ^ (32 - b)) by (apply Z_pow2_pos; lia).
  pose proof (div_block v (32 - b)).
  eexists _, _. split; [done|]. repeat split; try lia.
  - apply Z.mul_nonneg_nonneg; [apply Z.div_pos|]; lia.
  - by apply Z.mod_mul; lia.
Qed.

Lemma Masked_in4 p a : valid4 p -> in4 (Masked p) a <-> in4 p a.
Proof.
  intros (v & b & -> & Hv & Hb). rewrite Masked4, !in4_iff by lia.
  assert (0 < 2 ^ (32 - b)) by (apply Z_pow2_pos; lia).
  by rewrite Z.div_mul by lia.
Qed.

Lemma Masked_pbits p : valid4 p -> pbits (Masked p) = pbits p.
Proof. intros (v & b & -> & Hv & Hb). by rewrite Masked4. Qed.

(** Two prefixes overlap exactly when they share an address. *)
Lemma Overlaps4_iff p q : valid4 p -> valid4 q ->
  Overlaps p q = true <-> exists a, 0 <= a < 2 ^ 32 /\ in4 p a /\ in4 q a.
Proof.
  intros (v & b & -> & Hv & Hb) (w & c & -> & Hw & Hc).
  rewrite Overlaps4 by lia. split.
  - intros H. destruct (decide (b <= c)).
    + exists w. rewrite !in4_iff by lia. by rewrite Z.min_l in H by lia.
    + exists v. rewrite !in4_iff by lia. by rewrite Z.min_r in H by lia.
  - intros (a & Ha & H1 & H2). rewrite !in4_iff in * by lia.
    apply (div_coarser _ _ _ (32 - Z.min b c)) in H1; [|lia].
    apply (div_coarser _ _ _ (32 - Z.min b c)) in H2; [|lia]. congruence.
Qed.

(** Every address of an IPv4 prefix is a 32-bit number. *)
Lemma in4_range p a : valid4 p -> in4 p a -> 0 <= a < 2 ^ 32.
Proof.
  intros (v & b & -> & Hv & Hb) H. rewrite in4_iff in H by lia.
  pose proof (Z_pow2_pos (32 - b) ltac:(lia)) as Hp.
  assert (Hd : 0 <= v / 2 ^ (32 - b) < 2 ^ b).
  { split; [by apply Z.div_pos; lia|]. apply Z.div_lt_upper_bound; [lia|].
    rewrite <- Z.pow_add_r by lia. replace (32 - b + b) with 32 by lia. lia. }
  rewrite <- H in Hd. assert (Hw : 2 ^ 32 = 2 ^ b * 2 ^ (32 - b)).
  { rewrite <- Z.pow_add_r by lia. f_equal. lia. }
  pose proof (Z.div_mod a (2 ^ (32 - b)) ltac:(lia)).
  pose proof (Z.mod_pos_bound a (2 ^ (32 - b)) ltac:(lia)). nia.
Qed.

Lemma Overlaps4_share p q a : valid4 p -> valid4 q -> in4 p a -> in4 q a ->
  Overlaps p q = true.
Proof.
  intros Hp Hq Ha Hb. apply Overlaps4_iff; [done..|]. exists a.
  by split; [apply (in4_range p)|].
Qed.

Lemma Overlaps_Masked_r p q : valid4 p -> valid4 q ->
  Overlaps p (Masked q) = Overlaps p q.
Proof.
  intros Hp Hq. apply eq_true_iff_eq.
  rewrite !Overlaps4_iff by auto using Masked_aligned with scion.
  by setoid_rewrite Masked_in4.
Qed.

(** The wider of two prefixes that share an address contains the other. *)
Lemma in4_nested p q a : valid4 p -> valid4 q -> pbits q <= pbits p ->
  in4 p a -> in4 q a -> forall x, in4 p x -> in4 q x.
Proof.
  intros (v & b & -> & Hv & Hb) (w & c & -> & Hw & Hc) Hbits; cbn in Hbits.
  rewrite !in4_iff by lia. intros H1 H2 x. rewrite !in4_iff by lia. intros H3.
  apply (div_coarser _ _ _ (32 - c)) in H1; [|lia].
  apply (div_coarser _ _ _ (32 - c)) in H3; [|lia]. congruence.
Qed.

Lemma in4_base v b : 0 <= b <= 32 -> in4 (P4 v b) v.
Proof. intros. by rewrite in4_iff by lia. Qed.

(** ** The two halves of a prefix *)
Lemma aligned_lower v b : aligned4 (P4 v b) -> b < 32 ->
  aligned4 (P4 v (b + 1)) /\ aligned4 (P4 (v + 2 ^ (31 - b)) (b + 1)).
Proof.
  intros (v' & b' & Heq & Hv & Hb & Hm) Hlt. injection Heq as <- <-.
  assert (Hp : 2 ^ (32 - b) = 2 * 2 ^ (31 - b)).
  { rewrite <- Z.pow_succ_r by lia. f_equal. lia. }
  assert (0 < 2 ^ (31 - b)) by (apply Z_pow2_pos; lia).
  apply Z.mod_divide in Hm as [q Hq]; [|lia].
  assert (Hw : 2 ^ 32 = 2 ^ b * 2 ^ (32 - b)).
  { rewrite <- Z.pow_add_r by lia. f_equal. lia. }
  assert (q < 2 ^ b) by nia.
  split; eexists _, _; (split; [done|]).
  - repeat split; try lia. replace (32 - (b + 1)) with (31 - b) by lia.
    rewrite Hq, Hp. replace (q * (2 * 2 ^ (31 - b))) with ((2 * q) * 2 ^ (31 - b)) by ring.
    apply Z.mod_mul. lia.
  - repeat split; try nia. replace (32 - (b + 1)) with (31 - b) by lia.
    rewrite Hq, Hp.
    replace (q * (2 * 2 ^ (31 - b)) + 2 ^ (31 - b)) with ((2 * q + 1) * 2 ^ (31 - b)) by ring.
    apply Z.mod_mul. lia.
Qed.

Lemma in4_halves v b a : aligned4 (P4 v b) -> b < 32 ->
  in4 (P4 v b) a <-> in4 (P4 v (b + 1)) a \/ in4 (P4 (v + 2 ^ (31 - b)) (b + 1)) a.
Proof.
  intros (v' & b' & Heq & Hv & Hb & Hm) Hlt. injection Heq as <- <-.
  rewrite !in4_iff by lia. replace (32 - (b + 1)) with (31 - b) by lia.
  assert (Hp : 2 ^ (32 - b) = 2 ^ (31 - b) * 2).
  { rewrite Z.mul_comm, <- Z.pow_succ_r by lia. f_equal. lia. }
  assert (0 < 2 ^ (31 - b)) by (apply Z_pow2_pos; lia).
  apply Z.mod_divide in Hm as [q ->]; [|lia]. rewrite Hp.
  rewrite <- !Z.div_div by lia.
  replace (q * (2 ^ (31 - b) * 2)) with ((2 * q) * 2 ^ (31 - b)) by ring.
  replace ((2 * q) * 2 ^ (31 - b) + 2 ^ (31 - b)) with ((2 * q + 1) * 2 ^ (31 - b)) by ring.
  rewrite !Z.div_mul by lia. set (x := a / 2 ^ (31 - b)).
  rewrite (Z.mul_comm 2 q), Z.div_mul by lia.
  pose proof (Z.div_mod x 2). pose proof (Z.mod_pos_bound x 2). lia.
Qed.

Lemma halves_disjoint v b a : aligned4 (P4 v b) -> b < 32 ->
  in4 (P4 v (b + 1)) a -> in4 (P4 (v + 2 ^ (31 - b)) (b + 1)) a -> False.
Proof.
  intros (v' & b' & Heq & Hv & Hb & Hm) Hlt. injection Heq as <- <-.
  rewrite !in4_iff by lia. replace (32 - (b + 1)) with (31 - b) by lia.
  assert (0 < 2 ^ (31 - b)) by (apply Z_pow2_pos; lia).
  intros ->. replace (v + 2 ^ (31 - b)) with (v + 1 * 2 ^ (31 - b)) by ring.
  rewrite Z.div_add by lia. lia.
Qed.

(** ** Bytes *)
Lemma byte_of_div v i : 0 <= v < 2 ^ 32 -> 0 <= i <= 3 ->
  byte_of v i = v / 2 ^ (24 - 8 * i) mod 2 ^ 8.
Proof.
  intros. unfold byte_of. rewrite Z.shiftr_div_pow2 by lia.
  change 255 with (Z.ones 8). by rewrite Z.land_ones by lia.
Qed.

Lemma byte_of_range v i : 0 <= byte_of v i < 256.
Proof.
  unfold byte_of. change 255 with (Z.ones 8). rewrite Z.land_ones by lia.
  apply Z.mod_pos_bound. lia.
Qed.

Lemma of_bytes_byte_of v : 0 <= v < 2 ^ 32 ->
  of_bytes [byte_of v 0; byte_of v 1; byte_of v 2; byte_of v 3] = v.
Proof.
  intros Hv. rewrite !byte_of_div by lia. unfold of_bytes; cbn [fold_left].
  change (2 ^ (24 - 8 * 0)) with 16777216. change (2 ^ (24 - 8 * 1)) with 65536.
  change (2 ^ (24 - 8 * 2)) with 256. change (2 ^ (24 - 8 * 3)) with 1.
  change (2 ^ 8) with 256. change (2 ^ 32) with 4294967296 in Hv.
  Z.div_mod_to_equations. lia.
Qed.

(** ** The text format of IPv4 prefixes *)
Lemma cut_last_app n s c t : byte_is n c = true ->
  str_forall (fun d => negb (byte_is n d)) t = true ->
  cut_last n (s +:+ String c t) = Some (s, t).
Proof.
  intros Hc Ht.
  assert (Hnone : cut_last n t = None).
  { clear -Ht. induction t as [|d t IH]; [done|]. cbn in *.
    apply andb_prop in Ht as [Hd Ht]. rewrite IH by done.
    apply negb_true_iff in Hd. by rewrite Hd. }
  induction s as [|d s IH].
  - change ("" +:+ String c t) with (String c t). cbn. by rewrite Hnone, Hc.
  - rewrite string_cons_app. cbn. by rewrite IH.
Qed.

(** One octet of [parseIPv4Fields], as a function of its own. *)
Fixpoint octet_scan (s : string) (val digLen : Z) : option (Z * Z) :=
  match s with
  | EmptyString => Some (val, digLen)
  | String c r =>
      if is_digit c then
        if (digLen =? 1) && (val =? 0) then None
        else let val' := val * 10 + digit_val c in
             if 255 <? val' then None else octet_scan r val' (digLen + 1)
      else None
  end.

Lemma parse_octet inp t r val d val' d' fs ad :
  octet_scan t val d = Some (val', d') -> t <> "" ->
  parseIPv4Fields inp (t +:+ r) val d fs ad = parseIPv4Fields inp r val' d' fs false.
Proof.
  revert val d ad. induction t as [|c t IH]; intros val d ad Hs Hne; [done|].
  rewrite string_cons_app. cbn in *. destruct (is_digit c); [|done].
  destruct ((d =? 1) && (val =? 0)); [done|].
  destruct (255 <? val * 10 + digit_val c); [done|].
  destruct (decide (t = "")) as [->|Hne'].
  - cbn in Hs. by simplify_eq.
  - by apply IH.
Qed.

Definition octet_text_ok (n : Z) : bool :=
  match octet_scan (itoa n) 0 0 with
  | Some (v, _) => (v =? n) && str_forall is_digit (itoa n)
                   && negb (bool_decide (itoa n = ""))
  | None => false
  end.

Lemma range_enum (f : Z -> bool) n :
  forallb f (map Z.of_nat (seq 0 n)) = true -> forall z, 0 <= z < Z.of_nat n -> f z = true.
Proof.
  rewrite forallb_spec. intros H z Hz. apply H.
  apply list_elem_of_In, in_map_iff. exists (Z.to_nat z). split; [lia|].
  apply in_seq. lia.
Qed.

Lemma octet_text n : 0 <= n < 256 -> octet_text_ok n = true.
Proof. apply (range_enum _ 256). vm_compute. done. Qed.

Lemma parse_itoa inp n r fs ad : 0 <= n < 256 ->
  exists d, parseIPv4Fields inp (itoa n +:+ r) 0 0 fs ad = parseIPv4Fields inp r n d fs false.
Proof.
  intros Hn. pose proof (octet_text n Hn) as H. unfold octet_text_ok in H.
  destruct (octet_scan (itoa n) 0 0) as [[v d]|] eqn:E; [|done].
  case_bool_eq. exists d. subst v. by apply parse_octet.
Qed.

Lemma itoa_digits n : 0 <= n < 256 -> str_forall is_digit (itoa n) = true.
Proof.
  intros Hn. pose proof (octet_text n Hn) as H. unfold octet_text_ok in H.
  destruct (octet_scan (itoa n) 0 0) as [[v d]|] eqn:E; [|done]. by case_bool_eq.
Qed.

Lemma itoa_nonempty n : 0 <= n < 256 -> itoa n <> "".
Proof.
  intros Hn. pose proof (octet_text n Hn) as H. unfold octet_text_ok in H.
  destruct (octet_scan (itoa n) 0 0) as [[v d]|] eqn:E; [|done]. by case_bool_eq.
Qed.

Lemma parse_dot inp n d r fs : r <> "" -> (length fs < 3)%nat ->
  parseIPv4Fields inp ("." +:+ r) n d fs false = parseIPv4Fields inp r 0 0 (fs ++ [n]) true.
Proof.
  intros Hr Hfs. change ("." +:+ r) with (String "." r). cbn.
  rewrite bool_decide_eq_false_2 by done. cbn.
  by rewrite (proj2 (Nat.eqb_neq (length fs) 3)) by lia.
Qed.

Lemma string_app_nonempty s t : s <> "" -> s +:+ t <> "".
Proof. by destruct s. Qed.

Lemma parseIPv4_string4 v : 0 <= v < 2 ^ 32 -> parseIPv4 (string4 v) = Ok (Addr4 v).
Proof.
  intros Hv. unfold parseIPv4, string4.
  set (inp := itoa _ +:+ _). unfold inp at 2.
  destruct (parse_itoa inp (byte_of v 0) ("." +:+ itoa (byte_of v 1) +:+ "."
    +:+ itoa (byte_of v 2) +:+ "." +:+ itoa (byte_of v 3)) [] true (byte_of_range v 0))
    as [d0 ->].
  rewrite parse_dot by (cbn; auto using string_app_nonempty, itoa_nonempty, byte_of_range with lia).
  cbn [app].
  match goal with |- context [parseIPv4Fields inp (itoa ?n +:+ ?r) 0 0 ?fs ?ad] =>
    destruct (parse_itoa inp n r fs ad (byte_of_range v 1)) as [d1 ->] end.
  rewrite parse_dot by (cbn; auto using string_app_nonempty, itoa_nonempty, byte_of_range with lia).
  cbn [app].
  match goal with |- context [parseIPv4Fields inp (itoa ?n +:+ ?r) 0 0 ?fs ?ad] =>
    destruct (parse_itoa inp n r fs ad (byte_of_range v 2)) as [d2 ->] end.
  rewrite parse_dot by (cbn; auto using itoa_nonempty, byte_of_range with lia).
  cbn [app]. rewrite <- (string_app_nil_r (itoa (byte_of v 3))).
  match goal with |- context [parseIPv4Fields inp (itoa ?n +:+ ?r) 0 0 ?fs ?ad] =>
    destruct (parse_itoa inp n r fs ad (byte_of_range v 3)) as [d3 ->] end.
  cbn. unfold AddrFrom4. by rewrite of_bytes_byte_of.
Qed.

(** An address text of digits up to a dot is parsed as IPv4. *)
Lemma ParseAddr_scan_digits inp t r : str_forall is_digit t = true ->
  ParseAddr_scan inp (t +:+ "." +:+ r) = parseIPv4 inp.
Proof.
  induction t as [|c t IH]; intros Ht; [done|].
  rewrite string_cons_app. cbn in *. apply andb_prop in Ht as [Hc Ht].
  unfold byte_is, is_digit in *. case_bool_eq.
  rewrite (proj2 (Z.eqb_neq (code c) 46)), (proj2 (Z.eqb_neq (code c) 58)),
    (proj2 (Z.eqb_neq (code c) 37)) by lia. by apply IH.
Qed.

Lemma ParseAddr_string4 v : 0 <= v < 2 ^ 32 -> ParseAddr (string4 v) = Ok (Addr4 v).
Proof.
  intros Hv. unfold ParseAddr. unfold string4 at 2.
  rewrite ParseAddr_scan_digits by (apply itoa_digits, byte_of_range).
  by apply parseIPv4_string4.
Qed.

Definition bits_text_ok (b : Z) : bool :=
  str_forall (fun d => negb (byte_is 47 d)) (itoa b)
  && bool_decide (atoi_unsigned (itoa b) = Some b)
  && match itoa b with
     | String c (String _ _) => negb ((code c <? 49) || (57 <? code c))
     | _ => true
     end.

Lemma bits_text b : 0 <= b < 129 -> bits_text_ok b = true.
Proof. apply (range_enum _ 129). vm_compute. done. Qed.

(** Printing an IPv4 prefix and parsing the text gives the prefix back. *)
Lemma ParsePrefix_String4 v b : 0 <= v < 2 ^ 32 -> 0 <= b <= 32 ->
  ParsePrefix (Prefix_String (P4 v b)) = Ok (P4 v b).
Proof.
  intros Hv Hb. unfold Prefix_String, IsValid, P4; cbn.
  rewrite (proj2 (Z.leb_le 0 b)) by lia.
  pose proof (bits_text b ltac:(lia)) as Hbt. unfold bits_text_ok in Hbt. case_bool_eq.
  unfold ParsePrefix. change ("/" +:+ itoa b) with (String "/" (itoa b)).
  rewrite cut_last_app by done. rewrite ParseAddr_string4 by lia. cbn.
  replace (match itoa b with
           | String c (String _ _) => (code c <? 49) || (57 <? code c)
           | _ => false end) with false.
  - rewrite H1. rewrite (proj2 (Z.ltb_ge b 0)), (proj2 (Z.ltb_ge 32 b)) by lia. cbn.
    unfold PrefixFrom; cbn. by rewrite (proj2 (Z.leb_le 0 b)), (proj2 (Z.leb_le b 32)) by lia.
  - destruct (itoa b) as [|? [|? ?]]; [done|done|]. by apply negb_true_iff in H0.
Qed.

(** ** What a successful parse says about the text and the value *)
Definition v4_char (c : ascii) : bool := is_digit c || byte_is 46 c.
Definition cidr_char (c : ascii) : bool := v4_char c || byte_is 47 c.

Lemma parseIPv4Fields_Ok inp s val d fs ad l :
  parseIPv4Fields inp s val d fs ad = Ok l ->
  0 <= val <= 255 -> Forall (fun x => 0 <= x <= 255) fs -> (length fs <= 3)%nat ->
  length l = 4%nat /\ Forall (fun x => 0 <= x <= 255) l /\ str_forall v4_char s = true.
Proof.
  revert val d fs ad. induction s as [|c r IH]; intros val d fs ad H Hval Hfs Hlen; cbn [parseIPv4Fields str_forall] in *.
  - destruct (Nat.ltb_spec (length fs) 3); [done|]. injection H as <-.
    rewrite length_app; cbn. split_and!; [lia | | done].
    apply Forall_app. split; [done | by apply Forall_singleton].
  - unfold v4_char at 1. destruct (is_digit c) eqn:Hc; cbn.
    + destruct ((d =? 1) && (val =? 0)); [done|].
      destruct (Z.ltb_spec 255 (val * 10 + digit_val c)); [done|].
      eapply IH in H; [done | | done | done].
      unfold digit_val, is_digit in *. case_bool_eq. lia.
    + destruct (byte_is 46 c); [|done].
      destruct (ad || _); [done|]. destruct (Nat.eqb_spec (length fs) 3); [done|].
      eapply IH in H; [done | lia | | ].
      * apply Forall_app. split; [done | by apply Forall_singleton].
      * rewrite length_app; cbn. lia.
Qed.

Lemma of_bytes_range l : length l = 4%nat -> Forall (fun x => 0 <= x <= 255) l ->
  0 <= of_bytes l < 2 ^ 32.
Proof.
  destruct l as [|a [|b [|c [|e [|]]]]]; try done. intros _ H.
  repeat match goal with H : Forall _ (_ :: _) |- _ => inversion_clear H end.
  unfold of_bytes; cbn. lia.
Qed.

Lemma parseIPv6_is6 inp a : parseIPv6 inp = Ok a -> Is6 a = true.
Proof.
  unfold parseIPv6, addr_err. intros H.
  destruct (match cut_first 37 inp with Some (s, z) => _ | None => _ end) as [[s z] []]; [done|].
  destruct (match s with String _ (String _ _) => _ | _ => _ end) as [s' e].
  destruct (bool_decide _ && bool_decide _); [by simplify_eq|].
  apply bind_Ok in H as ([[groups e'] rest] & _ & H).
  destruct (negb _); [done|].
  destruct (length groups <? 8)%nat; destruct e'; by simplify_eq.
Qed.

Lemma parseIPv6_not4 inp a : parseIPv6 inp = Ok a -> Is4 a = false.
Proof. intros H%parseIPv6_is6. by destruct a. Qed.

Lemma ParseAddr_valid s a : ParseAddr s = Ok a -> a <> AddrZero.
Proof.
  unfold ParseAddr. generalize s at 2. intros t. induction t as [|c t IH]; cbn; [done|].
  destruct (byte_is 46 c); [|destruct (byte_is 58 c); [|destruct (byte_is 37 c); [done|auto]]].
  - unfold parseIPv4. by destruct (parseIPv4Fields s s 0 0 [] true); intros [= <-].
  - intros H%parseIPv6_is6. by destruct a.
Qed.

Lemma ParseAddr_Ok4 s a : ParseAddr s = Ok a -> Is4 a = true ->
  exists v, a = Addr4 v /\ 0 <= v < 2 ^ 32 /\ str_forall v4_char s = true.
Proof.
  unfold ParseAddr. generalize s at 2. intros t. induction t as [|c t IH]; cbn; [done|].
  destruct (byte_is 46 c); [|destruct (byte_is 58 c); [|destruct (byte_is 37 c); [done|auto]]].
  - unfold parseIPv4. destruct (parseIPv4Fields s s 0 0 [] true) as [l|] eqn:E; cbn; [|done].
    intros [= <-] _. apply parseIPv4Fields_Ok in E as (Hl & Hr & Hs); [|lia|done|cbn; lia].
    eexists. split_and!; [done | by apply of_bytes_range | by apply of_bytes_range | done].
  - intros H%parseIPv6_not4. congruence.
Qed.

Lemma cut_last_Some n s a b : cut_last n s = Some (a, b) ->
  exists c, byte_is n c = true /\ s = a +:+ String c b.
Proof.
  revert a b. induction s as [|c s IH]; intros a b H; cbn in H; [done|].
  destruct (cut_last n s) as [[a' b']|] eqn:E.
  - injection H as <- <-. destruct (IH a' b' eq_refl) as (c' & Hc' & ->). by exists c'.
  - destruct (byte_is n c) eqn:Hc; [|done]. injection H as <- <-. by exists c.
Qed.

Lemma atoi_digits_Some s acc n : atoi_digits s acc = Some n -> str_forall is_digit s = true.
Proof.
  revert acc. induction s as [|c s IH]; intros acc; cbn; [done|].
  destruct (is_digit c); [apply IH | done].
Qed.

Lemma atoi_unsigned_Some s n : atoi_unsigned s = Some n -> str_forall is_digit s = true.
Proof.
  unfold atoi_unsigned. destruct s as [|c s]; [done|].
  destruct (atoi_digits (String c s) 0) eqn:E; [|done]. intros _.
  by eapply atoi_digits_Some.
Qed.

Lemma ParsePrefix_Ok4 s p : ParsePrefix s = Ok p -> Is4 (paddr p) = true ->
  valid4 p /\ str_forall cidr_char s = true.
Proof.
  unfold ParsePrefix, prefix_err. intros H H4.
  destruct (cut_last 47 s) as [[a b]|] eqn:Ecut; [|done].
  destruct (ParseAddr a) as [ip|] eqn:Ea; [|done].
  destruct (Is6 ip && hasZone ip); [done|].
  destruct (match b with String c (String _ _) => _ | _ => _ end); [done|].
  destruct (atoi_unsigned b) as [bits|] eqn:Eb; [|done].
  destruct ((bits <? 0) || (BitLen ip <? bits)) eqn:Er; [done|].
  injection H as <-. cbn in H4. case_bool_eq.
  destruct (ParseAddr_Ok4 a ip Ea) as (v & -> & Hv & Ht).
  { by destruct ip. }
  cbn in *. split.
  - unfold PrefixFrom; cbn. rewrite (proj2 (Z.leb_le 0 bits)), (proj2 (Z.leb_le bits 32)) by lia.
    by exists v, bits.
  - apply cut_last_Some in Ecut as (c & Hc & ->). rewrite str_forall_app. cbn.
    apply atoi_unsigned_Some in Eb.
    rewrite (str_forall_weaken v4_char) by (done || (unfold cidr_char; by intros ? ->)).
    unfold cidr_char at 1. rewrite Hc, orb_true_r. cbn.
    apply (str_forall_weaken is_digit); [|done]. unfold cidr_char, v4_char. by intros ? ->.
Qed.

(** A dotted-decimal address with [/32] is a prefix. *)
Lemma host_route_parse s v : ParseAddr s = Ok (Addr4 v) -> ParsePrefix (s +:+ "/32") = Ok (P4 v 32).
Proof.
  intros H. unfold ParsePrefix.
  change (s +:+ "/32") with (s +:+ String (ascii_of_nat 47) "32").
  rewrite cut_last_app by done. rewrite H. done.
Qed.

Lemma host_route_ok s a : ParseIP s = Some a -> is_ok (ParsePrefix (s +:+ "/32")) = true.
Proof.
  unfold ParseIP. destruct (ParseAddr s) as [b|] eqn:E; [|done]. destruct (hasZone b) eqn:Ez; [done|]. intros _.
  pose proof (ParseAddr_valid s b E) as Hz. unfold ParsePrefix.
  change (s +:+ "/32") with (s +:+ String (ascii_of_nat 47) "32").
  rewrite cut_last_app by done. rewrite E, Ez, andb_false_r. by destruct b.
Qed.

(** ** The characters of an address *)
Definition addr_char (c : ascii) : bool :=
  bool_decide (is_Some (hex_val c)) || byte_is 46 c || byte_is 58 c.

Lemma v4_addr_char c : v4_char c = true -> addr_char c = true.
Proof.
  unfold v4_char, addr_char, is_digit, hex_val. intros [H|H]%orb_prop; [|by rewrite H, orb_true_r].
  rewrite H. by rewrite bool_decide_eq_true_2.
Qed.

Lemma hex_group_text inp s0 s acc off acc' off' rest : hex_group inp s0 s acc off = Ok (acc', off', rest) ->
  exists pre, s = pre +:+ rest /\ str_forall addr_char pre = true.
Proof.
  revert acc off. induction s as [|c s IH]; intros acc off; cbn [hex_group].
  { intros [= <- <- <-]. by exists "". }
  destruct (hex_val c) as [d|] eqn:E; [|intros [= <- <- <-]; by exists ""].
  destruct (3 <? off); [done|]. destruct (65535 <? _); [done|]. intros (pre & -> & Hp)%IH.
  exists (String c pre). split; [done|]. cbn. unfold addr_char at 1. by rewrite E, bool_decide_eq_true_2 by done.
Qed.

Lemma parseIPv6Groups_text n inp s gs el gs' el' rest : parseIPv6Groups n inp s gs el = Ok (gs', el', rest) ->
  exists pre, s = pre +:+ rest /\ str_forall addr_char pre = true.
Proof.
  revert s gs el. induction n as [|n IH]; intros s gs el; cbn [parseIPv6Groups].
  { intros [= <- <- <-]. by exists "". }
  intros ([[acc off] rest1] & Hg & H)%bind_Ok. destruct (off =? 0); [done|].
  destruct (hex_group_text _ _ _ _ _ _ _ _ Hg) as (pre & -> & Hp).
  destruct rest1 as [|c r]; [injection H as <- <- <-; by exists pre|].
  destruct (byte_is 46 c) eqn:E46.
  { destruct (_ && _); [done|]. destruct (6 <? length gs)%nat; [done|].
    destruct (parseIPv4Fields _ _ _ _ _ _) as [l|] eqn:E4; [|done].
    apply parseIPv4Fields_Ok in E4 as (_ & _ & Hs); [|lia | constructor | cbn; lia].
    assert (rest = "") as -> by (do 5 (destruct l; try done); by injection H as <- <- <-).
    exists (pre +:+ String c r). split; [by rewrite string_app_nil_r|].
    revert Hs. apply str_forall_weaken. apply v4_addr_char. }
  destruct (byte_is 58 c) eqn:E58; cbn [negb] in H; [|done].
  assert (Hc : addr_char c = true) by (unfold addr_char; by rewrite E58, orb_true_r).
  assert (Hcons : forall mid, str_forall addr_char mid = true ->
    str_forall addr_char (pre +:+ String c mid) = true).
  { intros mid Hm. rewrite str_forall_app. cbn. by rewrite Hp, Hc, Hm. }
  destruct r as [|c2 r2]; [done|]. destruct (byte_is 58 c2) eqn:E2.
  - assert (Hc2 : addr_char c2 = true) by (unfold addr_char; by rewrite E2, orb_true_r).
    case_bool_decide; [done|]. destruct r2 as [|c3 r3].
    + injection H as <- <- <-. exists (pre +:+ String c (String c2 "")).
      split; [by rewrite string_app_nil_r|]. apply Hcons. cbn. by rewrite Hc2.
    + apply IH in H as (pre2 & E & Hp2). rewrite E. exists (pre +:+ String c (String c2 pre2)).
      split; [by rewrite string_app_assoc|]. apply Hcons. cbn. by rewrite Hc2.
  - apply IH in H as (pre2 & E & Hp2). rewrite E. exists (pre +:+ String c pre2).
    split; [by rewrite string_app_assoc|]. by apply Hcons.
Qed.

(** The text of an IP address has hexadecimal digits, dots and colons only. *)
Lemma parseIPv6_text s v : parseIPv6 s = Ok (Addr6 v "") -> str_forall addr_char s = true.
Proof.
  unfold parseIPv6. destruct (cut_first 37 s) as [[s1 z]|] eqn:Ecut.
  { case_bool_decide as Hz; [done|]. intros H. exfalso. revert H.
    match goal with |- (let '(_, _) := ?m in _) = _ -> _ => destruct m as [t el] end.
    destruct (_ && _); [by intros [= _ ->]|]. intros ([[gs el'] rest] & _ & H)%bind_Ok.
    destruct (negb _); [done|]. destruct (length gs <? 8)%nat; destruct el'; try done; by injection H as _ ->. }
  destruct s as [|c1 [|c2 r]]; [done | |].
  - intros ([[gs el'] rest] & Hg & H)%bind_Ok. cbn in H.
    apply parseIPv6Groups_text in Hg as (pre & E & Hp). destruct rest; [|done]. by rewrite E, string_app_nil_r.
  - destruct (byte_is 58 c1 && byte_is 58 c2) eqn:Ec; cbv beta iota.
    + apply andb_prop in Ec as [E1 E2].
      assert (Hr : str_forall addr_char r = true -> str_forall addr_char (String c1 (String c2 r)) = true).
      { intros Hr. cbn. unfold addr_char at 1 2. by rewrite E1, E2, !orb_true_r. }
      destruct (_ && _) eqn:Eb.
      * intros _. apply Hr. apply andb_prop in Eb as [_ ->%bool_decide_eq_true]. done.
      * intros ([[gs el'] rest] & Hg & H)%bind_Ok. apply Hr.
        apply parseIPv6Groups_text in Hg as (pre & -> & Hp). destruct rest; [by rewrite string_app_nil_r | done].
    + intros ([[gs el'] rest] & Hg & H)%bind_Ok.
      apply parseIPv6Groups_text in Hg as (pre & -> & Hp). destruct rest; [by rewrite string_app_nil_r | done].
Qed.

Lemma ParseIP_text s a : ParseIP s = Some a -> str_forall addr_char s = true.
Proof.
  unfold ParseIP. destruct (ParseAddr s) as [b|] eqn:E; [|done]. destruct (hasZone b) eqn:Ez; [done|]. intros [= <-].
  destruct (Is4 b) eqn:E4.
  { destruct (ParseAddr_Ok4 _ _ E E4) as (_ & _ & _ & Hs). revert Hs. apply str_forall_weaken. apply v4_addr_char. }
  unfold ParseAddr in E. revert E. generalize s at 2. intros t. induction t as [|c t IH]; cbn; [done|].
  destruct (byte_is 46 c); [|destruct (byte_is 58 c); [|destruct (byte_is 37 c); [done|auto]]].
  - unfold parseIPv4. destruct (parseIPv4Fields s s 0 0 [] true); cbn; [|done]. intros [= <-]. done.
  - intros H. pose proof (parseIPv6_is6 _ _ H) as H6. destruct b as [|v|v z]; [done..|].
    cbn in Ez. apply negb_false_iff, bool_decide_eq_true in Ez as ->. by eapply parseIPv6_text.
Qed.
