(* ===== verification/Json.v ===== *)
(** * Go's [encoding/json], as far as the program uses it

    A [json] is a document up to white space.  String literals and object keys
    keep their raw text between the quotes ([quote]/[unquote] convert from and
    to Go strings), numbers keep their literal: that is what
    [json.RawMessage] preserves when a document is read and written back. *)
From S2P Require Import Prelude GoStrings Netip.
Local Open Scope Z_scope.

Inductive json :=
| JNull
| JBool (b : bool)
| JNum (lit : string)
| JStr (raw : string)
| JArr (l : list json)
| JObj (kvs : list (string * json)).

(** ** UTF-8 *)
Definition in_range (lo hi : Z) (c : ascii) : bool := (lo <=? code c) && (code c <=? hi).
Definition cont (c : ascii) : bool := in_range 128 191 c.

(** The size of the well-formed rune at the head of a string; [0] when the
    first byte does not start one ([utf8.RuneError] with size 1). *)
Definition rune_size (s : string) : nat :=
  match s with
  | EmptyString => 0
  | String a r =>
      if code a <? 128 then 1
      else match r with
      | EmptyString => 0
      | String b r2 =>
          if in_range 194 223 a then (if cont b then 2 else 0)%nat
          else match r2 with
          | EmptyString => 0
          | String c r3 =>
              if (code a =? 224) then (if in_range 160 191 b && cont c then 3 else 0)%nat
              else if (code a =? 237) then (if in_range 128 159 b && cont c then 3 else 0)%nat
              else if in_range 225 239 a then (if cont b && cont c then 3 else 0)%nat
              else match r3 with
              | EmptyString => 0
              | String d _ =>
                  if (code a =? 240) then
                    (if in_range 144 191 b && cont c && cont d then 4 else 0)%nat
                  else if in_range 241 243 a then
                    (if cont b && cont c && cont d then 4 else 0)%nat
                  else if (code a =? 244) then
                    (if in_range 128 143 b && cont c && cont d then 4 else 0)%nat
                  else 0
              end
          end
      end
  end.

Fixpoint str_take (n : nat) (s : string) : string :=
  match n, s with
  | S m, String c r => String c (str_take m r)
  | _, _ => ""
  end.
Fixpoint str_drop (n : nat) (s : string) : string :=
  match n, s with
  | S m, String _ r => str_drop m r
  | _, _ => s
  end.

Definition byte (n : Z) : ascii := ascii_of_N (Z.to_N n).

(** ** Quoting: [appendString] with HTML escaping on *)
Definition backslash : ascii := byte 92.

Definition escape_ascii (c : ascii) : string :=
  let n := code c in
  if (n =? 34) || (n =? 92) then String backslash (String c "")
  else if n =? 8 then "\b" else if n =? 12 then "\f" else if n =? 10 then "\n"
  else if n =? 13 then "\r" else if n =? 9 then "\t"
  else if (n <? 32) || (n =? 60) || (n =? 62) || (n =? 38)
  then "\u00" +:+ String (hex_digit (n / 16)) (String (hex_digit (n mod 16)) "")
  else String c "".

(** U+2028 and U+2029 are [E2 80 A8] and [E2 80 A9]. *)
Definition line_sep (s : string) : option ascii :=
  match s with
  | String a (String b (String c _)) =>
      if (code a =? 226) && (code b =? 128) && ((code c =? 168) || (code c =? 169))
      then Some (hex_digit (code c - 160)) else None
  | _ => None
  end.

Fixpoint quote_go (fuel : nat) (s : string) : string :=
  match fuel, s with
  | S f, String c r =>
      if code c <? 128 then escape_ascii c +:+ quote_go f r
      else match rune_size s with
           | O => "\ufffd" +:+ quote_go f r
           | n => match line_sep s with
                  | Some h => "\u202" +:+ String h "" +:+ quote_go f (str_drop n s)
                  | None => str_take n s +:+ quote_go f (str_drop n s)
                  end
           end
  | _, _ => ""
  end.

Definition quote (s : string) : string := quote_go (String.length s) s.

(** What [compact] does to the bytes of a [json.RawMessage] when it is written
    back: the HTML characters and the line separators are escaped. *)
Definition html_char (c : ascii) : bool := (code c =? 60) || (code c =? 62) || (code c =? 38).

Fixpoint escape_raw (s : string) : string :=
  match s with
  | EmptyString => ""
  | String a r =>
      if html_char a then escape_ascii a +:+ escape_raw r
      else match r with
           | String b (String c r') =>
               if (code a =? 226) && (code b =? 128) && ((code c =? 168) || (code c =? 169))
               then "\u202" +:+ String (hex_digit (code c - 160)) "" +:+ escape_raw r'
               else String a (escape_raw r)
           | _ => String a (escape_raw r)
           end
  end.

Fixpoint escape_json (j : json) : json :=
  match j with
  | JStr raw => JStr (escape_raw raw)
  | JArr l => JArr (map escape_json l)
  | JObj kvs => JObj (map (fun '(k, v) => (escape_raw k, escape_json v)) kvs)
  | _ => j
  end.

(** ** Printing

    A [style] gives the white space before each element and before a closing
    bracket at a nesting depth, and the text after a colon. *)
Record style := Style { ws_at : nat -> string; after_colon : string }.

Definition compact : style := Style (fun _ => "") "".

Fixpoint repeat_str (n : nat) (s : string) : string :=
  match n with O => "" | S m => s +:+ repeat_str m s end.

Definition newline : string := String (byte 10) "".

Definition indent (unit : string) : style :=
  Style (fun d => newline +:+ repeat_str d unit) " ".

Definition dquote : string := String (byte 34) "".
Definition str_lit (raw : string) : string := dquote +:+ raw +:+ dquote.

Fixpoint print (st : style) (d : nat) (j : json) {struct j} : string :=
  match j with
  | JNull => "null"
  | JBool b => FormatBool b
  | JNum lit => lit
  | JStr raw => str_lit raw
  | JArr [] => "[]"
  | JArr (x :: l) =>
      "[" +:+ ws_at st (S d) +:+ print st (S d) x
      +:+ (fix go l := match l with
                       | [] => ws_at st d +:+ "]"
                       | y :: l' => "," +:+ ws_at st (S d) +:+ print st (S d) y +:+ go l'
                       end) l
  | JObj [] => "{}"
  | JObj ((k, x) :: l) =>
      "{" +:+ ws_at st (S d) +:+ str_lit k +:+ ":" +:+ after_colon st +:+ print st (S d) x
      +:+ (fix go l := match l with
                       | [] => ws_at st d +:+ "}"
                       | (k', y) :: l' =>
                           "," +:+ ws_at st (S d) +:+ str_lit k' +:+ ":" +:+ after_colon st
                           +:+ print st (S d) y +:+ go l'
                       end) l
  end.

Definition Marshal (j : json) : string := print compact 0 j.
Definition MarshalIndent (unit : string) (j : json) : string := print (indent unit) 0 j.

(** [encoding/json] writes a map with its keys in sorted order. *)
Definition sorted_entries {A} (m : gmap string A) : list (string * A) :=
  omap (fun k => (k,.) <$> m !! k) (sort_strings (elements (dom m))).

(** ** Reading string literals: [unquote]

    The decoded text of a literal the scanner has accepted: escapes are
    replaced, surrogate pairs joined, and malformed UTF-8 becomes U+FFFD. *)
Definition hex4 (s : string) : option Z :=
  match s with
  | String a (String b (String c (String d _))) =>
      match hex_val a, hex_val b, hex_val c, hex_val d with
      | Some w, Some x, Some y, Some z => Some (((w * 16 + x) * 16 + y) * 16 + z)
      | _, _, _, _ => None
      end
  | _ => None
  end.

(** [\uXXXX] at the head of a string: [getu4]. *)
Definition getu4 (s : string) : option Z :=
  match s with
  | String a (String b r) => if byte_is 92 a && byte_is 117 b then hex4 r else None
  | _ => None
  end.

(** [utf8.EncodeRune]; surrogates and out-of-range values give U+FFFD. *)
Definition encode_rune (r : Z) : string :=
  let r := if ((55296 <=? r) && (r <=? 57343)) || (1114111 <? r) || (r <? 0) then 65533 else r in
  if r <? 128 then String (byte r) ""
  else if r <? 2048 then String (byte (192 + r / 64)) (String (byte (128 + r mod 64)) "")
  else if r <? 65536 then
    String (byte (224 + r / 4096))
      (String (byte (128 + r / 64 mod 64)) (String (byte (128 + r mod 64)) ""))
  else String (byte (240 + r / 262144))
         (String (byte (128 + r / 4096 mod 64))
            (String (byte (128 + r / 64 mod 64)) (String (byte (128 + r mod 64)) ""))).

Definition is_surrogate (r : Z) : bool := (55296 <=? r) && (r <? 57344).

(** [utf16.DecodeRune]: the code point of a high and a low surrogate. *)
Definition decode_pair (r1 r2 : Z) : option Z :=
  if (55296 <=? r1) && (r1 <? 56320) && (56320 <=? r2) && (r2 <? 57344)
  then Some ((r1 - 55296) * 1024 + (r2 - 56320) + 65536) else None.

Definition replacement : string := encode_rune 65533.

Definition simple_escape (c : ascii) : string :=
  let n := code c in
  if n =? 98 then String (byte 8) "" else if n =? 102 then String (byte 12) ""
  else if n =? 110 then String (byte 10) "" else if n =? 114 then String (byte 13) ""
  else if n =? 116 then String (byte 9) "" else String c "".

Fixpoint unquote_go (fuel : nat) (s : string) : string :=
  match fuel, s with
  | S f, String c r =>
      if byte_is 92 c then
        match getu4 s with
        | Some rr =>
            let rest := str_drop 6 s in
            if is_surrogate rr then
              match match getu4 rest with Some r2 => decode_pair rr r2 | None => None end with
              | Some dec => encode_rune dec +:+ unquote_go f (str_drop 6 rest)
              | None => replacement +:+ unquote_go f rest
              end
            else encode_rune rr +:+ unquote_go f rest
        | None =>
            match r with
            | String e r' => simple_escape e +:+ unquote_go f r'
            | EmptyString => ""
            end
        end
      else match rune_size s with
           | O => replacement +:+ unquote_go f r
           | n => str_take n s +:+ unquote_go f (str_drop n s)
           end
  | _, _ => ""
  end.

Definition unquote (raw : string) : string := unquote_go (String.length raw) raw.

(** ** Parsing *)
Definition is_ws (c : ascii) : bool :=
  byte_is 32 c || byte_is 9 c || byte_is 13 c || byte_is 10 c.

Fixpoint skip_ws (s : string) : string :=
  match s with
  | String c r => if is_ws c then skip_ws r else s
  | EmptyString => ""
  end.

Definition is_hex (c : ascii) : bool := bool_decide (is_Some (hex_val c)).

Definition cons_fst (c : ascii) (p : option (string * string)) : option (string * string) :=
  match p with Some (a, b) => Some (String c a, b) | None => None end.

(** The rest of a string literal after its opening quote: the raw text and
    what follows the closing quote. *)
Fixpoint scan_string (s : string) : option (string * string) :=
  match s with
  | EmptyString => None
  | String c r =>
      if byte_is 34 c then Some ("", r)
      else if code c <? 32 then None
      else if byte_is 92 c then
        match r with
        | String e r' =>
            if byte_is 117 e then
              match r' with
              | String h1 (String h2 (String h3 (String h4 r''))) =>
                  if is_hex h1 && is_hex h2 && is_hex h3 && is_hex h4
                  then cons_fst c (cons_fst e (cons_fst h1 (cons_fst h2
                         (cons_fst h3 (cons_fst h4 (scan_string r''))))))
                  else None
              | _ => None
              end
            else if existsb (fun n => byte_is n e) [34; 92; 47; 98; 102; 110; 114; 116]
            then cons_fst c (cons_fst e (scan_string r'))
            else None
        | EmptyString => None
        end
      else cons_fst c (scan_string r)
  end.

(** The digits at the head of a string, and the rest. *)
Fixpoint span_digits (s : string) : string * string :=
  match s with
  | String c r => if is_digit c then let '(a, b) := span_digits r in (String c a, b) else ("", s)
  | EmptyString => ("", "")
  end.

Definition digits1 (s : string) : option (string * string) :=
  match span_digits s with
  | (EmptyString, _) => None
  | p => Some p
  end.

(** A number: an optional minus, [0] or digits not led by [0], then an
    optional fraction and an optional exponent. *)
Definition scan_int (s : string) : option (string * string) :=
  match s with
  | String c r => if byte_is 48 c then Some (String c "", r) else digits1 s
  | EmptyString => None
  end.

Definition scan_frac (s : string) : option (string * string) :=
  match s with
  | String c r => if byte_is 46 c then cons_fst c (digits1 r) else Some ("", s)
  | EmptyString => Some ("", "")
  end.

Definition scan_exp (s : string) : option (string * string) :=
  match s with
  | String c r =>
      if byte_is 101 c || byte_is 69 c then
        match r with
        | String d r' => if byte_is 43 d || byte_is 45 d
                         then cons_fst c (cons_fst d (digits1 r'))
                         else cons_fst c (digits1 r)
        | EmptyString => None
        end
      else Some ("", s)
  | EmptyString => Some ("", "")
  end.

Definition scan_number (s : string) : option (string * string) :=
  let '(sign, s0) := match s with
                     | String c r => if byte_is 45 c then (String c "", r) else ("", s)
                     | EmptyString => ("", "")
                     end in
  match scan_int s0 with
  | None => None
  | Some (i, s1) =>
      match scan_frac s1 with
      | None => None
      | Some (f, s2) =>
          match scan_exp s2 with
          | None => None
          | Some (e, s3) => Some (sign +:+ i +:+ f +:+ e, s3)
          end
      end
  end.

(** [maxNestingDepth] of the scanner. *)
Definition max_depth : nat := 10000.

(** A value at nesting depth [d], the elements of an array after an opening
    bracket or a comma, and the members of an object likewise. *)
Fixpoint parse_value (fuel d : nat) (s : string) {struct fuel} : option (json * string) :=
  match fuel with
  | O => None
  | S f =>
      match skip_ws s with
      | EmptyString => None
      | String c r =>
          if byte_is 34 c then
            match scan_string r with Some (raw, r') => Some (JStr raw, r') | None => None end
          else if byte_is 91 c then
            if (max_depth <=? d)%nat then None
            else match skip_ws r with
                 | String c' r' =>
                     if byte_is 93 c' then Some (JArr [], r')
                     else match parse_elems f (S d) r with
                          | Some (l, r'') => Some (JArr l, r'')
                          | None => None
                          end
                 | EmptyString => None
                 end
          else if byte_is 123 c then
            if (max_depth <=? d)%nat then None
            else match skip_ws r with
                 | String c' r' =>
                     if byte_is 125 c' then Some (JObj [], r')
                     else match parse_members f (S d) r with
                          | Some (l, r'') => Some (JObj l, r'')
                          | None => None
                          end
                 | EmptyString => None
                 end
          else match CutPrefix (String c r) "null" with
          | Some r' => Some (JNull, r')
          | None =>
          match CutPrefix (String c r) "true" with
          | Some r' => Some (JBool true, r')
          | None =>
          match CutPrefix (String c r) "false" with
          | Some r' => Some (JBool false, r')
          | None =>
              match scan_number (String c r) with
              | Some (lit, r') => Some (JNum lit, r')
              | None => None
              end
          end end end
      end
  end
with parse_elems (fuel d : nat) (s : string) {struct fuel} : option (list json * string) :=
  match fuel with
  | O => None
  | S f =>
      match parse_value f d s with
      | None => None
      | Some (v, r) =>
          match skip_ws r with
          | String c r' =>
              if byte_is 93 c then Some ([v], r')
              else if byte_is 44 c then
                match parse_elems f d r' with
                | Some (l, r'') => Some (v :: l, r'')
                | None => None
                end
              else None
          | EmptyString => None
          end
      end
  end
with parse_members (fuel d : nat) (s : string) {struct fuel}
    : option (list (string * json) * string) :=
  match fuel with
  | O => None
  | S f =>
      match skip_ws s with
      | String q r =>
          if byte_is 34 q then
            match scan_string r with
            | None => None
            | Some (k, r1) =>
                match skip_ws r1 with
                | String col r2 =>
                    if byte_is 58 col then
                      match parse_value f d r2 with
                      | None => None
                      | Some (v, r3) =>
                          match skip_ws r3 with
                          | String c r4 =>
                              if byte_is 125 c then Some ([(k, v)], r4)
                              else if byte_is 44 c then
                                match parse_members f d r4 with
                                | Some (l, r5) => Some ((k, v) :: l, r5)
                                | None => None
                                end
                              else None
                          | EmptyString => None
                          end
                      end
                    else None
                | EmptyString => None
                end
            end
          else None
      | EmptyString => None
      end
  end.

(** One value at the head of a text ([Decoder.Decode]); two units of fuel per
    byte are more than the parser can use. *)
Definition parse_prefix (s : string) : option (json * string) :=
  parse_value (2 * String.length s + 2) 0 s.

(** [json.Unmarshal]'s syntax check: one value and white space. *)
Definition parse (s : string) : option json :=
  match parse_prefix s with
  | Some (j, r) => if bool_decide (skip_ws r = "") then Some j else None
  | None => None
  end.

(** ** Decoding into Go types *)
Definition json_err {A} (m : msg) : result A := Err (errorf (Lit "json: " :: m)).
Definition syntax_err {A} : result A := json_err [Lit "syntax error"].
Definition type_err {A} : result A := json_err [Lit "cannot unmarshal"].

(** Field names match exactly or up to [bytes.EqualFold]; among the runes that
    fold to ASCII letters are U+017F (s) and U+212A (k). *)
Definition upper (c : ascii) : ascii :=
  if (97 <=? code c) && (code c <=? 122) then byte (code c - 32) else c.

Fixpoint fold_name (s : string) : string :=
  match s with
  | EmptyString => ""
  | String a r =>
      match r with
      | String b r2 =>
          if (code a =? 197) && (code b =? 191) then String "S" (fold_name r2)
          else match r2 with
               | String c r3 =>
                   if (code a =? 226) && (code b =? 132) && (code c =? 170)
                   then String "K" (fold_name r3)
                   else String (upper a) (fold_name r)
               | EmptyString => String (upper a) (fold_name r)
               end
      | EmptyString => String (upper a) ""
      end
  end.

Definition field_matches (name key : string) : bool :=
  bool_decide (key = name) || bool_decide (fold_name key = fold_name name).

(** A [map[string]json.RawMessage]; [None] is the nil map. *)
Abbreviation raw_map := (option (gmap string json)).

Definition set_members (kvs : list (string * json)) (m : gmap string json) : gmap string json :=
  foldl (fun m '(k, v) => <[unquote k := v]> m) m kvs.

(** Decoding a value into such a map that already holds [m]. *)
Definition decode_raw_map (m : raw_map) (j : json) : result raw_map :=
  match j with
  | JObj kvs => Ok (Some (set_members kvs (default ∅ m)))
  | JNull => Ok None
  | _ => type_err
  end.

Definition Unmarshal {A} (dec : json -> result A) (s : string) : result A :=
  match parse s with
  | Some j => dec j
  | None => syntax_err
  end.

(** Decoding into a [string] variable that holds [cur]. *)
Definition decode_string (cur : string) (j : json) : result string :=
  match j with
  | JStr raw => Ok (unquote raw)
  | JNull => Ok cur
  | _ => type_err
  end.

(** A struct with one string field: unknown members are skipped, a member of
    the wrong type is an error, the last one wins. *)
Fixpoint decode_field (name : string) (cur : string) (kvs : list (string * json)) : result string :=
  match kvs with
  | [] => Ok cur
  | (k, v) :: kvs' =>
      if field_matches name (unquote k)
      then cur' ← decode_string cur v; decode_field name cur' kvs'
      else decode_field name cur kvs'
  end.

Definition decode_struct1 (name : string) (j : json) : result string :=
  match j with
  | JObj kvs => decode_field name "" kvs
  | JNull => Ok ""
  | _ => type_err
  end.

(** [strconv.ParseInt(lit, 10, 64)] on a JSON number literal. *)
Definition parse_int64 (lit : string) : option Z :=
  match lit with
  | String c r =>
      if byte_is 45 c
      then match r with
           | EmptyString => None
           | _ => n ← atoi_digits r 0; if n <=? 2 ^ 63 then Some (- n) else None
           end
      else n ← atoi_digits lit 0; if n <? 2 ^ 63 then Some n else None
  | EmptyString => None
  end.

(** Decoding into an [int] variable that holds [cur]. *)
Definition decode_int (cur : Z) (j : json) : result Z :=
  match j with
  | JNum lit => match parse_int64 lit with Some n => Ok n | None => type_err end
  | JNull => Ok cur
  | _ => type_err
  end.

(** A struct: each member goes to the field whose name it matches, into the
    value that field holds; [unknown] is the answer to a member that matches
    none (skipped, or an error under [DisallowUnknownFields]). *)
Abbreviation fields A := (list (string * (A -> json -> result A))).

Definition find_field {A} (fs : fields A) (key : string) : option (A -> json -> result A) :=
  snd <$> List.find (fun '(name, _) => field_matches name key) fs.

Fixpoint decode_members {A} (unknown : A -> result A) (fs : fields A) (cur : A)
    (kvs : list (string * json)) : result A :=
  match kvs with
  | [] => Ok cur
  | (k, v) :: kvs' =>
      cur' ← match find_field fs (unquote k) with
             | Some dec => dec cur v
             | None => unknown cur
             end;
      decode_members unknown fs cur' kvs'
  end.

Definition decode_struct {A} (unknown : A -> result A) (fs : fields A) (cur : A) (j : json)
    : result A :=
  match j with
  | JObj kvs => decode_members unknown fs cur kvs
  | JNull => Ok cur
  | _ => type_err
  end.

Definition skip_unknown {A} (cur : A) : result A := Ok cur.
Definition reject_unknown {A} (_ : A) : result A := json_err [Lit "unknown field"].

(** A slice of elements with the zero value [zero]. *)
Definition decode_slice {A} (zero : A) (dec : A -> json -> result A) (j : json)
    : result (list A) :=
  match j with
  | JArr l => mapM (dec zero) l
  | JNull => Ok []
  | _ => type_err
  end.
