(* ===== verification/JsonStrings.v ===== *)
(** * String literals of JSON texts

    What the scanner accepts as the text of a literal ([raw_text]), what a Go
    string of well-formed UTF-8 is ([utf8]), and the round trip between the two:
    quoting a string and reading the literal back gives the string, and every
    literal read is well-formed UTF-8. *)
From S2P Require Import Prelude GoStrings Netip Json.
Local Open Scope Z_scope.

(** ** Bytes *)
Lemma code_range c : 0 <= code c < 256.
Proof. unfold code. pose proof (N_ascii_bounded c). lia. Qed.

Lemma code_byte n : 0 <= n < 256 -> code (byte n) = n.
Proof. intros H. unfold code, byte. rewrite N_ascii_embedding by lia. lia. Qed.

Lemma byte_code c : byte (code c) = c.
Proof. unfold code, byte. rewrite N2Z.id. apply ascii_N_embedding. Qed.

Lemma byte_is_true n c : byte_is n c = true <-> code c = n.
Proof. unfold byte_is. apply Z.eqb_eq. Qed.

Lemma byte_is_false n c : byte_is n c = false <-> code c <> n.
Proof. unfold byte_is. apply Z.eqb_neq. Qed.

Lemma byte_is_eq n c : byte_is n c = true -> c = byte n.
Proof. intros <-%byte_is_true. by rewrite byte_code. Qed.

(** ** The text of a literal *)
Definition plain_raw (c : ascii) : bool := (32 <=? code c) && negb (byte_is 34 c) && negb (byte_is 92 c).
Definition escape_char (e : ascii) : bool :=
  existsb (fun n => byte_is n e) [34; 92; 47; 98; 102; 110; 114; 116].

Inductive raw_text : string -> Prop :=
| raw_nil : raw_text ""
| raw_plain c s : plain_raw c = true -> raw_text s -> raw_text (String c s)
| raw_escape e s : escape_char e = true -> raw_text s -> raw_text (String backslash (String e s))
| raw_unicode h1 h2 h3 h4 s :
    is_hex h1 && is_hex h2 && is_hex h3 && is_hex h4 = true -> raw_text s ->
    raw_text (String backslash (String (byte 117) (String h1 (String h2 (String h3 (String h4 s)))))).
Create HintDb json.
#[export] Hint Constructors raw_text : json.

Lemma plain_raw_spec c : plain_raw c = true ->
  byte_is 34 c = false /\ (code c <? 32) = false /\ byte_is 92 c = false.
Proof.
  unfold plain_raw. intros [[H1 H2%negb_true_iff]%andb_prop H3%negb_true_iff]%andb_prop.
  split_and!; [done | lia | done].
Qed.

Lemma escape_char_not_u e : escape_char e = true -> byte_is 117 e = false.
Proof.
  intros H. apply byte_is_false. intros He. unfold escape_char, byte_is in H. cbn in H.
  rewrite He in H. done.
Qed.

Lemma scan_string_raw raw rest : raw_text raw -> scan_string (raw +:+ String (byte 34) rest) = Some (raw, rest).
Proof.
  induction 1 as [|c s Hc Hs IH|e s He Hs IH|h1 h2 h3 h4 s Hh Hs IH].
  - done.
  - apply plain_raw_spec in Hc as (H1 & H2 & H3). rewrite string_cons_app. cbn [scan_string].
    by rewrite H1, H2, H3, IH.
  - rewrite !string_cons_app. cbn [scan_string]. rewrite (escape_char_not_u e He).
    unfold escape_char in He. change (byte_is 34 backslash) with false.
    change (code backslash <? 32) with false. change (byte_is 92 backslash) with true. cbv iota.
    by rewrite He, IH.
  - rewrite !string_cons_app. cbn [scan_string]. change (byte_is 34 backslash) with false.
    change (code backslash <? 32) with false. change (byte_is 92 backslash) with true.
    change (byte_is 117 (byte 117)) with true. cbv iota. by rewrite Hh, IH.
Qed.

Lemma cons_fst_Some c p a b : cons_fst c p = Some (a, b) ->
  exists a', p = Some (a', b) /\ a = String c a'.
Proof. destruct p as [[a' b']|]; [|done]. cbn. intros [= <- <-]. eauto. Qed.

Lemma scan_string_inv s raw rest : scan_string s = Some (raw, rest) ->
  raw_text raw /\ s = raw +:+ String (byte 34) rest.
Proof.
  assert (Hn : (String.length s <= String.length s)%nat) by lia. revert Hn.
  generalize (String.length s) at 2. intros n. revert s raw rest.
  induction n as [|n IH]; intros [|c r] raw rest En; [done | cbn in En; lia | done |].
  cbn [scan_string].
  destruct (byte_is 34 c) eqn:Eq.
  { intros [= <- <-]. apply byte_is_eq in Eq as ->. eauto with json. }
  destruct (code c <? 32) eqn:Ec; [done|]. destruct (byte_is 92 c) eqn:Eb.
  - apply byte_is_eq in Eb as ->. destruct r as [|e r']; [done|]. destruct (byte_is 117 e) eqn:Eu.
    + apply byte_is_eq in Eu as ->. destruct r' as [|h1 [|h2 [|h3 [|h4 r'']]]]; try done.
      destruct (is_hex h1 && is_hex h2 && is_hex h3 && is_hex h4) eqn:Eh; [|done].
      intros (? & (? & (? & (? & (? & (? & H & ->)%cons_fst_Some & ->)%cons_fst_Some
        & ->)%cons_fst_Some & ->)%cons_fst_Some & ->)%cons_fst_Some & ->)%cons_fst_Some.
      apply IH in H as [Hr ->]; [|cbn in En; lia]. split; [eauto with json | done].
    + destruct (existsb _ _) eqn:Ee; [|done].
      intros (? & (? & H & ->)%cons_fst_Some & ->)%cons_fst_Some.
      apply IH in H as [Hr ->]; [|cbn in En; lia]. split; [by constructor | done].
  - intros (? & H & ->)%cons_fst_Some.
    apply IH in H as [Hr ->]; [|cbn in En; lia]. split; [|done]. constructor; [|done].
    unfold plain_raw. rewrite Eq, Eb. lia.
Qed.

(** ** Runes and UTF-8

    [rune a t]: the byte [a] followed by the bytes [t] is the encoding of one
    code point, whatever follows it. *)
Record rune (a : ascii) (t : string) : Prop := {
  rune_conts : str_forall cont t = true;
  rune_head : if code a <? 128 then t = "" else 194 <= code a <= 244 /\ t <> "";
  rune_len : forall rest, rune_size (String a (t +:+ rest)) = S (String.length t)
}.

Inductive utf8 : string -> Prop :=
| utf8_nil : utf8 ""
| utf8_rune a t s : rune a t -> utf8 s -> utf8 (String a (t +:+ s)).
#[export] Hint Constructors utf8 : json.

Lemma in_range_spec lo hi c : in_range lo hi c = true <-> lo <= code c <= hi.
Proof. unfold in_range. rewrite andb_true_iff, !Z.leb_le. done. Qed.

Lemma rune_ascii a : code a < 128 -> rune a "".
Proof.
  intros H. apply Z.ltb_lt in H. split; [done | by rewrite H |]. intros rest. cbn. by rewrite H.
Qed.

#[local] Arguments cont : simpl never.
#[local] Arguments in_range : simpl never.

Lemma string_nil_app s : "" +:+ s = s.
Proof. done. Qed.
Ltac str_cons := repeat first [rewrite string_cons_app | rewrite string_nil_app].

(** The conditions under which two, three or four bytes are a rune. *)
Ltac rune_bytes :=
  repeat match goal with
  | H : in_range _ _ _ = true |- _ => apply in_range_spec in H
  | H : cont _ = true |- _ => apply in_range_spec in H
  end.

Lemma rune2 a b : in_range 194 223 a = true -> cont b = true -> rune a (String b "").
Proof.
  intros Ha Hb. assert (E : (code a <? 128) = false) by (rune_bytes; lia).
  split; [cbn; by rewrite Hb | rewrite E; rune_bytes; split; [lia|done] |].
  intros rest. str_cons. cbn -[Z.ltb]. by rewrite E, Ha, Hb.
Qed.

Definition ok3 (a b : ascii) : bool :=
  if code a =? 224 then in_range 160 191 b
  else if code a =? 237 then in_range 128 159 b
  else in_range 225 239 a && cont b.

Lemma rune3 a b c : ok3 a b = true -> cont c = true -> rune a (String b (String c "")).
Proof.
  intros Hab Hc.
  assert (Ha : 224 <= code a <= 239 /\ cont b = true).
  { unfold ok3 in Hab. destruct (code a =? 224) eqn:E1; [|destruct (code a =? 237) eqn:E2];
      [| |apply andb_prop in Hab as [? ?]; rune_bytes]; split; unfold cont; rewrite ?in_range_spec;
      rune_bytes; lia. }
  destruct Ha as [Ha Hb].
  assert (E : (code a <? 128) = false) by lia.
  assert (E2 : in_range 194 223 a = false) by (unfold in_range; lia).
  split; [cbn; by rewrite Hb, Hc | rewrite E; split; [lia|done] |].
  intros rest. str_cons. cbn -[Z.ltb Z.eqb]. rewrite E, E2. unfold ok3 in Hab.
  destruct (code a =? 224); [by rewrite Hab, Hc|]. destruct (code a =? 237); [by rewrite Hab, Hc|].
  apply andb_prop in Hab as [Hr _]. by rewrite Hr, Hb, Hc.
Qed.

Definition ok4 (a b : ascii) : bool :=
  if code a =? 240 then in_range 144 191 b
  else if code a =? 244 then in_range 128 143 b
  else in_range 241 243 a && cont b.

Lemma rune4 a b c d : ok4 a b = true -> cont c = true -> cont d = true ->
  rune a (String b (String c (String d ""))).
Proof.
  intros Hab Hc Hd.
  assert (Ha : 240 <= code a <= 244 /\ cont b = true).
  { unfold ok4 in Hab. destruct (code a =? 240) eqn:E1; [|destruct (code a =? 244) eqn:E2];
      [| |apply andb_prop in Hab as [? ?]; rune_bytes]; split; unfold cont; rewrite ?in_range_spec;
      rune_bytes; lia. }
  destruct Ha as [Ha Hb].
  assert (E : (code a <? 128) = false) by lia.
  assert (E2 : in_range 194 223 a = false) by (unfold in_range; lia).
  assert (E3 : (code a =? 224) = false) by lia.
  assert (E4 : (code a =? 237) = false) by lia.
  assert (E5 : in_range 225 239 a = false) by (unfold in_range; lia).
  split; [cbn; by rewrite Hb, Hc, Hd | rewrite E; split; [lia|done] |].
  intros rest. str_cons. cbn -[Z.ltb Z.eqb]. rewrite E, E2, E3, E4, E5. unfold ok4 in Hab.
  destruct (code a =? 240); [by rewrite Hab, Hc, Hd|].
  destruct (in_range 241 243 a) eqn:E6; [by rewrite Hb, Hc, Hd|].
  destruct (code a =? 244) eqn:E7; [by rewrite Hab, Hc, Hd|]. cbn in Hab. done.
Qed.

(** A positive size is that of a rune at the head. *)
Lemma rune_size_spec s n : rune_size s = S n ->
  exists a t rest, s = String a (t +:+ rest) /\ rune a t /\ String.length t = n.
Proof.
  destruct s as [|a r]; [done|]. cbn -[Z.ltb Z.eqb].
  destruct (code a <? 128) eqn:E.
  { intros [= <-]. exists a, "", r. split_and!; [done | apply rune_ascii; lia | done]. }
  destruct r as [|b r2]; [done|].
  destruct (in_range 194 223 a) eqn:E2.
  { destruct (cont b) eqn:Eb; [|done]. intros [= <-]. exists a, (String b ""), r2. split_and!; auto using rune2. }
  destruct r2 as [|c r3]; [done|].
  assert (H3 : ok3 a b = true -> cont c = true -> exists a0 t rest,
    String a (String b (String c r3)) = String a0 (t +:+ rest) /\ rune a0 t /\ String.length t = 2%nat).
  { intros. exists a, (String b (String c "")), r3. split_and!; auto using rune3. }
  unfold ok3 in H3.
  destruct (code a =? 224).
  { destruct (in_range 160 191 b), (cont c); cbn; try done. intros [= <-]. auto. }
  destruct (code a =? 237).
  { destruct (in_range 128 159 b), (cont c); cbn; try done. intros [= <-]. auto. }
  destruct (in_range 225 239 a).
  { destruct (cont b), (cont c); cbn; try done. intros [= <-]. auto. }
  clear H3. destruct r3 as [|d r4]; [done|].
  assert (H4 : ok4 a b = true -> cont c = true -> cont d = true -> exists a0 t rest,
    String a (String b (String c (String d r4))) = String a0 (t +:+ rest) /\ rune a0 t /\ String.length t = 3%nat).
  { intros. exists a, (String b (String c (String d ""))), r4. split_and!; auto using rune4. }
  unfold ok4 in H4.
  destruct (code a =? 240) eqn:E7.
  { destruct (in_range 144 191 b), (cont c), (cont d); cbn; try done. intros [= <-]. auto. }
  destruct (in_range 241 243 a) eqn:E8.
  { replace (code a =? 244) with false in H4 by (rune_bytes; lia).
    destruct (cont b), (cont c), (cont d); cbn; try done. intros [= <-]. auto. }
  destruct (code a =? 244); [|done].
  destruct (in_range 128 143 b), (cont c), (cont d); cbn; try done. intros [= <-]. auto.
Qed.

(** ** One step of reading and of quoting *)
Lemma str_take_app s t : str_take (String.length s) (s +:+ t) = s.
Proof. induction s as [|c s IH]; [done|]. str_cons. cbn. by rewrite IH. Qed.

Lemma str_take_all n s : (String.length s <= n)%nat -> str_take n s = s.
Proof.
  revert n. induction s as [|c s IH]; intros [|n] H; cbn in *; [done..|lia|]. rewrite IH; [done | lia].
Qed.

Lemma str_drop_app s t : str_drop (String.length s) (s +:+ t) = t.
Proof. induction s as [|c s IH]; [done|]. str_cons. cbn. done. Qed.

Lemma str_drop_drop n m s : str_drop n (str_drop m s) = str_drop (m + n) s.
Proof. revert s. induction m as [|m IH]; intros [|c s]; [done.. | by destruct n | apply IH]. Qed.

Lemma str_drop_length n s : String.length (str_drop n s) = (String.length s - n)%nat.
Proof. revert s. induction n as [|n IH]; intros [|c s]; [done.. | cbn; by rewrite IH]. Qed.

Lemma rune_take a t s : rune a t -> str_take (rune_size (String a (t +:+ s))) (String a (t +:+ s)) = String a t.
Proof. intros H. rewrite (rune_len _ _ H). cbn. by rewrite str_take_app. Qed.

Lemma rune_drop a t s : rune a t -> str_drop (rune_size (String a (t +:+ s))) (String a (t +:+ s)) = s.
Proof. intros H. rewrite (rune_len _ _ H). cbn. by rewrite str_drop_app. Qed.

(** What [unquote] makes of the head of a text, and how many bytes that is. *)
Definition unquote_step (s : string) : string * nat :=
  match s with
  | EmptyString => ("", 0%nat)
  | String c r =>
      if byte_is 92 c then
        match getu4 s with
        | Some rr =>
            if is_surrogate rr then
              match match getu4 (str_drop 6 s) with Some r2 => decode_pair rr r2 | None => None end with
              | Some dec => (encode_rune dec, 12%nat)
              | None => (replacement, 6%nat)
              end
            else (encode_rune rr, 6%nat)
        | None =>
            match r with
            | String e _ => (simple_escape e, 2%nat)
            | EmptyString => ("", 1%nat)
            end
        end
      else match rune_size s with
           | O => (replacement, 1%nat)
           | n => (str_take n s, n)
           end
  end.

Lemma unquote_go_S f c r : unquote_go (S f) (String c r) =
  let '(text, n) := unquote_step (String c r) in text +:+ unquote_go f (str_drop n (String c r)).
Proof.
  unfold unquote_step. cbn [unquote_go]. destruct (byte_is 92 c).
  - destruct (getu4 (String c r)) as [rr|].
    + destruct (is_surrogate rr); [|done].
      destruct (match getu4 (str_drop 6 (String c r)) with Some r2 => decode_pair rr r2 | None => None end);
        [|done]. by rewrite str_drop_drop.
    + destruct r as [|e r']; [|done]. by destruct f.
  - by destruct (rune_size (String c r)).
Qed.

Lemma unquote_step_pos c r : (0 < snd (unquote_step (String c r)))%nat.
Proof.
  unfold unquote_step. repeat case_match; cbn; lia.
Qed.

Lemma unquote_go_fuel f g s : (String.length s <= f)%nat -> (String.length s <= g)%nat ->
  unquote_go f s = unquote_go g s.
Proof.
  revert g s. induction f as [|f IH]; intros g [|c r] Hf Hg; [by destruct g | cbn in *; lia | by destruct g |].
  destruct g as [|g]; [cbn in *; lia|]. rewrite !unquote_go_S.
  pose proof (unquote_step_pos c r) as Hp. destruct (unquote_step (String c r)) as [t n].
  cbn [snd] in Hp. f_equal. apply IH; rewrite str_drop_length; cbn in *; lia.
Qed.

Lemma unquote_eq s : s <> "" ->
  unquote s = fst (unquote_step s) +:+ unquote (str_drop (snd (unquote_step s)) s).
Proof.
  destruct s as [|c r]; [done|]. intros _. unfold unquote at 1. cbn [String.length].
  rewrite unquote_go_S. pose proof (unquote_step_pos c r) as Hp.
  destruct (unquote_step (String c r)) as [t n]. cbn [fst snd] in *. f_equal.
  apply unquote_go_fuel; rewrite str_drop_length; cbn; lia.
Qed.

Lemma quote_go_fuel f g s : (String.length s <= f)%nat -> (String.length s <= g)%nat ->
  quote_go f s = quote_go g s.
Proof.
  revert g s. induction f as [|f IH]; intros g [|c r] Hf Hg; [by destruct g | cbn in *; lia | by destruct g |].
  destruct g as [|g]; [cbn in *; lia|]. cbn [quote_go String.length] in *.
  destruct (code c <? 128); [f_equal; apply IH; lia|].
  destruct (rune_size (String c r)) as [|n] eqn:En; [f_equal; apply IH; lia|].
  assert (H : quote_go f (str_drop (S n) (String c r)) = quote_go g (str_drop (S n) (String c r))).
  { apply IH; rewrite str_drop_length; cbn; lia. }
  by rewrite H.
Qed.

(** The literal of a rune. *)
Definition quote_rune (a : ascii) (t : string) : string :=
  if code a <? 128 then escape_ascii a
  else match line_sep (String a t) with
       | Some h => "\u202" +:+ String h ""
       | None => String a t
       end.

Lemma line_sep_rune a t s : rune a t -> code a <> 226 \/ String.length t = 2%nat ->
  line_sep (String a (t +:+ s)) = line_sep (String a t).
Proof.
  intros Hr [Ha | Ht].
  - unfold line_sep. replace (code a =? 226) with false by lia. cbn [andb].
    by destruct (t +:+ s) as [|? [|]], t as [|? [|]].
  - destruct t as [|b [|c [|]]]; try done.
Qed.

Lemma rune_226 a t : rune a t -> code a = 226 -> String.length t = 2%nat.
Proof.
  intros Hr Ha. pose proof (rune_len _ _ Hr "") as H. rewrite string_app_nil_r in H.
  destruct t as [|b [|c [|d t]]]; try done; revert H; cbn; unfold in_range; rewrite Ha; cbn;
    repeat case_match; try done.
Qed.

Lemma quote_rune_app a t s : rune a t -> quote (String a (t +:+ s)) = quote_rune a t +:+ quote s.
Proof.
  intros Hr. unfold quote at 1. cbn [String.length quote_go]. unfold quote_rune.
  assert (Hd := rune_drop a t s Hr). assert (Ht := rune_take a t s Hr). assert (Hl := rune_len a t Hr s).
  assert (Hq : quote_go (String.length (t +:+ s)) s = quote s).
  { apply quote_go_fuel; [|done]. clear. induction t as [|c t IH]; [done|]. str_cons. cbn. lia. }
  destruct (code a <? 128) eqn:Ea.
  - pose proof (rune_head _ _ Hr) as Hh. rewrite Ea in Hh. subst t. by rewrite string_nil_app.
  - rewrite Hl in *. rewrite Hd, Ht, Hq, (line_sep_rune a t s Hr).
    + destruct (line_sep (String a t)); [|done]. by rewrite <- string_app_assoc.
    + destruct (decide (code a = 226)); [right; by eapply rune_226 | by left].
Qed.

(** ** The round trip *)
Definition step_is (lit text : string) : Prop :=
  forall x, unquote_step (lit +:+ x) = (text, String.length lit).

Lemma unquote_literal lit text x : lit <> "" -> step_is lit text -> unquote (lit +:+ x) = text +:+ unquote x.
Proof.
  intros Hne H. rewrite unquote_eq, H; [cbn; by rewrite str_drop_app|].
  destruct lit; [done|]. by str_cons.
Qed.

(** The characters that are not written as they are. *)
Definition specials : list Z := seqZ 0 32 ++ [34; 38; 60; 62; 92].

Lemma specials_step : Forall (fun n => step_is (escape_ascii (byte n)) (String (byte n) "")) specials.
Proof. repeat constructor; intros x; vm_compute; reflexivity. Qed.

Lemma escape_ascii_plain c : code c ∉ specials -> escape_ascii c = String c "".
Proof.
  unfold specials. rewrite elem_of_app, elem_of_seqZ, !elem_of_cons. intros H.
  pose proof (code_range c). unfold escape_ascii. cbv zeta.
  repeat match goal with
  | |- context[if ?b then _ else _] => let E := fresh in destruct b eqn:E; [exfalso; apply H; lia|]
  end. done.
Qed.

Lemma escape_ascii_step c : code c < 128 -> step_is (escape_ascii c) (String c "") /\ escape_ascii c <> "".
Proof.
  intros H. assert (Hs : step_is (escape_ascii c) (String c "")).
  { destruct (decide (code c ∈ specials)) as [Hin|Hout].
    - pose proof specials_step as Hf. rewrite Forall_forall in Hf. specialize (Hf _ Hin).
      by rewrite byte_code in Hf.
    - rewrite escape_ascii_plain by done. intros x. str_cons. unfold unquote_step.
      replace (byte_is 92 c) with false.
      + cbn. by replace (code c <? 128) with true by lia.
      + symmetry. apply byte_is_false. intros E. apply Hout. rewrite E. by apply (bool_decide_unpack _). }
  split; [done|]. intros E. specialize (Hs ""). by rewrite E in Hs.
Qed.

Lemma rune_step a t : rune a t -> 128 <= code a -> step_is (String a t) (String a t).
Proof.
  intros Hr Ha x. str_cons. unfold unquote_step.
  replace (byte_is 92 a) with false by (symmetry; apply byte_is_false; lia).
  pose proof (rune_take a t x Hr) as Ht. rewrite (rune_len _ _ Hr) in *. by rewrite Ht.
Qed.

Lemma line_sep_Some a t h : line_sep (String a t) = Some h -> String.length t = 2%nat ->
  (String a t, h) = (String (byte 226) (String (byte 128) (String (byte 168) "")), "8"%char) \/
  (String a t, h) = (String (byte 226) (String (byte 128) (String (byte 169) "")), "9"%char).
Proof.
  intros H Ht. destruct t as [|b [|c [|]]]; try done. cbn -[Z.eqb] in H.
  destruct (code a =? 226) eqn:Ea; [|done]. destruct (code b =? 128) eqn:Eb; [|done]. cbn [andb] in H.
  apply byte_is_eq in Ea as ->. apply byte_is_eq in Eb as ->.
  destruct (code c =? 168) eqn:E8; [|destruct (code c =? 169) eqn:E9; [|done]]; injection H as <-.
  - apply byte_is_eq in E8 as ->. by left.
  - apply byte_is_eq in E9 as ->. by right.
Qed.

Lemma line_sep_226 a t h : line_sep (String a t) = Some h -> code a = 226.
Proof.
  unfold line_sep. destruct t as [|b [|c t]]; try done.
  destruct (code a =? 226) eqn:E; [lia | done].
Qed.

Lemma quote_rune_step a t : rune a t -> step_is (quote_rune a t) (String a t) /\ quote_rune a t <> "".
Proof.
  intros Hr. unfold quote_rune. destruct (code a <? 128) eqn:Ea.
  - pose proof (rune_head _ _ Hr) as Hh. rewrite Ea in Hh. subst t. apply escape_ascii_step. lia.
  - destruct (line_sep (String a t)) as [h|] eqn:E; [|split; [apply rune_step; [done | lia] | done]].
    pose proof (rune_226 _ _ Hr (line_sep_226 _ _ _ E)) as Ht.
    destruct (line_sep_Some _ _ _ E Ht) as [[= -> -> ->] | [= -> -> ->]]; (split; [|done]);
      intros x; vm_compute; reflexivity.
Qed.

Lemma unquote_quote s : utf8 s -> unquote (quote s) = s.
Proof.
  induction 1 as [|a t s Hr Hs IH]; [done|].
  destruct (quote_rune_step a t Hr) as [Hst Hne].
  rewrite quote_rune_app, (unquote_literal _ (String a t)), IH by done. by str_cons.
Qed.

(** Quoting gives the text of a literal. *)
Lemma raw_text_app r s : raw_text r -> raw_text s -> raw_text (r +:+ s).
Proof. intros Hr Hs. induction Hr; str_cons; auto with json. Qed.

Lemma plain_raw_high c : 128 <= code c -> plain_raw c = true.
Proof.
  intros H. unfold plain_raw. rewrite (proj2 (byte_is_false 34 c)), (proj2 (byte_is_false 92 c)) by lia. lia.
Qed.

Lemma raw_conts t s : str_forall cont t = true -> raw_text (t +:+ s) <-> raw_text s.
Proof.
  induction t as [|c t IH]; [done|]. cbn. intros [Hc Ht]%andb_prop. str_cons.
  apply in_range_spec in Hc. rewrite <- (IH Ht). split.
  - inversion 1; subst; try done; exfalso; revert Hc; vm_compute; intuition congruence.
  - intros H. constructor; [apply plain_raw_high; lia | done].
Qed.


Lemma raw_html h1 h2 s : is_hex h1 = true -> is_hex h2 = true -> raw_text s ->
  raw_text (("\u00" +:+ String h1 (String h2 "")) +:+ s).
Proof.
  intros H1 H2 Hs. change (raw_text (String backslash (String (byte 117)
    (String "0" (String "0" (String h1 (String h2 s))))))).
  apply raw_unicode; [|done]. by rewrite H1, H2.
Qed.

Lemma escape_ascii_raw c : code c < 128 -> raw_text (escape_ascii c).
Proof.
  intros H. destruct (decide (code c ∈ specials)) as [Hin|Hout].
  - assert (Hf : Forall (fun n => scan_string (escape_ascii (byte n) +:+ String (byte 34) "")
                                  = Some (escape_ascii (byte n), "")) specials).
    { repeat constructor; vm_compute; reflexivity. }
    rewrite Forall_forall in Hf. specialize (Hf _ Hin). rewrite byte_code in Hf.
    by apply scan_string_inv in Hf as [? _].
  - rewrite escape_ascii_plain by done. constructor; [|constructor].
    unfold specials in Hout. rewrite elem_of_app, elem_of_seqZ, !elem_of_cons in Hout.
    pose proof (code_range c). unfold plain_raw.
    rewrite (proj2 (byte_is_false 34 c)), (proj2 (byte_is_false 92 c)) by naive_solver. lia.
Qed.

Lemma quote_rune_raw a t : rune a t -> raw_text (quote_rune a t).
Proof.
  intros Hr. unfold quote_rune. pose proof (rune_head _ _ Hr) as Hh.
  destruct (code a <? 128) eqn:Ea; [apply escape_ascii_raw; lia|].
  destruct (line_sep (String a t)) as [h|] eqn:E.
  - pose proof (rune_226 _ _ Hr (line_sep_226 _ _ _ E)) as Ht.
    destruct (line_sep_Some _ _ _ E Ht) as [[= -> -> ->] | [= -> -> ->]]; by apply raw_unicode; [|constructor].
  - constructor; [apply plain_raw_high; lia|].
    rewrite <- (string_app_nil_r t). apply raw_conts; [apply Hr | constructor].
Qed.

Lemma quote_raw s : utf8 s -> raw_text (quote s).
Proof.
  induction 1 as [|a t s Hr Hs IH]; [constructor|].
  rewrite quote_rune_app by done. by apply raw_text_app; [apply quote_rune_raw|].
Qed.

Lemma utf8_app s t : utf8 s -> utf8 t -> utf8 (s +:+ t).
Proof. intros Hs Ht. induction Hs; [done|]. str_cons. rewrite string_app_assoc. by constructor. Qed.

(** ** Every literal read is UTF-8 *)
Lemma encode_rune_utf8 r : utf8 (encode_rune r).
Proof.
  assert (Hmk : forall a t, rune a t -> utf8 (String a t)).
  { intros a t H. rewrite <- (string_app_nil_r t). by constructor; [|constructor]. }
  unfold encode_rune.
  set (v := if (55296 <=? r) && (r <=? 57343) || (1114111 <? r) || (r <? 0) then 65533 else r).
  assert (Hv : 0 <= v < 55296 \/ 57343 < v <= 1114111) by (unfold v; case_match; lia).
  clearbody v. destruct (Z.ltb_spec v 128).
  { apply Hmk, rune_ascii. rewrite code_byte; lia. }
  assert (H64 : 0 <= v mod 64 < 64 /\ 0 <= v / 64 mod 64 < 64 /\ 0 <= v / 4096 mod 64 < 64)
    by (split_and!; apply Z.mod_pos_bound; lia).
  assert (Hc : forall n, 0 <= n < 64 -> cont (byte (128 + n)) = true)
    by (intros n Hn; apply in_range_spec; rewrite code_byte; lia).
  destruct (Z.ltb_spec v 2048); [|destruct (Z.ltb_spec v 65536)].
  - apply Hmk, rune2; [apply in_range_spec; rewrite code_byte|apply Hc]; Z.to_euclidean_division_equations; lia.
  - apply Hmk, rune3; [|apply Hc; lia]. unfold ok3.
    rewrite code_byte by (Z.to_euclidean_division_equations; lia).
    assert (in_range 225 239 (byte (224 + v / 4096)) && cont (byte (128 + v / 64 mod 64)) = true \/ v / 4096 = 0).
    { destruct (decide (v / 4096 = 0)); [by right|left]. apply andb_true_iff.
      split; [apply in_range_spec; rewrite code_byte | apply Hc]; Z.to_euclidean_division_equations; lia. }
    destruct (Z.eqb_spec (224 + v / 4096) 224); [|destruct (Z.eqb_spec (224 + v / 4096) 237)];
      [| | by destruct H2 as [|Hz]; [|rewrite Hz in n]];
      apply in_range_spec; rewrite code_byte; Z.to_euclidean_division_equations; lia.
  - apply Hmk, rune4; [|apply Hc; lia..]. unfold ok4.
    rewrite code_byte by (Z.to_euclidean_division_equations; lia).
    assert (Hb : cont (byte (128 + v / 4096 mod 64)) = true) by (apply Hc; lia).
    destruct (Z.eqb_spec (240 + v / 262144) 240); [|destruct (Z.eqb_spec (240 + v / 262144) 244)].
    + apply in_range_spec; rewrite code_byte; Z.to_euclidean_division_equations; lia.
    + apply in_range_spec; rewrite code_byte; Z.to_euclidean_division_equations; lia.
    + rewrite Hb, andb_true_r. apply in_range_spec; rewrite code_byte; Z.to_euclidean_division_equations; lia.
Qed.

Lemma hex4_range h1 h2 h3 h4 s : is_hex h1 && is_hex h2 && is_hex h3 && is_hex h4 = true ->
  exists r, hex4 (String h1 (String h2 (String h3 (String h4 s)))) = Some r.
Proof.
  unfold is_hex, hex4. rewrite !andb_true_iff, !bool_decide_eq_true.
  intros [[[[w ->] [x ->]] [y ->]] [z ->]]. eauto.
Qed.

(** The three kinds of heads of a literal, as read. *)
Lemma raw_cases s : raw_text s -> s <> "" ->
  (exists c r, s = String c r /\ plain_raw c = true /\ raw_text r) \/
  (exists e r, s = String backslash (String e r) /\ escape_char e = true /\ raw_text r /\
     unquote_step s = (simple_escape e, 2%nat)) \/
  (exists h1 h2 h3 h4 r rr,
     s = String backslash (String (byte 117) (String h1 (String h2 (String h3 (String h4 r))))) /\
     is_hex h1 && is_hex h2 && is_hex h3 && is_hex h4 = true /\
     raw_text r /\ getu4 s = Some rr).
Proof.
  intros Hs Hne. destruct Hs as [|c r Hc Hr|e r He Hr|h1 h2 h3 h4 r Hh Hr]; [done | left; eauto | |].
  - right; left. exists e, r. split_and!; [done..|]. unfold unquote_step, getu4.
    change (byte_is 92 backslash) with true. cbv iota. by rewrite (escape_char_not_u e He).
  - right; right. destruct (hex4_range h1 h2 h3 h4 r Hh) as [rr Hrr].
    exists h1, h2, h3, h4, r, rr. split_and!; [done..|]. unfold getu4.
    change (byte_is 92 backslash) with true. change (byte_is 117 (byte 117)) with true. done.
Qed.

Lemma getu4_raw s rr : raw_text s -> getu4 s = Some rr ->
  exists h1 h2 h3 h4 r, is_hex h1 && is_hex h2 && is_hex h3 && is_hex h4 = true /\ raw_text r /\
    s = String backslash (String (byte 117) (String h1 (String h2 (String h3 (String h4 r))))).
Proof.
  intros Hs Hg. destruct Hs as [|c r Hc Hr|e r He Hr|h1 h2 h3 h4 r Hh Hr]; [done | | | naive_solver].
  - exfalso. apply plain_raw_spec in Hc as (_ & _ & Hc). revert Hg. unfold getu4. rewrite Hc.
    by destruct r.
  - exfalso. revert Hg. unfold getu4. by rewrite (escape_char_not_u e He), andb_false_r.
Qed.

Lemma escape_char_ascii e : escape_char e = true -> code (match simple_escape e with String c _ => c | _ => e end) < 128
  /\ exists c, simple_escape e = String c "".
Proof.
  unfold escape_char. intros (n & Hn & He)%existsb_spec. apply byte_is_eq in He as ->.
  repeat (apply elem_of_cons in Hn as [-> | Hn]; [split; [vm_compute; done | by eexists]|]).
  by apply elem_of_nil in Hn.
Qed.

Lemma unquote_utf8 raw : raw_text raw -> utf8 (unquote raw).
Proof.
  assert (Hn : (String.length raw <= String.length raw)%nat) by lia. revert Hn.
  generalize (String.length raw) at 2. intros n. revert raw.
  induction n as [|n IH]; intros raw Hn Hr.
  { destruct raw; [constructor | cbn in Hn; lia]. }
  destruct (decide (raw = "")) as [->|Hne]; [constructor|].
  rewrite unquote_eq by done.
  destruct (raw_cases raw Hr Hne) as [(c & r & -> & Hc & Hr') | [(e & r & -> & He & Hr' & ->) |
    (h1 & h2 & h3 & h4 & r & rr & -> & Hh & Hr' & Hg)]].
  - destruct (plain_raw_spec c Hc) as (_ & _ & H92). unfold unquote_step. rewrite H92.
    destruct (rune_size (String c r)) as [|k] eqn:Ek.
    + apply utf8_app; [apply encode_rune_utf8|]. apply IH; [cbn in Hn |- *; lia | done].
    + destruct (rune_size_spec _ _ Ek) as (a & t & rest & [= -> ->] & Hrune & Hk).
      cbn [fst snd]. rewrite <- Ek, rune_take, rune_drop by done. str_cons.
      constructor; [done|]. apply IH; [|by apply raw_conts in Hr'; [|apply Hrune]].
      rewrite <- (rune_drop a t rest Hrune), str_drop_length, Ek. cbn in Hn |- *. lia.
  - destruct (escape_char_ascii e He) as [Ha [c Hc]]. rewrite Hc in *. cbn [fst snd].
    change (utf8 (String c ("" +:+ unquote r))). constructor; [by apply rune_ascii|].
    apply IH; [cbn in Hn |- *; lia | done].
  - unfold unquote_step. change (byte_is 92 backslash) with true. rewrite Hg. cbv iota.
    change (str_drop 6 _) with r.
    assert (H6 : utf8 (unquote r)) by (apply IH; [cbn in Hn |- *; lia | done]).
    destruct (is_surrogate rr); [|apply utf8_app; [apply encode_rune_utf8 | done]].
    destruct (getu4 r) as [r2|] eqn:Eg; [|apply utf8_app; [apply encode_rune_utf8 | done]].
    destruct (decode_pair rr r2) as [dec|]; [|apply utf8_app; [apply encode_rune_utf8 | done]].
    apply utf8_app; [apply encode_rune_utf8|].
    destruct (getu4_raw _ _ Hr' Eg) as (g1 & g2 & g3 & g4 & r' & _ & Hr'' & ->). cbn [fst snd str_drop].
    apply IH; [cbn in Hn |- *; lia | done].
Qed.

(** ** Escaping a literal again leaves its meaning alone *)
Lemma escape_raw_plain a r : html_char a = false -> code a <> 226 ->
  escape_raw (String a r) = String a (escape_raw r).
Proof.
  intros Hh H. cbn [escape_raw]. rewrite Hh. replace (code a =? 226) with false by lia. cbn [andb].
  by destruct r as [|b [|c r']].
Qed.

Lemma cont_plain c : cont c = true -> html_char c = false /\ code c <> 226.
Proof. intros H%in_range_spec. unfold html_char. lia. Qed.

Lemma escape_raw_conts t s : str_forall cont t = true -> escape_raw (t +:+ s) = t +:+ escape_raw s.
Proof.
  induction t as [|c t IH]; [done|]. cbn [str_forall]. intros [Hc Ht]%andb_prop. str_cons.
  destruct (cont_plain c Hc). by rewrite escape_raw_plain, IH.
Qed.

(** A head that is a line separator, or none. *)
Lemma escape_raw_226 a r : code a = 226 ->
  (exists h r', (h = byte 168 \/ h = byte 169) /\ String a r = String (byte 226) (String (byte 128) (String h r')) /\
     escape_raw (String a r) = "\u202" +:+ String (hex_digit (code h - 160)) "" +:+ escape_raw r') \/
  escape_raw (String a r) = String a (escape_raw r).
Proof.
  intros Ha. cbn [escape_raw].
  assert (E : html_char a = false) by (unfold html_char; lia). rewrite E.
  destruct r as [|b [|c r']]; [by right.. |].
  destruct ((code a =? 226) && (code b =? 128) && ((code c =? 168) || (code c =? 169))) eqn:Ec; [left | by right].
  apply andb_prop in Ec as [[Ea Eb]%andb_prop Ec]. apply byte_is_eq in Ea as ->. apply byte_is_eq in Eb as ->.
  exists c, r'. split_and!; [|done..]. apply orb_true_iff in Ec as [E1 | E1];
    apply byte_is_eq in E1 as ->; auto.
Qed.

Lemma escape_raw_cont a r b t : escape_raw (String a r) = String b t -> cont b = true ->
  a = b /\ t = escape_raw r.
Proof.
  intros H Hb. apply in_range_spec in Hb. destruct (html_char a) eqn:Eh.
  - exfalso. cbn [escape_raw] in H. rewrite Eh in H. unfold html_char in Eh.
    assert (Ha : a = byte 60 \/ a = byte 62 \/ a = byte 38).
    { apply orb_true_iff in Eh as [[E|E]%orb_true_iff|E]; apply byte_is_eq in E; auto. }
    destruct Ha as [-> | [-> | ->]]; injection H as <- _; vm_compute in Hb; intuition congruence.
  - destruct (decide (code a = 226)) as [Ha|Ha].
    + destruct (escape_raw_226 a r Ha) as [(h & r' & Hh & [= -> ->] & E) | E]; rewrite E in H.
      * exfalso. destruct Hh as [-> | ->]; injection H as <- _; vm_compute in Hb; intuition congruence.
      * injection H as -> ->. done.
    + rewrite escape_raw_plain in H by done. injection H as -> ->. done.
Qed.

Lemma escape_raw_conts_inv r t rest : escape_raw r = t +:+ rest -> str_forall cont t = true ->
  exists rest', r = t +:+ rest'.
Proof.
  revert r. induction t as [|b t IH]; intros r; [by exists r|]. cbn [str_forall]. str_cons.
  intros H [Hb Ht]%andb_prop. destruct r as [|a r]; [done|].
  destruct (escape_raw_cont a r b _ H Hb) as [-> Hr]. symmetry in Hr.
  destruct (IH r Hr Ht) as [rest' ->]. exists rest'. by str_cons.
Qed.

Lemma hex_plain h : is_hex h = true -> html_char h = false /\ code h <> 226.
Proof.
  unfold is_hex, hex_val, html_char. rewrite bool_decide_eq_true. intros H. split; [|intros E].
  - destruct (code h =? 60) eqn:E1; [|destruct (code h =? 62) eqn:E2; [|destruct (code h =? 38) eqn:E3; [|done]]];
      match goal with E : (code h =? _) = true |- _ => apply byte_is_eq in E as -> end;
      vm_compute in H; by destruct H.
  - apply Z.eqb_eq, byte_is_eq in E as ->. vm_compute in H. by destruct H.
Qed.

Lemma escape_char_plain e : escape_char e = true -> html_char e = false /\ code e <> 226.
Proof.
  unfold escape_char. intros (n & Hn & He)%existsb_spec. apply byte_is_eq in He as ->.
  repeat (apply elem_of_cons in Hn as [-> | Hn]; [vm_compute; by split|]). by apply elem_of_nil in Hn.
Qed.

Lemma escape_raw_escape e r : escape_char e = true ->
  escape_raw (String backslash (String e r)) = String backslash (String e (escape_raw r)).
Proof. intros He. destruct (escape_char_plain e He). by rewrite !escape_raw_plain. Qed.

Lemma escape_raw_unicode h1 h2 h3 h4 r : is_hex h1 && is_hex h2 && is_hex h3 && is_hex h4 = true ->
  escape_raw (String backslash (String (byte 117) (String h1 (String h2 (String h3 (String h4 r)))))) =
  String backslash (String (byte 117) (String h1 (String h2 (String h3 (String h4 (escape_raw r)))))).
Proof.
  rewrite !andb_true_iff. intros [[[H1%hex_plain H2%hex_plain] H3%hex_plain] H4%hex_plain].
  by rewrite !escape_raw_plain by naive_solver.
Qed.

(** What becomes of a plain head: an HTML character, a line separator, or the
    character itself. *)
Lemma escape_raw_head c r : plain_raw c = true ->
  (html_char c = true /\ escape_raw (String c r) = escape_ascii c +:+ escape_raw r) \/
  (exists h r', (h = byte 168 \/ h = byte 169) /\ String c r = String (byte 226) (String (byte 128) (String h r')) /\
     escape_raw (String c r) = "\u202" +:+ String (hex_digit (code h - 160)) "" +:+ escape_raw r') \/
  escape_raw (String c r) = String c (escape_raw r).
Proof.
  intros _. destruct (html_char c) eqn:Eh; [left | right].
  - split; [done|]. cbn [escape_raw]. by rewrite Eh.
  - destruct (decide (code c = 226)) as [H|H]; [by apply escape_raw_226|]. right. by apply escape_raw_plain.
Qed.

Lemma escape_raw_raw s : raw_text s -> raw_text (escape_raw s).
Proof.
  assert (Hn : (String.length s <= String.length s)%nat) by lia. revert Hn.
  generalize (String.length s) at 2. intros n. revert s.
  induction n as [|n IH]; intros s Hn Hr.
  { destruct s; [constructor | cbn in Hn; lia]. }
  destruct Hr as [|c r Hc Hr|e r He Hr|h1 h2 h3 h4 r Hh Hr]; [constructor | | |].
  - destruct (escape_raw_head c r Hc) as [[Hh ->] | [(h & r' & Hh & [= -> ->] & ->) | ->]].
    + apply raw_text_app; [apply escape_ascii_raw | apply IH; [cbn in Hn; lia | done]].
      unfold html_char in Hh. lia.
    + assert (raw_text (escape_raw r')).
      { apply IH; [cbn in Hn; lia|]. refine (proj1 (raw_conts (String (byte 128) (String h "")) r' _) Hr).
        by destruct Hh as [-> | ->]. }
      destruct Hh as [-> | ->]; by apply raw_unicode.
    + constructor; [done|]. apply IH; [cbn in Hn; lia | done].
  - rewrite escape_raw_escape by done. constructor; [done|]. apply IH; [cbn in Hn; lia | done].
  - rewrite escape_raw_unicode by done. constructor; [done|]. apply IH; [cbn in Hn; lia | done].
Qed.

Lemma escape_raw_rune_size c r : plain_raw c = true -> rune_size (String c r) = O ->
  escape_raw (String c r) = String c (escape_raw r) -> rune_size (String c (escape_raw r)) = O.
Proof.
  intros Hc H0 _. destruct (rune_size (String c (escape_raw r))) as [|k] eqn:Ek; [done|]. exfalso.
  destruct (rune_size_spec _ _ Ek) as (a & t & rest & [= -> Hr] & Hrune & Hk).
  destruct (escape_raw_conts_inv r t rest Hr (rune_conts _ _ Hrune)) as [rest' ->].
  by rewrite (rune_len _ _ Hrune) in H0.
Qed.

(** The second half of a surrogate pair is not disturbed by escaping. *)
Lemma decode_pair_low rr r2 : r2 < 56320 -> decode_pair rr r2 = None.
Proof. intros H. unfold decode_pair. case_match eqn:E; [lia | done]. Qed.

Definition pair_with (rr : Z) (s : string) : option Z :=
  match getu4 s with Some r2 => decode_pair rr r2 | None => None end.

Lemma pair_with_escape rr s : raw_text s -> pair_with rr (escape_raw s) = pair_with rr s.
Proof.
  intros [|c r Hc Hr|e r He Hr|h1 h2 h3 h4 r Hh Hr]; [done | | |].
  - assert (Hs : pair_with rr (String c r) = None).
    { unfold pair_with, getu4. destruct (plain_raw_spec c Hc) as (_ & _ & E). rewrite E. by destruct r. }
    rewrite Hs. destruct (escape_raw_head c r Hc) as [[Hh ->] | [(h & r' & Hh & [= -> ->] & ->) | ->]].
    + assert (Ha : c = byte 60 \/ c = byte 62 \/ c = byte 38).
      { unfold html_char in Hh. apply orb_true_iff in Hh as [[E|E]%orb_true_iff|E]; apply byte_is_eq in E; auto. }
      destruct Ha as [-> | [-> | ->]]; by apply decode_pair_low.
    + destruct Hh as [-> | ->]; by apply decode_pair_low.
    + unfold pair_with, getu4. destruct (plain_raw_spec c Hc) as (_ & _ & E). rewrite E.
      by destruct (escape_raw r).
  - rewrite escape_raw_escape by done. unfold pair_with, getu4.
    by rewrite (escape_char_not_u e He), andb_false_r.
  - rewrite escape_raw_unicode by done. done.
Qed.

Lemma unquote_unicode h1 h2 h3 h4 r rr :
  getu4 (String backslash (String (byte 117) (String h1 (String h2 (String h3 (String h4 r)))))) = Some rr ->
  unquote (String backslash (String (byte 117) (String h1 (String h2 (String h3 (String h4 r)))))) =
    if is_surrogate rr then
      match pair_with rr r with
      | Some dec => encode_rune dec +:+ unquote (str_drop 6 r)
      | None => replacement +:+ unquote r
      end
    else encode_rune rr +:+ unquote r.
Proof.
  intros Hg. rewrite unquote_eq by done. unfold unquote_step.
  change (byte_is 92 backslash) with true. rewrite Hg. cbv iota.
  change (str_drop 6 (String backslash _)) with r. fold (pair_with rr r).
  destruct (is_surrogate rr); [|done]. by destruct (pair_with rr r).
Qed.

Lemma unquote_escape e r : escape_char e = true ->
  unquote (String backslash (String e r)) = simple_escape e +:+ unquote r.
Proof.
  intros He. rewrite unquote_eq by done. unfold unquote_step, getu4.
  change (byte_is 92 backslash) with true. by rewrite (escape_char_not_u e He).
Qed.

Lemma unquote_plain_rune a t s : rune a t -> plain_raw a = true ->
  unquote (String a (t +:+ s)) = String a t +:+ unquote s.
Proof.
  intros Hr Ha. destruct (plain_raw_spec a Ha) as (_ & _ & H92).
  rewrite unquote_eq by done. unfold unquote_step. rewrite H92.
  pose proof (rune_take a t s Hr) as Ht. pose proof (rune_drop a t s Hr) as Hd.
  rewrite (rune_len _ _ Hr) in *. cbn [fst snd]. by rewrite Ht, Hd.
Qed.

Lemma unquote_bad c r : plain_raw c = true -> rune_size (String c r) = O ->
  unquote (String c r) = replacement +:+ unquote r.
Proof.
  intros Hc H0. destruct (plain_raw_spec c Hc) as (_ & _ & H92).
  rewrite unquote_eq by done. unfold unquote_step. by rewrite H92, H0.
Qed.

Lemma unquote_escape_plain c r n : plain_raw c = true -> raw_text r -> (String.length r <= n)%nat ->
  (forall s, (String.length s <= n)%nat -> raw_text s -> unquote (escape_raw s) = unquote s) ->
  unquote (escape_raw (String c r)) = unquote (String c r).
Proof.
  intros Hc Hr Hn IH. destruct (escape_raw_head c r Hc) as [[Hh ->] | [(h & r' & Hh & [= -> ->] & ->) | E]].
  - assert (Ha : code c < 128) by (unfold html_char in Hh; lia).
    destruct (escape_ascii_step c Ha) as [Hst Hne].
    rewrite (unquote_literal _ (String c "")) by done. rewrite IH by done.
    symmetry. by apply (unquote_plain_rune c "" r); [apply rune_ascii|].
  - assert (Hcs : str_forall cont (String (byte 128) (String h "")) = true) by (by destruct Hh as [-> | ->]).
    assert (Hr' : raw_text r') by exact (proj1 (raw_conts _ r' Hcs) Hr).
    assert (Hrune : rune (byte 226) (String (byte 128) (String h ""))) by (apply rune3; by destruct Hh as [-> | ->]).
    assert (Hstep : step_is ("\u202" +:+ String (hex_digit (code h - 160)) "")
                      (String (byte 226) (String (byte 128) (String h "")))).
    { destruct Hh as [-> | ->]; intros x; vm_compute; reflexivity. }
    assert (Hne : "\u202" +:+ String (hex_digit (code h - 160)) "" <> "") by done.
    rewrite <- string_app_assoc, (unquote_literal _ _ _ Hne Hstep).
    rewrite IH by (cbn in Hn; (lia || done)).
    symmetry. by apply (unquote_plain_rune _ (String (byte 128) (String h ""))).
  - rewrite E. destruct (rune_size (String c r)) as [|k] eqn:Ek.
    + rewrite !unquote_bad by eauto using escape_raw_rune_size. by rewrite IH.
    + destruct (rune_size_spec _ _ Ek) as (a & t & rest & [= -> ->] & Hrune & Hk).
      pose proof (rune_conts _ _ Hrune) as Ht. rewrite escape_raw_conts by done.
      rewrite !unquote_plain_rune by done. rewrite IH; [done | | by apply raw_conts in Hr].
      clear -Hn. revert Hn. induction t as [|x t IHt]; [done|]. str_cons. cbn. lia.
Qed.

Lemma unquote_escape_raw s : raw_text s -> unquote (escape_raw s) = unquote s.
Proof.
  assert (Hn : (String.length s <= String.length s)%nat) by lia. revert Hn.
  generalize (String.length s) at 2. intros n. revert s.
  induction n as [|n IH]; intros s Hn Hr.
  { destruct s; [done | cbn in Hn; lia]. }
  destruct Hr as [|c r Hc Hr|e r He Hr|h1 h2 h3 h4 r Hh Hr]; [done | | |]; cbn in Hn.
  - apply (unquote_escape_plain c r n); [done | done | lia | done].
  - rewrite escape_raw_escape, !unquote_escape by done. by rewrite IH by first [lia | done].
  - destruct (hex4_range h1 h2 h3 h4 r Hh) as [rr Hrr].
    rewrite escape_raw_unicode by done.
    rewrite (unquote_unicode _ _ _ _ (escape_raw r) rr), (unquote_unicode _ _ _ _ r rr) by exact Hrr.
    rewrite pair_with_escape by done.
    destruct (is_surrogate rr); [|by rewrite IH by first [lia | done]].
    destruct (pair_with rr r) as [dec|] eqn:Ep; [|by rewrite IH by first [lia | done]].
    unfold pair_with in Ep. destruct (getu4 r) as [r2|] eqn:Eg; [|done].
    destruct (getu4_raw _ _ Hr Eg) as (g1 & g2 & g3 & g4 & r' & Hg' & Hr' & ->).
    rewrite escape_raw_unicode by done. cbn [str_drop]. cbn in Hn. rewrite IH by first [lia | done]. done.
Qed.

Lemma utf8_ascii s : str_forall (fun c => code c <? 128) s = true -> utf8 s.
Proof.
  induction s as [|c s IH]; [constructor|]. cbn [str_forall]. intros [Hc Hs]%andb_prop.
  change (utf8 (String c ("" +:+ s))). constructor; [apply rune_ascii; lia | auto].
Qed.
