(* ===== verification/JsonFacts.v ===== *)
(** * Reading back what was printed

    [wf d j]: the document [j] can stand at nesting depth [d].  Every document
    the parser returns is well-formed, and a well-formed document printed in
    any style is parsed back to itself, whatever delimiter follows. *)
From S2P Require Import Prelude GoStrings Netip Json JsonStrings.
Local Open Scope Z_scope.

(** ** Induction *)
Section JsonInd.
Variable P : json -> Prop.
Hypothesis Hnull : P JNull.
Hypothesis Hbool : forall b, P (JBool b).
Hypothesis Hnum : forall lit, P (JNum lit).
Hypothesis Hstr : forall raw, P (JStr raw).
Hypothesis Harr : forall l, Forall P l -> P (JArr l).
Hypothesis Hobj : forall kvs, Forall (fun kv => P (snd kv)) kvs -> P (JObj kvs).

Fixpoint json_tree_ind (j : json) : P j :=
  match j with
  | JNull => Hnull
  | JBool b => Hbool b
  | JNum lit => Hnum lit
  | JStr raw => Hstr raw
  | JArr l => Harr l ((fix go l : Forall P l :=
      match l with
      | [] => Forall_nil_2 _
      | x :: l' => Forall_cons_2 _ _ _ (json_tree_ind x) (go l')
      end) l)
  | JObj kvs => Hobj kvs ((fix go l : Forall (fun kv => P (snd kv)) l :=
      match l with
      | [] => Forall_nil_2 _
      | (k, x) :: l' => Forall_cons_2 _ (k, x) _ (json_tree_ind x) (go l')
      end) kvs)
  end.
End JsonInd.

Inductive wf : nat -> json -> Prop :=
| wf_null d : wf d JNull
| wf_bool d b : wf d (JBool b)
| wf_num d lit : scan_number lit = Some (lit, "") -> wf d (JNum lit)
| wf_str d raw : raw_text raw -> wf d (JStr raw)
| wf_arr d l : (d < max_depth)%nat -> Forall (wf (S d)) l -> wf d (JArr l)
| wf_obj d kvs : (d < max_depth)%nat ->
    Forall (fun kv => raw_text (fst kv) /\ wf (S d) (snd kv)) kvs -> wf d (JObj kvs).
#[export] Hint Constructors wf : json.

(** ** Strings *)
Lemma slen_app s t : String.length (s +:+ t) = (String.length s + String.length t)%nat.
Proof. induction s as [|c s IH]; [done|]. str_cons. cbn. by rewrite IH. Qed.

Ltac str_norm := rewrite ?string_app_assoc; str_cons.

Definition all_ws (s : string) : Prop := str_forall is_ws s = true.

Lemma skip_ws_app w s : all_ws w -> skip_ws (w +:+ s) = skip_ws s.
Proof.
  unfold all_ws. induction w as [|c w IH]; [done|]. cbn [str_forall]. intros [Hc Hw]%andb_prop.
  str_cons. cbn [skip_ws]. rewrite Hc. by apply IH.
Qed.

Lemma skip_ws_all w : all_ws w -> skip_ws w = "".
Proof. intros H. by rewrite <- (string_app_nil_r w), skip_ws_app. Qed.

(** ** Numbers *)
Definition head_in (p : ascii -> bool) (s : string) : Prop :=
  match s with EmptyString => True | String c _ => p c = true end.

Definition not_digit (c : ascii) : bool := negb (is_digit c).
Definition after_int (c : ascii) : bool := not_digit c && negb (byte_is 46 c).
Definition after_frac (c : ascii) : bool := not_digit c && negb (byte_is 101 c || byte_is 69 c).

(** What can follow a value. *)
Definition delimiter (c : ascii) : bool :=
  byte_is 44 c || byte_is 93 c || byte_is 125 c || is_ws c.

Lemma head_in_weaken (p q : ascii -> bool) s : (forall c, p c = true -> q c = true) -> head_in p s -> head_in q s.
Proof. destruct s; [done|]. cbn. auto. Qed.

Lemma delimiter_code c : delimiter c = true ->
  code c = 44 \/ code c = 93 \/ code c = 125 \/ code c = 32 \/ code c = 9 \/ code c = 13 \/ code c = 10.
Proof. unfold delimiter, is_ws. rewrite !orb_true_iff, !byte_is_true. tauto. Qed.

Lemma delimiter_after c : delimiter c = true -> not_digit c = true /\ after_int c = true /\ after_frac c = true.
Proof.
  intros H%delimiter_code. unfold after_int, after_frac, not_digit, is_digit, byte_is. lia.
Qed.

Lemma span_digits_app s rest a b : head_in not_digit rest -> span_digits s = (a, b) ->
  span_digits (s +:+ rest) = (a, b +:+ rest).
Proof.
  intros Hr. revert a b. induction s as [|c s IH]; intros a b.
  - intros [= <- <-]. str_cons. destruct rest as [|c r]; [done|]. cbn in *.
    unfold not_digit in Hr. by destruct (is_digit c).
  - str_cons. cbn [span_digits]. destruct (is_digit c); [|by intros [= <- <-]].
    destruct (span_digits s) as [a' b']. intros [= <- <-]. by rewrite (IH a' b').
Qed.

Lemma span_digits_inv s a b : span_digits s = (a, b) ->
  s = a +:+ b /\ span_digits a = (a, "") /\ head_in not_digit b.
Proof.
  revert a b. induction s as [|c s IH]; intros a b; cbn [span_digits].
  - by intros [= <- <-].
  - destruct (is_digit c) eqn:E.
    + destruct (span_digits s) as [a' b']. intros [= <- <-].
      destruct (IH a' b' eq_refl) as (-> & Ha & Hb). split_and!; [by str_cons | | done].
      cbn [span_digits]. by rewrite E, Ha.
    + intros [= <- <-]. split_and!; [done..|]. cbn. unfold not_digit. by rewrite E.
Qed.

(** A scanner that stops before a head in [p], and one whose first part is
    scanned to itself. *)
Definition extends (F : string -> option (string * string)) (p : ascii -> bool) : Prop :=
  forall s a b rest, head_in p rest -> F s = Some (a, b) -> F (s +:+ rest) = Some (a, b +:+ rest).
Definition splits (F : string -> option (string * string)) : Prop :=
  forall s a b, F s = Some (a, b) -> s = a +:+ b /\ F a = Some (a, "").

Lemma digits1_extends : extends digits1 not_digit.
Proof.
  intros s a b rest Hr. unfold digits1. destruct (span_digits s) as [a' b'] eqn:E.
  destruct a' as [|c a']; [done|]. intros [= <- <-]. by rewrite (span_digits_app _ _ _ _ Hr E).
Qed.

Lemma digits1_splits : splits digits1.
Proof.
  intros s a b. unfold digits1. destruct (span_digits s) as [a' b'] eqn:E.
  destruct a' as [|c a']; [done|]. intros [= <- <-].
  destruct (span_digits_inv _ _ _ E) as (-> & Ha & _). by rewrite Ha.
Qed.

Lemma digits1_head s a b : digits1 s = Some (a, b) -> head_in is_digit s /\ s <> "".
Proof. unfold digits1. destruct s as [|c s]; cbn; [done|]. by destruct (is_digit c). Qed.

Lemma scan_int_extends : extends scan_int not_digit.
Proof.
  intros [|c r] a b rest Hr; [done|]. str_cons. unfold scan_int. destruct (byte_is 48 c).
  - by intros [= <- <-].
  - intros H. rewrite <- string_cons_app. by apply digits1_extends.
Qed.

Lemma scan_int_splits : splits scan_int.
Proof.
  intros [|c r] a b; [done|]. unfold scan_int. destruct (byte_is 48 c) eqn:E.
  - intros [= <- <-]. by rewrite E.
  - intros H. destruct (digits1_splits _ _ _ H) as [Hs Ha]. split; [done|].
    destruct a as [|c' a]; [done|]. rewrite string_cons_app in Hs. injection Hs as <- _. by rewrite E.
Qed.

Lemma scan_int_head s a b : scan_int s = Some (a, b) -> exists c r, s = String c r /\ is_digit c = true.
Proof.
  destruct s as [|c r]; [done|]. unfold scan_int. destruct (byte_is 48 c) eqn:E.
  - intros _. exists c, r. split; [done|]. apply byte_is_eq in E as ->. done.
  - intros [H _]%digits1_head. eauto.
Qed.

Lemma scan_frac_extends : extends scan_frac after_int.
Proof.
  intros [|c r] a b rest Hr; unfold scan_frac.
  - intros [= <- <-]. str_cons. destruct rest as [|c r]; [done|]. cbn in Hr.
    unfold after_int in Hr. apply andb_prop in Hr as [_ E%negb_true_iff]. by rewrite E.
  - str_cons. destruct (byte_is 46 c); [|by intros [= <- <-]].
    intros (a' & H & ->)%cons_fst_Some.
    by rewrite (digits1_extends r a' b rest (head_in_weaken _ _ _ (fun c H => proj1 (andb_prop _ _ H)) Hr) H).
Qed.

Lemma scan_frac_splits : splits scan_frac.
Proof.
  intros [|c r] a b; unfold scan_frac; [by intros [= <- <-]|].
  destruct (byte_is 46 c) eqn:E; [|by intros [= <- <-]].
  intros (a' & H & ->)%cons_fst_Some. destruct (digits1_splits _ _ _ H) as [-> Ha]. str_cons.
  by rewrite E, Ha.
Qed.

Lemma scan_exp_extends : extends scan_exp after_frac.
Proof.
  intros [|c r] a b rest Hr; unfold scan_exp.
  - intros [= <- <-]. str_cons. destruct rest as [|c r]; [done|]. cbn in Hr.
    unfold after_frac in Hr. apply andb_prop in Hr as [_ E%negb_true_iff]. by rewrite E.
  - pose proof (head_in_weaken _ _ _ (fun c H => proj1 (andb_prop _ _ H)) Hr) as Hd.
    str_cons. destruct (byte_is 101 c || byte_is 69 c); [|by intros [= <- <-]].
    destruct r as [|d r']; [done|]. str_cons. destruct (byte_is 43 d || byte_is 45 d).
    + intros (a' & (a'' & H & ->)%cons_fst_Some & ->)%cons_fst_Some. by rewrite (digits1_extends _ _ _ rest Hd H).
    + intros (a' & H & ->)%cons_fst_Some. rewrite <- string_cons_app. by rewrite (digits1_extends _ _ _ rest Hd H).
Qed.

Lemma scan_exp_splits : splits scan_exp.
Proof.
  intros [|c r] a b; unfold scan_exp; [by intros [= <- <-]|].
  destruct (byte_is 101 c || byte_is 69 c) eqn:E; [|by intros [= <- <-]].
  destruct r as [|d r']; [done|]. destruct (byte_is 43 d || byte_is 45 d) eqn:Ed.
  - intros (a' & (a'' & H & ->)%cons_fst_Some & ->)%cons_fst_Some.
    destruct (digits1_splits _ _ _ H) as [-> Ha]. str_cons. by rewrite E, Ed, Ha.
  - intros (a' & H & ->)%cons_fst_Some. destruct (digits1_splits _ _ _ H) as [Hs Ha].
    destruct a' as [|d' a']; [done|]. rewrite string_cons_app in Hs. injection Hs as <- ->. str_cons.
    by rewrite E, Ed, Ha.
Qed.

Lemma scan_frac_head s a b : scan_frac s = Some (a, b) -> head_in not_digit a.
Proof.
  destruct s as [|c r]; unfold scan_frac; [by intros [= <- <-]|].
  destruct (byte_is 46 c) eqn:E; [|by intros [= <- <-]].
  intros (a' & H & ->)%cons_fst_Some. cbn. by apply byte_is_eq in E as ->.
Qed.

Lemma scan_exp_head s a b : scan_exp s = Some (a, b) -> head_in after_int a.
Proof.
  destruct s as [|c r]; unfold scan_exp; [by intros [= <- <-]|].
  destruct (byte_is 101 c || byte_is 69 c) eqn:E; [|by intros [= <- <-]].
  destruct r as [|d r']; [done|].
  assert (Hc : after_int c = true).
  { apply orb_true_iff in E as [E|E]; apply byte_is_eq in E as ->; done. }
  destruct (byte_is 43 d || byte_is 45 d); intros (a' & H & ->)%cons_fst_Some; done.
Qed.

Lemma head_in_app p s t : head_in p s -> head_in p t -> head_in p (s +:+ t).
Proof. by destruct s. Qed.

(** A number without its sign. *)
Definition scan_unsigned (s0 : string) : option (string * string) :=
  match scan_int s0 with
  | None => None
  | Some (i, s1) =>
      match scan_frac s1 with
      | None => None
      | Some (f, s2) =>
          match scan_exp s2 with
          | None => None
          | Some (e, s3) => Some (i +:+ f +:+ e, s3)
          end
      end
  end.

Lemma after_int_not_digit c : after_int c = true -> not_digit c = true.
Proof. by intros [? _]%andb_prop. Qed.

Lemma scan_unsigned_parts s a b : scan_unsigned s = Some (a, b) ->
  exists i f e, a = i +:+ f +:+ e /\ s = a +:+ b /\ scan_int i = Some (i, "") /\ scan_frac f = Some (f, "") /\
    scan_exp e = Some (e, "").
Proof.
  unfold scan_unsigned. destruct (scan_int s) as [[i s1]|] eqn:Ei; [|done].
  destruct (scan_frac s1) as [[f s2]|] eqn:Ef; [|done]. destruct (scan_exp s2) as [[e s3]|] eqn:Ee; [|done].
  intros [= <- <-]. exists i, f, e.
  apply scan_int_splits in Ei as [-> ?]. apply scan_frac_splits in Ef as [-> ?].
  apply scan_exp_splits in Ee as [-> ?]. split_and!; [done | by str_norm | done..].
Qed.

Lemma scan_unsigned_app i f e rest : scan_int i = Some (i, "") -> scan_frac f = Some (f, "") ->
  scan_exp e = Some (e, "") -> head_in delimiter rest ->
  scan_unsigned ((i +:+ f +:+ e) +:+ rest) = Some (i +:+ f +:+ e, rest).
Proof.
  intros Hi Hf He Hr. unfold scan_unsigned.
  assert (Hd : forall p, (forall c, delimiter c = true -> p c = true) -> head_in p rest)
    by (intros p Hp; by eapply head_in_weaken).
  assert (H1 : head_in after_int (e +:+ rest)).
  { apply head_in_app; [by eapply scan_exp_head | apply Hd; apply delimiter_after]. }
  assert (H2 : head_in not_digit (f +:+ e +:+ rest)).
  { apply head_in_app; [by eapply scan_frac_head|].
    eapply head_in_weaken; [apply after_int_not_digit | exact H1]. }
  str_norm. rewrite (scan_int_extends i i "" _ H2 Hi). str_cons.
  rewrite (scan_frac_extends f f "" _ H1 Hf). str_cons.
  rewrite (scan_exp_extends e e "" rest); [done | apply Hd; apply delimiter_after | done].
Qed.

Lemma scan_number_sign s : scan_number s =
  match s with
  | String c r => if byte_is 45 c then cons_fst c (scan_unsigned r) else scan_unsigned s
  | EmptyString => None
  end.
Proof.
  unfold scan_number, scan_unsigned. destruct s as [|c r]; [done|].
  destruct (byte_is 45 c); repeat case_match; done.
Qed.

Lemma scan_number_unsigned s a b : scan_number s = Some (a, b) ->
  exists sign u, (sign = "" \/ sign = "-") /\ a = sign +:+ u /\ s = a +:+ b /\ scan_unsigned (u +:+ b) = Some (u, b)
    /\ exists c r, u = String c r /\ is_digit c = true.
Proof.
  assert (Hhead : forall t u v, scan_unsigned t = Some (u, v) -> t = u +:+ v /\ exists c r, u = String c r /\ is_digit c = true).
  { intros t u v (i & f & e & -> & -> & Hi & _)%scan_unsigned_parts. split; [done|].
    destruct (scan_int_head _ _ _ Hi) as (c & r & -> & Hc). exists c, (r +:+ f +:+ e). by str_cons. }
  rewrite scan_number_sign. destruct s as [|c r]; [done|]. destruct (byte_is 45 c) eqn:E.
  - intros (u & H & ->)%cons_fst_Some. destruct (Hhead _ _ _ H) as [-> Hc].
    apply byte_is_eq in E as ->. exists "-", u. split_and!; [by right | done | by str_cons | done..].
  - intros H. destruct (Hhead _ _ _ H) as [Hs Hc]. exists "", a. rewrite Hs in H |- *.
    split_and!; [by left | done..].
Qed.

Lemma is_digit_code c : is_digit c = true -> 48 <= code c <= 57.
Proof. unfold is_digit. lia. Qed.

Lemma scan_number_inv s a b : scan_number s = Some (a, b) ->
  s = a +:+ b /\ scan_number a = Some (a, "") /\
  forall rest, head_in delimiter rest -> scan_number (a +:+ rest) = Some (a, rest).
Proof.
  intros (sign & u & Hsign & -> & -> & Hu & c & r & -> & Hc)%scan_number_unsigned. split; [done|].
  apply scan_unsigned_parts in Hu as (i & f & e & Hu & _ & Hi & Hf & He).
  assert (H : forall rest, head_in delimiter rest ->
    scan_number ((sign +:+ String c r) +:+ rest) = Some (sign +:+ String c r, rest)).
  { intros rest Hr. pose proof (scan_unsigned_app i f e rest Hi Hf He Hr) as Hs. rewrite <- Hu in Hs.
    rewrite scan_number_sign. destruct Hsign as [-> | ->]; str_cons.
    - replace (byte_is 45 c) with false; [by rewrite <- string_cons_app|].
      symmetry. apply byte_is_false. apply is_digit_code in Hc. lia.
    - change (byte_is 45 "-") with true. cbv iota. rewrite <- string_cons_app, Hs. done. }
  split; [|exact H]. specialize (H "" I). by rewrite string_app_nil_r in H.
Qed.

(** ** What the parser returns is well-formed *)
Lemma parse_wf fuel :
  (forall d s j r, parse_value fuel d s = Some (j, r) -> wf d j) /\
  (forall d s l r, parse_elems fuel d s = Some (l, r) -> Forall (wf d) l) /\
  (forall d s l r, parse_members fuel d s = Some (l, r) ->
     Forall (fun kv => raw_text (fst kv) /\ wf d (snd kv)) l).
Proof.
  induction fuel as [|f (IHv & IHe & IHm)]; [done|]. split_and!; intros d s.
  - intros j r. cbn [parse_value]. destruct (skip_ws s) as [|c s']; [done|].
    destruct (byte_is 34 c).
    { destruct (scan_string s') as [[raw r']|] eqn:E; [|done]. intros [= <- <-].
      constructor. by apply scan_string_inv in E as [? _]. }
    destruct (byte_is 91 c).
    { destruct (max_depth <=? d)%nat eqn:Ed; [done|]. apply Nat.leb_gt in Ed.
      destruct (skip_ws s') as [|c' r']; [done|]. destruct (byte_is 93 c').
      - intros [= <- <-]. by constructor.
      - destruct (parse_elems f (S d) s') as [[l r'']|] eqn:E; [|done]. intros [= <- <-].
        constructor; [done|]. by eapply IHe. }
    destruct (byte_is 123 c).
    { destruct (max_depth <=? d)%nat eqn:Ed; [done|]. apply Nat.leb_gt in Ed.
      destruct (skip_ws s') as [|c' r']; [done|]. destruct (byte_is 125 c').
      - intros [= <- <-]. by constructor.
      - destruct (parse_members f (S d) s') as [[l r'']|] eqn:E; [|done]. intros [= <- <-].
        constructor; [done|]. by eapply IHm. }
    repeat (case_match; [intros [= <- <-]; constructor|]).
    destruct (scan_number (String c s')) as [[lit r']|] eqn:E; [|done]. intros [= <- <-].
    constructor. by apply scan_number_inv in E as (_ & ? & _).
  - intros l r. cbn [parse_elems]. destruct (parse_value f d s) as [[v r0]|] eqn:Ev; [|done].
    apply IHv in Ev. destruct (skip_ws r0) as [|c r']; [done|].
    destruct (byte_is 93 c); [intros [= <- <-]; by repeat constructor|].
    destruct (byte_is 44 c); [|done]. destruct (parse_elems f d r') as [[l' r'']|] eqn:E; [|done].
    intros [= <- <-]. constructor; [done|]. by eapply IHe.
  - intros l r. cbn [parse_members]. destruct (skip_ws s) as [|q s']; [done|].
    destruct (byte_is 34 q); [|done]. destruct (scan_string s') as [[k r1]|] eqn:Ek; [|done].
    apply scan_string_inv in Ek as [Hk _].
    destruct (skip_ws r1) as [|col r2]; [done|]. destruct (byte_is 58 col); [|done].
    destruct (parse_value f d r2) as [[v r3]|] eqn:Ev; [|done]. apply IHv in Ev.
    destruct (skip_ws r3) as [|c r4]; [done|].
    destruct (byte_is 125 c); [intros [= <- <-]; by repeat constructor|].
    destruct (byte_is 44 c); [|done]. destruct (parse_members f d r4) as [[l' r5]|] eqn:E; [|done].
    intros [= <- <-]. constructor; [done|]. by eapply IHm.
Qed.

Lemma parse_prefix_wf s j r : parse_prefix s = Some (j, r) -> wf 0 j.
Proof. unfold parse_prefix. intros H. by eapply (proj1 (parse_wf _)). Qed.

Lemma parse_Some_wf s j : parse s = Some j -> wf 0 j.
Proof.
  unfold parse. destruct (parse_prefix s) as [[j' r]|] eqn:E; [|done]. case_bool_decide; [|done].
  intros [= <-]. by eapply parse_prefix_wf.
Qed.

(** ** Printed documents are parsed back *)
Record style_ok (st : style) : Prop := {
  ws_at_ok : forall d, all_ws (ws_at st d);
  after_colon_ok : all_ws (after_colon st)
}.

Lemma compact_ok : style_ok compact.
Proof. by split. Qed.

Lemma all_ws_app s t : all_ws s -> all_ws t -> all_ws (s +:+ t).
Proof. unfold all_ws. intros Hs Ht. by rewrite str_forall_app, Hs, Ht. Qed.

Lemma indent_ok unit : all_ws unit -> style_ok (indent unit).
Proof.
  intros Hu. split; [|done]. intros d. apply all_ws_app; [done|]. cbn.
  induction d as [|d IH]; [done|]. by apply all_ws_app.
Qed.

Fixpoint print_elems (st : style) (d : nat) (l : list json) : string :=
  match l with
  | [] => ws_at st d +:+ "]"
  | y :: l' => "," +:+ ws_at st (S d) +:+ print st (S d) y +:+ print_elems st d l'
  end.

Definition print_member (st : style) (d : nat) (k : string) (x : json) : string :=
  str_lit k +:+ ":" +:+ after_colon st +:+ print st (S d) x.

Fixpoint print_members (st : style) (d : nat) (l : list (string * json)) : string :=
  match l with
  | [] => ws_at st d +:+ "}"
  | (k, y) :: l' => "," +:+ ws_at st (S d) +:+ print_member st d k y +:+ print_members st d l'
  end.

Lemma print_JArr st d x l :
  print st d (JArr (x :: l)) = "[" +:+ ws_at st (S d) +:+ print st (S d) x +:+ print_elems st d l.
Proof. cbn [print]. do 3 f_equal. induction l as [|y l IH]; [done|]. cbn. by rewrite IH. Qed.

Lemma print_JObj st d k x l :
  print st d (JObj ((k, x) :: l)) = "{" +:+ ws_at st (S d) +:+ print_member st d k x +:+ print_members st d l.
Proof.
  cbn [print]. unfold print_member. str_norm. do 6 f_equal.
  induction l as [|[k' y] l IH]; [done|]. cbn [print_members]. rewrite <- IH. unfold print_member. by str_norm.
Qed.

Lemma parse_value_ws f d w s : all_ws w -> parse_value f d (w +:+ s) = parse_value f d s.
Proof. intros Hw. destruct f; [done|]. cbn [parse_value]. by rewrite skip_ws_app. Qed.

Lemma parse_elems_ws f d w s : all_ws w -> parse_elems f d (w +:+ s) = parse_elems f d s.
Proof. intros Hw. destruct f; [done|]. cbn [parse_elems]. by rewrite parse_value_ws. Qed.

Lemma parse_members_ws f d w s : all_ws w -> parse_members f d (w +:+ s) = parse_members f d s.
Proof. intros Hw. destruct f; [done|]. cbn [parse_members]. by rewrite skip_ws_app. Qed.

(** The first character of a printed document. *)
Definition value_head (c : ascii) : bool :=
  negb (is_ws c) && negb (byte_is 93 c) && negb (byte_is 125 c).

Lemma number_head lit : scan_number lit = Some (lit, "") ->
  exists c r, lit = String c r /\ (code c = 45 \/ 48 <= code c <= 57).
Proof.
  intros (sign & u & Hsign & -> & _ & _ & c & r & -> & Hc)%scan_number_unsigned.
  apply is_digit_code in Hc. destruct Hsign as [-> | ->].
  - exists c, r. split; [done | by right].
  - exists "-"%char, (String c r). split; [done | by left].
Qed.

Lemma print_head st p d j : wf d j -> exists c r, print st p j = String c r /\ value_head c = true.
Proof.
  destruct 1 as [d|d b|d lit Hn|d raw Hr|d l Hd Hl|d kvs Hd Hl].
  - by eexists _, _.
  - destruct b; by eexists _, _.
  - destruct (number_head lit Hn) as (c & r & -> & Hc). exists c, r. split; [done|].
    unfold value_head, is_ws, byte_is. lia.
  - by eexists _, _.
  - destruct l as [|x l]; [by eexists _, _|]. rewrite print_JArr. by eexists _, _.
  - destruct kvs as [|[k x] l]; [by eexists _, _|]. rewrite print_JObj. by eexists _, _.
Qed.

Lemma skip_ws_head c s : is_ws c = false -> skip_ws (String c s) = String c s.
Proof. intros H. cbn [skip_ws]. by rewrite H. Qed.

(** What parsing back means for one document. *)
Definition reads_back (j : json) : Prop := forall st p d f rest, style_ok st -> wf d j ->
  head_in delimiter rest -> (2 * String.length (print st p j) + 1 <= f)%nat ->
  parse_value f d (print st p j +:+ rest) = Some (j, rest).

Lemma ws_delimiter w s : all_ws w -> head_in delimiter s -> head_in delimiter (w +:+ s).
Proof.
  intros Hw Hs. destruct w as [|c w]; [done|]. str_cons. cbn. unfold all_ws in Hw. cbn in Hw.
  apply andb_prop in Hw as [Hc _]. unfold delimiter. by rewrite Hc, !orb_true_r.
Qed.

Lemma print_elems_delimiter st p l rest : style_ok st -> head_in delimiter (print_elems st p l +:+ rest).
Proof.
  intros Hst. destruct l as [|y l]; cbn [print_elems]; str_norm; [|done].
  apply ws_delimiter; [apply Hst | done].
Qed.

Lemma print_members_delimiter st p l rest : style_ok st -> head_in delimiter (print_members st p l +:+ rest).
Proof.
  intros Hst. destruct l as [|[k y] l]; cbn [print_members]; str_norm; [|done].
  apply ws_delimiter; [apply Hst | done].
Qed.

Lemma parse_elems_print st p d x l f rest : style_ok st -> Forall reads_back (x :: l) -> Forall (wf d) (x :: l) ->
  (2 * String.length (print st (S p) x +:+ print_elems st p l) <= f)%nat ->
  parse_elems f d (print st (S p) x +:+ print_elems st p l +:+ rest) = Some (x :: l, rest).
Proof.
  intros Hst. revert x f. induction l as [|y l IH]; intros x f [Hx Hl]%Forall_cons [Hwx Hwl]%Forall_cons Hf;
    rewrite slen_app in Hf; cbn [print_elems] in *; rewrite ?slen_app in Hf; cbn [String.length] in Hf;
    (destruct f as [|f]; [lia|]); cbn [parse_elems].
  - rewrite Hx; [|done..| apply (print_elems_delimiter st p []); done | lia].
    str_norm. rewrite skip_ws_app by apply Hst. done.
  - rewrite Hx; [|done..| apply (print_elems_delimiter st p (y :: l)); done | lia].
    str_norm. rewrite skip_ws_head by done. change (byte_is 93 ",") with false.
    change (byte_is 44 ",") with true. cbv iota. rewrite parse_elems_ws by apply Hst.
    rewrite IH; [done | done | done | rewrite slen_app; lia].
Qed.

Lemma parse_members_print st p d k x l f rest : style_ok st ->
  Forall (fun kv => reads_back (snd kv)) ((k, x) :: l) ->
  Forall (fun kv => raw_text (fst kv) /\ wf d (snd kv)) ((k, x) :: l) ->
  (2 * String.length (print_member st p k x +:+ print_members st p l) <= f)%nat ->
  parse_members f d (print_member st p k x +:+ print_members st p l +:+ rest) = Some ((k, x) :: l, rest).
Proof.
  intros Hst. revert k x f.
  induction l as [|[k' y] l IH]; intros k x f [Hx Hl]%Forall_cons [[Hk Hwx] Hwl]%Forall_cons Hf;
    rewrite slen_app in Hf; unfold print_member in Hf at 1; cbn [fst snd print_members] in *;
    rewrite ?slen_app in Hf; unfold str_lit, dquote in Hf; rewrite ?slen_app in Hf; cbn [String.length] in Hf;
    (destruct f as [|f]; [lia|]); cbn [parse_members]; unfold print_member at 1, str_lit, dquote; str_norm.
  - rewrite skip_ws_head by done. change (byte_is 34 (byte 34)) with true. cbv iota.
    rewrite scan_string_raw by done. rewrite skip_ws_head by done. change (byte_is 58 ":") with true. cbv iota.
    rewrite parse_value_ws by apply Hst. rewrite Hx; [|done..| apply ws_delimiter; [apply Hst | done] | lia].
    rewrite skip_ws_app by apply Hst. done.
  - rewrite skip_ws_head by done. change (byte_is 34 (byte 34)) with true. cbv iota.
    rewrite scan_string_raw by done. rewrite skip_ws_head by done. change (byte_is 58 ":") with true. cbv iota.
    rewrite parse_value_ws by apply Hst. rewrite Hx; [|done..| lia].
    rewrite skip_ws_head by done. change (byte_is 125 ",") with false.
    change (byte_is 44 ",") with true. cbv iota. rewrite parse_members_ws by apply Hst.
    rewrite IH; [done | done | done | rewrite slen_app; lia].
Qed.

Lemma CutPrefix_head c s d p : c <> d -> CutPrefix (String c s) (String d p) = None.
Proof. intros H. cbn. by rewrite bool_decide_eq_false_2. Qed.

Lemma reads_back_all j : reads_back j.
Proof.
  induction j as [|b|lit|raw|l IH|kvs IH] using json_tree_ind; intros st p d f rest Hst Hw Hr Hf;
    (destruct f as [|f]; [lia|]).
  - done.
  - by destruct b.
  - inversion Hw as [| |? ? Hn| | |]; subst. destruct (number_head lit Hn) as (c & r & -> & Hc).
    cbn [print parse_value] in *. str_cons.
    assert (Hne : forall n, n <> 45 -> n < 48 \/ 57 < n -> byte_is n c = false) by (intros; apply byte_is_false; lia).
    rewrite skip_ws_head by (unfold is_ws; rewrite !Hne by lia; done).
    rewrite !Hne by lia. rewrite !CutPrefix_head by (intros ->; vm_compute in Hc; intuition congruence).
    rewrite <- string_cons_app. by rewrite (proj2 (proj2 (scan_number_inv _ _ _ Hn)) rest Hr).
  - inversion Hw; subst. cbn [print parse_value]. unfold str_lit, dquote. str_norm.
    rewrite skip_ws_head by done. change (byte_is 34 (byte 34)) with true. cbv iota. by rewrite scan_string_raw.
  - inversion Hw as [| | | |? ? Hd Hl|]; subst. destruct l as [|x l].
    { cbn [print]. str_cons. cbn [parse_value]. rewrite skip_ws_head by done. cbn -[max_depth Nat.leb].
      by rewrite (proj2 (Nat.leb_gt _ _) Hd). }
    rewrite print_JArr in *. str_norm. cbn [parse_value]. rewrite skip_ws_head by done.
    change (byte_is 34 "[") with false. change (byte_is 91 "[") with true. cbv iota.
    rewrite (proj2 (Nat.leb_gt _ _) Hd), parse_elems_ws, skip_ws_app by apply Hst.
    rewrite parse_elems_print; [|done..|rewrite !slen_app in Hf; rewrite !slen_app; cbn [String.length] in Hf; lia].
    apply Forall_cons in Hl as [Hx _]. destruct (print_head st (S p) _ x Hx) as (c & r & -> & Hc). str_cons.
    apply andb_prop in Hc as [[H1%negb_true_iff H2%negb_true_iff]%andb_prop _].
    by rewrite skip_ws_head, H2.
  - inversion Hw as [| | | | |? ? Hd Hl]; subst. destruct kvs as [|[k x] l].
    { cbn [print]. str_cons. cbn [parse_value]. rewrite skip_ws_head by done. cbn -[max_depth Nat.leb].
      by rewrite (proj2 (Nat.leb_gt _ _) Hd). }
    rewrite print_JObj in *. str_norm. cbn [parse_value]. rewrite skip_ws_head by done.
    change (byte_is 34 "{") with false. change (byte_is 91 "{") with false. change (byte_is 123 "{") with true.
    cbv iota. rewrite (proj2 (Nat.leb_gt _ _) Hd), parse_members_ws, skip_ws_app by apply Hst.
    rewrite parse_members_print; [|done..|rewrite !slen_app in Hf; rewrite !slen_app; cbn [String.length] in Hf; lia].
    unfold print_member, str_lit, dquote. str_norm. by rewrite skip_ws_head.
Qed.

Lemma parse_prefix_print st j rest : style_ok st -> wf 0 j -> head_in delimiter rest ->
  parse_prefix (print st 0 j +:+ rest) = Some (j, rest).
Proof.
  intros Hst Hj Hr. unfold parse_prefix. apply reads_back_all; [done..|]. rewrite slen_app. lia.
Qed.

(** A printed document followed by white space is parsed to itself. *)
Lemma parse_print st j w : style_ok st -> wf 0 j -> all_ws w -> parse (print st 0 j +:+ w) = Some j.
Proof.
  intros Hst Hj Hw. unfold parse.
  rewrite parse_prefix_print; [|done..|rewrite <- (string_app_nil_r w); by apply ws_delimiter].
  by rewrite skip_ws_all, bool_decide_eq_true_2.
Qed.

Lemma Unmarshal_Marshal {A} (dec : json -> result A) j : wf 0 j -> Unmarshal dec (Marshal j) = dec j.
Proof.
  intros Hj. unfold Unmarshal, Marshal. rewrite <- (string_app_nil_r (print compact 0 j)).
  by rewrite parse_print by first [apply compact_ok | done].
Qed.

(** ** The meaning of a document

    String literals and keys replaced by the strings they denote: documents
    that differ in escapes only have the same meaning. *)
Fixpoint meaning (j : json) : json :=
  match j with
  | JStr raw => JStr (unquote raw)
  | JArr l => JArr (map meaning l)
  | JObj kvs => JObj (map (fun '(k, v) => (unquote k, meaning v)) kvs)
  | _ => j
  end.

Lemma wf_escape d j : wf d j -> wf d (escape_json j).
Proof.
  revert d. induction j as [|b|lit|raw|l IH|kvs IH] using json_tree_ind; intros d Hw; try done.
  - inversion Hw; subst. constructor. by apply escape_raw_raw.
  - inversion Hw as [| | | |? ? Hd Hl|]; subst. constructor; [done|].
    rewrite Forall_map. rewrite Forall_forall in *. auto.
  - inversion Hw as [| | | | |? ? Hd Hl]; subst. constructor; [done|].
    rewrite Forall_map. rewrite Forall_forall in *. intros [k v] Hkv. cbn.
    destruct (Hl _ Hkv) as [Hk Hv]. split; [by apply escape_raw_raw | by apply (IH _ Hkv)].
Qed.

Lemma meaning_escape d j : wf d j -> meaning (escape_json j) = meaning j.
Proof.
  revert d. induction j as [|b|lit|raw|l IH|kvs IH] using json_tree_ind; intros d Hw; try done.
  - inversion Hw; subst. cbn. by rewrite unquote_escape_raw.
  - inversion Hw as [| | | |? ? Hd Hl|]; subst. cbn. f_equal. rewrite map_map. apply map_ext_in.
    rewrite Forall_forall in *. intros x Hx%list_elem_of_In. by eapply IH; [|apply Hl].
  - inversion Hw as [| | | | |? ? Hd Hl]; subst. cbn. f_equal. rewrite map_map. apply map_ext_in.
    rewrite Forall_forall in *. intros [k v] Hkv%list_elem_of_In. cbn.
    destruct (Hl _ Hkv) as [Hk Hv]. rewrite unquote_escape_raw by done. f_equal. by eapply (IH (k, v)).
Qed.

(** ** Maps of raw messages *)
Lemma sorted_entries_lookup {A} (m : gmap string A) k v : (k, v) ∈ sorted_entries m <-> m !! k = Some v.
Proof.
  unfold sorted_entries. rewrite list_elem_of_omap. split.
  - intros (k' & _ & H). destruct (m !! k') eqn:E; [|done]. cbn in H. by injection H as -> ->.
  - intros H. exists k. rewrite elem_of_sort_strings, elem_of_elements, elem_of_dom, H. by split; [eexists|].
Qed.

Lemma sorted_entries_nodup {A} (m : gmap string A) : NoDup (sorted_entries m).*1.
Proof.
  unfold sorted_entries.
  assert (H : NoDup (sort_strings (elements (dom m)))).
  { rewrite sort_strings_Permutation. apply NoDup_elements. }
  induction H as [|k l Hk Hl IH]; [constructor|]. cbn. destruct (m !! k) eqn:E; cbn; [|done].
  constructor; [|done]. rewrite list_elem_of_fmap. intros ([k' v'] & -> & H').
  apply list_elem_of_omap in H' as (k2 & Hk2 & H2). destruct (m !! k2); [|done]. cbn in H2.
  injection H2 as -> _. done.
Qed.

(** Inserting entries with distinct keys one by one. *)
Lemma foldl_insert_entries {A} (l : list (string * A)) (m : gmap string A) : NoDup l.*1 ->
  foldl (fun m '(k, v) => <[k := v]> m) m l = list_to_map l ∪ m.
Proof.
  revert m. induction l as [|[k v] l IH]; intros m Hn; cbn [foldl]; [symmetry; apply (left_id_L ∅ (∪))|].
  rewrite fmap_cons in Hn. apply NoDup_cons in Hn as [Hk Hn]. rewrite IH by done.
  change (list_to_map ((k, v) :: l)) with (<[k := v]> (list_to_map l : gmap string A)).
  rewrite <- insert_union_l. symmetry. apply insert_union_r. by apply not_elem_of_list_to_map_1.
Qed.

Lemma list_to_map_sorted {A} (m : gmap string A) : list_to_map (sorted_entries m) = m.
Proof.
  apply map_eq. intros k. apply option_eq. intros v.
  rewrite <- elem_of_list_to_map by apply sorted_entries_nodup. apply sorted_entries_lookup.
Qed.

(** A map written with keys [q k] that denote [k] is read back key by key. *)
Lemma set_members_entries {A} (q : string -> string) (f : A -> json) (m : gmap string A) :
  (forall k, is_Some (m !! k) -> unquote (q k) = k) ->
  set_members (map (fun '(k, v) => (q k, f v)) (sorted_entries m)) ∅ = f <$> m.
Proof.
  intros Hk. unfold set_members.
  assert (H : forall l (acc : gmap string json), (forall k v, (k, v) ∈ l -> unquote (q k) = k) ->
    foldl (fun m '(k, v) => <[unquote k := v]> m) acc (map (fun '(k, v) => (q k, f v)) l)
    = foldl (fun m '(k, v) => <[k := v]> m) acc (prod_map id f <$> l)).
  { induction l as [|[k v] l IH]; intros acc Hl; [done|]. cbn.
    rewrite (Hl k v) by apply list_elem_of_here. apply IH.
    intros k' v' H'. eapply Hl. by apply list_elem_of_further. }
  rewrite H by (intros k v Hkv%sorted_entries_lookup; apply Hk; eauto).
  rewrite foldl_insert_entries, (right_id_L ∅ (∪)).
  - rewrite list_to_map_fmap. by rewrite list_to_map_sorted.
  - rewrite <- list_fmap_compose. apply sorted_entries_nodup.
Qed.

(** The keys and values of a map that was read. *)
Definition read_map (d : nat) (m : gmap string json) : Prop :=
  forall k v, m !! k = Some v -> utf8 k /\ wf d v.

Lemma set_members_read d kvs m : Forall (fun kv => raw_text (fst kv) /\ wf d (snd kv)) kvs ->
  read_map d m -> read_map d (set_members kvs m).
Proof.
  unfold set_members. revert m. induction kvs as [|[k v] kvs IH]; intros m Hl Hm; [done|].
  apply Forall_cons in Hl as [[Hk Hv] Hl]. cbn [foldl]. apply IH; [done|].
  intros k' v'. rewrite lookup_insert_Some. intros [[<- <-] | [_ H]]; [|by apply Hm].
  split; [by apply unquote_utf8 | done].
Qed.

Lemma read_map_empty d : read_map d ∅.
Proof. by intros k v ?%lookup_empty_Some. Qed.

(** A map of raw messages that was read can be written. *)
Lemma wf_entries {A} d (q : string -> string) (f : A -> json) (m : gmap string A) : (d < max_depth)%nat ->
  (forall k v, m !! k = Some v -> raw_text (q k) /\ wf (S d) (f v)) ->
  wf d (JObj (map (fun '(k, v) => (q k, f v)) (sorted_entries m))).
Proof.
  intros Hd H. constructor; [done|]. rewrite Forall_map, Forall_forall.
  intros [k v] Hkv%sorted_entries_lookup. by apply H.
Qed.

Lemma depth0 : (0 < max_depth)%nat.
Proof. apply Nat.ltb_lt; vm_compute; reflexivity. Qed.
Lemma depth1 : (1 < max_depth)%nat.
Proof. apply Nat.ltb_lt; vm_compute; reflexivity. Qed.
Lemma depth2 : (2 < max_depth)%nat.
Proof. apply Nat.ltb_lt; vm_compute; reflexivity. Qed.
Lemma depth3 : (3 < max_depth)%nat.
Proof. apply Nat.ltb_lt; vm_compute; reflexivity. Qed.
