(* ===== verification/Kube.v ===== *)
(** * [internal/agent/kube]: the node's identity from the Kubernetes API *)
From S2P Require Import Prelude Effects GoStrings Netip Json Api K8s AgentEnv.
Local Open Scope Z_scope.
Local Open Scope prog_scope.

Record NodeInfo := MkNodeInfo { PodCIDRs : list string; InternalIP : string }.

(** Decoding into a [[]string]. *)
Definition decode_strings (j : json) : result (list string) :=
  match j with
  | JArr l => mapM (decode_string "") l
  | JNull => Ok []
  | _ => type_err
  end.

Definition ovnSubnets (raw : string) : list string :=
  if bool_decide (raw = "") then []
  else match Unmarshal (decode_raw_map None) raw with
  | Err _ => []
  | Ok networks =>
      match default ∅ networks !! "default" with
      | None => []
      | Some def =>
          match decode_strings def with
          | Ok list => list
          | Err _ =>
              match decode_string "" def with
              | Ok single => if negb (bool_decide (single = "")) then [single] else []
              | Err _ => []
              end
          end
      end
  end.

(** The first address of type [InternalIP]; empty without one. *)
Fixpoint internal_ip (addrs : list NodeAddress) : string :=
  match addrs with
  | [] => ""
  | a :: addrs' => if bool_decide (na_Type a = "InternalIP") then na_Address a
                   else internal_ip addrs'
  end.

(** What [GetNodeInfo] extracts from a node object. *)
Definition node_pod_cidrs (node : Node) : list string :=
  let cidrs := n_PodCIDRs node in
  let cidrs := if bool_decide (cidrs = []) && negb (bool_decide (n_PodCIDR node = ""))
               then [n_PodCIDR node] else cidrs in
  if bool_decide (cidrs = [])
  then ovnSubnets (default "" (n_Annotations node !! "k8s.ovn.org/node-subnets"))
  else cidrs.

Definition GetNodeInfo (name : string) : agent (result NodeInfo) :=
  r ← call (GetNode name);
  match r with
  | Err err => Ret (Err (wrapf [Lit "get node "; Lit name; Lit ": "] err))
  | Ok node =>
      let info := MkNodeInfo (node_pod_cidrs node) (internal_ip (n_Addresses node)) in
      if bool_decide (InternalIP info = "")
      then Ret (Err (errorf [Lit "node "; Lit name; Lit " has no InternalIP"]))
      else Ret (Ok info)
  end.

Section Cni.
Context `{L : K8sLib}.

Definition nested_string (u : Unstructured) (path : list string) : string :=
  fst (fst (NestedString (u_Object u) path)).

(** One block affinity of the loop in [CalicoPodCIDRs]. *)
Definition calico_block (node : string) (item : Unstructured) : list string :=
  if negb (bool_decide (nested_string item ["spec"; "node"] = node)) then []
  else if negb (bool_decide (nested_string item ["spec"; "state"] = "confirmed")) then []
  else if bool_decide (nested_string item ["spec"; "deleted"] = "true") then []
  else let cidr := nested_string item ["spec"; "cidr"] in
       if negb (bool_decide (cidr = "")) then [cidr] else [].

Fixpoint calico_blocks (node : string) (items : list Unstructured) (cidrs : list string)
    : list string :=
  match items with
  | [] => cidrs
  | item :: items' => calico_blocks node items' (cidrs ++ calico_block node item)
  end.

Definition CalicoPodCIDRs (node : string) : agent (result (list string)) :=
  r ← call ListBlockAffinities;
  match r with
  | Err err => Ret (Err (wrapf [Lit "list calico block affinities: "] err))
  | Ok items => Ret (Ok (calico_blocks node items []))
  end.

Fixpoint cilium_cidrs (node : string) (items : list Unstructured) : list string :=
  match items with
  | [] => []
  | item :: items' =>
      if negb (bool_decide (u_Name item = node)) then cilium_cidrs node items'
      else fst (fst (NestedStringSlice (u_Object item) ["spec"; "ipam"; "podCIDRs"]))
  end.

Definition CiliumPodCIDRs (node : string) : agent (result (list string)) :=
  r ← call ListCiliumNodes;
  match r with
  | Err err => Ret (Err (wrapf [Lit "list cilium nodes: "] err))
  | Ok items => Ret (Ok (cilium_cidrs node items))
  end.

End Cni.
