(* ===== verification/FileSystem.v ===== *)
(** * A file system under the agent's commands

    [fs_step] relates the contents of the file system before and after one
    exchange with it; failed writes may leave anything in the file they were
    writing.  [fs_run] lists every intermediate state, so that a property can
    be stated of each point at which the process could stop.  [sim] is an
    environment that behaves this way. *)
From S2P Require Import Prelude Effects GoStrings Api K8s AgentEnv.
Local Open Scope Z_scope.

Abbreviation fsys := (gmap string string).

(** The files of a database. *)
Definition db_files (p : string) : list string := [p; p +:+ "-wal"; p +:+ "-shm"].

Definition fs_step (fs : fsys) (ev : event aresp) (fs' : fsys) : Prop :=
  let 'existT c r := ev in
  match c as c return aresp c -> Prop with
  | ReadFile p => fun r => fs' = fs /\
      match r with
      | Ok s => fs !! p = Some s
      | Err e => is_kind ENotExist e = true -> fs !! p = None
      end
  | WriteFile p d => fun r =>
      match r with
      | None => fs' = <[p := d]> fs
      | Some _ => fs' = fs \/ exists s, fs' = <[p := s]> fs
      end
  | CreateTemp _ _ => fun r =>
      match r with Ok n => fs' = <[n := ""]> fs | Err _ => fs' = fs end
  | FileWrite p d => fun r =>
      match r with
      | None => fs' = <[p := default "" (fs !! p) +:+ d]> fs
      | Some _ => exists s, fs' = <[p := s]> fs
      end
  | Rename a b => fun r =>
      match r with
      | None => exists s, fs !! a = Some s /\ fs' = <[b := s]> (delete a fs)
      | Some _ => fs' = fs
      end
  | Remove p => fun r =>
      match r with
      | None => fs' = delete p fs
      | Some e => fs' = fs /\ (is_kind ENotExist e = true -> fs !! p = None)
      end
  | Acquire _ p | Release _ p | LoadTRCs _ p => fun _ => forall q, q ∉ db_files p -> fs' !! q = fs !! q
  | GatewayRun _ => fun _ => True
  | _ => fun _ => fs' = fs
  end r.

Fixpoint fs_run (fs : fsys) (tr : list (event aresp)) (seen : list fsys) (fs' : fsys) : Prop :=
  match tr with
  | [] => seen = [] /\ fs' = fs
  | ev :: tr' => exists fs1 seen', fs_step fs ev fs1 /\ seen = fs1 :: seen' /\ fs_run fs1 tr' seen' fs'
  end.

Lemma fs_run_app fs t1 t2 seen fs' : fs_run fs (t1 ++ t2) seen fs' <->
  exists s1 s2 fs1, seen = s1 ++ s2 /\ fs_run fs t1 s1 fs1 /\ fs_run fs1 t2 s2 fs'.
Proof.
  revert fs seen. induction t1 as [|ev t1 IH]; intros fs seen; cbn.
  - split; [intros H; by exists [], seen, fs | by intros (? & ? & ? & -> & [-> ->] & H)].
  - split.
    + intros (fs1 & seen' & Hs & -> & (s1 & s2 & fs2 & -> & H1 & H2)%IH).
      exists (fs1 :: s1), s2, fs2. split_and!; [done | by exists fs1, s1 | done].
    + intros (s1 & s2 & fs2 & -> & (fs1 & seen' & Hs & -> & H1) & H2).
      exists fs1, (seen' ++ s2). split_and!; [done..|]. apply IH. by exists seen', s2, fs2.
Qed.

(** The last state is one that was seen. *)
Lemma fs_run_last fs tr seen fs' : fs_run fs tr seen fs' -> fs' ∈ fs :: seen.
Proof.
  revert fs seen. induction tr as [|ev tr IH]; intros fs seen; cbn; [intros [-> ->]; by left|].
  intros (fs1 & seen' & _ & -> & H%IH). by apply list_elem_of_further.
Qed.

(** Commands that leave the file system alone. *)
Definition quiet_cmd (c : acmd) : bool :=
  match c with
  | WriteFile _ _ | CreateTemp _ _ | FileWrite _ _ | Rename _ _ | Remove _ => false
  | Acquire _ _ | Release _ _ | LoadTRCs _ _ | GatewayRun _ => false
  | _ => true
  end.

Definition quiet (ev : event aresp) : bool := quiet_cmd (projT1 ev).

Lemma fs_step_quiet fs ev fs' : quiet ev = true -> fs_step fs ev fs' -> fs' = fs.
Proof. destruct ev as [c r]. destruct c; try done; cbn; naive_solver. Qed.

Lemma fs_run_quiet fs tr seen fs' : forallb quiet tr = true -> fs_run fs tr seen fs' ->
  fs' = fs /\ forall f, f ∈ seen -> f = fs.
Proof.
  revert fs seen. induction tr as [|ev tr IH]; intros fs seen; cbn.
  - intros _ [-> ->]. split; [done | by intros f ?%elem_of_nil].
  - intros [Hq Hr]%andb_prop (fs1 & seen' & ->%fs_step_quiet & -> & H); [|done].
    destruct (IH fs seen' Hr H) as [-> Hs]. split; [done|]. intros f [-> | ?]%elem_of_cons; auto.
Qed.

(** The names of the temporary files of a run. *)
Definition temps (tr : list (event aresp)) : list string :=
  omap (fun ev => let 'existT c r := ev in
                  match c as c return aresp c -> option string with
                  | CreateTemp _ _ => fun r => match r with Ok n => Some n | Err _ => None end
                  | _ => fun _ => None
                  end r) tr.

Lemma temps_app t1 t2 : temps (t1 ++ t2) = temps t1 ++ temps t2.
Proof. apply omap_app. Qed.

(** Equal contents, temporary files apart. *)
Definition agree (T : list string) (f g : fsys) : Prop := forall p, p ∉ T -> f !! p = g !! p.

Global Instance agree_equiv T : Equivalence (agree T).
Proof.
  split; [by intros f p | by intros f g H p Hp; rewrite H |].
  intros f g h H1 H2 p Hp. by rewrite H1, H2.
Qed.

Lemma agree_insert T p s f g : agree T f g -> agree T (<[p := s]> f) (<[p := s]> g).
Proof.
  intros H q Hq. destruct (decide (p = q)) as [->|].
  - by rewrite !lookup_insert_eq.
  - rewrite !lookup_insert_ne by done. auto.
Qed.

Global Instance agree_insert_proper T p s : Proper (agree T ==> agree T) (insert (M := fsys) p s).
Proof. intros f g. apply agree_insert. Qed.

Lemma agree_mono T T' f g : T ⊆ T' -> agree T f g -> agree T' f g.
Proof. intros Hs H p Hp. apply H. auto. Qed.

Lemma agree_insert_in T p s f : p ∈ T -> agree T (<[p := s]> f) f.
Proof. intros Hp q Hq. apply lookup_insert_ne. by intros ->. Qed.

Lemma agree_delete_in T p f : p ∈ T -> agree T (delete p f) f.
Proof. intros Hp q Hq. apply lookup_delete_ne. by intros ->. Qed.

(** A write of [data] to [path] that has not happened yet, or has. *)
Definition pending_or_done (T : list string) (fs : fsys) (path data : string) (f : fsys) : Prop :=
  agree T f fs \/ agree T f (<[path := data]> fs).

(** Take a run apart, command by command. *)
Ltac fs_steps H :=
  cbn in H; repeat match type of H with
  | exists _ _, _ => let f := fresh "f" in let s := fresh "s" in let Hs := fresh "Hs" in
      destruct H as (f & s & Hs & -> & H); cbn in Hs
  | _ /\ _ => destruct H as [-> ->]
  end.

(** Replacing [path] by way of a temporary file: what [body] does with a fresh
    temporary carries over to the whole, which creates and removes it. *)
Section WithTemp.
Context (dir pattern path data : string) (body : string -> agent (result unit)).

Definition body_ok : Prop := forall T fs tmp tr r seen fs', tmp ∈ T -> fs !! tmp = Some "" ->
  exec (body tmp) tr r -> fs_run fs tr seen fs' ->
  temps tr = [] /\ (forall f, f ∈ seen -> pending_or_done T fs path data f) /\
  agree T fs' (if is_ok r then <[path := data]> fs else fs).

Lemma with_temp_spec fs tr r seen fs' : body_ok ->
  exec (try_bind (call (CreateTemp dir pattern))
          (fun tmp => body tmp ≫= fun r => call (Remove tmp) ≫= fun _ => Ret r)) tr r ->
  fs_run fs tr seen fs' ->
  (forall f, f ∈ seen -> pending_or_done (temps tr) fs path data f) /\
  agree (temps tr) fs' (if is_ok r then <[path := data]> fs else fs).
Proof.
  intros Hbody He Hr. unfold try_bind in He. exec_inv He. destruct r0 as [tmp|err].
  2:{ exec_inv He. subst r. fs_steps Hr. subst. split; [|done].
      intros f ->%list_elem_of_singleton. by left. }
  cbv beta iota in He. apply exec_mbind in He as (tr1 & tr2 & r1 & -> & He & He2). exec_inv He2. subst r1.
  cbn in Hr. destruct Hr as (f1 & s & -> & -> & Hr).
  apply fs_run_app in Hr as (s1 & s2 & fs2 & -> & Hr1 & Hr2).
  set (T := temps _). assert (HT : tmp ∈ T) by (cbn; set_solver).
  assert (H1 : agree T (<[tmp := ""]> fs) fs) by (by apply agree_insert_in).
  destruct (Hbody T (<[tmp := ""]> fs) tmp tr1 r s1 fs2) as (_ & Hseen & Hfin);
    [done | apply lookup_insert_eq | done..|].
  assert (Hlast : agree T fs' fs2).
  { fs_steps Hr2. destruct r0; [by destruct Hs as [-> _] | subst; by apply agree_delete_in]. }
  assert (Hend : agree T fs2 (if is_ok r then <[path := data]> fs else fs)).
  { rewrite Hfin. by destruct (is_ok r); rewrite H1. }
  assert (Hs2 : forall f, f ∈ s2 -> f = fs').
  { fs_steps Hr2. by intros g ->%list_elem_of_singleton. }
  split; [|by rewrite Hlast].
  intros f [-> | [Hf|Hf]%elem_of_app]%elem_of_cons.
  - by left.
  - destruct (Hseen f Hf) as [H|H]; rewrite H1 in H; [by left | by right].
  - apply Hs2 in Hf as ->. unfold pending_or_done. rewrite Hlast, Hend.
    destruct (is_ok r); [by right | by left].
Qed.
End WithTemp.

(** ** Environments that are one *)
Lemma handler_run {A} (h : handler aresp fsys) (p : agent A) fs :
  (forall c fs, fs_step fs (existT c (fst (h c fs))) (snd (h c fs))) ->
  exists seen, fs_run fs (trace_of aresp h p fs) seen (state_of aresp h p fs).
Proof.
  intros Hh. unfold trace_of, state_of. revert fs. induction p as [a | c k IH]; intros fs; cbn.
  - by exists [].
  - pose proof (Hh c fs) as Hs. destruct (h c fs) as [r fs1]; cbn in Hs.
    destruct (IH r fs1) as [seen H].
    destruct (run h (k r) fs1) as [[a fs2] tr]; cbn in *. by exists (fs1 :: seen), fs1, seen.
Qed.

Section Sim.
(** Answers to the requests that are not file operations. *)
Variable net : forall url : string, result HttpResp.

Definition not_exist (p : string) : gerror :=
  Error ENotExist [Lit "open "; Lit p; Lit ": no such file or directory"].

Definition sim : handler aresp fsys := fun c fs =>
  match c as c return aresp c * fsys with
  | ReadFile p => (match fs !! p with Some s => Ok s | None => Err (not_exist p) end, fs)
  | WriteFile p d => (None, <[p := d]> fs)
  | CreateTemp d pat => let n := d +:+ pat in (Ok n, <[n := ""]> fs)
  | FileWrite p d => (None, <[p := default "" (fs !! p) +:+ d]> fs)
  | Rename a b => match fs !! a with
                  | Some s => (None, <[b := s]> (delete a fs))
                  | None => (Some (not_exist a), fs)
                  end
  | Remove p => (None, delete p fs)
  | HttpDo url => (net url, fs)
  | Stat p => (match fs !! p with Some _ => Ok 420 | None => Err (not_exist p) end, fs)
  | InClusterConfig | NewClientset | NewDynamicClient => (None, fs)
  | GetNode _ => (Err (errorf [Lit "no cluster"]), fs)
  | ListBlockAffinities => (Err (errorf [Lit "no cluster"]), fs)
  | ListCiliumNodes => (Err (errorf [Lit "no cluster"]), fs)
  | NewRequest _ => (None, fs)
  | LookupSRV _ _ _ => (Ok [], fs)
  | DHCPClient _ => (None, fs)
  | DHCPDiscover _ => (Ok [], fs)
  | MDNSResolver => (None, fs)
  | MDNSBrowse => (Ok [], fs)
  | MkdirAll _ => (None, fs)
  | FileSync _ | FileChmod _ _ | FileClose _ => (None, fs)
  | Exec _ => (("", None), fs)
  | Serve _ _ _ | Shutdown _ => (None, fs)
  | LoadASInfo _ => (None, fs)
  | LocalIA => (Ok "1-ff00:0:110", fs)
  | DefaultLocalIP => (Ok [127; 0; 0; 1], fs)
  | GatewayRun _ => (None, fs)
  | LoadTRCs _ _ | Construct _ _ | Acquire _ _ | Release _ _ | Listen _ => (None, fs)
  | Start _ | Stop _ | NewStorage _ | Close _ | Cancel => (tt, fs)
  | Register _ => (Registered, fs)
  | Spawn _ | OnUp | RegisterServer _ => (tt, fs)
  | GroupWait => (None, fs)
  | TrySend _ => (tt, fs)
  | Sleep _ => (None, fs)
  | MapRange _ => ([], fs)
  end.

Lemma sim_step c fs : fs_step fs (existT c (fst (sim c fs))) (snd (sim c fs)).
Proof.
  destruct c; cbn; try done.
  - destruct (fs !! _) eqn:E; cbn; by rewrite ?E.
  - destruct (fs !! _) eqn:E; cbn; rewrite ?E; by eauto.
Qed.

Lemma sim_run {A} (p : agent A) fs :
  exists seen, fs_run fs (trace_of aresp sim p fs) seen (state_of aresp sim p fs).
Proof. apply handler_run, sim_step. Qed.
End Sim.
