(* ===== verification/Bootstrap.v ===== *)
(** * [internal/agent/bootstrap]: fetching the SCION endhost configuration

    The four discoverers, [Fetch], [fetchFrom], [atomicWrite], [httpGet] and the
    refresh loop [Run].  Downloads and file operations are commands of
    [AgentEnv]. *)
From S2P Require Import Prelude Effects GoStrings Api K8s Json AgentEnv.
Local Open Scope Z_scope.
Local Open Scope prog_scope.

(** ** Discoverers *)
Inductive Discoverer :=
| URLDiscoverer (BaseURL : string)
| DNSDiscoverer (Domain : string)
| DHCPDiscoverer (Interface : string)
| MDNSDiscoverer.

Definition NewDiscoverer (mode url dnsDomain iface : string) : result Discoverer :=
  if bool_decide (mode = "url") then Ok (URLDiscoverer url)
  else if bool_decide (mode = "dns") then Ok (DNSDiscoverer dnsDomain)
  else if bool_decide (mode = "dhcp") then Ok (DHCPDiscoverer iface)
  else if bool_decide (mode = "mdns") then Ok MDNSDiscoverer
  else Err (errorf [Lit "unknown bootstrap mode "; Quo mode]).

Definition discoveryPort : Z := 8041.

Definition base_url (host : string) (port : Z) : string :=
  "http://" +:+ host +:+ ":" +:+ itoa port.

(** The addresses of option 72 come in text form. *)
Definition urlsFromWWWServers (ips : list string) : list string :=
  map (fun ip => base_url ip discoveryPort) ips.

Definition srv_urls (srvs : list SRV) : list string :=
  map (fun s => base_url (TrimSuffixByte 46 (srv_Target s)) (srv_Port s))
    (filter (fun s => srv_Target s <> ".") srvs).

Definition dns_BaseURLs (domain : string) : agent (result (list string)) :=
  r ← call (LookupSRV "sciondiscovery" "tcp" domain);
  match r with
  | Err err => Ret (Err (wrapf [Lit "SRV _sciondiscovery._tcp."; Lit domain; Lit ": "] err))
  | Ok srvs =>
      let urls := srv_urls srvs in
      if bool_decide (urls = [])
      then Ret (Err (errorf [Lit "no SRV records for _sciondiscovery._tcp."; Lit domain]))
      else Ret (Ok urls)
  end.

Definition dhcp_BaseURLs (iface : string) : agent (result (list string)) :=
  c ← call (DHCPClient iface);
  match c with
  | Some err => Ret (Err (wrapf [Lit "dhcp client on "; Lit iface; Lit ": "] err))
  | None =>
      r ← call (DHCPDiscover iface);
      match r with
      | Err err => Ret (Err (wrapf [Lit "dhcp discover: "] err))
      | Ok ips =>
          if bool_decide (ips = [])
          then Ret (Err (errorf [Lit "dhcp: no option 72 (WWW server) in offer"]))
          else Ret (Ok (urlsFromWWWServers ips))
      end
  end.

Definition entry_urls (entries : list ServiceEntry) : list string :=
  mjoin (map (fun e => map (fun ip => base_url ip (se_Port e)) (se_AddrIPv4 e)) entries).

Definition mdns_BaseURLs : agent (result (list string)) :=
  c ← call MDNSResolver;
  match c with
  | Some err => Ret (Err err)
  | None =>
      r ← call MDNSBrowse;
      match r with
      | Err err => Ret (Err err)
      | Ok entries =>
          let urls := entry_urls entries in
          if bool_decide (urls = [])
          then Ret (Err (errorf [Lit "mdns: no _sciondiscovery._tcp services found"]))
          else Ret (Ok urls)
      end
  end.

Definition BaseURLs (d : Discoverer) : agent (result (list string)) :=
  match d with
  | URLDiscoverer url => Ret (Ok [url])
  | DNSDiscoverer domain => dns_BaseURLs domain
  | DHCPDiscoverer iface => dhcp_BaseURLs iface
  | MDNSDiscoverer => mdns_BaseURLs
  end.

(** ** Downloads *)
Record trcID := MkTrcID { ISD : Z; Base : Z; Serial : Z }.
Record trcEntry := MkTrcEntry { ID : trcID }.

Definition decode_trcID : trcID -> json -> result trcID :=
  decode_struct skip_unknown
    [("isd", fun i j => n ← decode_int (ISD i) j; Ok (MkTrcID n (Base i) (Serial i)));
     ("base_number", fun i j => n ← decode_int (Base i) j; Ok (MkTrcID (ISD i) n (Serial i)));
     ("serial_number", fun i j => n ← decode_int (Serial i) j; Ok (MkTrcID (ISD i) (Base i) n))].

Definition decode_trcEntry : trcEntry -> json -> result trcEntry :=
  decode_struct skip_unknown [("id", fun e j => i ← decode_trcID (ID e) j; Ok (MkTrcEntry i))].

Definition decode_entries : json -> result (list trcEntry) :=
  decode_slice (MkTrcEntry (MkTrcID 0 0 0)) decode_trcEntry.

Definition maxBodySize : Z := Z.shiftl 4 20.

(** [io.LimitReader] stops one byte beyond the bound: a read error after that
    is not seen. *)
Definition httpGet (url : string) : agent (result string) :=
  e ← call (NewRequest url);
  match e with
  | Some err => Ret (Err err)
  | None =>
      r ← call (HttpDo url);
      match r with
      | Err err => Ret (Err err)
      | Ok resp =>
          if negb (hr_code resp =? 200)
          then Ret (Err (errorf [Lit "GET "; Lit url; Lit ": "; Lit (hr_status resp)]))
          else if maxBodySize <? Z.of_nat (String.length (hr_body resp))
          then Ret (Err (errorf [Lit "GET "; Lit url; Lit ": response exceeds ";
                                 Lit (itoa maxBodySize); Lit " bytes"]))
          else match hr_err resp with
               | Some err => Ret (Err err)
               | None => Ret (Ok (hr_body resp))
               end
      end
  end.

(** ** Writing a file through a temporary one *)
Definition close_err (tmp : string) (err : gerror) : agent (result unit) :=
  _ ← call (FileClose tmp); Ret (Err err).

Definition write_tmp (tmp path data : string) : agent (result unit) :=
  w ← call (FileWrite tmp data);
  match w with
  | Some err => close_err tmp err
  | None =>
      s ← call (FileSync tmp);
      match s with
      | Some err => close_err tmp err
      | None =>
          c ← call (FileChmod tmp 420);
          match c with
          | Some err => close_err tmp err
          | None =>
              c ← call (FileClose tmp);
              match c with
              | Some err => Ret (Err err)
              | None => r ← call (Rename tmp path); Ret (check r)
              end
          end
      end
  end.

Definition atomicWrite (path data : string) : agent (result unit) :=
  let '(dir, base) := SplitPath path in
  t ← call (CreateTemp dir (base +:+ ".tmp*"));
  match t with
  | Err err => Ret (Err err)
  | Ok tmp =>
      r ← write_tmp tmp path data;
      _ ← call (Remove tmp);
      Ret r
  end.

(** ** Fetching one configuration *)
Definition trc_url (base : string) (i : trcID) : string :=
  base +:+ "/trcs/isd" +:+ itoa (ISD i) +:+ "-b" +:+ itoa (Base i) +:+ "-s" +:+ itoa (Serial i)
  +:+ "/blob".

Definition trc_name (i : trcID) : string :=
  "ISD" +:+ itoa (ISD i) +:+ "-B" +:+ itoa (Base i) +:+ "-S" +:+ itoa (Serial i) +:+ ".trc".

Fixpoint get_trcs (base : string) (entries : list trcEntry) (trcs : gmap string string)
    : agent (result (gmap string string)) :=
  match entries with
  | [] => Ret (Ok trcs)
  | e :: entries' =>
      raw <~ httpGet (trc_url base (ID e));
      get_trcs base entries' (<[trc_name (ID e) := raw]> trcs)
  end.

Definition pin_path (dir name : string) : string :=
  JoinPath [dir; ".."; "pinned-trcs"; BasePath name].
Definition trc_path (dir name : string) : string := JoinPath [dir; "certs"; name].
Definition topo_path (dir : string) : string := JoinPath [dir; "topology.json"].

Fixpoint check_pins (base dir : string) (l : list (string * string)) : agent (result unit) :=
  match l with
  | [] => Ret (Ok tt)
  | (name, raw) :: l' =>
      r ← call (ReadFile (pin_path dir name));
      match r with
      | Err err =>
          if is_kind ENotExist err then check_pins base dir l'
          else Ret (Err (wrapf [Lit "reading pin for "; Lit name; Lit ": "] err))
      | Ok pin =>
          if negb (bool_decide (pin = raw))
          then Ret (Err (errorf [Lit "pinned TRC "; Lit name; Lit ": discovery server ";
                                 Lit base; Lit " served different bytes than pin; refusing to update"]))
          else check_pins base dir l'
      end
  end.

Fixpoint write_trcs (dir : string) (l : list (string * string)) : agent (result unit) :=
  match l with
  | [] => Ret (Ok tt)
  | (name, raw) :: l' => _ <~ atomicWrite (trc_path dir name) raw; write_trcs dir l'
  end.

(** The two [range] loops over [trcs] choose their orders independently. *)
Definition install (base dir topo : string) (trcs : gmap string string) : agent (result unit) :=
  l ← range_map trcs;
  _ <~ check_pins base dir l;
  l ← range_map trcs;
  _ <~ write_trcs dir l;
  atomicWrite (topo_path dir) topo.

Definition fetchFrom (base dir : string) : agent (result unit) :=
  m ← call (MkdirAll (JoinPath [dir; "certs"]));
  match m with
  | Some err => Ret (Err err)
  | None =>
      topo <~ httpGet (base +:+ "/topology");
      match Unmarshal (decode_struct1 "isd_as") topo with
      | Err err => Ret (Err (wrapf [Lit "invalid topology from "; Lit base; Lit ": "] err))
      | Ok ia =>
          if bool_decide (ia = "")
          then Ret (Err (errorf [Lit "topology from "; Lit base; Lit " has no isd_as"]))
          else
            list <~ httpGet (base +:+ "/trcs");
            match Unmarshal decode_entries list with
            | Err err => Ret (Err (wrapf [Lit "invalid trc list: "] err))
            | Ok entries =>
                trcs <~ get_trcs base entries ∅;
                install base dir topo trcs
            end
      end
  end.

Fixpoint fetch_bases (dir : string) (urls : list string) (lastErr : option gerror)
    : agent (result unit) :=
  match urls with
  | [] => Ret (Err (wrapf [Lit "all discovery servers failed: "]
                     (default (errorf [Lit "%!w(<nil>)"]) lastErr)))
  | base :: urls' =>
      r ← fetchFrom (TrimRightByte 47 base) dir;
      match r with
      | Err err => fetch_bases dir urls' (Some (wrapf [Lit base; Lit ": "] err))
      | Ok _ => Ret (Ok tt)
      end
  end.

Definition Fetch (d : Discoverer) (dir : string) : agent (result unit) :=
  urls <~ BaseURLs d;
  if bool_decide (urls = [])
  then Ret (Err (errorf [Lit "discoverer returned no discovery server URLs"]))
  else fetch_bases dir urls None.

(** ** The refresh loop

    The content of a file, empty when it cannot be read; one round; and the
    loop, given the instants at which the ticker fires before the context is
    done ([ticks] of them).  [NewTicker] panics on a non-positive interval. *)
Definition read_or_empty (path : string) : agent string :=
  r ← call (ReadFile path); Ret (match r with Ok s => s | Err _ => "" end).

Definition fetch_round (d : Discoverer) (dir : string) : agent unit :=
  before ← read_or_empty (topo_path dir);
  r ← Fetch d dir;
  match r with
  | Err _ => Ret tt
  | Ok _ =>
      after ← read_or_empty (topo_path dir);
      if negb (bool_decide (before = after)) then call (TrySend "topoChanged") else Ret tt
  end.

Fixpoint fetch_ticks (d : Discoverer) (dir : string) (ticks : nat) : agent unit :=
  match ticks with
  | O => Ret tt
  | S n => _ ← fetch_round d dir; fetch_ticks d dir n
  end.

Definition Run (d : Discoverer) (dir : string) (interval : Z) (ticks : nat) : agent (go unit) :=
  _ ← fetch_round d dir;
  if interval <=? 0 then Ret Panic
  else _ ← fetch_ticks d dir ticks; Ret (Val (Err (Error ECanceled [Lit "context canceled"]))).
