(* ===== verification/BootstrapProps.v ===== *)
(** * Properties of the bootstrap component

    What [fetchFrom] can leave on disk, at the end and at every point on the
    way; which base [Fetch] settles for; the refresh loop. *)
From S2P Require Import Prelude Effects GoStrings Api K8s Json GoTime Config AgentEnv FileSystem Bootstrap.
Local Open Scope Z_scope.

(** ** [atomicWrite] *)
Lemma write_tmp_spec T fs tmp path data tr r seen fs' : tmp ∈ T -> fs !! tmp = Some "" ->
  exec (write_tmp tmp path data) tr r -> fs_run fs tr seen fs' ->
  temps tr = [] /\ (forall f, f ∈ seen -> pending_or_done T fs path data f) /\
  agree T fs' (if is_ok r then <[path := data]> fs else fs).
Proof.
  intros HT H0 He Hr. unfold write_tmp in He. unfold pending_or_done.
  assert (Hins : forall s, agree T (<[tmp := s]> fs) fs) by (intros; by apply agree_insert_in).
  exec_inv He. destruct r0 as [err|].
  { unfold close_err in He. exec_inv He. subst r. fs_steps Hr. destruct Hs as [s0 ->]. subst f0.
    split; [done|]. split; [set_solver | apply Hins]. }
  exec_inv He. destruct r0 as [err|].
  { unfold close_err in He. exec_inv He. subst r. fs_steps Hr. subst.
    split; [done|]. split; [set_solver | apply Hins]. }
  exec_inv He. destruct r0 as [err|].
  { unfold close_err in He. exec_inv He. subst r. fs_steps Hr. subst.
    split; [done|]. split; [set_solver | apply Hins]. }
  exec_inv He. destruct r0 as [err|].
  { exec_inv He. subst r. fs_steps Hr. subst.
    split; [done|]. split; [set_solver | apply Hins]. }
  exec_inv He. subst r. fs_steps Hr. subst. rewrite H0 in *. cbn [default] in *.
  destruct r0 as [err|]; cbn in *.
  - subst. split; [done|]. split; [set_solver | apply Hins].
  - destruct Hs3 as (s & Hl & ->). rewrite lookup_insert_eq in Hl. injection Hl as <-.
    assert (Hd : agree T (<[path := data]> (delete tmp (<[tmp := data]> fs))) (<[path := data]> fs)).
    { apply agree_insert. rewrite delete_insert_eq. by apply agree_delete_in. }
    split; [done|]. split; [set_solver | done].
Qed.

Lemma atomicWrite_spec fs path data tr r seen fs' :
  exec (atomicWrite path data) tr r -> fs_run fs tr seen fs' ->
  (forall f, f ∈ seen -> pending_or_done (temps tr) fs path data f) /\
  agree (temps tr) fs' (if is_ok r then <[path := data]> fs else fs).
Proof.
  unfold atomicWrite. destruct (SplitPath path) as [dir base]. intros He Hr.
  eapply (with_temp_spec dir (base +:+ ".tmp*") path data (fun tmp => write_tmp tmp path data));
    [|exact He | exact Hr].
  intros T f tmp tr1 r1 s1 f1. apply write_tmp_spec.
Qed.

(** ** The list of TRCs *)
Definition put_trcs (dir : string) (l : list (string * string)) (fs : fsys) : fsys :=
  foldl (fun fs '(name, raw) => <[trc_path dir name := raw]> fs) fs l.

Lemma put_trcs_agree T dir l f g : agree T f g -> agree T (put_trcs dir l f) (put_trcs dir l g).
Proof.
  revert f g. induction l as [|[n raw] l IH]; intros f g H; cbn; [done|].
  apply IH. by apply agree_insert.
Qed.

(** [f] holds the first files of [l] and no other change. *)
Definition partly_put (T : list string) (dir : string) (l : list (string * string)) (fs f : fsys)
    : Prop :=
  exists l1, l1 `prefix_of` l /\ agree T f (put_trcs dir l1 fs).

Lemma partly_put_nil T dir l fs f : agree T f fs -> partly_put T dir l fs f.
Proof. exists []. split; [apply prefix_nil | done]. Qed.

Lemma partly_put_cons T dir n raw l fs fs1 f : agree T fs1 (<[trc_path dir n := raw]> fs) ->
  partly_put T dir l fs1 f -> partly_put T dir ((n, raw) :: l) fs f.
Proof.
  intros H1 (l1 & Hp & Hf). exists ((n, raw) :: l1). split; [by apply prefix_cons|].
  rewrite Hf. cbn. by apply put_trcs_agree.
Qed.

Lemma write_trcs_spec T fs dir l tr r seen fs' : temps tr ⊆ T ->
  exec (write_trcs dir l) tr r -> fs_run fs tr seen fs' ->
  (forall f, f ∈ seen -> partly_put T dir l fs f) /\ partly_put T dir l fs fs' /\
  (is_ok r = true -> agree T fs' (put_trcs dir l fs)).
Proof.
  revert fs tr seen. induction l as [|[n raw] l IH]; intros fs tr seen HT He Hr; cbn [write_trcs] in He.
  { exec_inv He. subst r. fs_steps Hr. split; [set_solver|]. split; [by apply partly_put_nil|].
    done. }
  apply exec_try in He as [(tr1 & tr2 & a & -> & H1 & H2) | (e & -> & H1)].
  - rewrite temps_app in HT. apply fs_run_app in Hr as (s1 & s2 & fs1 & -> & Hr1 & Hr2).
    destruct (atomicWrite_spec fs _ _ _ _ _ _ H1 Hr1) as [Hseen Hfin].
    assert (HT1 : temps tr1 ⊆ T) by set_solver.
    apply (agree_mono _ _ _ _ HT1) in Hfin.
    destruct (IH fs1 tr2 s2) as (Hs2 & Hp & Hok); [set_solver | done..|].
    split; [|split].
    + intros f [Hf|Hf]%elem_of_app.
      * destruct (Hseen f Hf) as [H|H]; apply (agree_mono _ _ _ _ HT1) in H.
        -- by apply partly_put_nil.
        -- exists [(n, raw)]. split; [|done]. apply prefix_cons, prefix_nil.
      * eapply partly_put_cons; [exact Hfin | auto].
    + by eapply partly_put_cons.
    + intros Hr. rewrite (Hok Hr). cbn. by apply put_trcs_agree.
  - destruct (atomicWrite_spec fs _ _ _ _ _ _ H1 Hr) as [Hseen Hfin]. split; [|split]; [| |done].
    + intros f Hf. destruct (Hseen f Hf) as [H|H]; apply (agree_mono _ _ _ _ HT) in H.
      * by apply partly_put_nil.
      * exists [(n, raw)]. split; [|done]. apply prefix_cons, prefix_nil.
    + apply partly_put_nil. by apply (agree_mono (temps tr)).
Qed.

(** ** Pins *)
Definition pins_ok (fs : fsys) (dir : string) (trcs : gmap string string) : Prop :=
  forall name raw pin, trcs !! name = Some raw -> fs !! pin_path dir name = Some pin -> pin = raw.

Lemma check_pins_spec base dir l tr r : exec (check_pins base dir l) tr r ->
  forallb quiet tr = true /\ forall fs seen fs', fs_run fs tr seen fs' -> is_ok r = true ->
  forall name raw pin, (name, raw) ∈ l -> fs !! pin_path dir name = Some pin -> pin = raw.
Proof.
  revert tr. induction l as [|[n d] l IH]; intros tr He; cbn [check_pins] in He.
  { exec_inv He. subst r. split; [done|]. intros. set_solver. }
  exec_inv He. destruct r0 as [pin|err].
  - destruct (bool_decide (pin = d)) eqn:E; cbn [negb] in He.
    + case_bool_eq. subst d. destruct (IH _ He) as [Hq IHr]. split; [done|].
      intros fs seen fs' (f1 & s & [-> Hp] & -> & Hr) Hok name raw pin'
        [[= -> ->] | Hin]%elem_of_cons Hl; [|by eapply IHr].
      rewrite Hp in Hl. by injection Hl as ->.
    + exec_inv He. subst r. split; [done|]. done.
  - destruct (is_kind ENotExist err) eqn:E.
    + destruct (IH _ He) as [Hq IHr]. split; [done|].
      intros fs seen fs' (f1 & s & [-> Hp] & -> & Hr) Hok name raw pin'
        [[= -> ->] | Hin]%elem_of_cons Hl; [|by eapply IHr].
      by rewrite (Hp E) in Hl.
    + exec_inv He. subst r. split; [done|]. done.
Qed.

(** ** Downloads *)
Definition served (tr : list (event aresp)) (url body : string) : Prop :=
  exists resp, existT (HttpDo url) (Ok resp) ∈ tr /\ hr_code resp = 200 /\ hr_body resp = body /\
    Z.of_nat (String.length body) <= maxBodySize.

Lemma served_app_l t1 t2 u b : served t1 u b -> served (t1 ++ t2) u b.
Proof. intros (r & ? & ?). exists r. split; [|done]. set_solver. Qed.

Lemma served_app_r t1 t2 u b : served t2 u b -> served (t1 ++ t2) u b.
Proof. intros (r & ? & ?). exists r. split; [|done]. set_solver. Qed.

#[export] Hint Resolve served_app_l served_app_r : scion.

Lemma httpGet_spec url tr r : exec (httpGet url) tr r ->
  forallb quiet tr = true /\ forall body, r = Ok body -> served tr url body.
Proof.
  unfold httpGet. intros He. exec_inv He. destruct r0 as [err|].
  { exec_inv He. subst r. done. }
  exec_inv He. destruct r0 as [resp|err].
  2:{ exec_inv He. subst r. done. }
  destruct (hr_code resp =? 200) eqn:Ec; cbn [negb] in He; [|exec_inv He; by subst r].
  destruct (maxBodySize <? _) eqn:El; [exec_inv He; by subst r|].
  destruct (hr_err resp); exec_inv He; subst r; split; try done.
  intros body [= <-]. case_bool_eq. exists resp. split; [set_solver | done].
Qed.

(** [trcs] holds one blob for every entry, served under its name. *)
Definition trcs_served (base : string) (tr : list (event aresp)) (entries : list trcEntry)
    (trcs : gmap string string) : Prop :=
  (forall e, e ∈ entries -> is_Some (trcs !! trc_name (ID e))) /\
  forall name raw, trcs !! name = Some raw ->
  exists e, e ∈ entries /\ name = trc_name (ID e) /\ served tr (trc_url base (ID e)) raw.

Lemma trcs_served_insert base tr1 tr2 e done trcs raw :
  trcs_served base tr1 done trcs -> served tr2 (trc_url base (ID e)) raw ->
  trcs_served base (tr1 ++ tr2) (done ++ [e]) (<[trc_name (ID e) := raw]> trcs).
Proof.
  intros [H1 H2] Hs. split.
  - intros e' [He| ->%list_elem_of_singleton]%elem_of_app.
    + apply lookup_insert_is_Some'. auto.
    + rewrite lookup_insert_eq. by eexists.
  - intros name r [[<- <-] | [Hn Hl]]%lookup_insert_Some.
    + exists e. split_and!; [set_solver | done | by apply served_app_r].
    + destruct (H2 _ _ Hl) as (e' & ? & ? & ?). exists e'.
      split_and!; [set_solver | done | by apply served_app_l].
Qed.

Lemma get_trcs_spec base tr0 done entries trcs tr r :
  trcs_served base tr0 done trcs -> exec (get_trcs base entries trcs) tr r ->
  forallb quiet tr = true /\
  forall trcs', r = Ok trcs' -> trcs_served base (tr0 ++ tr) (done ++ entries) trcs'.
Proof.
  revert tr0 done trcs tr. induction entries as [|e entries IH]; intros tr0 done trcs tr H0 He; cbn [get_trcs] in He.
  { exec_inv He. subst r. split; [done|]. intros ? [= <-]. by rewrite !app_nil_r. }
  apply exec_try in He as [(tr1 & tr2 & raw & -> & H1 & H2) | (err & -> & H1)].
  - apply httpGet_spec in H1 as [Hq Hs].
    destruct (IH (tr0 ++ tr1) (done ++ [e]) (<[trc_name (ID e) := raw]> trcs) tr2) as [Hq2 Hr];
      [by apply trcs_served_insert; auto | done|].
    split; [by rewrite forallb_app, Hq, Hq2|]. intros trcs' Hok.
    specialize (Hr trcs' Hok). by rewrite <- !app_assoc in Hr.
  - apply httpGet_spec in H1 as [Hq _]. done.
Qed.

(** A complete configuration served by one base. *)
Definition configuration (base : string) (tr : list (event aresp)) (topo : string)
    (trcs : gmap string string) : Prop :=
  served tr (base +:+ "/topology") topo /\
  (exists ia, Unmarshal (decode_struct1 "isd_as") topo = Ok ia /\ ia <> "") /\
  exists list entries, served tr (base +:+ "/trcs") list /\
    Unmarshal decode_entries list = Ok entries /\ trcs_served base tr entries trcs.

(** What a state of the disk may be during the installation of a configuration
    over [fs], and once it is complete. *)
Definition installing (T : list string) (dir topo : string) (trcs : gmap string string)
    (fs f : fsys) : Prop :=
  exists l, l ≡ₚ map_to_list trcs /\
    (partly_put T dir l fs f \/ agree T f (<[topo_path dir := topo]> (put_trcs dir l fs))).

Definition installed (T : list string) (dir topo : string) (trcs : gmap string string)
    (fs f : fsys) : Prop :=
  exists l, l ≡ₚ map_to_list trcs /\ agree T f (<[topo_path dir := topo]> (put_trcs dir l fs)).

Lemma range_map_quiet {V} (m : gmap string V) tr l : exec (range_map m) tr l ->
  forallb quiet tr = true /\ l ≡ₚ map_to_list m.
Proof. intros [Hl [c ->]]%exec_range_map. done. Qed.

Lemma install_spec T fs base dir topo trcs tr r seen fs' : temps tr ⊆ T ->
  exec (install base dir topo trcs) tr r -> fs_run fs tr seen fs' ->
  ((forall f, f ∈ fs' :: seen -> f = fs) /\ is_ok r = false \/ pins_ok fs dir trcs /\
   forall f, f ∈ fs' :: seen -> installing T dir topo trcs fs f) /\
  (is_ok r = true -> installed T dir topo trcs fs fs') /\
  (is_ok r = false -> exists l, l ≡ₚ map_to_list trcs /\ partly_put T dir l fs fs').
Proof.
  unfold install. intros HT He Hr.
  apply exec_mbind in He as (t1 & t2 & l1 & -> & [Hq1 Hl1]%range_map_quiet & He).
  apply fs_run_app in Hr as (s1 & s2 & fs1 & -> & Hr1 & Hr2).
  destruct (fs_run_quiet _ _ _ _ Hq1 Hr1) as [-> Hs1].
  apply exec_try in He as [(t3 & t4 & [] & -> & He1 & He2) | (e & -> & He1)];
    apply check_pins_spec in He1 as [Hq2 Hpin].
  2:{ destruct (fs_run_quiet _ _ _ _ Hq2 Hr2) as [-> Hs2]. split; [left; set_solver|]. split; [done|].
      exists (map_to_list trcs). split; [done | by apply partly_put_nil]. }
  apply fs_run_app in Hr2 as (s3 & s4 & fs2 & -> & Hr3 & Hr4).
  destruct (fs_run_quiet _ _ _ _ Hq2 Hr3) as [-> Hs3].
  assert (Hpins : pins_ok fs dir trcs).
  { intros name raw pin Hl Hp. eapply (Hpin _ _ _ Hr3 eq_refl name raw pin); [|done].
    rewrite Hl1. by apply elem_of_map_to_list. }
  apply exec_mbind in He2 as (t5 & t6 & l & -> & [Hq3 Hl]%range_map_quiet & He).
  apply fs_run_app in Hr4 as (s5 & s6 & fs3 & -> & Hr5 & Hr6).
  destruct (fs_run_quiet _ _ _ _ Hq3 Hr5) as [-> Hs5].
  assert (H0 : forall f, f ∈ s1 ++ s3 ++ s5 -> installing T dir topo trcs fs f).
  { intros f Hf. exists l. split; [done|]. left. apply partly_put_nil.
    assert (f = fs) as -> by set_solver. done. }
  rewrite !temps_app in HT.
  apply exec_try in He as [(t7 & t8 & [] & -> & He1 & He2) | (e & -> & He1)].
  - rewrite temps_app in HT.
    apply fs_run_app in Hr6 as (s7 & s8 & fs4 & -> & Hr7 & Hr8).
    destruct (write_trcs_spec T fs dir l t7 (Ok tt) s7 fs4) as (Hw & Hwp & Hwok); [set_solver | done..|].
    specialize (Hwok eq_refl).
    destruct (atomicWrite_spec fs4 _ _ _ _ _ _ He2 Hr8) as [Hseen Hfin].
    assert (HT8 : temps t8 ⊆ T) by set_solver.
    apply (agree_mono _ _ _ _ HT8) in Hfin.
    split.
    + right. split; [done|]. intros f Hf.
      assert (f ∈ s1 ++ s3 ++ s5 \/ f ∈ s7 \/ f ∈ s8 \/ f = fs') as [?|[?|[Hf'| ->]]] by set_solver.
      * auto.
      * exists l. split; [done|]. left. auto.
      * exists l. split; [done|].
        destruct (Hseen f Hf') as [H|H]; apply (agree_mono _ _ _ _ HT8) in H.
        -- left. exists l. split; [done|]. by rewrite H.
        -- right. by rewrite H, Hwok.
      * exists l. split; [done|]. destruct (is_ok r).
        -- right. by rewrite Hfin, Hwok.
        -- left. exists l. split; [done|]. by rewrite Hfin.
    + split; intros Hok; rewrite Hok in Hfin; exists l; (split; [done|]); [by rewrite Hfin, Hwok|].
      exists l. split; [done | by rewrite Hfin].
  - destruct (write_trcs_spec T fs dir l t6 (Err e) s6 fs') as (Hw & Hwp & Hwok); [set_solver | done..|].
    split; [|split; [done|]; by exists l]. right. split; [done|]. intros f Hf.
    assert (f ∈ s1 ++ s3 ++ s5 \/ f ∈ s6 \/ f = fs') as [?|[?| ->]] by set_solver; [auto| |];
      (exists l; split; [done|]; left; auto).
Qed.

(** ** [fetchFrom] *)

(** Before [install], nothing is written. *)
Lemma fetchFrom_inv base dir tr r : exec (fetchFrom base dir) tr r ->
  (forallb quiet tr = true /\ is_ok r = false) \/
  exists topo trcs t1 t2, tr = t1 ++ t2 /\ forallb quiet t1 = true /\
    configuration base t1 topo trcs /\ exec (install base dir topo trcs) t2 r.
Proof.
  unfold fetchFrom. intros He. exec_inv He. destruct r0 as [err|].
  { exec_inv He. subst r. by left. }
  cbv beta iota in He.
  apply exec_try in He as [(t1 & t2 & topo & -> & H1 & He) | (e & -> & H1)];
    apply httpGet_spec in H1 as [Hq1 Hs1]; [|by left].
  destruct (Unmarshal _ topo) as [ia|err] eqn:Etopo.
  2:{ exec_inv He. subst r. left. by rewrite app_nil_r. }
  destruct (bool_decide (ia = "")) eqn:Eia.
  { exec_inv He. subst r. left. by rewrite app_nil_r. }
  apply exec_try in He as [(t3 & t4 & list & -> & H2 & He) | (e & -> & H2)];
    apply httpGet_spec in H2 as [Hq2 Hs2].
  2:{ left. cbn. by rewrite forallb_app, Hq1, Hq2. }
  destruct (Unmarshal decode_entries list) as [entries|err] eqn:El.
  2:{ exec_inv He. subst r. left. cbn. by rewrite app_nil_r, forallb_app, Hq1, Hq2. }
  apply exec_try in He as [(t5 & t6 & trcs & -> & H3 & He) | (e & -> & H3)];
    (apply (get_trcs_spec base [] []) in H3 as [Hq3 Hs3];
     [|split; [by intros ? ?%elem_of_nil | by intros ? ? ?%lookup_empty_Some]]).
  2:{ left. cbn. by rewrite !forallb_app, Hq1, Hq2, Hq3. }
  right. exists topo, trcs, (existT (MkdirAll (JoinPath [dir; "certs"])) None :: t1 ++ t3 ++ t5), t6.
  split_and!; [cbn; by rewrite !app_assoc | cbn; by rewrite !forallb_app, Hq1, Hq2, Hq3 | | done].
  assert (Hcons : forall ev t u b, served t u b -> served (ev :: t) u b).
  { intros ev t u b. apply (served_app_r [ev]). }
  case_bool_eq. split_and!; [apply Hcons; eauto with scion | by exists ia |].
  exists list, entries. split_and!; [apply Hcons; eauto with scion | done |].
  destruct (Hs3 trcs eq_refl) as [Ha Hb]. split; [done|].
  intros name raw (e & ? & ? & ?)%Hb. exists e. split_and!; [done.. |]. apply Hcons.
  eauto with scion.
Qed.

(** C8: whatever the discovery server, the file system and the map iteration
    orders do, at every point of a run of [fetchFrom] the disk is as before
    (temporary files apart), or it holds part of one complete configuration
    that this single base served within the size bound, with every pinned TRC
    equal to its pin (a change on disk therefore implies that the pins were
    honoured), the TRCs being written before the topology; when [fetchFrom]
    succeeds, all of that configuration is in place. *)
Theorem fetchFrom_safe (base dir : string) (tr : list (event aresp)) (r : result unit)
    (fs fs' : fsys) (seen : list fsys) :
  exec (fetchFrom base dir) tr r -> fs_run fs tr seen fs' ->
  (forall f, f ∈ fs' :: seen ->
     f = fs \/ exists topo trcs, configuration base tr topo trcs /\ pins_ok fs dir trcs /\
                 installing (temps tr) dir topo trcs fs f) /\
  (is_ok r = true ->
     exists topo trcs, configuration base tr topo trcs /\ pins_ok fs dir trcs /\
       installed (temps tr) dir topo trcs fs fs').
Proof.
  intros [[Hq Hr] | (topo & trcs & t1 & t2 & -> & Hq & Hc & He)]%fetchFrom_inv Hrun.
  { destruct (fs_run_quiet _ _ _ _ Hq Hrun) as [-> Hs]. rewrite Hr.
    split; [|done]. intros f [-> | ?]%elem_of_cons; left; auto. }
  apply fs_run_app in Hrun as (s1 & s2 & fs1 & -> & Hr1 & Hr2).
  destruct (fs_run_quiet _ _ _ _ Hq Hr1) as [-> Hs].
  assert (Hc' : configuration base (t1 ++ t2) topo trcs).
  { destruct Hc as (Ha & Hb & list & entries & H1 & H2 & H3 & H4).
    split_and!; [auto with scion | done |]. exists list, entries. split_and!; [auto with scion | done |].
    split; [done|]. intros name raw (e & ? & ? & ?)%H4. exists e. auto with scion. }
  destruct (install_spec (temps (t1 ++ t2)) fs base dir topo trcs t2 r s2 fs') as (Hi & Hok & _);
    [rewrite temps_app; set_solver | done.. |].
  split.
  - intros f Hf. assert (f ∈ s1 \/ f ∈ fs' :: s2) as [Hf'|Hf'] by set_solver; [left; auto|].
    destruct Hi as [[Hi _] | [Hp Hi]]; [left; auto|]. right. exists topo, trcs. auto.
  - intros Hr. exists topo, trcs. destruct Hi as [[_ Hi] | [Hp _]]; [congruence|]. auto.
Qed.

(** A server with one TRC, and a disk on which that TRC is pinned. *)
Definition member (k v : string) : string := str_lit k +:+ ":" +:+ v.

Definition sample_topo : string := "{" +:+ member "isd_as" (str_lit "1-ff00:0:110") +:+ "}".

Definition sample_list : string :=
  "[{" +:+ member "id" ("{" +:+ member "isd" "1" +:+ "," +:+ member "base_number" "1"
                        +:+ "," +:+ member "serial_number" "1" +:+ "}") +:+ "}]".

Definition sample_net (url : string) : result HttpResp :=
  let ok body := Ok (MkHttpResp 200 "200 OK" body None) in
  if bool_decide (url = "http://ds/topology") then ok sample_topo
  else if bool_decide (url = "http://ds/trcs") then ok sample_list
  else if bool_decide (url = "http://ds/trcs/isd1-b1-s1/blob") then ok "trc"
  else Ok (MkHttpResp 404 "404 Not Found" "" None).

Definition sample_fs : fsys := {["/var/pinned-trcs/ISD1-B1-S1.trc" := "trc"]}.

Lemma fetchFrom_safe_witness :
  exists topo trcs,
    configuration "http://ds" (trace_of aresp (sim sample_net) (fetchFrom "http://ds" "/var/etc") sample_fs)
      topo trcs /\
    pins_ok sample_fs "/var/etc" trcs /\
    installed (temps (trace_of aresp (sim sample_net) (fetchFrom "http://ds" "/var/etc") sample_fs))
      "/var/etc" topo trcs sample_fs
      (state_of aresp (sim sample_net) (fetchFrom "http://ds" "/var/etc") sample_fs).
Proof.
  destruct (sim_run sample_net (fetchFrom "http://ds" "/var/etc") sample_fs) as [seen Hrun].
  eapply (fetchFrom_safe "http://ds" "/var/etc"); [apply run_exec | exact Hrun |].
  vm_compute. reflexivity.
Defined.

(** ** [Fetch] *)

(** [Fetch] tries the discovered bases in order and settles for the first
    whose whole configuration could be installed: it succeeds exactly when one
    of them does, every base before that one failed, and none after it is
    contacted; a failure is reported only after all of them failed. *)
Lemma Fetch_first_success (d : Discoverer) (dir : string) (tr : list (event aresp)) (r : result unit) :
  exec (Fetch d dir) tr r ->
  (exists e, r = Err e /\ (exec (BaseURLs d) tr (Err e) \/ exec (BaseURLs d) tr (Ok []))) \/
  exists urls t0 t1, tr = t0 ++ t1 /\ exec (BaseURLs d) t0 (Ok urls) /\ urls <> [] /\
    exists tried rest ts, urls = tried ++ rest /\ t1 = mjoin ts /\
      match r with
      | Err _ => rest = [] /\
          Forall2 (fun u t => exists e, exec (fetchFrom (TrimRightByte 47 u) dir) t (Err e)) tried ts
      | Ok _ => exists u rest' ts' t, rest = u :: rest' /\ ts = ts' ++ [t] /\
          Forall2 (fun u t => exists e, exec (fetchFrom (TrimRightByte 47 u) dir) t (Err e)) tried ts' /\
          exec (fetchFrom (TrimRightByte 47 u) dir) t (Ok tt)
      end.
Proof.
  unfold Fetch. intros [(t0 & t1 & urls & -> & H0 & He) | (e & -> & H0)]%exec_try; [|left; eauto].
  destruct (bool_decide (urls = [])) eqn:E; case_bool_eq.
  { subst urls. exec_inv He. subst r. left. rewrite app_nil_r. eauto. }
  right. exists urls, t0, t1. split_and!; [done..|]. clear E H0.
  generalize (None : option gerror) as last, He. clear He. revert t1.
  induction urls as [|u urls IH]; intros t1 last He; cbn [fetch_bases] in He.
  { exec_inv He. subst r. exists [], [], []. split_and!; [done..| constructor]. }
  apply exec_mbind in He as (t2 & t3 & [[]|err] & -> & H1 & He).
  - exec_inv He. subst r. exists [], (u :: urls), [t2]. split_and!; [done..|].
    exists u, urls, [], t2. split_and!; [done | done | constructor | done].
  - destruct (IH _ _ He) as (tried & rest & ts & -> & -> & Hr).
    exists (u :: tried), rest, (t2 :: ts). split_and!; [done..|].
    destruct r as [[]|err'].
    + destruct Hr as (u' & rest' & ts' & t & -> & -> & HF & Hok).
      exists u', rest', (t2 :: ts'), t. split_and!; [done | done | constructor; eauto | done].
    + destruct Hr as [-> HF]. split; [done | constructor; eauto].
Qed.

Lemma Fetch_first_success_witness :
  exists urls t0 t1,
    trace_of aresp (sim sample_net) (Fetch (URLDiscoverer "http://ds/") "/var/etc") sample_fs = t0 ++ t1 /\
    exec (BaseURLs (URLDiscoverer "http://ds/")) t0 (Ok urls) /\ urls <> [].
Proof.
  destruct (Fetch_first_success (URLDiscoverer "http://ds/") "/var/etc" _ _
    (run_exec aresp (sim sample_net) _ sample_fs)) as [(e & He & _) | (urls & t0 & t1 & H1 & H2 & H3 & _)].
  - assert (Hok : result_of aresp (sim sample_net) (Fetch (URLDiscoverer "http://ds/") "/var/etc") sample_fs
                  = Ok tt) by (vm_compute; reflexivity).
    congruence.
  - exists urls, t0, t1. exact (conj H1 (conj H2 H3)).
Defined.

(** ** The refresh loop *)

Lemma Run_result d dir interval ticks tr r : exec (Run d dir interval ticks) tr r ->
  r = if interval <=? 0 then Panic else Val (Err (Error ECanceled [Lit "context canceled"])).
Proof.
  unfold Run. intros (t1 & t2 & [] & -> & _ & He)%exec_mbind. destruct (interval <=? 0); [by exec_inv He|].
  apply exec_mbind in He as (t3 & t4 & [] & -> & _ & He). by exec_inv He.
Qed.

(** An environment with another refresh interval. *)
Definition with_interval (s : string) (env : environ) : environ :=
  fun k => if bool_decide (k = "SCION_REFRESH_INTERVAL") then s else env k.

Lemma with_interval_other s env k : k <> "SCION_REFRESH_INTERVAL" -> with_interval s env k = env k.
Proof. intros H. unfold with_interval. by rewrite bool_decide_eq_false_2. Qed.

(** Every interval that parses is accepted. *)
Lemma FromEnv_interval env s z : snd (FromEnv env) = None -> ParseDuration s = Ok z ->
  FromEnv (with_interval s env) = (with_refresh z (fst (FromEnv env)), None).
Proof.
  intros Hok Hs. assert (Hne : s <> "") by (intros ->; vm_compute in Hs; discriminate Hs).
  assert (Hg : getenv (with_interval s env) "SCION_REFRESH_INTERVAL" "1h" = s).
  { unfold getenv. replace (with_interval s env "SCION_REFRESH_INTERVAL") with s
      by (unfold with_interval; by rewrite bool_decide_eq_true_2).
    by rewrite bool_decide_eq_false_2. }
  revert Hok. unfold FromEnv. rewrite Hg, Hs. clear Hg Hs. unfold getenv, getenvBool.
  rewrite !with_interval_other by done. cbv zeta.
  match goal with |- context [MetricsTLSCert ?c = ""] => generalize c; intros c0 end.
  destruct (negb (Bool.eqb _ _)); [by cbn|]. destruct (ParseDuration _) as [d|]; [|by cbn].
  cbn [NodeName with_refresh BootstrapMode cfg_DiscoveryURL].
  destruct (bool_decide (NodeName c0 = "")); [by cbn|].
  destruct (negb (bool_decide (BootstrapMode c0 ∈ _))); [by cbn|]. destruct (_ && _); by cbn.
Qed.

(** C40: the refresh interval is not checked.  Take an environment that the agent
    accepts, with any text in [SCION_REFRESH_INTERVAL] that [time.ParseDuration]
    reads: the agent accepts it, and the refresh loop panics, after its first
    round and whatever that did, exactly when the duration is not positive.  Such
    a text is [0s], which the pattern of the resource definition admits. *)
Theorem zero_interval_panics (env : environ) (s : string) (z : Z) :
  snd (FromEnv env) = None -> ParseDuration s = Ok z ->
  FromEnv (with_interval s env) = (with_refresh z (fst (FromEnv env)), None) /\
  (forall d dir ticks tr r,
     exec (Run d dir (cfg_RefreshInterval (fst (FromEnv (with_interval s env)))) ticks) tr r ->
     (r = Panic <-> z <= 0)) /\
  refresh_pattern "0s" = true /\ ParseDuration "0s" = Ok 0.
Proof.
  intros Hok Hs. pose proof (FromEnv_interval env s z Hok Hs) as Hf. rewrite Hf.
  split_and!; [done | | vm_compute; reflexivity..].
  intros d dir ticks tr r He. cbn [fst cfg_RefreshInterval with_refresh] in He. apply Run_result in He as ->.
  destruct (z <=? 0) eqn:E; case_bool_eq; [done|]. split; [done | lia].
Qed.

Definition node_env : environ := fun k =>
  if bool_decide (k = "NODE_NAME") then "n1"
  else if bool_decide (k = "SCION_DISCOVERY_URL") then "http://ds" else "".

Lemma zero_interval_panics_witness :
  snd (FromEnv (with_interval "0s" node_env)) = None /\
  result_of aresp (sim sample_net)
    (Run (URLDiscoverer "http://ds") "/var/etc" (cfg_RefreshInterval (fst (FromEnv (with_interval "0s" node_env)))) 3) sample_fs
  = Panic.
Proof.
  destruct (zero_interval_panics node_env "0s" 0) as (H1 & H2 & _); [vm_compute; reflexivity..|].
  split; [by rewrite H1|]. eapply H2; [apply run_exec | lia].
Defined.
