(* ===== verification/BootstrapRefresh.v ===== *)
(** * The refresh loop and the topology on disk

    When [bootstrap.Run] tells the policy loop that the topology changed. *)
From S2P Require Import Prelude Effects GoStrings Api K8s AgentEnv FileSystem Json Bootstrap BootstrapProps.
Local Open Scope Z_scope.

(** ** The topology is not one of the TRC files *)
Lemma trc_name_plain i : plain_name (trc_name i).
Proof. unfold trc_name. split_and!; [done..|]. by rewrite !lacks_app, !lacks_itoa. Qed.

Lemma topology_no_trc dir i : topo_path dir <> trc_path dir (trc_name i).
Proof.
  unfold topo_path, trc_path. intros Heq.
  destruct (JoinPath_ends [dir] "topology.json") as [p Hp]; [by split_and!|].
  destruct (JoinPath_ends [dir; "certs"] (trc_name i)) as [q Hq]; [apply trc_name_plain|]. cbn [app] in *.
  rewrite Hp, Hq in Heq. apply (f_equal String.rev) in Heq. rewrite !rev_app in Heq.
  unfold trc_name in Heq. rewrite !rev_app in Heq. discriminate Heq.
Qed.

Lemma put_trcs_topology dir l fs : (forall name raw, (name, raw) ∈ l -> exists i, name = trc_name i) ->
  put_trcs dir l fs !! topo_path dir = fs !! topo_path dir.
Proof.
  revert fs. induction l as [|[n raw] l IH]; intros fs Hl; [done|]. cbn.
  destruct (Hl n raw) as [i ->]; [by left|].
  etrans; [apply IH; intros; eapply Hl; by right|].
  apply lookup_insert_ne. intros Heq. by apply (topology_no_trc dir i).
Qed.

(** ** A failed fetch leaves the topology alone *)
Lemma fetchFrom_fails base dir tr e fs seen fs' :
  exec (fetchFrom base dir) tr (Err e) -> fs_run fs tr seen fs' -> topo_path dir ∉ temps tr ->
  fs' !! topo_path dir = fs !! topo_path dir.
Proof.
  intros [[Hq _] | (topo & trcs & t1 & t2 & -> & Hq & Hc & He)]%fetchFrom_inv Hrun Ht.
  { by destruct (fs_run_quiet _ _ _ _ Hq Hrun) as [-> _]. }
  apply fs_run_app in Hrun as (s1 & s2 & fs1 & -> & Hr1 & Hr2).
  destruct (fs_run_quiet _ _ _ _ Hq Hr1) as [-> _].
  rewrite temps_app in Ht.
  destruct (install_spec (temps t2) fs base dir topo trcs t2 (Err e) s2 fs') as (_ & _ & Hf); [done..|].
  destruct (Hf eq_refl) as (l & Hl & l1 & Hp & Ha). rewrite Ha by set_solver.
  apply put_trcs_topology. intros name raw Hin.
  assert (Hm : (name, raw) ∈ map_to_list trcs) by (rewrite <- Hl; by eapply elem_of_prefix).
  apply elem_of_map_to_list in Hm. destruct Hc as (_ & _ & list & entries & _ & _ & _ & Hs).
  destruct (Hs _ _ Hm) as (en & _ & -> & _). by eexists.
Qed.

Lemma fetch_bases_fails dir urls last tr e fs seen fs' :
  exec (fetch_bases dir urls last) tr (Err e) -> fs_run fs tr seen fs' -> topo_path dir ∉ temps tr ->
  fs' !! topo_path dir = fs !! topo_path dir.
Proof.
  revert last tr fs seen. induction urls as [|u urls IH]; intros last tr fs seen He Hr Ht; cbn [fetch_bases] in He.
  { exec_inv He. by fs_steps Hr. }
  apply exec_mbind in He as (t1 & t2 & [[]|err] & -> & H1 & He); [by exec_inv He|].
  apply fs_run_app in Hr as (s1 & s2 & fs1 & -> & Hr1 & Hr2). rewrite temps_app in Ht.
  rewrite (IH _ _ _ _ He Hr2) by set_solver. eapply fetchFrom_fails; [exact H1 | done | set_solver].
Qed.

Lemma BaseURLs_quiet d : only (resp := aresp) quiet_cmd (BaseURLs d).
Proof. destruct d; cbn [BaseURLs]; unfold dns_BaseURLs, dhcp_BaseURLs, mdns_BaseURLs; only_steps; done. Qed.

Lemma Fetch_fails d dir tr e fs seen fs' :
  exec (Fetch d dir) tr (Err e) -> fs_run fs tr seen fs' -> topo_path dir ∉ temps tr ->
  fs' !! topo_path dir = fs !! topo_path dir.
Proof.
  unfold Fetch. intros [(t0 & t1 & urls & -> & H0 & He) | (e' & _ & H0)]%exec_try Hr Ht;
    apply (only_exec _ _ _ _ _ (BaseURLs_quiet d)) in H0.
  2:{ by destruct (fs_run_quiet _ _ _ _ H0 Hr) as [-> _]. }
  apply fs_run_app in Hr as (s1 & s2 & fs1 & -> & Hr1 & Hr2). rewrite temps_app in Ht.
  destruct (fs_run_quiet _ _ _ _ H0 Hr1) as [-> _].
  case_bool_decide; [exec_inv He; by fs_steps Hr2|].
  eapply fetch_bases_fails; [exact He | done | set_solver].
Qed.

(** ** Notifications *)
Definition is_send (c : acmd) : bool := match c with TrySend _ => true | _ => false end.
Abbreviation silent := (fun c => negb (is_send c)).

Definition notified (tr : list (event aresp)) : bool := existsb (fun ev => is_send (projT1 ev)) tr.

Lemma notified_app t1 t2 : notified (t1 ++ t2) = notified t1 || notified t2.
Proof. apply existsb_app. Qed.

Lemma silent_notified {A} (p : agent A) tr a : only silent p -> exec p tr a -> notified tr = false.
Proof.
  intros Hp He. apply (only_exec _ silent _ _ _ Hp) in He. unfold notified.
  induction tr as [|ev tr IH]; [done|]. cbn in *. apply andb_prop in He as [Hc Ht].
  apply negb_true_iff in Hc. rewrite Hc. cbn. auto.
Qed.

Lemma httpGet_silent url : only (resp := aresp) silent (httpGet url).
Proof. unfold httpGet. only_steps. Qed.

Lemma atomicWrite_silent path data : only (resp := aresp) silent (atomicWrite path data).
Proof. unfold atomicWrite. only_steps; done. Qed.

Lemma Fetch_silent d dir : only (resp := aresp) silent (Fetch d dir).
Proof.
  unfold Fetch, try_bind. apply only_mbind.
  { destruct d; cbn [BaseURLs]; unfold dns_BaseURLs, dhcp_BaseURLs, mdns_BaseURLs; only_steps; done. }
  intros [urls|e]; [|done]. case_bool_decide as H; [done | clear H].
  assert (Hg : forall base l m, only (resp := aresp) silent (get_trcs base l m)).
  { intros base l. induction l as [|en l IH]; intros m; cbn [get_trcs]; only_steps; first [apply httpGet_silent | apply IH]. }
  assert (Hp : forall base l, only (resp := aresp) silent (check_pins base dir l)).
  { intros base. induction l as [|[n raw] l IH]; cbn [check_pins]; only_steps; apply IH. }
  assert (Hw : forall l, only (resp := aresp) silent (write_trcs dir l)).
  { induction l as [|[n raw] l IH]; cbn [write_trcs]; only_steps; first [apply atomicWrite_silent | apply IH]. }
  generalize (None : option gerror). induction urls as [|u urls IH]; intros last; cbn [fetch_bases]; [done|].
  apply only_mbind; [|intros [[]|err]; [done | apply IH]].
  unfold fetchFrom, install, range_map. only_steps; auto using httpGet_silent, atomicWrite_silent.
Qed.

Definition content (fs : fsys) (path : string) : string := default "" (fs !! path).

(** Reading the file fails only when it is absent. *)
Definition read_fine (path : string) (ev : event aresp) : bool :=
  let 'existT c r := ev in
  match c as c return aresp c -> bool with
  | ReadFile p => fun r =>
      match r with Ok _ => true | Err e => negb (bool_decide (p = path)) || is_kind ENotExist e end
  | _ => fun _ => true
  end r.

Definition readable (path : string) (tr : list (event aresp)) : Prop := forallb (read_fine path) tr = true.

Lemma readable_app path t1 t2 : readable path (t1 ++ t2) <-> readable path t1 /\ readable path t2.
Proof. unfold readable. by rewrite forallb_app, andb_true_iff. Qed.

Lemma read_or_empty_exec path tr s fs seen fs' :
  exec (read_or_empty path) tr s -> fs_run fs tr seen fs' -> readable path tr ->
  fs' = fs /\ s = content fs path /\ notified tr = false /\ temps tr = [].
Proof.
  unfold read_or_empty. intros He Hr Hrd. exec_inv He. subst s.
  destruct Hr as (f & s & Hs & -> & -> & ->). destruct r as [s|e].
  - destruct Hs as [-> H]. unfold content. by rewrite H.
  - destruct Hs as [-> H]. unfold content. rewrite H; [done|]. unfold readable in Hrd. cbn in Hrd.
    by rewrite bool_decide_eq_true_2, andb_true_r in Hrd.
Qed.

(** One round: the change of the file is the notification. *)
Lemma round_notifies d dir tr fs seen fs' :
  exec (fetch_round d dir) tr tt -> fs_run fs tr seen fs' -> topo_path dir ∉ temps tr -> readable (topo_path dir) tr ->
  notified tr = negb (bool_decide (content fs (topo_path dir) = content fs' (topo_path dir))).
Proof.
  unfold fetch_round. intros He Hr Ht Hrd.
  apply exec_mbind in He as (t1 & t2 & before & -> & H1 & He).
  apply fs_run_app in Hr as (s1 & s2 & fs1 & -> & Hr1 & Hr2). rewrite temps_app in Ht.
  destruct (read_or_empty_exec _ _ _ _ _ _ H1 Hr1) as (-> & -> & Hn1 & _); [rewrite !readable_app in Hrd; tauto|].
  apply exec_mbind in He as (t3 & t4 & [[]|err] & -> & H3 & He);
    pose proof (silent_notified _ _ _ (Fetch_silent d dir) H3) as Hn3;
    apply fs_run_app in Hr2 as (s3 & s4 & fs3 & -> & Hr3 & Hr4); rewrite temps_app in Ht.
  - apply exec_mbind in He as (t5 & t6 & after & -> & H5 & He).
    apply fs_run_app in Hr4 as (s5 & s6 & fs5 & -> & Hr5 & Hr6).
    destruct (read_or_empty_exec _ _ _ _ _ _ H5 Hr5) as (-> & -> & Hn5 & _); [rewrite !readable_app in Hrd; tauto|].
    rewrite !notified_app, Hn1, Hn3, Hn5. cbn [orb].
    case_bool_decide as Hc; cbn [negb] in *.
    + exec_inv He. fs_steps Hr6. by rewrite bool_decide_eq_true_2.
    + destruct He as (r & tr & -> & -> & _). destruct r. fs_steps Hr6. subst. by rewrite bool_decide_eq_false_2.
  - exec_inv He. fs_steps Hr4. rewrite !notified_app, Hn1, Hn3. cbn.
    unfold content. rewrite (Fetch_fails _ _ _ _ _ _ _ H3 Hr3) by set_solver. by rewrite bool_decide_eq_true_2.
Qed.

(** What a round does: it reads the topology, fetches, and after a successful fetch
    reads again and notifies when the two texts differ; a read that fails counts
    as the empty text, whatever the error. *)
Definition read_text (r : result string) : string := match r with Ok s => s | Err _ => "" end.

Definition round_trace (d : Discoverer) (dir : string) (t : list (event aresp)) : Prop :=
  exists before t1 fetched t2,
    t = existT (ReadFile (topo_path dir)) before :: t1 ++ t2 /\ exec (Fetch d dir) t1 fetched /\ notified t1 = false /\
    match fetched with
    | Err _ => t2 = []
    | Ok _ => exists after, t2 = existT (ReadFile (topo_path dir)) after ::
        (if bool_decide (read_text before = read_text after) then [] else [existT (TrySend "topoChanged") tt])
    end.

Lemma fetch_round_trace d dir t : exec (fetch_round d dir) t tt -> round_trace d dir t.
Proof.
  unfold fetch_round, read_or_empty, round_trace. intros (t1 & t2 & before & -> & H1 & He)%exec_mbind. exec_inv H1. subst before.
  apply exec_mbind in He as (t3 & t4 & fetched & -> & H3 & He).
  exists r, t3, fetched, t4. split; [done|]. split; [done|].
  split; [by eapply silent_notified; [apply Fetch_silent|]|]. destruct fetched as [[]|err]; [|by exec_inv He].
  apply exec_mbind in He as (t5 & t6 & after & -> & H5 & He). exec_inv H5. subst after.
  exists r0. cbn [app]. fold (read_text r) (read_text r0) in He. case_bool_decide; cbn [negb] in He; [by exec_inv He|].
  destruct He as ([] & tr & -> & -> & _). done.
Qed.

(** The rounds of a run, with the state of the disk between them. *)
Fixpoint rounds_notify (d : Discoverer) (dir : string) (fs : fsys) (rounds : list (list (event aresp))) (fs' : fsys) : Prop :=
  match rounds with
  | [] => fs' = fs
  | t :: ts => exists f seen, fs_run fs t seen f /\ round_trace d dir t /\
      (readable (topo_path dir) t ->
       (notified t = true <-> content fs (topo_path dir) <> content f (topo_path dir))) /\
      rounds_notify d dir f ts fs'
  end.

Lemma rounds_notify_cons d dir t rest ts fs seen fs' :
  exec (fetch_round d dir) t tt -> fs_run fs (t ++ rest) seen fs' -> topo_path dir ∉ temps (t ++ rest) ->
  (forall f s, fs_run f rest s fs' -> rounds_notify d dir f ts fs') ->
  rounds_notify d dir fs (t :: ts) fs'.
Proof.
  intros He (s1 & s2 & f & -> & Hr1 & Hr2)%fs_run_app Ht Hk. rewrite temps_app in Ht.
  exists f, s1. split; [done|]. split; [by apply fetch_round_trace|]. split; [|by eapply Hk]. intros Hrd.
  rewrite (round_notifies d dir t fs s1 f He Hr1) by first [done | set_solver].
  case_bool_decide; naive_solver.
Qed.

(** C19: The refresh loop fetches once at the start and once per tick.  After each
    of these rounds it notifies the policy loop exactly when the fetch succeeded
    and the text of the topology read after it differs from the one read before
    it; a read that fails counts as the empty text, so that a failing read can
    hide a change or pretend one.  In a round whose reads of the topology fail at
    most because the file is absent, this is exactly when the round changed the
    content of the file on the disk (an absent file counts as empty): no change
    goes unnoticed, and a failed or repeated fetch notifies nobody.  (Temporary
    files have other names than the topology.) *)
Theorem refresh_notifies d dir interval ticks tr r fs seen fs' :
  exec (Run d dir interval ticks) tr r -> fs_run fs tr seen fs' -> topo_path dir ∉ temps tr ->
  exists rounds, tr = mjoin rounds /\ rounds_notify d dir fs rounds fs' /\
    length rounds = (if interval <=? 0 then 1%nat else S ticks).
Proof.
  unfold Run. intros (t1 & t2 & [] & -> & H1 & He)%exec_mbind Hr Ht.
  destruct (interval <=? 0).
  { exec_inv He. rewrite app_nil_r in *. exists [t1]. split; [cbn; by rewrite app_nil_r|]. split; [|done].
    eapply (rounds_notify_cons d dir t1 []); rewrite ?app_nil_r; [done.. |]. by intros f s [_ ->]. }
  apply exec_mbind in He as (t3 & t4 & [] & -> & H3 & He). exec_inv He. rewrite app_nil_r in *.
  assert (Hl : forall n t, exec (fetch_ticks d dir n) t tt -> topo_path dir ∉ temps t ->
    exists rounds, t = mjoin rounds /\ length rounds = n /\
      forall f s g, fs_run f t s g -> rounds_notify d dir f rounds g).
  { clear. induction n as [|n IH]; intros t He Ht; cbn [fetch_ticks] in He.
    { exec_inv He. exists []. split; [done|]. split; [done|]. by intros f s g [_ ->]. }
    apply exec_mbind in He as (t1 & t2 & [] & -> & H1 & He).
    destruct (IH t2 He) as (ts & -> & Hlen & Hk); [rewrite temps_app in Ht; set_solver|].
    exists (t1 :: ts). split; [done|]. split; [by rewrite <- Hlen|]. intros f s g Hr.
    eapply rounds_notify_cons; [done.. |]. intros. by eapply Hk. }
  destruct (Hl ticks t3 H3) as (ts & -> & Hlen & Hk); [rewrite temps_app in Ht; set_solver|].
  exists (t1 :: ts). split; [done|]. split; [|by rewrite <- Hlen].
  eapply rounds_notify_cons; [done.. |]. intros. by eapply Hk.
Qed.

(** The first round installs a topology, the next ones find it unchanged. *)
Definition refresh_run : agent (go unit) := Run (URLDiscoverer "http://ds") "/var/etc" 60 2.

Lemma refresh_notifies_witness : exists rounds fs',
  trace_of aresp (sim sample_net) refresh_run sample_fs = mjoin rounds /\ length rounds = 3%nat /\
  rounds_notify (URLDiscoverer "http://ds") "/var/etc" sample_fs rounds fs' /\
  readable "/var/etc/topology.json" (trace_of aresp (sim sample_net) refresh_run sample_fs) /\
  content fs' "/var/etc/topology.json" = sample_topo.
Proof.
  destruct (sim_run sample_net refresh_run sample_fs) as [seen Hrun].
  destruct (refresh_notifies (URLDiscoverer "http://ds") "/var/etc" 60 2 _ _ sample_fs seen _
    (run_exec aresp (sim sample_net) refresh_run sample_fs) Hrun) as (rounds & H1 & H2 & H3).
  - vm_compute. intros H. repeat (apply elem_of_cons in H as [H|H]; [discriminate H|]). by apply elem_of_nil in H.
  - exists rounds, (state_of aresp (sim sample_net) refresh_run sample_fs).
    split; [exact H1|]. split; [exact H3|]. split; [exact H2|]. split; vm_compute; reflexivity.
Defined.
