(* ===== verification/Topology.v ===== *)
(** * [internal/registrar/topology.go]: patching the AS topology

    [PatchSigs] and [ManagedSigs].  A [map[string]json.RawMessage] is a
    [raw_map]: a nil map is [None], and assigning to an entry of it panics. *)
From S2P Require Import Prelude Effects GoStrings Json Api K8s AgentEnv Bootstrap.
Local Open Scope Z_scope.
Local Open Scope prog_scope.

(** A gateway entry of the topology. *)
Record SIG := MkSIG { CtrlAddr : string; DataAddr : string }.

Global Instance SIG_eq_dec : EqDecision SIG.
Proof. solve_decision. Defined.

Definition json_of_SIG (s : SIG) : json :=
  JObj [(quote "ctrl_addr", JStr (quote (CtrlAddr s))); (quote "data_addr", JStr (quote (DataAddr s)))].

Definition zero_SIG : SIG := MkSIG "" "".

Definition SIG_fields : fields SIG :=
  [("ctrl_addr", fun s j => c ← decode_string (CtrlAddr s) j; Ok (MkSIG c (DataAddr s)));
   ("data_addr", fun s j => d ← decode_string (DataAddr s) j; Ok (MkSIG (CtrlAddr s) d))].

(** Members into a [map[string]SIG]: each value is decoded into a zero SIG. *)
Fixpoint decode_sig_members (unknown : SIG -> result SIG) (m : gmap string SIG)
    (kvs : list (string * json)) : result (gmap string SIG) :=
  match kvs with
  | [] => Ok m
  | (k, v) :: kvs' =>
      s ← decode_struct unknown SIG_fields zero_SIG v;
      decode_sig_members unknown (<[unquote k := s]> m) kvs'
  end.

(** A [map[string]SIG] variable that holds [cur]; [None] is nil. *)
Definition decode_sig_map (unknown : SIG -> result SIG) (cur : option (gmap string SIG)) (j : json)
    : result (option (gmap string SIG)) :=
  match j with
  | JObj kvs => m ← decode_sig_members unknown (default ∅ cur) kvs; Ok (Some m)
  | JNull => Ok None
  | _ => type_err
  end.

(** Writing a [map[string]json.RawMessage]: sorted keys, values compacted and
    HTML-escaped. *)
Definition json_of_raw (m : raw_map) : json :=
  match m with
  | Some m => JObj (map (fun '(k, v) => (quote k, escape_json v)) (sorted_entries m))
  | None => JNull
  end.

(** [m[k] = v]. *)
Definition raw_insert (k : string) (v : json) (m : raw_map) : outcome raw_map :=
  match m with Some m => Val (Some (<[k := v]> m)) | None => Panic end.

(** The entries of the topology: a missing member is an empty map, a null one
    leaves a nil map. *)
Definition existing_sigs (topo : raw_map) : result raw_map :=
  match default ∅ topo !! "sigs" with
  | Some rawSigs => decode_raw_map (Some ∅) rawSigs
  | None => Ok (Some ∅)
  end.

(** The loop that drops the managed entries, in an order of the runtime's. *)
Definition drop_managed (prefix : string) (l : list (string * json)) (m : gmap string json)
    : gmap string json :=
  foldl (fun m '(name, _) => if HasPrefix name prefix then delete name m else m) m l.

(** The loop that adds the desired entries. *)
Fixpoint add_desired (prefix : string) (l : list (string * SIG)) (sigs : raw_map) : outcome raw_map :=
  match l with
  | [] => Val sigs
  | (name, sig) :: l' =>
      sigs' ← raw_insert (prefix +:+ name) (json_of_SIG sig) sigs; add_desired prefix l' sigs'
  end.

(** Both loops; the lists are the entries in the orders in which they are
    visited. *)
Definition patched_sigs (prefix : string) (sigs : raw_map) (dropped : list (string * json))
    (added : list (string * SIG)) : outcome raw_map :=
  add_desired prefix added (drop_managed prefix dropped <$> sigs).

(** [filepath.Dir]. *)
Definition DirPath (path : string) : string := Clean (fst (SplitPath path)).

(** Writing [out] over [topoFile] through a temporary file with its mode. *)
Definition write_topology (tmp topoFile out : string) (mode : Z) : agent (result unit) :=
  w ← call (FileWrite tmp out);
  match w with
  | Some err => close_err tmp err
  | None =>
      c ← call (FileChmod tmp mode);
      match c with
      | Some err => close_err tmp err
      | None =>
          c ← call (FileClose tmp);
          match c with
          | Some err => Ret (Err err)
          | None => r ← call (Rename tmp topoFile); Ret (check r)
          end
      end
  end.

Definition replace_topology (topoFile out : string) : agent (result unit) :=
  st <~ call (Stat topoFile);
  tmp <~ call (CreateTemp (DirPath topoFile) ".topology-*.json");
  r ← write_topology tmp topoFile out st;
  _ ← call (Remove tmp);
  Ret r.

Definition PatchSigs (topoFile : string) (desired : gmap string SIG) (prefix : string) : agent (go unit) :=
  r ← call (ReadFile topoFile);
  match r with
  | Err err => Ret (Val (Err err))
  | Ok raw =>
      match Unmarshal (decode_raw_map None) raw with
      | Err err => Ret (Val (Err (wrapf [Lit "parsing "; Lit topoFile; Lit ": "] err)))
      | Ok topo =>
          match existing_sigs topo with
          | Err err => Ret (Val (Err (wrapf [Lit "parsing sigs in "; Lit topoFile; Lit ": "] err)))
          | Ok sigs =>
              dropped ← range_map (default ∅ sigs);
              added ← range_map desired;
              match patched_sigs prefix sigs dropped added with
              | Val sigs =>
                  match raw_insert "sigs" (json_of_raw sigs) topo with
                  | Val topo =>
                      no_panic (replace_topology topoFile (MarshalIndent "  " (json_of_raw topo) +:+ newline))
                  | Panic => Ret Panic
                  | NoFuel => Ret NoFuel
                  end
              | Panic => Ret Panic
              | NoFuel => Ret NoFuel
              end
          end
      end
  end.

(** The loop of [ManagedSigs]. *)
Definition collect_managed (prefix : string) (l : list (string * SIG)) : gmap string SIG :=
  foldl (fun out '(name, sig) =>
           if HasPrefix name prefix then <[TrimPrefix name prefix := sig]> out else out) ∅ l.

(** The struct with the field [sigs], into which [ManagedSigs] decodes. *)
Definition decode_topology : json -> result (option (gmap string SIG)) :=
  decode_struct skip_unknown [("sigs", decode_sig_map skip_unknown)] None.

Definition ManagedSigs (topoFile prefix : string) : agent (result (gmap string SIG)) :=
  r ← call (ReadFile topoFile);
  match r with
  | Err err => Ret (Err err)
  | Ok raw =>
      match Unmarshal decode_topology raw with
      | Err err => Ret (Err (wrapf [Lit "parsing "; Lit topoFile; Lit ": "] err))
      | Ok sigs => l ← range_map (default ∅ sigs); Ret (Ok (collect_managed prefix l))
      end
  end.
