(* ===== verification/Server.v ===== *)
(** * [internal/registrar/server.go] and [cmd/registrar]: the registration API

    The handler of one request as a program.  The mutex around it is left to the
    model of concurrent requests ([RegistrarConc]), which shows that they take
    effect one after the other. *)
From S2P Require Import Prelude Effects GoStrings Json Api K8s AgentEnv Config Topology.
Local Open Scope Z_scope.
Local Open Scope prog_scope.

Definition maxBodyBytes : nat := Z.to_nat (Z.shiftl 1 20).
Definition ReloadTimeout : Z := 30 * Second.

(** [s.Reload] is a closure of [cmd/registrar]. *)
Record Server := MkServer {
  TopologyFile : string;
  srv_Prefix : string;
  Token : string;
  Reload : agent (option gerror)
}.

(** A request: [rq_Err] is a read error after the bytes of [rq_Body]. *)
Record Request := MkRequest {
  rq_Method : string;
  rq_Path : string;
  rq_Authorization : string;
  rq_Body : string;
  rq_Err : option gerror
}.

(** [ByMux]: answered by the mux itself, which knows a single pattern. *)
Inductive Response :=
| Answer (status : Z) (body : msg)
| ByMux.

(** [http.Error]. *)
Definition http_error (m : msg) (status : Z) : Response := Answer status (m ++ [Lit newline]).

Definition authorized (s : Server) (r : Request) : bool :=
  negb (bool_decide (Token s = "")) && bool_decide (rq_Authorization r = "Bearer " +:+ Token s).

Definition auth (s : Server) (r : Request) (next : agent (outcome Response)) : agent (outcome Response) :=
  if negb (authorized s r) then Ret (Val (http_error [Lit "unauthorized"] 401)) else next.

(** [dec.Decode] on a [MaxBytesReader]: the value at the head of the first
    [maxBodyBytes] bytes, whatever follows it.  An object or array ends with
    its bracket; another value only at the next byte or at the end of the body,
    so that one which ends where the reader fails is an error. *)
Definition decode_body {A} (dec : json -> result A) (r : Request) : result A :=
  let data := str_take maxBodyBytes (rq_Body r) in
  let failed := (maxBodyBytes <? String.length (rq_Body r))%nat || bool_decide (rq_Err r <> None) in
  match parse_prefix data with
  | Some (j, rest) =>
      let closed := match j with JArr _ | JObj _ => true | _ => false end in
      if negb closed && bool_decide (rest = "") && failed
      then json_err [Lit "body not read"] else dec j
  | None => syntax_err
  end.

Definition getSigs (s : Server) : agent (outcome Response) :=
  m ← ManagedSigs (TopologyFile s) (srv_Prefix s);
  match m with
  | Err _ => Ret (Val (http_error [Lit "reading topology"] 500))
  | Ok managed =>
      Ret (Val (Answer 200 [Lit (Marshal (JObj (map (fun '(k, sig) => (quote k, json_of_SIG sig))
                                                  (sorted_entries managed))) +:+ newline)]))
  end.

Definition putSigs (s : Server) (r : Request) : agent (outcome Response) :=
  match decode_body (decode_sig_map reject_unknown None) r with
  | Err err => Ret (Val (http_error (Lit "invalid JSON body: " :: e_msg err) 400))
  | Ok desired =>
      p ← PatchSigs (TopologyFile s) (default ∅ desired) (srv_Prefix s);
      match p with
      | Panic => Ret Panic
      | NoFuel => Ret NoFuel
      | Val (Err _) => Ret (Val (http_error [Lit "patching topology"] 500))
      | Val (Ok _) =>
          e ← Reload s;
          match e with
          | Some _ => Ret (Val (http_error [Lit "topology updated but reload failed"] 502))
          | None => Ret (Val (Answer 204 []))
          end
      end
  end.

Definition sigs (s : Server) (r : Request) : agent (outcome Response) :=
  if bool_decide (rq_Method r = "GET") then getSigs s
  else if bool_decide (rq_Method r = "PUT") then putSigs s r
  else Ret (Val (http_error [Lit "method not allowed"] 405)).

Definition Handler (s : Server) (r : Request) : agent (outcome Response) :=
  if bool_decide (rq_Path r = "/v1/sigs") then auth s r (sigs s r) else Ret (Val ByMux).

(** ** [cmd/registrar]: the checks of [run] and the server it builds *)
Record Flags := MkFlags {
  f_topology : string;
  f_prefix : string;
  f_listen : string;
  f_reloadCmd : string;
  f_tlsCert : string;
  f_tlsKey : string
}.

Definition default_flags : Flags :=
  MkFlags "/etc/scion/topology.json" "k8s-" ":8642" "systemctl kill -s HUP scion-control" "" "".

(** The closure given as [Reload]. *)
Definition reload (reloadCmd : string) (argv : list string) : agent (option gerror) :=
  r ← call (Exec argv);
  match snd r with
  | Some err => Ret (Some (Error (e_kind err)
      ([Lit reloadCmd; Lit ": "] ++ e_msg err ++ [Lit " (output: "; Lit (fst r); Lit ")"])))
  | None => Ret None
  end.

Definition new_server (f : Flags) (env : environ) : result Server :=
  if negb (Bool.eqb (bool_decide (f_tlsCert f = "")) (bool_decide (f_tlsKey f = "")))
  then Err (errorf [Lit "--tls-cert and --tls-key must be set together"])
  else
    let token := env "REGISTRAR_TOKEN" in
    if bool_decide (token = "")
    then Err (errorf [Lit "REGISTRAR_TOKEN must be set (fail-closed: no anonymous access)"])
    else
      let argv := Fields (f_reloadCmd f) in
      if bool_decide (argv = [])
      then Err (errorf [Lit "--reload-cmd must not be empty"])
      else Ok (MkServer (f_topology f) (f_prefix f) token (reload (f_reloadCmd f) argv)).

(** The settings of the [http.Server]; it serves [Handler] of the server. *)
Record HttpServer := MkHttpServer {
  hs_Addr : string;
  hs_ReadHeaderTimeout : Z;
  hs_ReadTimeout : Z;
  hs_WriteTimeout : Z;
  hs_IdleTimeout : Z
}.

Definition httpSrv (f : Flags) : HttpServer :=
  MkHttpServer (f_listen f) (10 * Second) (30 * Second) (2 * ReloadTimeout) (120 * Second).

(** The rest of [run]: without a certificate the server speaks plain HTTP. *)
Definition registrar_run (f : Flags) (env : environ) : agent (result unit) :=
  match new_server f env with
  | Err err => Ret (Err err)
  | Ok _ =>
      e ← call (Serve (hs_Addr (httpSrv f)) (f_tlsCert f) (f_tlsKey f));
      match e with
      | Some err => Ret (Err err)
      | None => e ← call (Shutdown (5 * Second)); Ret (check e)
      end
  end.

(** [main]: the exit status. *)
Definition registrar_main (f : Flags) (env : environ) : agent Z :=
  r ← registrar_run f env;
  Ret (match r with Err _ => 1 | Ok _ => 0 end).
