(* ===== verification/TopologyFacts.v ===== *)
(** * Facts about the topology patch

    The two loops of [PatchSigs] against one map expression ([merged]), the
    document that is written against the one that was read, and the decoding of
    gateway entries. *)
From S2P Require Import Prelude Effects GoStrings Netip Json JsonStrings JsonFacts.
From S2P Require Import Api K8s AgentEnv FileSystem Bootstrap Topology.
Local Open Scope Z_scope.

(** ** The loops *)

(** The managed entries are exactly the desired ones; the others stay. *)
Definition merged (prefix : string) (desired : gmap string SIG) (sigs : gmap string json)
    : gmap string json :=
  kmap (fun name => prefix +:+ name) (json_of_SIG <$> desired)
  ∪ filter (fun kv => HasPrefix (fst kv) prefix = false) sigs.

Global Instance prefix_inj prefix : Inj (=) (=) (fun name : string => prefix +:+ name).
Proof. intros a b. induction prefix as [|c p IH]; [done|]. str_cons. intros [= H]. auto. Qed.

Lemma merged_managed prefix desired sigs name :
  merged prefix desired sigs !! (prefix +:+ name) = json_of_SIG <$> desired !! name.
Proof.
  unfold merged. rewrite lookup_union, (lookup_kmap _), lookup_fmap.
  replace (filter _ sigs !! (prefix +:+ name)) with (None : option json).
  - by destruct (desired !! name).
  - symmetry. apply map_lookup_filter_None. right. intros v _. cbn [fst]. by rewrite HasPrefix_app.
Qed.

Lemma merged_unmanaged prefix desired sigs k : HasPrefix k prefix = false ->
  merged prefix desired sigs !! k = sigs !! k.
Proof.
  intros Hk. unfold merged. rewrite lookup_union.
  replace (kmap _ _ !! k) with (None : option json).
  - rewrite (left_id_L None _). rewrite map_lookup_filter. destruct (sigs !! k); [|done]. cbn [mbind option_bind fst].
    by rewrite option_guard_True.
  - symmetry. apply (lookup_kmap_None _). intros name ->. by rewrite HasPrefix_app in Hk.
Qed.

Lemma drop_managed_lookup prefix l m k : drop_managed prefix l m !! k =
  if HasPrefix k prefix && bool_decide (k ∈ l.*1) then None else m !! k.
Proof.
  unfold drop_managed. revert m. induction l as [|[k' v] l IH]; intros m; cbn [foldl].
  - by rewrite bool_decide_eq_false_2, andb_false_r by apply not_elem_of_nil.
  - rewrite IH, fmap_cons. cbn [fst].
    replace (bool_decide (k ∈ k' :: l.*1)) with (bool_decide (k = k') || bool_decide (k ∈ l.*1))
      by (rewrite <- bool_decide_or; apply bool_decide_ext; by rewrite elem_of_cons).
    destruct (decide (k = k')) as [<-|Hne].
    + rewrite (bool_decide_eq_true_2 (k = k)) by done. destruct (HasPrefix k prefix); cbn; [|done].
      destruct (bool_decide (k ∈ l.*1)); [done | apply lookup_delete_eq].
    + rewrite (bool_decide_eq_false_2 (k = k')) by done. cbn [orb].
      destruct (_ && _); [done|]. destruct (HasPrefix k' prefix); [by apply lookup_delete_ne | done].
Qed.

Lemma drop_managed_merged prefix l m : l ≡ₚ map_to_list m ->
  drop_managed prefix l m = filter (fun kv => HasPrefix (fst kv) prefix = false) m.
Proof.
  intros Hl. apply map_eq. intros k. rewrite drop_managed_lookup, map_lookup_filter.
  destruct (m !! k) as [v|] eqn:E; cbn [mbind option_bind fst]; [|by destruct (_ && _)].
  rewrite bool_decide_eq_true_2, andb_true_r.
  - destruct (HasPrefix k prefix); [by rewrite option_guard_False | by rewrite option_guard_True].
  - rewrite Hl. apply list_elem_of_fmap. exists (k, v). split; [done|]. by apply elem_of_map_to_list.
Qed.

Lemma add_desired_merged prefix l desired m : l ≡ₚ map_to_list desired ->
  add_desired prefix l (Some m) = Val (Some (kmap (fun name => prefix +:+ name) (json_of_SIG <$> desired) ∪ m)).
Proof.
  intros Hl.
  set (entries := (fun '(name, s) => (prefix +:+ name, json_of_SIG s)) <$> l).
  assert (H : forall l (acc : gmap string json), add_desired prefix l (Some acc) =
    Val (Some (foldl (fun m '(k, v) => <[k := v]> m) acc
                 ((fun '(name, s) => (prefix +:+ name, json_of_SIG s)) <$> l)))).
  { clear. induction l as [|[k s] l IH]; intros acc; [done|]. cbn. apply IH. }
  rewrite H. fold entries.
  assert (Hn : NoDup entries.*1).
  { unfold entries. rewrite <- list_fmap_compose.
    replace ((fst ∘ (λ '(name, s), (prefix +:+ name, json_of_SIG s))) <$> l)
      with ((fun name => prefix +:+ name) <$> l.*1)
      by (rewrite <- list_fmap_compose; apply list_fmap_ext; by intros ? [] ?).
    apply (NoDup_fmap_2 _). rewrite Hl. apply NoDup_fst_map_to_list. }
  rewrite foldl_insert_entries by done. do 3 f_equal. apply map_eq. intros k. apply option_eq. intros v.
  rewrite <- elem_of_list_to_map by done. unfold entries. rewrite list_elem_of_fmap, (lookup_kmap_Some _).
  setoid_rewrite lookup_fmap_Some. split.
  - intros ([name s] & [= -> ->] & Hin). exists name. split; [done|]. exists s. split; [done|].
    rewrite Hl in Hin. by apply elem_of_map_to_list in Hin.
  - intros (name & -> & s & <- & Hs). exists (name, s). split; [done|]. rewrite Hl. by apply elem_of_map_to_list.
Qed.

Lemma patched_sigs_Some prefix sigs desired dropped added :
  dropped ≡ₚ map_to_list sigs -> added ≡ₚ map_to_list desired ->
  patched_sigs prefix (Some sigs) dropped added = Val (Some (merged prefix desired sigs)).
Proof.
  intros Hd Ha. unfold patched_sigs. cbn [fmap option_fmap option_map].
  by rewrite (drop_managed_merged _ _ _ Hd), (add_desired_merged _ _ _ _ Ha).
Qed.

Lemma patched_sigs_None prefix desired dropped added : added ≡ₚ map_to_list desired ->
  patched_sigs prefix None dropped added = if bool_decide (desired = ∅) then Val None else Panic.
Proof.
  intros Ha. unfold patched_sigs. cbn. case_bool_decide as E.
  - subst. rewrite map_to_list_empty in Ha. by apply Permutation_nil_r in Ha as ->.
  - destruct added as [|[name s] added]; [|done]. exfalso. apply E.
    symmetry in Ha. apply Permutation_nil_r in Ha. by apply map_to_list_empty_iff.
Qed.

(** ** The document that is written *)
Definition utf8_SIG (s : SIG) : Prop := utf8 (CtrlAddr s) /\ utf8 (DataAddr s).
Definition utf8_sigs (m : gmap string SIG) : Prop := forall name s, m !! name = Some s -> utf8 name /\ utf8_SIG s.

Lemma wf_json_of_SIG d s : (d < max_depth)%nat -> utf8_SIG s -> wf d (json_of_SIG s).
Proof.
  intros Hd [Hc Hdt]. constructor; [done|].
  apply Forall_cons_2; [|apply Forall_cons_2; [|apply Forall_nil_2]]; cbn [fst snd];
    (split; [by apply quote_raw, utf8_ascii | by apply wf_str, quote_raw]).
Qed.

Lemma json_of_raw_wf d m : (d < max_depth)%nat -> read_map (S d) (default ∅ m) -> wf d (json_of_raw m).
Proof.
  intros Hd Hm. destruct m as [m|]; [|constructor]. cbn in Hm. apply wf_entries; [done|].
  intros k v [Hk Hv]%Hm. split; [by apply quote_raw | by apply wf_escape].
Qed.

Definition topology_text (topo : gmap string json) : string :=
  MarshalIndent "  " (json_of_raw (Some topo)) +:+ newline.

Lemma read_topology_text topo : read_map 1 topo ->
  Unmarshal (decode_raw_map None) (topology_text topo) = Ok (Some (escape_json <$> topo)).
Proof.
  intros Ht. unfold Unmarshal, topology_text, MarshalIndent.
  rewrite parse_print; [|by apply indent_ok | apply json_of_raw_wf; [exact depth0 | done] | done].
  cbn. do 2 f_equal. apply set_members_entries. intros k [v Hv]. apply unquote_quote. by apply (Ht k v).
Qed.

Lemma existing_topology_text (sg : raw_map) topo : read_map 2 (default ∅ sg) ->
  existing_sigs (Some (escape_json <$> <["sigs" := json_of_raw sg]> topo))
  = Ok (fmap (M := gmap string) (fun v => escape_json (escape_json v)) <$> sg).
Proof.
  intros Hs. unfold existing_sigs. change (default ∅ (Some ?m)) with m. rewrite lookup_fmap, lookup_insert_eq. cbn [fmap option_fmap option_map].
  destruct sg as [m|]; [|done]. cbn [json_of_raw escape_json decode_raw_map default fmap option_fmap option_map].
  rewrite map_map. cbn in Hs. do 2 f_equal.
  rewrite <- (set_members_entries (fun k => escape_raw (quote k)) (fun v => escape_json (escape_json v)) m).
  - f_equal. apply map_ext. by intros [].
  - intros k [v [Hk _]%Hs]. by rewrite unquote_escape_raw, unquote_quote by auto using quote_raw.
Qed.

Lemma merged_read prefix desired sigs : utf8 prefix -> utf8_sigs desired -> read_map 2 sigs ->
  read_map 2 (merged prefix desired sigs).
Proof.
  intros Hp Hd Hs k v H. destruct (HasPrefix k prefix) eqn:E.
  - apply HasPrefix_CutPrefix in E as [name ->]. rewrite merged_managed in H.
    apply lookup_fmap_Some in H as (s & <- & [Hn Hu]%Hd) || apply fmap_Some in H as (s & [Hn Hu]%Hd & ->).
    split; [by apply utf8_app | by apply wf_json_of_SIG; [exact depth2|]].
  - rewrite merged_unmanaged in H by done. by apply Hs.
Qed.

(** What was read from a topology. *)
Lemma Unmarshal_read raw topo : Unmarshal (decode_raw_map None) raw = Ok topo -> read_map 1 (default ∅ topo).
Proof.
  unfold Unmarshal. destruct (parse raw) as [j|] eqn:E; [|done]. apply parse_Some_wf in E.
  destruct j; try done; cbn; intros [= <-]; [apply read_map_empty|]. cbn.
  inversion E; subst. by apply set_members_read; [|apply read_map_empty].
Qed.

Lemma existing_read topo sigs : read_map 1 (default ∅ topo) -> existing_sigs topo = Ok sigs ->
  read_map 2 (default ∅ sigs).
Proof.
  unfold existing_sigs. intros Ht. destruct (default ∅ topo !! "sigs") as [v|] eqn:E.
  - destruct (Ht _ _ E) as [_ Hv]. destruct v; try done; cbn; intros [= <-]; [apply read_map_empty|].
    inversion Hv; subst. by apply set_members_read; [|apply read_map_empty].
  - intros [= <-]. apply read_map_empty.
Qed.

(** ** Decoding gateway entries *)
Lemma decode_string_escape cur d v : wf d v -> decode_string cur (escape_json v) = decode_string cur v.
Proof. destruct 1; try done. cbn. by rewrite unquote_escape_raw. Qed.

Lemma SIG_field_escape key dec s d v : find_field SIG_fields key = Some dec -> wf d v ->
  dec s (escape_json v) = dec s v.
Proof.
  unfold find_field, SIG_fields. cbn [List.find]. intros H Hv.
  destruct (field_matches "ctrl_addr" key); [|destruct (field_matches "data_addr" key); [|done]];
    cbn in H; injection H as <-; by rewrite (decode_string_escape _ _ _ Hv).
Qed.

Lemma decode_SIG_escape unknown cur d v : wf d v ->
  decode_struct unknown SIG_fields cur (escape_json v) = decode_struct unknown SIG_fields cur v.
Proof.
  intros Hv. destruct Hv as [| | | | |d kvs Hd Hl]; try done. cbn [escape_json decode_struct].
  revert cur. induction kvs as [|[k v] kvs IH]; intros cur; [done|].
  apply Forall_cons in Hl as [[Hk Hv] Hl]. cbn [map decode_members fst snd] in *.
  rewrite unquote_escape_raw by done.
  destruct (find_field SIG_fields (unquote k)) as [dec|] eqn:E.
  - rewrite (SIG_field_escape _ _ _ _ _ E Hv). destruct (dec cur v); [|done]. cbn. by apply IH.
  - destruct (unknown cur); [|done]. cbn. by apply IH.
Qed.

Lemma decode_SIG_json unknown s : utf8_SIG s ->
  decode_struct unknown SIG_fields zero_SIG (json_of_SIG s) = Ok s.
Proof.
  intros [Hc Hd]. unfold json_of_SIG. cbn [decode_struct decode_members].
  rewrite !unquote_quote by (by apply utf8_ascii).
  change (find_field SIG_fields "ctrl_addr") with (snd <$> SIG_fields !! 0%nat).
  change (find_field SIG_fields "data_addr") with (snd <$> SIG_fields !! 1%nat).
  cbn. rewrite !unquote_quote by done. by destruct s.
Qed.

(** A map of entries is decoded entry by entry. *)
Lemma decode_sig_members_entries {A} unknown (q : string -> string) (f : A -> json) (g : A -> SIG)
    (m : gmap string A) :
  (forall k v, m !! k = Some v -> unquote (q k) = k /\ decode_struct unknown SIG_fields zero_SIG (f v) = Ok (g v)) ->
  decode_sig_members unknown ∅ (map (fun '(k, v) => (q k, f v)) (sorted_entries m)) = Ok (g <$> m).
Proof.
  intros Hm.
  assert (H : forall l (acc : gmap string SIG), (forall k v, (k, v) ∈ l -> m !! k = Some v) ->
    decode_sig_members unknown acc (map (fun '(k, v) => (q k, f v)) l)
    = Ok (foldl (fun m '(k, v) => <[k := v]> m) acc (prod_map id g <$> l))).
  { induction l as [|[k v] l IH]; intros acc Hl; [done|]. cbn [map decode_sig_members].
    destruct (Hm k v (Hl _ _ (list_elem_of_here _ _))) as [Hq Hdec]. rewrite Hdec, Hq. cbn.
    apply IH. intros. apply Hl. by apply list_elem_of_further. }
  rewrite H by (by intros k v ?%sorted_entries_lookup). f_equal.
  rewrite foldl_insert_entries, (right_id_L ∅ (∪)).
  - by rewrite list_to_map_fmap, list_to_map_sorted.
  - rewrite <- list_fmap_compose. apply sorted_entries_nodup.
Qed.

(** What is decoded is UTF-8, whatever happens to unknown members. *)
Definition keeps (unknown : SIG -> result SIG) : Prop := forall s s', unknown s = Ok s' -> s' = s.

Lemma decode_string_utf8 c d v c' : wf d v -> utf8 c -> decode_string c v = Ok c' -> utf8 c'.
Proof. destruct 1; try done; cbn; intros Hc [= <-]; [done | by apply unquote_utf8]. Qed.

Lemma decode_SIG_utf8 unknown cur d v s : keeps unknown -> wf d v -> utf8_SIG cur ->
  decode_struct unknown SIG_fields cur v = Ok s -> utf8_SIG s.
Proof.
  intros Hu Hv Hz. destruct Hv as [| | | | |d kvs Hd Hl]; try done; [by intros [= <-]|].
  cbn [decode_struct]. revert cur Hz. induction kvs as [|[k v] kvs IH]; intros cur Hz; [by intros [= <-]|].
  apply Forall_cons in Hl as [[Hk Hv] Hl]. cbn [decode_members fst snd] in *.
  intros (cur' & Hf & Hrest)%bind_Ok. eapply IH; [done | | exact Hrest]. revert Hf.
  unfold find_field, SIG_fields. cbn [List.find]. destruct Hz as [Hz1 Hz2].
  destruct (field_matches "ctrl_addr" _); [|destruct (field_matches "data_addr" _)];
    cbn [fmap option_fmap option_map snd].
  - intros (c & Hc & [= <-])%bind_Ok. split; [exact (decode_string_utf8 _ _ _ _ Hv Hz1 Hc) | done].
  - intros (c & Hc & [= <-])%bind_Ok. split; [done | exact (decode_string_utf8 _ _ _ _ Hv Hz2 Hc)].
  - intros ->%Hu. done.
Qed.

Lemma decode_sig_members_utf8 unknown d m kvs m' : keeps unknown ->
  Forall (fun kv => raw_text (fst kv) /\ wf d (snd kv)) kvs -> utf8_sigs m ->
  decode_sig_members unknown m kvs = Ok m' -> utf8_sigs m'.
Proof.
  intros Hu Hl. revert m. induction kvs as [|[k v] kvs IH]; intros m Hm; [by intros [= <-]|].
  apply Forall_cons in Hl as [[Hk Hv] Hl]. cbn [decode_sig_members fst snd] in *.
  intros (s & Hs & Hrest)%bind_Ok. eapply IH; [done | | exact Hrest].
  intros name s'. rewrite lookup_insert_Some. intros [[<- <-] | [_ H]]; [|by eapply Hm].
  split; [by apply unquote_utf8|]. eapply decode_SIG_utf8; [done | done | | done]. split; constructor.
Qed.

Lemma utf8_sigs_empty : utf8_sigs ∅.
Proof. by intros name s ?%lookup_empty_Some. Qed.

Lemma decode_sig_map_utf8 unknown d j m : keeps unknown -> wf d j ->
  decode_sig_map unknown None j = Ok m -> utf8_sigs (default ∅ m).
Proof.
  intros Hu Hj. destruct Hj as [| | | | |d kvs Hd Hl]; try done; cbn [decode_sig_map].
  - intros [= <-]. apply utf8_sigs_empty.
  - intros (m' & Hm & [= <-])%bind_Ok.
    eapply decode_sig_members_utf8; [exact Hu | exact Hl | apply utf8_sigs_empty | exact Hm].
Qed.
