(* ===== verification/TopologyProps.v ===== *)
(** * Properties of the topology patch

    [PatchSigs] against the document it means to write ([patched]), what that
    document keeps of the one it replaces, and what is on disk at each point. *)
From S2P Require Import Prelude Effects GoStrings Netip Json JsonStrings JsonFacts.
From S2P Require Import Api K8s AgentEnv FileSystem Bootstrap Topology TopologyFacts.
Local Open Scope Z_scope.

(** ** The patch as one function of the text of the topology

    Of the two panics, one is the assignment to the nil map that a [null] in
    place of the sigs leaves, the other to the one that a topology of [null]
    leaves. *)
Definition patched_map (desired : gmap string SIG) (prefix : string) (sg : raw_map) : outcome raw_map :=
  match sg with
  | Some m => Val (Some (merged prefix desired m))
  | None => if bool_decide (desired = ∅) then Val None else Panic
  end.

Definition patched (topoFile : string) (desired : gmap string SIG) (prefix raw : string) : go string :=
  match Unmarshal (decode_raw_map None) raw with
  | Err err => Val (Err (wrapf [Lit "parsing "; Lit topoFile; Lit ": "] err))
  | Ok topo =>
      match existing_sigs topo with
      | Err err => Val (Err (wrapf [Lit "parsing sigs in "; Lit topoFile; Lit ": "] err))
      | Ok sg =>
          match patched_map desired prefix sg, topo with
          | Val sg', Some t => Val (Ok (topology_text (<["sigs" := json_of_raw sg']> t)))
          | _, _ => Panic
          end
      end
  end.

Lemma patched_sigs_map prefix sg desired dropped added :
  dropped ≡ₚ map_to_list (default ∅ sg) -> added ≡ₚ map_to_list desired ->
  patched_sigs prefix sg dropped added = patched_map desired prefix sg.
Proof.
  intros Hd Ha. destruct sg as [m|]; [by apply patched_sigs_Some | by apply patched_sigs_None].
Qed.

(** The commands of [PatchSigs]: one read, the two orders, then the replacement
    by [patched] or nothing. *)
Lemma PatchSigs_exec topoFile desired prefix tr r : exec (PatchSigs topoFile desired prefix) tr r ->
  exists a tr', tr = existT (ReadFile topoFile) a :: tr' /\
  match a with
  | Err err => tr' = [] /\ r = Val (Err err)
  | Ok raw =>
      exists tr1 tr2, tr' = tr1 ++ tr2 /\ forallb quiet tr1 = true /\ temps tr1 = [] /\
      match patched topoFile desired prefix raw with
      | Val (Ok out) => exists r', r = Val r' /\ exec (replace_topology topoFile out) tr2 r'
      | Val (Err err) => tr2 = [] /\ r = Val (Err err)
      | Panic => tr2 = [] /\ r = Panic
      | NoFuel => False
      end
  end.
Proof.
  unfold PatchSigs, patched. intros He. exec_inv He. exists r0, tr0. split; [done|].
  destruct r0 as [raw|err]; [|by exec_inv He].
  destruct (Unmarshal _ raw) as [topo|err]; [|exec_inv He; by exists [], []].
  destruct (existing_sigs topo) as [sg|err]; [|exec_inv He; by exists [], []].
  apply exec_mbind in He as (t1 & t2 & dropped & -> & [Hd [c1 ->]]%exec_range_map & He).
  apply exec_mbind in He as (t3 & t4 & added & -> & [Ha [c2 ->]]%exec_range_map & He).
  exists [existT (MapRange (size (default ∅ sg))) c1; existT (MapRange (size desired)) c2], t4.
  split_and!; [done..|]. rewrite (patched_sigs_map _ _ _ _ _ Hd Ha) in He.
  destruct (patched_map desired prefix sg) as [sg'| |] eqn:E; [|by exec_inv He|by destruct sg; cbn in E; repeat case_bool_decide].
  destruct topo as [t|]; cbn [raw_insert] in He; [|by exec_inv He].
  by apply exec_no_panic in He.
Qed.

(** ** The replacement of the file *)
Lemma write_topology_spec topoFile out mode :
  body_ok topoFile out (fun tmp => write_topology tmp topoFile out mode).
Proof.
  intros T fs tmp tr r seen fs' HT H0 He Hr. unfold write_topology in He. unfold pending_or_done.
  assert (Hins : forall s, agree T (<[tmp := s]> fs) fs) by (intros; by apply agree_insert_in).
  exec_inv He. destruct r0 as [err|].
  { unfold close_err in He. exec_inv He. subst r. fs_steps Hr. destruct Hs as [s0 ->]. subst.
    split; [done|]. split; [set_solver | apply Hins]. }
  exec_inv He. destruct r0 as [err|].
  { unfold close_err in He. exec_inv He. subst r. fs_steps Hr. subst.
    split; [done|]. split; [set_solver | apply Hins]. }
  exec_inv He. destruct r0 as [err|].
  { exec_inv He. subst r. fs_steps Hr. subst. split; [done|]. split; [set_solver | apply Hins]. }
  exec_inv He. subst r. fs_steps Hr. subst. rewrite H0 in *. cbn [default] in *.
  destruct r0 as [err|]; cbn in *.
  - subst. split; [done|]. split; [set_solver | apply Hins].
  - destruct Hs2 as (s & Hl & ->). rewrite lookup_insert_eq in Hl. injection Hl as <-.
    assert (Hd : agree T (<[topoFile := out]> (delete tmp (<[tmp := out]> fs))) (<[topoFile := out]> fs)).
    { apply agree_insert. rewrite delete_insert_eq. by apply agree_delete_in. }
    split; [done|]. split; [set_solver | done].
Qed.

Lemma replace_topology_spec topoFile out fs tr r seen fs' :
  exec (replace_topology topoFile out) tr r -> fs_run fs tr seen fs' ->
  (forall f, f ∈ seen -> pending_or_done (temps tr) fs topoFile out f) /\
  agree (temps tr) fs' (if is_ok r then <[topoFile := out]> fs else fs).
Proof.
  unfold replace_topology, try_bind at 1. intros He Hr. exec_inv He.
  cbn in Hr. destruct Hr as (f1 & s & -> & -> & Hr).
  change (temps (_ :: tr0)) with (temps tr0). destruct r0 as [mode|err].
  - destruct (with_temp_spec _ _ topoFile out _ fs tr0 r s fs' (write_topology_spec topoFile out mode) He Hr)
      as [Hs Hf]. split; [|done]. intros f [-> | ?]%elem_of_cons; [by left | auto].
  - exec_inv He. subst r. fs_steps Hr. split; [|done]. intros f ->%list_elem_of_singleton. by left.
Qed.

(** What a run leaves, as a relation between file systems. *)
Lemma PatchSigs_files topoFile desired prefix fs tr r seen fs' :
  exec (PatchSigs topoFile desired prefix) tr r -> fs_run fs tr seen fs' ->
  (forall f, f ∈ seen -> agree (temps tr) f fs \/
     exists raw out, fs !! topoFile = Some raw /\ patched topoFile desired prefix raw = Val (Ok out) /\
       agree (temps tr) f (<[topoFile := out]> fs)) /\
  (if success r
   then exists raw out, fs !! topoFile = Some raw /\ patched topoFile desired prefix raw = Val (Ok out) /\
     agree (temps tr) fs' (<[topoFile := out]> fs)
   else agree (temps tr) fs' fs).
Proof.
  intros (a & tr' & -> & H)%PatchSigs_exec Hr. change (temps (existT _ a :: tr')) with (temps tr').
  cbn in Hr. destruct Hr as (f1 & s & [-> Hraw] & -> & Hr).
  destruct a as [raw|err]; [|destruct H as [-> ->]; fs_steps Hr; split; [|done]; set_solver].
  destruct H as (tr1 & tr2 & -> & Hq & Ht & H).
  apply fs_run_app in Hr as (s1 & s2 & fs2 & -> & [-> Hs1]%fs_run_quiet & Hr); [|done].
  rewrite temps_app, Ht, app_nil_l.
  assert (Hstay : forall f, f ∈ fs :: s1 -> agree (temps tr2) f fs).
  { intros f [-> | ->%Hs1]%elem_of_cons; done. }
  destruct (patched topoFile desired prefix raw) as [[out|err]| |] eqn:E; [| | |done].
  - destruct H as (r' & -> & He). destruct (replace_topology_spec _ _ _ _ _ _ _ He Hr) as [Hs Hf].
    split; [|destruct r'; cbn in *; [by exists raw, out | done]].
    intros f [Hl|Hl]%(elem_of_app (fs :: s1)); [left; auto|].
    destruct (Hs f Hl); [by left | right; by exists raw, out].
  - destruct H as [-> ->]. fs_steps Hr. rewrite app_nil_r. split; [|done]. intros f ?. left; auto.
  - destruct H as [-> ->]. fs_steps Hr. rewrite app_nil_r. split; [|done]. intros f ?. left; auto.
Qed.

(** ** When there is no new document *)
Lemma existing_null t : existing_sigs (Some t) = Ok None <-> t !! "sigs" = Some JNull.
Proof.
  unfold existing_sigs. change (default ∅ (Some t)) with t. split.
  - by destruct (t !! "sigs") as [[]|].
  - by intros ->.
Qed.

Lemma patched_panics topoFile desired prefix raw : patched topoFile desired prefix raw = Panic <->
  Unmarshal (decode_raw_map None) raw = Ok None \/
  exists t, Unmarshal (decode_raw_map None) raw = Ok (Some t) /\ t !! "sigs" = Some JNull /\ desired <> ∅.
Proof.
  unfold patched. destruct (Unmarshal _ raw) as [[t|]|err]; [| |naive_solver].
  - transitivity (t !! "sigs" = Some JNull /\ desired <> ∅); [|naive_solver].
    rewrite <- existing_null. destruct (existing_sigs (Some t)) as [[m|]|err]; cbn; [naive_solver| |naive_solver].
    case_bool_decide; naive_solver.
  - split; [by left|]. unfold existing_sigs.
    change (default ∅ (None : raw_map)) with (∅ : gmap string json). by rewrite lookup_empty.
Qed.

(** ** What the new document keeps *)
Definition same_meaning (a b : option json) : Prop := meaning <$> a = meaning <$> b.

Lemma read_meaning d (m : gmap string json) k : read_map d m -> same_meaning ((escape_json <$> m) !! k) (m !! k).
Proof.
  intros Hm. unfold same_meaning. rewrite lookup_fmap. destruct (m !! k) as [v|] eqn:E; [|done].
  cbn. destruct (Hm _ _ E) as [_ Hv]. by rewrite (meaning_escape _ _ Hv).
Qed.

Lemma read_map_escape d m : read_map d m -> read_map d (escape_json <$> m).
Proof.
  intros Hm k v. rewrite lookup_fmap. intros (w & Hw & ->)%fmap_Some. apply Hm in Hw as [? ?].
  split; [done | by apply wf_escape].
Qed.

(** The entries of the topology that was read, and of the one written. *)
Record doc_spec (desired : gmap string SIG) (prefix : string) (t t' : gmap string json) (sg sg' : raw_map)
    : Prop := DocSpec {
  others_kept : forall k, k <> "sigs" -> same_meaning (t' !! k) (t !! k);
  unmanaged_kept : forall k, HasPrefix k prefix = false ->
    same_meaning (default ∅ sg' !! k) (default ∅ sg !! k);
  managed_desired : forall name,
    decode_struct reject_unknown SIG_fields zero_SIG <$> default ∅ sg' !! (prefix +:+ name)
    = Ok <$> desired !! name
}.

(** Success of the patch, taken apart. *)
Lemma patched_ok topoFile desired prefix raw out :
  patched topoFile desired prefix raw = Val (Ok out) ->
  exists t sg sg', Unmarshal (decode_raw_map None) raw = Ok (Some t) /\ existing_sigs (Some t) = Ok sg /\
    patched_map desired prefix sg = Val sg' /\ out = topology_text (<["sigs" := json_of_raw sg']> t).
Proof.
  unfold patched. destruct (Unmarshal _ raw) as [topo|]; [|done].
  destruct (existing_sigs topo) as [sg|] eqn:Es; [|done].
  destruct (patched_map desired prefix sg) as [sg'| |] eqn:Ep; try done.
  destruct topo as [t|]; [|done]. intros [= <-]. by exists t, sg, sg'.
Qed.

Lemma patched_map_read desired prefix sg sg' : utf8 prefix -> utf8_sigs desired ->
  read_map 2 (default ∅ sg) -> patched_map desired prefix sg = Val sg' ->
  read_map 2 (default ∅ sg') /\
  (forall k, HasPrefix k prefix = false -> default ∅ sg' !! k = default ∅ sg !! k) /\
  (forall name, default ∅ sg' !! (prefix +:+ name) = json_of_SIG <$> desired !! name).
Proof.
  intros Hp Hd Hs. destruct sg as [m|]; cbn [patched_map].
  - intros [= <-]. cbn in *. split; [by apply merged_read|].
    split; [intros; by apply merged_unmanaged | intros; apply merged_managed].
  - case_bool_decide; [|done]. subst. intros [= <-]. cbn. split; [done|]. split; [done|].
    intros name. by rewrite !lookup_empty.
Qed.

Lemma read_map_insert d m k v : read_map d m -> utf8 k -> wf d v -> read_map d (<[k := v]> m).
Proof. intros Hm Hk Hv k' v'. rewrite lookup_insert_Some. intros [[<- <-] | [_ ?%Hm]]; done. Qed.

Lemma patched_doc topoFile desired prefix raw out : utf8 prefix -> utf8_sigs desired ->
  patched topoFile desired prefix raw = Val (Ok out) ->
  exists t sg t' sg', Unmarshal (decode_raw_map None) raw = Ok (Some t) /\ existing_sigs (Some t) = Ok sg /\
    Unmarshal (decode_raw_map None) out = Ok (Some t') /\ existing_sigs (Some t') = Ok sg' /\
    doc_spec desired prefix t t' sg sg'.
Proof.
  intros Hp Hd (t & sg & sg' & Hu & He & Hm & ->)%patched_ok.
  pose proof (Unmarshal_read _ _ Hu) as Ht. pose proof (existing_read _ _ Ht He) as Hs. cbn in Ht.
  destruct (patched_map_read _ _ _ _ Hp Hd Hs Hm) as (Hs' & Hkeep & Hman).
  assert (Hnew : read_map 1 (<["sigs" := json_of_raw sg']> t)).
  { apply read_map_insert; [done | by apply utf8_ascii |]. by apply json_of_raw_wf; [exact depth1|]. }
  eexists t, sg, _, _. split_and!; [done | done | by apply read_topology_text |
    by apply existing_topology_text |].
  assert (Hesc : forall k, default ∅ ((fun m : gmap string json => (fun v => escape_json (escape_json v)) <$> m) <$> sg') !! k
    = (escape_json <$> (escape_json <$> default ∅ sg' : gmap string json)) !! k).
  { intros k. rewrite <- map_fmap_compose. destruct sg'; cbn; [done|]. by rewrite fmap_empty. }
  split.
  - intros k Hk. rewrite lookup_fmap, lookup_insert_ne, <- lookup_fmap by done. by eapply read_meaning.
  - intros k Hk. unfold same_meaning. rewrite Hesc.
    rewrite (read_meaning 2) by (by apply read_map_escape). rewrite (read_meaning 2) by done.
    by rewrite Hkeep.
  - intros name. rewrite Hesc, !lookup_fmap, Hman. destruct (desired !! name) as [s|] eqn:E; [|done].
    cbn [fmap option_fmap option_map]. destruct (Hd _ _ E) as [_ Hsig].
    rewrite !(decode_SIG_escape _ _ 0) by auto using wf_escape, wf_json_of_SIG, depth0.
    by rewrite decode_SIG_json.
Qed.

(** ** Reading the managed entries back *)

(** A struct decoded from an object of which one member at most is a field. *)
Lemma decode_members_one {A B} (fs : fields A) (cur : A) name dec (q : string -> string) (f : B -> json)
    (l : list (string * B)) : NoDup l.*1 ->
  (forall k v, (k, v) ∈ l -> unquote (q k) = k /\ (k <> name -> find_field fs k = None)) ->
  find_field fs name = Some dec ->
  decode_members skip_unknown fs cur (map (fun '(k, v) => (q k, f v)) l)
  = match (list_to_map l : gmap string B) !! name with Some v => dec cur (f v) | None => Ok cur end.
Proof.
  intros Hn Hl Hdec. revert cur Hn. induction l as [|[k v] l IH]; intros cur Hn; [done|].
  rewrite fmap_cons in Hn. apply NoDup_cons in Hn as [Hk Hn]. cbn [map decode_members list_to_map fst snd] in *.
  destruct (Hl k v (list_elem_of_here _ _)) as [-> Hother].
  assert (Hl' : forall k v, (k, v) ∈ l -> unquote (q k) = k /\ (k <> name -> find_field fs k = None)).
  { intros. eapply Hl. by apply list_elem_of_further. }
  change (list_to_map ((k, v) :: l)) with (<[k := v]> (list_to_map l) : gmap string B).
  destruct (decide (k = name)) as [->|Hne].
  - rewrite Hdec, lookup_insert_eq. destruct (dec cur (f v)) as [cur'|] eqn:E; [|done]. cbn.
    rewrite (IH Hl') by done. by rewrite (proj1 (not_elem_of_list_to_map _ _) Hk).
  - rewrite (Hother Hne), lookup_insert_ne by done. cbn. by apply IH.
Qed.

Lemma collect_managed_lookup prefix l m name : l ≡ₚ map_to_list m ->
  collect_managed prefix l !! name = m !! (prefix +:+ name).
Proof.
  intros Hl.
  assert (Hstep : forall l (acc : gmap string SIG), NoDup l.*1 ->
    foldl (fun out '(k, s) => if HasPrefix k prefix then <[TrimPrefix k prefix := s]> out else out) acc l !! name
    = match (list_to_map l : gmap string SIG) !! (prefix +:+ name) with Some s => Some s | None => acc !! name end).
  { clear. induction l as [|[k s] l IH]; intros acc Hn; [done|].
    rewrite fmap_cons in Hn. apply NoDup_cons in Hn as [Hk Hn]. cbn [foldl fst] in *. rewrite IH by done.
    change (list_to_map ((k, s) :: l)) with (<[k := s]> (list_to_map l) : gmap string SIG).
    destruct (decide (k = prefix +:+ name)) as [->|Hne].
    - rewrite lookup_insert_eq, HasPrefix_app, TrimPrefix_app, lookup_insert_eq.
      by rewrite (proj1 (not_elem_of_list_to_map _ _) Hk).
    - rewrite (lookup_insert_ne _ k) by done. destruct (list_to_map l !! _); [done|].
      destruct (HasPrefix k prefix) eqn:E; [|done].
      apply HasPrefix_CutPrefix in E as [r ->]. rewrite TrimPrefix_app.
      apply lookup_insert_ne. by intros ->. }
  unfold collect_managed. rewrite Hstep by (rewrite Hl; apply NoDup_fst_map_to_list).
  rewrite (list_to_map_proper l (map_to_list m)), list_to_map_to_list, lookup_empty; [by destruct (m !! _)| |done].
  rewrite Hl. apply NoDup_fst_map_to_list.
Qed.

(** A topology whose text [ManagedSigs] understands once it is patched: no other
    member is taken for [sigs], and the entries that stay are gateways. *)
Definition readable_doc (prefix : string) (t : gmap string json) (sg : raw_map) : Prop :=
  (forall k, is_Some (t !! k) -> k <> "sigs" -> field_matches "sigs" k = false) /\
  (forall k v, default ∅ sg !! k = Some v -> HasPrefix k prefix = false ->
     is_ok (decode_struct skip_unknown SIG_fields zero_SIG v) = true).

Definition readable (prefix raw : string) : Prop := forall t sg,
  Unmarshal (decode_raw_map None) raw = Ok (Some t) -> existing_sigs (Some t) = Ok sg -> readable_doc prefix t sg.

Definition SIG_of (v : json) : SIG :=
  match decode_struct skip_unknown SIG_fields zero_SIG v with Ok s => s | Err _ => zero_SIG end.

(** The new document, decoded into the struct of [ManagedSigs]. *)
Lemma decode_patched t sg' : read_map 1 (<["sigs" := json_of_raw sg']> t) -> read_map 2 (default ∅ sg') ->
  (forall k, is_Some (t !! k) -> k <> "sigs" -> field_matches "sigs" k = false) ->
  (forall k v, default ∅ sg' !! k = Some v -> is_ok (decode_struct skip_unknown SIG_fields zero_SIG v) = true) ->
  Unmarshal decode_topology (topology_text (<["sigs" := json_of_raw sg']> t)) =
  Ok (fmap (M := gmap string) SIG_of <$> sg').
Proof.
  intros Hnew Hs Hone Hdec. unfold Unmarshal, topology_text, MarshalIndent.
  rewrite parse_print; [|by apply indent_ok | apply json_of_raw_wf; [exact depth0 | done] | done].
  cbn [json_of_raw]. unfold decode_topology. cbn [decode_struct].
  rewrite (decode_members_one _ _ "sigs" (decode_sig_map skip_unknown)).
  - rewrite list_to_map_sorted, lookup_insert_eq. destruct sg' as [m|]; [|done].
    cbn [json_of_raw escape_json decode_sig_map default]. rewrite map_map. cbn [fmap option_fmap option_map] in *.
    erewrite map_ext; [rewrite (decode_sig_members_entries _ (fun k => escape_raw (quote k))
      (fun v => escape_json (escape_json v)) SIG_of m)|]; [done | |by intros []].
    intros k v Hv. destruct (Hs _ _ Hv) as [Hk Hw]. specialize (Hdec _ _ Hv).
    rewrite unquote_escape_raw, unquote_quote by auto using quote_raw. split; [done|].
    rewrite !(decode_SIG_escape _ _ 2) by auto using wf_escape. unfold SIG_of.
    by destruct (decode_struct _ _ _ v).
  - apply sorted_entries_nodup.
  - intros k v Hkv%sorted_entries_lookup. split; [apply unquote_quote; by apply Hnew in Hkv as [? _]|].
    intros Hne. rewrite lookup_insert_ne in Hkv by done.
    unfold find_field. cbn [List.find]. by rewrite Hone by eauto.
  - done.
Qed.

Lemma patched_managed topoFile desired prefix raw out : utf8 prefix -> utf8_sigs desired ->
  readable prefix raw -> patched topoFile desired prefix raw = Val (Ok out) ->
  exists m, Unmarshal decode_topology out = Ok m /\
    forall l, l ≡ₚ map_to_list (default ∅ m) -> collect_managed prefix l = desired.
Proof.
  intros Hp Hd Hread (t & sg & sg' & Hu & He & Hm & ->)%patched_ok.
  destruct (Hread t sg Hu He) as [Hone Hgood].
  pose proof (Unmarshal_read _ _ Hu) as Ht. pose proof (existing_read _ _ Ht He) as Hs. cbn in Ht.
  destruct (patched_map_read _ _ _ _ Hp Hd Hs Hm) as (Hs' & Hkeep & Hman).
  eexists. split.
  - apply decode_patched; [|done | done |].
    + apply read_map_insert; [done | by apply utf8_ascii |]. by apply json_of_raw_wf; [exact depth1|].
    + intros k v Hv. destruct (HasPrefix k prefix) eqn:E.
      * apply HasPrefix_CutPrefix in E as [name ->]. rewrite Hman in Hv.
        apply fmap_Some in Hv as (s & [_ Hsig]%Hd & ->). by rewrite decode_SIG_json.
      * rewrite Hkeep in Hv by done. by eapply Hgood.
  - intros l Hl. apply map_eq. intros name. rewrite (collect_managed_lookup _ _ _ _ Hl).
    replace (default ∅ (fmap (M := gmap string) SIG_of <$> sg')) with (SIG_of <$> default ∅ sg' : gmap string SIG)
      by (destruct sg'; cbn; [done | by rewrite fmap_empty]).
    rewrite lookup_fmap, Hman. destruct (desired !! name) as [s|] eqn:E; [|done].
    cbn [fmap option_fmap option_map]. destruct (Hd _ _ E) as [_ Hsig].
    unfold SIG_of. by rewrite decode_SIG_json.
Qed.

Lemma ManagedSigs_exec topoFile prefix tr r : exec (ManagedSigs topoFile prefix) tr r ->
  forallb quiet tr = true /\ exists a tr', tr = existT (ReadFile topoFile) a :: tr' /\
  match a with
  | Err err => tr' = [] /\ r = Err err
  | Ok raw => match Unmarshal decode_topology raw with
              | Ok m => exists l, l ≡ₚ map_to_list (default ∅ m) /\ r = Ok (collect_managed prefix l)
              | Err _ => is_ok r = false
              end
  end.
Proof.
  unfold ManagedSigs. intros He. exec_inv He. destruct r0 as [raw|err].
  2:{ exec_inv He. subst. split; [done|]. by eexists _, _. }
  destruct (Unmarshal decode_topology raw) as [m|err] eqn:E.
  - apply exec_mbind in He as (t1 & t2 & l & -> & [Hl [c ->]]%exec_range_map & He). exec_inv He. subst.
    split; [done|]. exists (Ok raw), [existT (MapRange (size (default ∅ m))) c]. split; [done|]. rewrite E. by exists l.
  - exec_inv He. subst. split; [done|]. exists (Ok raw), []. split; [done|]. by rewrite E.
Qed.

(** A topology with a managed and another gateway, on disk. *)
Definition sample_sig (addr : string) : json :=
  JObj [(quote "ctrl_addr", JStr (quote (addr +:+ ":30256"))); (quote "data_addr", JStr (quote (addr +:+ ":30056")))].

Definition sample_topology : string := Marshal (JObj
  [(quote "isd_as", JStr (quote "1-ff00:0:110"));
   (quote "sigs", JObj [(quote "edge", sample_sig "192.0.2.1"); (quote "k8s-gone", sample_sig "192.0.2.2")])]).

Definition sample_disk : fsys := {["/etc/scion/topology.json" := sample_topology]}.
Definition sample_desired : gmap string SIG := {["node-a" := MkSIG "192.0.2.3:30256" "192.0.2.3:30056"]}.
Definition sample_patch : agent (go unit) := PatchSigs "/etc/scion/topology.json" sample_desired "k8s-".
Definition no_net (_ : string) : result HttpResp := Err (errorf [Lit "no network"]).

Lemma sample_utf8 : utf8_sigs sample_desired.
Proof.
  unfold sample_desired. intros name s [<- <-]%lookup_singleton_Some.
  split; [|split]; by apply utf8_ascii.
Qed.

Lemma sample_temps : "/etc/scion/topology.json" ∉ temps (trace_of aresp (sim no_net) sample_patch sample_disk).
Proof.
  replace (temps _) with ["/etc/scion.topology-*.json"] by (vm_compute; reflexivity).
  by intros H%list_elem_of_singleton.
Qed.

(** ** The properties *)

(** C9: At every point of a run of [PatchSigs] (the process may stop there) the
    topology file holds the old text or the complete new one, and no other file
    but temporaries has changed; the new text is in place exactly when the call
    succeeded, and an error or a panic leaves the old one. *)
Theorem PatchSigs_atomic topoFile desired prefix fs tr r seen fs' :
  topoFile ∉ temps tr ->
  exec (PatchSigs topoFile desired prefix) tr r -> fs_run fs tr seen fs' ->
  (forall f, f ∈ seen ->
     (forall p, p ∉ temps tr -> p <> topoFile -> f !! p = fs !! p) /\
     (f !! topoFile = fs !! topoFile \/
      exists raw out, fs !! topoFile = Some raw /\ patched topoFile desired prefix raw = Val (Ok out) /\
        f !! topoFile = Some out)) /\
  match r with
  | Val (Ok _) => exists raw out, fs !! topoFile = Some raw /\
      patched topoFile desired prefix raw = Val (Ok out) /\ fs' !! topoFile = Some out
  | _ => fs' !! topoFile = fs !! topoFile
  end.
Proof.
  intros Ht He Hr. destruct (PatchSigs_files _ _ _ _ _ _ _ _ He Hr) as [Hs Hf]. split.
  - intros f [H | (raw & out & Hraw & Hp & H)]%Hs.
    + split; [intros; by apply H | left; by apply H].
    + split; [intros p Hp' Hne; rewrite H by done; by apply lookup_insert_ne|].
      right. exists raw, out. by rewrite H, lookup_insert_eq.
  - destruct r as [[u|e]| |]; cbn in Hf; [|by apply Hf..].
    destruct Hf as (raw & out & Hraw & Hp & H). exists raw, out. by rewrite H, lookup_insert_eq.
Qed.

Lemma PatchSigs_atomic_witness :
  exists out, patched "/etc/scion/topology.json" sample_desired "k8s-" sample_topology = Val (Ok out) /\
    state_of aresp (sim no_net) sample_patch sample_disk !! "/etc/scion/topology.json" = Some out.
Proof.
  destruct (sim_run no_net sample_patch sample_disk) as [seen Hrun].
  destruct (PatchSigs_atomic "/etc/scion/topology.json" sample_desired "k8s-" sample_disk
    (trace_of aresp (sim no_net) sample_patch sample_disk)
    (result_of aresp (sim no_net) sample_patch sample_disk) seen _
    sample_temps (run_exec _ _ _ _) Hrun) as [_ H].
  replace (result_of aresp (sim no_net) sample_patch sample_disk) with (Val (Ok tt)) in H
    by (vm_compute; reflexivity).
  destruct H as (raw & out & Hraw & H). exists out.
  replace raw with sample_topology in H; [exact H|].
  unfold sample_disk in Hraw. rewrite lookup_singleton_eq in Hraw. congruence.
Defined.

(** A successful [PatchSigs] leaves a document that reads back with every
    other member and every entry without the prefix unchanged in meaning, and
    whose entries with the prefix decode to exactly the desired ones. *)
Lemma PatchSigs_preserves topoFile desired prefix fs tr u seen fs' :
  topoFile ∉ temps tr -> utf8 prefix -> utf8_sigs desired ->
  exec (PatchSigs topoFile desired prefix) tr (Val (Ok u)) -> fs_run fs tr seen fs' ->
  exists raw out t sg t' sg', fs !! topoFile = Some raw /\ fs' !! topoFile = Some out /\
    Unmarshal (decode_raw_map None) raw = Ok (Some t) /\ existing_sigs (Some t) = Ok sg /\
    Unmarshal (decode_raw_map None) out = Ok (Some t') /\ existing_sigs (Some t') = Ok sg' /\
    doc_spec desired prefix t t' sg sg'.
Proof.
  intros Ht Hp Hd He Hr. destruct (PatchSigs_files _ _ _ _ _ _ _ _ He Hr) as [_ (raw & out & Hraw & Hpat & H)].
  destruct (patched_doc _ _ _ _ _ Hp Hd Hpat) as (t & sg & t' & sg' & ?).
  exists raw, out, t, sg, t', sg'. split; [done|]. split; [by rewrite H, lookup_insert_eq | done].
Qed.

Lemma PatchSigs_preserves_witness :
  exists out t' sg',
    state_of aresp (sim no_net) sample_patch sample_disk !! "/etc/scion/topology.json" = Some out /\
    Unmarshal (decode_raw_map None) out = Ok (Some t') /\ existing_sigs (Some t') = Ok sg' /\
    decode_struct reject_unknown SIG_fields zero_SIG <$> default ∅ sg' !! "k8s-node-a"
    = Some (Ok (MkSIG "192.0.2.3:30256" "192.0.2.3:30056")).
Proof.
  destruct (sim_run no_net sample_patch sample_disk) as [seen Hrun].
  pose proof (run_exec aresp (sim no_net) sample_patch sample_disk) as He.
  replace (result_of aresp (sim no_net) sample_patch sample_disk) with (Val (Ok tt)) in He
    by (vm_compute; reflexivity).
  destruct (PatchSigs_preserves "/etc/scion/topology.json" sample_desired "k8s-" sample_disk _ tt seen _
    sample_temps ltac:(by apply utf8_ascii) sample_utf8 He Hrun)
    as (raw & out & t & sg & t' & sg' & _ & Hout & _ & _ & Ht & Hs & Hspec).
  exists out, t', sg'. split; [exact Hout|]. split; [exact Ht|]. split; [exact Hs|].
  exact (managed_desired _ _ _ _ _ _ Hspec "node-a").
Defined.

(** C38: [PatchSigs] panics exactly when the file it read holds [null], or an
    object whose [sigs] is [null] while entries are desired. *)
Theorem PatchSigs_panics topoFile desired prefix raw tr r :
  exec (PatchSigs topoFile desired prefix) (existT (ReadFile topoFile) (Ok raw) :: tr) r ->
  r = Panic <->
  Unmarshal (decode_raw_map None) raw = Ok None \/
  exists t, Unmarshal (decode_raw_map None) raw = Ok (Some t) /\ t !! "sigs" = Some JNull /\ desired <> ∅.
Proof.
  intros (a & tr0 & [E1 <-]%cons_eq_inj & H)%PatchSigs_exec. apply (event_inj aresp) in E1 as <-.
  destruct H as (tr1 & tr2 & -> & _ & _ & H).
  rewrite <- (patched_panics topoFile desired prefix raw).
  destruct (patched topoFile desired prefix raw) as [[out|err]| |]; [| | |done].
  - destruct H as (r' & -> & _). by split.
  - destruct H as [_ ->]. by split.
  - destruct H as [_ ->]. by split.
Qed.

Lemma PatchSigs_panics_witness :
  result_of aresp (sim no_net) (PatchSigs "topo" ∅ "k8s-") {["topo" := "null"]} = Panic.
Proof.
  pose proof (run_exec aresp (sim no_net) (PatchSigs "topo" ∅ "k8s-") {["topo" := "null"]}) as He.
  apply (PatchSigs_panics "topo" ∅ "k8s-" "null"
    (tail (trace_of aresp (sim no_net) (PatchSigs "topo" ∅ "k8s-") {["topo" := "null"]}))).
  - exact He.
  - left. vm_compute. reflexivity.
Defined.
