(* ===== verification/ServerProps.v ===== *)
(** * Properties of the registration API

    Requests against the server that [cmd/registrar] builds: who may send them,
    what each answer says about the topology file and the reload, and that the
    topology stays one. *)
From S2P Require Import Prelude Effects GoStrings Netip Json JsonStrings JsonFacts.
From S2P Require Import Api K8s AgentEnv FileSystem Bootstrap Config Topology Server TopologyFacts TopologyProps.
Local Open Scope Z_scope.
Local Open Scope prog_scope.

(** ** The server and its requests, taken apart *)
Lemma new_server_ok f env s : new_server f env = Ok s ->
  TopologyFile s = f_topology f /\ srv_Prefix s = f_prefix f /\ Token s <> "" /\
  Token s = env "REGISTRAR_TOKEN" /\ Fields (f_reloadCmd f) <> [] /\
  Reload s = reload (f_reloadCmd f) (Fields (f_reloadCmd f)).
Proof.
  unfold new_server. destruct (negb _); [done|]. case_bool_decide; [done|]. case_bool_decide; [done|].
  by intros [= <-].
Qed.

Lemma reload_exec cmd argv tr e : exec (reload cmd argv) tr e ->
  exists ans, tr = [existT (Exec argv) ans] /\ (e = None <-> snd ans = None).
Proof.
  unfold reload. intros He. exec_inv He. exists r. destruct r as [out [err|]]; cbn [snd] in *; exec_inv He; by subst.
Qed.

Definition not_Exec (c : acmd) : bool := match c with Exec _ => false | _ => true end.
Definition no_Exec (tr : list (event aresp)) : bool := forallb (fun ev => not_Exec (projT1 ev)) tr.

Lemma PatchSigs_no_Exec topoFile desired prefix tr r :
  exec (PatchSigs topoFile desired prefix) tr r -> no_Exec tr = true.
Proof.
  apply only_exec. unfold PatchSigs, range_map, replace_topology, write_topology, close_err. only_steps.
Qed.

(** A [PUT], given the set in its body. *)
Lemma putSigs_exec s r tr a desired : decode_body (decode_sig_map reject_unknown None) r = Ok desired ->
  exec (putSigs s r) tr a ->
  exists tr1 tr2 p, tr = tr1 ++ tr2 /\ exec (PatchSigs (TopologyFile s) (default ∅ desired) (srv_Prefix s)) tr1 p /\
  match p with
  | Val (Ok _) => exists e, exec (Reload s) tr2 e /\
      a = Val (match e with
               | Some _ => http_error [Lit "topology updated but reload failed"] 502
               | None => Answer 204 []
               end)
  | Val (Err _) => tr2 = [] /\ a = Val (http_error [Lit "patching topology"] 500)
  | Panic => tr2 = [] /\ a = Panic
  | NoFuel => tr2 = [] /\ a = NoFuel
  end.
Proof.
  unfold putSigs. intros -> (tr1 & tr2 & p & -> & Hp & He)%exec_mbind. exists tr1, tr2, p.
  split; [done|]. split; [done|]. destruct p as [[u|err]| |]; [|by exec_inv He..].
  apply exec_mbind in He as (tr3 & tr4 & e & -> & Hr & He). exists e.
  destruct e; exec_inv He; subst; rewrite app_nil_r; done.
Qed.

(** The set in a body is UTF-8: the decoder has replaced what was not. *)
Lemma decode_body_utf8 r m : decode_body (decode_sig_map reject_unknown None) r = Ok m -> utf8_sigs (default ∅ m).
Proof.
  unfold decode_body. destruct (parse_prefix _) as [[j rest]|] eqn:E; [|done].
  destruct (_ && _); [done|]. apply parse_prefix_wf in E. by eapply decode_sig_map_utf8.
Qed.

Lemma sigs_exec s r tr a : authorized s r = true -> rq_Path r = "/v1/sigs" ->
  exec (Handler s r) tr a <-> exec (sigs s r) tr a.
Proof.
  intros Ha Hp. unfold Handler, auth. rewrite bool_decide_eq_true_2 by done. by rewrite Ha.
Qed.

Lemma sigs_dispatch s r : sigs s r =
  match decide (rq_Method r = "GET"), decide (rq_Method r = "PUT") with
  | left _, _ => getSigs s
  | _, left _ => putSigs s r
  | _, _ => Ret (Val (http_error [Lit "method not allowed"] 405))
  end.
Proof.
  unfold sigs. generalize (putSigs s r) (getSigs s). intros p g.
  destruct (decide (rq_Method r = "GET")); [by rewrite bool_decide_eq_true_2|].
  rewrite bool_decide_eq_false_2 by done.
  destruct (decide (rq_Method r = "PUT")); [by rewrite bool_decide_eq_true_2|].
  by rewrite bool_decide_eq_false_2.
Qed.

(** An authorised request with a method. *)
Definition request_for (m : string) (s : Server) (r : Request) : Prop :=
  authorized s r = true /\ rq_Path r = "/v1/sigs" /\ rq_Method r = m.

Lemma put_exec s r tr a : request_for "PUT" s r ->
  exec (Handler s r) tr a -> exec (putSigs s r) tr a.
Proof.
  intros (Ha & Hp & Hm) H%sigs_exec; [|done..]. rewrite sigs_dispatch in H.
  destruct (decide (_ = "GET")) as [E|]; [rewrite Hm in E; discriminate E|].
  destruct (decide (_ = "PUT")) as [_|E]; [exact H | destruct (E Hm)].
Qed.

Lemma get_exec s r tr a : request_for "GET" s r ->
  exec (Handler s r) tr a -> exec (getSigs s) tr a.
Proof.
  intros (Ha & Hp & Hm) H%sigs_exec; [|done..]. rewrite sigs_dispatch in H.
  destruct (decide (_ = "GET")) as [_|E]; [exact H | destruct (E Hm)].
Qed.

Lemma putSigs_bad s r tr a err : decode_body (decode_sig_map reject_unknown None) r = Err err ->
  exec (putSigs s r) tr a -> tr = [] /\ a = Val (http_error (Lit "invalid JSON body: " :: e_msg err) 400).
Proof. unfold putSigs. intros -> He. by exec_inv He. Qed.

(** The body of an answer to a [GET]. *)
Definition sigs_text (m : gmap string SIG) : string :=
  Marshal (JObj (map (fun '(k, sig) => (quote k, json_of_SIG sig)) (sorted_entries m))) +:+ newline.

(** ** A registrar with one gateway to register *)
Definition sample_env (name : string) : string := if bool_decide (name = "REGISTRAR_TOKEN") then "secret" else "".
Definition sample_server : Server :=
  MkServer "/etc/scion/topology.json" "k8s-" "secret"
    (reload "systemctl kill -s HUP scion-control" ["systemctl"; "kill"; "-s"; "HUP"; "scion-control"]).
Definition sample_put : Request := MkRequest "PUT" "/v1/sigs" "Bearer secret" (sigs_text sample_desired) None.
Definition sample_get : Request := MkRequest "GET" "/v1/sigs" "Bearer secret" "" None.

Lemma sample_new_server : new_server default_flags sample_env = Ok sample_server.
Proof. vm_compute. reflexivity. Qed.

Lemma sample_put_for : request_for "PUT" sample_server sample_put.
Proof. by repeat split. Qed.

Lemma sample_get_for : request_for "GET" sample_server sample_get.
Proof. by repeat split. Qed.

Lemma sample_put_decodes : decode_body (decode_sig_map reject_unknown None) sample_put = Ok (Some sample_desired).
Proof. vm_compute. reflexivity. Qed.

Lemma sample_read : Unmarshal (decode_raw_map None) sample_topology = Ok (Some
  (<["isd_as" := JStr "1-ff00:0:110"]> {["sigs" := JObj [(quote "edge", sample_sig "192.0.2.1");
                                                         (quote "k8s-gone", sample_sig "192.0.2.2")]]})).
Proof. vm_compute. reflexivity. Qed.

Lemma sample_readable : readable "k8s-" sample_topology.
Proof.
  intros t sg. rewrite sample_read. intros [= <-]. unfold existing_sigs.
  change (default ∅ (Some ?m)) with m. rewrite lookup_insert_ne, lookup_singleton_eq by done.
  intros [= <-]. split.
  - intros k [v [[<- _] | [_ [<- _]%lookup_singleton_Some]]%lookup_insert_Some] Hne; [reflexivity | done].
  - intros k v. cbn [default set_members foldl]. unfold id.
    rewrite !unquote_quote by (by apply utf8_ascii).
    intros [[<- _] | [_ [[<- <-] | [_ ?%lookup_empty_Some]]%lookup_insert_Some]]%lookup_insert_Some Hk; [done| |done].
    vm_compute. reflexivity.
Qed.

Lemma sample_put_temps fs : fs = sample_disk ->
  "/etc/scion/topology.json" ∉ temps (trace_of aresp (sim no_net) (Handler sample_server sample_put) fs).
Proof.
  intros ->. replace (temps _) with ["/etc/scion.topology-*.json"] by (vm_compute; reflexivity).
  by intros H%list_elem_of_singleton.
Qed.

(** ** Access *)

(** The handler touches the topology, or anything else, only for a request
    to [/v1/sigs] that bears the configured token, which is not empty; of those
    only a [PUT] can change files. *)
Lemma Handler_fail_closed s r tr a : exec (Handler s r) tr a -> tr <> [] ->
  Token s <> "" /\ rq_Authorization r = "Bearer " +:+ Token s /\ rq_Path r = "/v1/sigs" /\
  (rq_Method r = "PUT" \/ rq_Method r = "GET" /\ forallb quiet tr = true).
Proof.
  unfold Handler, auth. intros He Hne.
  case_bool_decide as Hp; [|by exec_inv He].
  destruct (authorized s r) eqn:Ha; cbn [negb] in He; [|by exec_inv He].
  apply andb_prop in Ha as [Ht%negb_true_iff%bool_decide_eq_false Hb%bool_decide_eq_true].
  split_and!; [done..|]. unfold sigs in He.
  case_bool_decide as Hg.
  - right. split; [done|]. unfold getSigs in He.
    apply exec_mbind in He as (tr1 & tr2 & m & -> & [Hq _]%ManagedSigs_exec & He).
    destruct m; exec_inv He; by rewrite app_nil_r.
  - case_bool_decide; [by left|]. by exec_inv He.
Qed.

Lemma Handler_fail_closed_witness :
  rq_Authorization sample_get = "Bearer " +:+ Token sample_server /\
  (rq_Method sample_get = "PUT" \/
   rq_Method sample_get = "GET" /\
   forallb quiet (trace_of aresp (sim no_net) (Handler sample_server sample_get) sample_disk) = true).
Proof.
  destruct (Handler_fail_closed sample_server sample_get
    (trace_of aresp (sim no_net) (Handler sample_server sample_get) sample_disk) _ (run_exec _ _ _ _))
    as (_ & Hb & _ & Hm); [vm_compute; discriminate|]. split; [exact Hb | exact Hm].
Defined.

(** ** Answers *)

(** C14: What the answer to an authorised [PUT] says: 204 and 502 mean that the
    set was decoded and the complete new document is in place, and that the
    reload command ran once, after it, and succeeded or failed; every other
    answer, and a panic, means that nothing was reloaded and the topology is as
    it was. *)
Theorem put_answer f env s r fs tr a seen fs' : new_server f env = Ok s ->
  request_for "PUT" s r ->
  exec (Handler s r) tr a -> fs_run fs tr seen fs' -> f_topology f ∉ temps tr ->
  (exists desired raw out tr1 ans,
     decode_body (decode_sig_map reject_unknown None) r = Ok desired /\
     fs !! f_topology f = Some raw /\
     patched (f_topology f) (default ∅ desired) (f_prefix f) raw = Val (Ok out) /\
     fs' !! f_topology f = Some out /\
     no_Exec tr1 = true /\ tr = tr1 ++ [existT (Exec (Fields (f_reloadCmd f))) ans] /\
     a = Val (match snd ans with
              | None => Answer 204 []
              | Some _ => http_error [Lit "topology updated but reload failed"] 502
              end)) \/
  (no_Exec tr = true /\ fs' !! f_topology f = fs !! f_topology f /\
   (a = Panic \/ exists m code, a = Val (http_error m code) /\ (code = 400 \/ code = 500))).
Proof.
  intros (Hf & Hp & _ & _ & _ & Hl)%new_server_ok Hput He%put_exec Hr Ht; [|done].
  destruct (decode_body (decode_sig_map reject_unknown None) r) as [desired|err] eqn:Ed.
  2:{ right. destruct (putSigs_bad _ _ _ _ _ Ed He) as [-> ->]. fs_steps Hr. split_and!; [done..|]. right. eexists _, 400. split; [reflexivity | by left]. }
  apply (putSigs_exec _ _ _ _ _ Ed) in He as (tr1 & tr2 & p & -> & Hpatch & He).
  pose proof (PatchSigs_no_Exec _ _ _ _ _ Hpatch) as Hno. rewrite Hf, Hp in Hpatch.
  apply fs_run_app in Hr as (s1 & s2 & fs1 & -> & Hr1 & Hr2).
  rewrite temps_app in Ht. apply not_elem_of_app in Ht as [Ht1 _].
  destruct (PatchSigs_files _ _ _ _ _ _ _ _ Hpatch Hr1) as [_ Hfin].
  destruct p as [[u|err]| |]; cbn [success] in Hfin.
  - destruct He as (e & Hre & ->). rewrite Hl in Hre. apply reload_exec in Hre as (ans & -> & Hans).
    destruct Hfin as (raw & out & Hraw & Hpat & Hag). left. exists desired, raw, out, tr1, ans.
    fs_steps Hr2. subst. split_and!; [done..| |done|done|].
    + by rewrite Hag, lookup_insert_eq.
    + destruct e as [e|], (snd ans) as [e'|]; [done | | | done].
      * discriminate (proj2 Hans eq_refl).
      * discriminate (proj1 Hans eq_refl).
  - right. destruct He as [-> ->]. fs_steps Hr2. rewrite app_nil_r. split_and!; [done | by apply Hfin |].
    right. eexists _, 500. split; [reflexivity | by right].
  - right. destruct He as [-> ->]. fs_steps Hr2. rewrite app_nil_r. split_and!; [done | by apply Hfin | by left].
  - apply PatchSigs_exec in Hpatch as (x & tr' & _ & H). destruct x as [raw|]; [|by destruct H as [_ ?]].
    destruct H as (? & ? & _ & _ & _ & H). by destruct (patched _ _ _ raw) as [[]| |]; naive_solver.
Qed.

Lemma put_answer_witness : exists out,
  state_of aresp (sim no_net) (Handler sample_server sample_put) sample_disk !! "/etc/scion/topology.json" = Some out /\
  patched "/etc/scion/topology.json" sample_desired "k8s-" sample_topology = Val (Ok out).
Proof.
  destruct (sim_run no_net (Handler sample_server sample_put) sample_disk) as [seen Hrun].
  destruct (put_answer default_flags sample_env sample_server sample_put sample_disk
    (trace_of aresp (sim no_net) (Handler sample_server sample_put) sample_disk) _ seen _
    sample_new_server sample_put_for (run_exec _ _ _ _) Hrun (sample_put_temps _ eq_refl))
    as [(desired & raw & out & tr1 & ans & Hd & Hraw & Hp & Hout & _) | (_ & _ & [Ha | (m & c & Ha & Hc)])].
  - exists out. split; [exact Hout|]. rewrite sample_put_decodes in Hd. injection Hd as <-.
    replace sample_topology with raw; [exact Hp|].
    unfold sample_disk in Hraw. rewrite lookup_singleton_eq in Hraw. congruence.
  - vm_compute in Ha. discriminate Ha.
  - exfalso. destruct Hc as [-> | ->]; vm_compute in Ha; discriminate Ha.
Defined.

(** ** A [GET] after a [PUT] *)
Lemma getSigs_exec s tr a : exec (getSigs s) tr a ->
  forallb quiet tr = true /\ exists c tr', tr = existT (ReadFile (TopologyFile s)) c :: tr' /\
  match c with
  | Err err => tr' = [] /\ a = Val (http_error [Lit "reading topology"] 500)
  | Ok raw => forall m, Unmarshal decode_topology raw = Ok m -> exists l,
      l ≡ₚ map_to_list (default ∅ m) /\ a = Val (Answer 200 [Lit (sigs_text (collect_managed (srv_Prefix s) l))])
  end.
Proof.
  unfold getSigs. intros (tr1 & tr2 & m & -> & [Hq (c & tr' & -> & H)]%ManagedSigs_exec & He)%exec_mbind.
  assert (tr2 = []) as -> by (destruct m; by exec_inv He). rewrite app_nil_r.
  split; [done|]. exists c, tr'. split; [done|]. destruct c as [raw|err].
  - intros m' Hm. rewrite Hm in H. destruct H as (l & Hl & ->). exists l. split; [done|]. by exec_inv He.
  - destruct H as [-> ->]. by exec_inv He.
Qed.

Definition sigs_json (m : gmap string SIG) : json :=
  JObj (map (fun '(k, sig) => (quote k, json_of_SIG sig)) (sorted_entries m)).

Lemma sigs_json_wf m : utf8_sigs m -> wf 0 (sigs_json m).
Proof.
  intros Hm. apply wf_entries; [exact depth0|]. intros k v [Hk Hv]%Hm.
  split; [by apply quote_raw | by apply wf_json_of_SIG; [exact depth1|]].
Qed.

Lemma decode_sigs_json m : utf8_sigs m -> decode_sig_map reject_unknown None (sigs_json m) = Ok (Some m).
Proof.
  intros Hm. unfold sigs_json. cbn [decode_sig_map default].
  rewrite (decode_sig_members_entries _ quote json_of_SIG id); [cbn; by rewrite map_fmap_id|].
  intros k v [Hk Hv]%Hm. split; [by apply unquote_quote | by apply decode_SIG_json].
Qed.

Lemma put_done f env s r desired fs tr code b seen fs' :
  new_server f env = Ok s -> request_for "PUT" s r ->
  decode_body (decode_sig_map reject_unknown None) r = Ok desired ->
  exec (Handler s r) tr (Val (Answer code b)) -> code = 204 \/ code = 502 ->
  fs_run fs tr seen fs' -> f_topology f ∉ temps tr ->
  exists raw out, fs !! f_topology f = Some raw /\
    patched (f_topology f) (default ∅ desired) (f_prefix f) raw = Val (Ok out) /\ fs' !! f_topology f = Some out.
Proof.
  intros (Hf & Hpre & _ & _ & _ & Hl)%new_server_ok Hput Hd He%put_exec Hcode Hr Ht; [|done].
  apply (putSigs_exec _ _ _ _ _ Hd) in He as (tr1 & tr2 & p & -> & Hpatch & He).
  rewrite Hf, Hpre in Hpatch. rewrite temps_app in Ht. apply not_elem_of_app in Ht as [Ht1 _].
  apply fs_run_app in Hr as (s1 & s2 & fs1 & -> & Hr1 & Hr2).
  destruct (PatchSigs_files _ _ _ _ _ _ _ _ Hpatch Hr1) as [_ Hfin].
  destruct p as [[u|err]| |]; [| |by destruct He as [_ ?]|by destruct He as [_ ?]].
  - destruct He as (e & He & _). rewrite Hl in He. apply reload_exec in He as (ans & -> & _).
    fs_steps Hr2. subst. destruct Hfin as (raw & out & Hraw & Hpat & Hag). exists raw, out.
    by rewrite Hag, lookup_insert_eq.
  - destruct He as [_ [= -> _]]. by destruct Hcode.
Qed.

Lemma sigs_text_decodes m : utf8_sigs m ->
  Unmarshal (decode_sig_map reject_unknown None) (sigs_text m) = Ok (Some m).
Proof.
  intros Hm. unfold Unmarshal, sigs_text, Marshal. fold (sigs_json m).
  rewrite parse_print by first [apply compact_ok | by apply sigs_json_wf | done]. by apply decode_sigs_json.
Qed.

(** A body that is read as a whole: a document and white space. *)
Lemma decode_whole_body {A} (dec : json -> result A) r j w : wf 0 j -> all_ws w -> rq_Body r = Marshal j +:+ w ->
  rq_Err r = None -> (String.length (rq_Body r) <= maxBodyBytes)%nat -> decode_body dec r = dec j.
Proof.
  intros Hj Hw Hb He Hl. unfold decode_body. rewrite He. rewrite str_take_all by done.
  apply Nat.ltb_ge in Hl. rewrite Hl, Hb. unfold Marshal.
  rewrite parse_prefix_print; [|apply compact_ok | done | rewrite <- (string_app_nil_r w); by apply ws_delimiter].
  by rewrite (bool_decide_eq_false_2 ((None : option gerror) <> None)), andb_false_r by auto.
Qed.

Lemma decode_sigs_text r m : utf8_sigs m -> rq_Body r = sigs_text m -> rq_Err r = None ->
  (String.length (rq_Body r) <= maxBodyBytes)%nat ->
  decode_body (decode_sig_map reject_unknown None) r = Ok (Some m).
Proof.
  intros Hm Hb He Hl. rewrite (decode_whole_body _ r _ newline (sigs_json_wf m Hm)) by done. by apply decode_sigs_json.
Qed.

(** ** Every document on disk is a topology *)

(** Requests one after the other, as the mutex has it; a panic ends its own
    request only. *)
Fixpoint serve (s : Server) (rs : list Request) : agent (list (outcome Response)) :=
  match rs with
  | [] => Ret []
  | r :: rs' => a ← Handler s r; l ← serve s rs'; Ret (a :: l)
  end.

(** An object whose [sigs] is an object. *)
Definition sigs_doc (raw : string) : Prop := exists t kvs,
  Unmarshal (decode_raw_map None) raw = Ok (Some t) /\ t !! "sigs" = Some (JObj kvs).

(** An object whose [sigs], if it has any, is an object: what the operator of the
    host may start with. *)
Definition topology_doc (raw : string) : Prop := exists t,
  Unmarshal (decode_raw_map None) raw = Ok (Some t) /\
  (t !! "sigs" = None \/ exists kvs, t !! "sigs" = Some (JObj kvs)).

(** The file is the one at the start, or has a map of gateways. *)
Definition valid_topology (orig topoFile : string) (fs : fsys) : Prop :=
  exists raw, fs !! topoFile = Some raw /\ topology_doc raw /\ (raw = orig \/ sigs_doc raw).

Lemma sigs_doc_topology raw : sigs_doc raw -> topology_doc raw.
Proof. intros (t & kvs & Hu & H). exists t. eauto. Qed.

Lemma topology_doc_sigs raw t sg : topology_doc raw -> Unmarshal (decode_raw_map None) raw = Ok (Some t) ->
  existing_sigs (Some t) = Ok sg -> exists m, sg = Some m.
Proof.
  intros (t' & Hu & H) Hu'. rewrite Hu in Hu'. injection Hu' as ->. unfold existing_sigs.
  change (default ∅ (Some t)) with t. destruct H as [-> | [kvs ->]]; cbn [decode_raw_map]; intros [= <-]; by eexists.
Qed.

Lemma topology_doc_no_panic topoFile desired prefix raw : topology_doc raw -> patched topoFile desired prefix raw <> Panic.
Proof.
  intros (t & Hu & H) [Hn | (t' & Hu' & Hn & _)]%patched_panics; rewrite Hu in *; [done|].
  injection Hu' as <-. destruct H as [H | [kvs H]]; rewrite H in Hn; discriminate Hn.
Qed.

(** What replaces a topology has a map of gateways. *)
Lemma patched_sigs_doc topoFile desired prefix raw out : utf8 prefix -> utf8_sigs desired -> topology_doc raw ->
  patched topoFile desired prefix raw = Val (Ok out) -> sigs_doc out.
Proof.
  intros Hp Hd Hdoc (t & sg & sg' & Hu & He & Hm & ->)%patched_ok.
  destruct (topology_doc_sigs _ _ _ Hdoc Hu He) as [m ->].
  pose proof (Unmarshal_read _ _ Hu) as Ht. pose proof (existing_read _ _ Ht He) as Hs. cbn in Ht.
  destruct (patched_map_read _ _ _ _ Hp Hd Hs Hm) as (Hs' & _ & _). cbn [patched_map] in Hm. injection Hm as <-.
  eexists _, _. split.
  - apply read_topology_text, read_map_insert; [done | by apply utf8_ascii |]. by apply json_of_raw_wf; [exact depth1|].
  - rewrite lookup_fmap, lookup_insert_eq. reflexivity.
Qed.

Lemma valid_agree orig T topoFile f g : topoFile ∉ T -> agree T f g -> valid_topology orig topoFile g ->
  valid_topology orig topoFile f.
Proof. intros Ht Ha (raw & Hraw & H). exists raw. by rewrite Ha. Qed.

Lemma patch_keeps_topology orig topoFile desired prefix fs tr r seen fs' : utf8 prefix -> utf8_sigs desired ->
  exec (PatchSigs topoFile desired prefix) tr r -> fs_run fs tr seen fs' -> topoFile ∉ temps tr ->
  valid_topology orig topoFile fs -> (forall g, g ∈ seen -> valid_topology orig topoFile g) /\ r <> Panic.
Proof.
  intros Hp Hd He Hr Ht Hv. destruct (PatchSigs_files _ _ _ _ _ _ _ _ He Hr) as [Hs _].
  pose proof Hv as (raw0 & Hraw0 & Hdoc & _). split.
  - intros g Hg. destruct (Hs g Hg) as [H | (raw & out & Hraw & Hpat & H)]; [by eapply valid_agree|].
    rewrite Hraw0 in Hraw. injection Hraw as <-.
    assert (sigs_doc out) by by eapply patched_sigs_doc.
    exists out. rewrite H, lookup_insert_eq by done. eauto using sigs_doc_topology.
  - intros ->. apply PatchSigs_exec in He as (x & tr' & -> & H). cbn in Hr. destruct Hr as (f1 & s2 & [_ Hread] & _).
    destruct x as [raw|]; [|by destruct H as [_ ?]]. rewrite Hraw0 in Hread. injection Hread as <-.
    destruct H as (? & ? & _ & _ & _ & H). pose proof (topology_doc_no_panic topoFile desired prefix _ Hdoc).
    destruct (patched _ _ _ raw0) as [[]| |]; naive_solver.
Qed.

Lemma request_keeps_topology orig f env s r fs tr a seen fs' : new_server f env = Ok s -> utf8 (f_prefix f) ->
  exec (Handler s r) tr a -> fs_run fs tr seen fs' -> f_topology f ∉ temps tr ->
  valid_topology orig (f_topology f) fs ->
  (forall g, g ∈ seen -> valid_topology orig (f_topology f) g) /\ a <> Panic.
Proof.
  intros (Hf & Hpre & _ & _ & _ & Hl)%new_server_ok Hp He Hr Ht Hv.
  assert (Hquiet : forallb quiet tr = true -> forall x, a = Val x ->
    (forall g, g ∈ seen -> valid_topology orig (f_topology f) g) /\ a <> Panic).
  { intros Hq x ->. split; [|done]. intros g Hg. destruct (fs_run_quiet _ _ _ _ Hq Hr) as [_ Hs]. by rewrite (Hs g Hg). }
  unfold Handler, auth in He. case_bool_decide; [|exec_inv He; by eapply Hquiet].
  destruct (authorized s r); cbn [negb] in He; [|exec_inv He; by eapply Hquiet].
  rewrite sigs_dispatch in He. destruct (decide (rq_Method r = "GET")).
  { destruct (getSigs_exec _ _ _ He) as [Hq _]. unfold getSigs in He.
    apply exec_mbind in He as (t1 & t2 & m & -> & _ & He).
    destruct m; exec_inv He; (eapply Hquiet; [exact Hq | exact He]). }
  destruct (decide (rq_Method r = "PUT")); [|exec_inv He; by eapply Hquiet].
  destruct (decode_body (decode_sig_map reject_unknown None) r) as [desired|err] eqn:Ed.
  2:{ destruct (putSigs_bad _ _ _ _ _ Ed He) as [-> Ha]. clear Ed He. by eapply Hquiet. }
  apply (putSigs_exec _ _ _ _ _ Ed) in He as (tr1 & tr2 & p & -> & Hpatch & He).
  rewrite Hf, Hpre in Hpatch. rewrite temps_app in Ht. apply not_elem_of_app in Ht as [Ht1 _].
  apply fs_run_app in Hr as (s1 & s2 & fs1 & -> & Hr1 & Hr2). clear Hquiet.
  destruct (patch_keeps_topology orig _ _ _ _ _ _ _ _ Hp (decode_body_utf8 _ _ Ed) Hpatch Hr1 Ht1 Hv) as [Hs1 Hnp].
  assert (Hq2 : forallb quiet tr2 = true /\ a <> Panic).
  { destruct p as [[u|err]| |]; [|by destruct He as [-> ->]..]. destruct He as (e' & He & ->). split; [|by destruct e'].
    rewrite Hl in He. by apply reload_exec in He as (ans & -> & _). }
  destruct Hq2 as [Hq2 Ha]. split; [|done]. destruct (fs_run_quiet _ _ _ _ Hq2 Hr2) as [_ Hs2].
  intros g [Hg | ->%Hs2]%elem_of_app; [auto|].
  apply fs_run_last in Hr1. apply elem_of_cons in Hr1 as [-> | Hg]; auto.
Qed.

(** Whatever sequence of requests the registrar serves, authorised or not and
    well formed or not, and wherever it is stopped, the topology file stays a
    topology, and no request panics. *)
Lemma serve_keeps_topology orig f env s rs fs tr l seen fs' : new_server f env = Ok s -> utf8 (f_prefix f) ->
  exec (serve s rs) tr l -> fs_run fs tr seen fs' -> f_topology f ∉ temps tr ->
  valid_topology orig (f_topology f) fs ->
  (forall g, g ∈ seen -> valid_topology orig (f_topology f) g) /\ Panic ∉ l.
Proof.
  intros Hs Hp. revert fs tr l seen. induction rs as [|r rs IH]; intros fs tr l seen He Hr Ht Hv.
  - cbn [serve] in He. exec_inv He. fs_steps Hr. subst l. split; [by intros g ?%elem_of_nil | by intros ?%elem_of_nil].
  - cbn [serve] in He. apply exec_mbind in He as (tr1 & tr2 & a & -> & He1 & He).
    apply exec_mbind in He as (tr3 & tr4 & l' & -> & He2 & He). exec_inv He. subst l. rewrite app_nil_r in *.
    apply fs_run_app in Hr as (s1 & s2 & fs1 & -> & Hr1 & Hr2).
    rewrite temps_app in Ht. apply not_elem_of_app in Ht as [Ht1 Ht2].
    destruct (request_keeps_topology orig _ _ _ _ _ _ _ _ _ Hs Hp He1 Hr1 Ht1 Hv) as [H1 Ha].
    destruct (IH fs1 tr3 l' s2 He2 Hr2 Ht2) as [H2 Hl].
    { apply fs_run_last in Hr1 as Hlast. apply elem_of_cons in Hlast as [-> | ?]; auto. }
    split; [|by intros [<- | ?]%elem_of_cons]. intros g [?|?]%elem_of_app; auto.
Qed.

(** ** The process *)

(** The registrar listens only with a token, a reload command, and a certificate
    and a key or neither, and otherwise exits with status 1 at once; it exits with
    status 0 exactly when it served until a signal and shut down cleanly. *)
Definition may_serve (f : Flags) (env : environ) : Prop :=
  env "REGISTRAR_TOKEN" <> "" /\ Fields (f_reloadCmd f) <> [] /\ (f_tlsCert f = "" <-> f_tlsKey f = "").

Lemma registrar_main_spec f env tr code : exec (registrar_main f env) tr code ->
  let serve := existT (Serve (f_listen f) (f_tlsCert f) (f_tlsKey f)) in
  (tr = [] /\ code = 1 /\ ~ may_serve f env) \/
  (may_serve f env /\
   ((exists e, tr = [serve (Some e)] /\ code = 1) \/
    (exists e, tr = [serve None; existT (Shutdown (5 * Second)) e] /\ (code = 0 <-> e = None)))).
Proof.
  unfold registrar_main. intros (t1 & t2 & r & -> & He & [-> ->]%exec_ret_inv)%exec_mbind. rewrite app_nil_r.
  unfold registrar_run, new_server, may_serve in *.
  destruct (negb _) eqn:Etls; [exec_inv He; subst r; left; split_and!; [done..|]|].
  { intros (_ & _ & H). apply negb_true_iff, eqb_false_iff in Etls. apply Etls. by apply bool_decide_ext. }
  assert (Htls : f_tlsCert f = "" <-> f_tlsKey f = "").
  { apply negb_false_iff, eqb_prop in Etls. by repeat case_bool_decide. }
  clear Etls. case_bool_decide; [exec_inv He; subst r; left; split_and!; [done..| by intros [? _]]|].
  case_bool_decide; [exec_inv He; subst r; left; split_and!; [done..| by intros (_ & ? & _)]|].
  right. split; [done|]. exec_inv He. destruct r0 as [e|]; exec_inv He; subst r; [left; by exists e|].
  right. exists r0. split; [done|]. by destruct r0.
Qed.
