(* ===== verification/RegistrarConc.v ===== *)
(** * Concurrent requests at the registrar

    [net/http] runs one goroutine per connection, and the handler of
    [internal/registrar/server.go] takes [s.mu] around [sigs].  Here the mutex is
    a command of its own, any number of requests are interleaved command by
    command on one file system, and the mutex is shown to make them take effect
    one after the other. *)
From S2P Require Import Prelude Effects GoStrings Netip Json JsonStrings JsonFacts.
From S2P Require Import Api K8s AgentEnv FileSystem Config Topology Server TopologyFacts TopologyProps ServerProps.
Local Open Scope Z_scope.
Local Open Scope prog_scope.

(** ** Programs that use a mutex *)
Inductive lcmd :=
| Lock
| Unlock
| Use (c : acmd).

Definition lresp (c : lcmd) : Type :=
  match c with Lock | Unlock => unit | Use c => aresp c end.

Fixpoint lift {A} (p : agent A) : prog lresp A :=
  match p with
  | Ret a => Ret a
  | Do c k => Do (resp := lresp) (Use c) (fun r => lift (k r))
  end.

(** The body, and then the deferred [Unlock]; a panic of the body is a value, so
    that the mutex is released then too. *)
Definition unlocking {A} (p : agent A) : prog lresp A :=
  a ← lift p; _ ← call (resp := lresp) Unlock; Ret a.

Definition synchronized {A} (p : agent A) : prog lresp A :=
  _ ← call (resp := lresp) Lock; unlocking p.

(** The handler with its mutex: it is taken after the check of the token. *)
Definition locked_sigs (s : Server) (r : Request) : prog lresp (outcome Response) := synchronized (sigs s r).

Definition locked_Handler (s : Server) (r : Request) : prog lresp (outcome Response) :=
  if bool_decide (rq_Path r = "/v1/sigs") then
    if negb (authorized s r) then Ret (Val (http_error [Lit "unauthorized"] 401)) else locked_sigs s r
  else Ret (Val ByMux).

(** ** Requests in flight *)

(** A request that was answered has come to [Ret].  [acquired] lists the requests
    in the order in which they took the mutex, and [events] all commands so far. *)
Record system := MkSystem {
  disk : fsys;
  holder : option nat;
  threads : list (Request * prog lresp (outcome Response));
  acquired : list nat;
  events : list (event aresp)
}.

Definition initial (fs : fsys) : system := MkSystem fs None [] [] [].

(** Request [i] goes on as [p]. *)
Definition resume (st : system) (i : nat) (r : Request) (p : prog lresp (outcome Response))
    : list (Request * prog lresp (outcome Response)) := <[i := (r, p)]> (threads st).

(** One command of request [i]: the mutex is only given while nobody holds it,
    and files are read and written on the shared disk. *)
Definition advance (st : system) (i : nat) (r : Request) (p : prog lresp (outcome Response)) (st' : system) : Prop :=
  match p with
  | Ret _ => False
  | Do c k =>
      match c as c return (lresp c -> prog lresp (outcome Response)) -> Prop with
      | Lock => fun k => holder st = None /\
          st' = MkSystem (disk st) (Some i) (resume st i r (k tt)) (acquired st ++ [i]) (events st)
      | Unlock => fun k => holder st = Some i /\
          st' = MkSystem (disk st) None (resume st i r (k tt)) (acquired st) (events st)
      | Use c => fun k => exists x fs, fs_step (disk st) (existT c x) fs /\
          st' = MkSystem fs (holder st) (resume st i r (k x)) (acquired st) (events st ++ [existT c x])
      end k
  end.

Inductive step (s : Server) : system -> system -> Prop :=
| step_arrive st r :
    step s st (MkSystem (disk st) (holder st) (threads st ++ [(r, locked_Handler s r)]) (acquired st) (events st))
| step_run st i r p st' : threads st !! i = Some (r, p) -> advance st i r p st' -> step s st st'.

Definition reachable (s : Server) (fs : fsys) : system -> Prop := rtc (step s) (initial fs).

Lemma reachable_trans s fs st st' : reachable s fs st -> rtc (step s) st st' -> reachable s fs st'.
Proof. unfold reachable. intros H1 H2. by etrans. Qed.

(** The requests whose critical section is over, in their order. *)
Definition finished (st : system) : list nat :=
  match holder st with Some _ => removelast (acquired st) | None => acquired st end.

(** [p] goes on as [q] after the commands of [tr]. *)
Fixpoint runs_to {A} (p : agent A) (tr : list (event aresp)) (q : agent A) {struct tr} : Prop :=
  match tr with
  | [] => q = p
  | ev :: tr' =>
      match p with
      | Ret _ => False
      | Do c k => exists x, ev = existT c x /\ runs_to (k x) tr' q
      end
  end.

Lemma runs_to_snoc {A} (p : agent A) tr c (k : aresp c -> agent A) x :
  runs_to p tr (Do c k) -> runs_to p (tr ++ [existT c x]) (k x).
Proof.
  revert p. induction tr as [|ev tr IH]; intros p; cbn.
  - intros <-. by exists x.
  - destruct p as [a|c' k']; [done|]. intros (y & -> & H). exists y. auto.
Qed.

Lemma runs_to_exec {A} (p : agent A) tr q tr' a : runs_to p tr q -> exec q tr' a -> exec p (tr ++ tr') a.
Proof.
  revert p. induction tr as [|ev tr IH]; intros p; cbn [app runs_to]; [by intros ->|].
  destruct p as [b|c k]; [done|]. intros (y & -> & H) He. exists y, (tr ++ tr'). auto.
Qed.

(** The lifted program takes the steps of the program. *)
Lemma unlocking_step {A} (p : agent A) :
  match p with
  | Ret a => unlocking p = Do (resp := lresp) Unlock (fun _ => Ret a)
  | Do c k => unlocking p = Do (resp := lresp) (Use c) (fun x => unlocking (k x))
  end.
Proof. by destruct p. Qed.

Lemma locked_Handler_cases s r :
  (exists a, locked_Handler s r = Ret a /\ exec (Handler s r) [] a) \/
  (locked_Handler s r = synchronized (sigs s r) /\ Handler s r = sigs s r).
Proof.
  unfold locked_Handler, Handler, auth, locked_sigs. case_bool_decide; [|left; by eexists].
  destruct (authorized s r); [by right | left; by eexists].
Qed.

(** ** The invariant *)

(** The critical sections that are over, each with its commands, and the
    commands of the current one. *)
Record serial (s : Server) (fs : fsys) (st : system) (log : list (nat * list (event aresp)))
    (cur : list (event aresp)) : Prop := Serial {
  ser_run : exists seen, fs_run fs (events st) seen (disk st);
  ser_events : events st = mjoin (log.*2) ++ cur;
  ser_order : acquired st = log.*1 ++ option_list (holder st);
  ser_nodup : NoDup (acquired st);
  ser_done : forall i tr, (i, tr) ∈ log ->
    exists r a, threads st !! i = Some (r, Ret a) /\ exec (Handler s r) tr a;
  ser_current : match holder st with
    | None => cur = []
    | Some i => exists r q, threads st !! i = Some (r, unlocking q) /\ runs_to (Handler s r) cur q
    end;
  ser_outside : forall i r p, threads st !! i = Some (r, p) -> i ∉ acquired st ->
    (exists a, p = Ret a /\ exec (Handler s r) [] a) \/
    (p = synchronized (sigs s r) /\ Handler s r = sigs s r)
}.

Lemma serial_initial s fs : serial s fs (initial fs) [] [].
Proof. split; cbn; try done; [by exists [] | by apply NoDup_nil_2 | by intros i tr ?%elem_of_nil]. Qed.

Lemma ser_started s fs st log cur i : serial s fs st log cur -> i ∈ acquired st -> is_Some (threads st !! i).
Proof.
  intros H. rewrite (ser_order _ _ _ _ _ H), elem_of_app. intros [Hi | Hi].
  - apply list_elem_of_fmap in Hi as ([j tr] & -> & Hl). apply (ser_done _ _ _ _ _ H) in Hl as (r & a & Ht & _).
    by eexists.
  - pose proof (ser_current _ _ _ _ _ H) as Hc. destruct (holder st); cbn in Hi; [|by apply elem_of_nil in Hi].
    apply list_elem_of_singleton in Hi as ->. destruct Hc as (r & q & Ht & _). by eexists.
Qed.

Lemma serial_arrive s fs st log cur r : serial s fs st log cur ->
  serial s fs (MkSystem (disk st) (holder st) (threads st ++ [(r, locked_Handler s r)]) (acquired st) (events st)) log cur.
Proof.
  intros H. pose proof H as [H1 H2 H3 H4 H5 H6 H7]. split; cbn; try done.
  - intros i tr (r' & a & Ht & He)%H5. exists r', a. split; [|done]. by apply lookup_app_l_Some.
  - destruct (holder st) as [i|]; [|done]. destruct H6 as (r' & q & Ht & Hq). exists r', q.
    split; [|done]. by apply lookup_app_l_Some.
  - intros i r' p [Ht | [_ [_ Ht]%list_lookup_singleton_Some]]%lookup_app_Some Hi; [by eapply H7|].
    injection Ht as <- <-. apply locked_Handler_cases.
Qed.

Lemma resume_other st i r p j x : threads st !! j = Some x -> j <> i -> resume st i r p !! j = Some x.
Proof. intros H Hj. unfold resume. by rewrite list_lookup_insert_ne. Qed.

Lemma resume_same st i r p x : threads st !! i = Some x -> resume st i r p !! i = Some (r, p).
Proof. intros H. unfold resume. apply list_lookup_insert_eq. by eapply lookup_lt_Some. Qed.

(** What a request can do next tells where it is. *)
Lemma serial_next s fs st log cur i r p st' : serial s fs st log cur -> threads st !! i = Some (r, p) ->
  advance st i r p st' ->
  ((i ∉ acquired st) /\ p = synchronized (sigs s r) /\ Handler s r = sigs s r) \/
  (holder st = Some i /\ (i ∉ (log.*1)) /\ exists q, p = unlocking q /\ runs_to (Handler s r) cur q).
Proof.
  intros H Ht Ha. destruct (decide (i ∈ acquired st)) as [Hi|Hi].
  - right. rewrite (ser_order _ _ _ _ _ H), elem_of_app in Hi.
    pose proof (ser_nodup _ _ _ _ _ H) as Hn. rewrite (ser_order _ _ _ _ _ H) in Hn.
    apply NoDup_app in Hn as (_ & Hn & _). destruct Hi as [Hi|Hi].
    + apply list_elem_of_fmap in Hi as ([j tr] & -> & Hl).
      apply (ser_done _ _ _ _ _ H) in Hl as (r' & a & Ht' & _). cbn [fst] in *. rewrite Ht in Ht'.
      injection Ht' as -> ->. done.
    + pose proof (ser_current _ _ _ _ _ H) as Hc. destruct (holder st) as [j|]; cbn in Hi; [|by apply elem_of_nil in Hi].
      apply list_elem_of_singleton in Hi as ->. destruct Hc as (r' & q & Ht' & Hq). rewrite Ht in Ht'.
      injection Ht' as -> ->. split; [done|]. split; [|by exists q].
      intros Hj. apply (Hn _ Hj). by apply list_elem_of_singleton.
  - left. destruct (ser_outside _ _ _ _ _ H _ _ _ Ht Hi) as [(a & -> & _) | [-> ->]]; done.
Qed.

Lemma serial_lock s fs st log cur i r : serial s fs st log cur -> threads st !! i = Some (r, synchronized (sigs s r)) ->
  i ∉ acquired st -> Handler s r = sigs s r -> holder st = None ->
  serial s fs (MkSystem (disk st) (Some i) (resume st i r (unlocking (sigs s r))) (acquired st ++ [i]) (events st)) log [].
Proof.
  intros [H1 H2 H3 H4 H5 H6 H7] Ht Hi Hh Hn. rewrite Hn in *. cbn in H3. subst cur.
  rewrite app_nil_r in H3. split; cbn; try done.
  - by rewrite H3.
  - apply NoDup_app. split; [done|]. split; [|apply NoDup_singleton]. intros j Hj ->%list_elem_of_singleton. done.
  - intros j tr Hj. destruct (H5 j tr Hj) as (r' & a & Ht' & He). exists r', a. split; [|done].
    apply resume_other; [done|]. intros ->. apply Hi. rewrite H3. by apply (list_elem_of_fmap_2 fst) in Hj.
  - exists r, (sigs s r). split; [by eapply resume_same | done].
  - intros j r' p Ht' Hj. apply not_elem_of_app in Hj as [Hj Hne%not_elem_of_cons].
    eapply H7; [|done]. unfold resume in Ht'. by rewrite list_lookup_insert_ne in Ht' by naive_solver.
Qed.

(** A command of the critical section. *)
Lemma serial_use s fs st log cur i r c k x fs' : serial s fs st log cur ->
  threads st !! i = Some (r, unlocking (Do c k)) -> holder st = Some i -> i ∉ (log.*1) ->
  runs_to (Handler s r) cur (Do c k) -> fs_step (disk st) (existT c x) fs' ->
  serial s fs (MkSystem fs' (holder st) (resume st i r (unlocking (k x))) (acquired st) (events st ++ [existT c x]))
    log (cur ++ [existT c x]).
Proof.
  intros [[seen H1] H2 H3 H4 H5 H6 H7] Ht Hh Hi Hq Hs. split; cbn; try done.
  - exists (seen ++ [fs']). apply fs_run_app. exists seen, [fs'], (disk st). split_and!; [done..|]. by exists fs', [].
  - by rewrite H2, app_assoc.
  - intros j tr Hj. destruct (H5 j tr Hj) as (r' & a & Ht' & He). exists r', a. split; [|done].
    apply resume_other; [done|]. intros ->. apply Hi. by apply (list_elem_of_fmap_2 fst) in Hj.
  - rewrite Hh. exists r, (k x). split; [by eapply resume_same | by apply runs_to_snoc].
  - intros j r' p Ht' Hj. eapply H7; [|done]. unfold resume in Ht'. rewrite list_lookup_insert_ne in Ht'; [done|].
    intros ->. apply Hj. rewrite H3, Hh. apply elem_of_app. right. by apply list_elem_of_singleton.
Qed.

Lemma serial_unlock s fs st log cur i r a : serial s fs st log cur ->
  threads st !! i = Some (r, unlocking (Ret a)) -> holder st = Some i -> i ∉ (log.*1) ->
  runs_to (Handler s r) cur (Ret a) ->
  serial s fs (MkSystem (disk st) None (resume st i r (Ret a)) (acquired st) (events st)) (log ++ [(i, cur)]) [].
Proof.
  intros [H1 H2 H3 H4 H5 H6 H7] Ht Hh Hi Hq. split; cbn; try done.
  - rewrite fmap_app, H2. cbn. rewrite join_app. cbn. by rewrite !app_nil_r.
  - rewrite H3, Hh, fmap_app. cbn. by rewrite app_nil_r.
  - intros j tr [Hj | [= -> ->]%list_elem_of_singleton]%elem_of_app.
    + destruct (H5 j tr Hj) as (r' & a' & Ht' & He). exists r', a'. split; [|done].
      apply resume_other; [done|]. intros ->. apply Hi. by apply (list_elem_of_fmap_2 fst) in Hj.
    + exists r, a. split; [by eapply resume_same|]. rewrite <- (app_nil_r cur). by eapply runs_to_exec.
  - intros j r' p Ht' Hj. eapply H7; [|done]. unfold resume in Ht'. rewrite list_lookup_insert_ne in Ht'; [done|].
    intros ->. apply Hj. rewrite H3, Hh. apply elem_of_app. right. by apply list_elem_of_singleton.
Qed.

Lemma serial_step s fs st st' log cur : serial s fs st log cur -> step s st st' ->
  exists log' cur', serial s fs st' log' cur'.
Proof.
  intros H Hs. destruct Hs as [st r | st i r p st' Ht Ha].
  { exists log, cur. by apply serial_arrive. }
  destruct (serial_next _ _ _ _ _ _ _ _ _ H Ht Ha) as [(Hi & -> & Hh) | (Ho & Hi & q & -> & Hq)].
  - destruct Ha as [Hn ->]. exists log, []. by eapply serial_lock.
  - pose proof (unlocking_step q) as Hu. destruct q as [a|c k]; rewrite Hu in Ha.
    + destruct Ha as [_ ->]. eexists _, _. by eapply serial_unlock.
    + destruct Ha as (x & fs' & Hs & ->). eexists _, _. by eapply serial_use.
Qed.

Lemma reachable_serial s fs st : reachable s fs st -> exists log cur, serial s fs st log cur.
Proof.
  unfold reachable. intros H. remember (initial fs) as st0 eqn:E.
  assert (H0 : exists log cur, serial s fs st0 log cur) by (subst; eexists _, _; apply serial_initial).
  clear E. induction H as [st | st0 st1 st Hs _ IH]; [done|]. apply IH.
  destruct H0 as (log & cur & H0). by eapply serial_step.
Qed.

(** ** Progress *)
Definition answered (x : Request * prog lresp (outcome Response)) : bool :=
  match snd x with Ret _ => true | Do _ _ => false end.

(** Some answer that the file system can give. *)
Lemma disk_answers fs c : exists x fs', fs_step fs (existT c x) fs'.
Proof. eexists _, _. apply (sim_step no_net). Qed.

(** The holder of the mutex can go on to the end of its critical section. *)
Lemma holder_ends s st i r q : threads st !! i = Some (r, unlocking q) -> holder st = Some i ->
  exists st' a, rtc (step s) st st' /\ holder st' = None /\ threads st' = <[i := (r, Ret a)]> (threads st) /\
    acquired st' = acquired st.
Proof.
  revert st. induction q as [a | c k IH]; intros st Ht Hh.
  - exists (MkSystem (disk st) None (resume st i r (Ret a)) (acquired st) (events st)), a.
    split; [|done]. apply rtc_once. by eapply step_run.
  - destruct (disk_answers (disk st) c) as (x & fs' & Hs).
    set (st1 := MkSystem fs' (holder st) (resume st i r (unlocking (k x))) (acquired st) (events st ++ [existT c x])).
    destruct (IH x st1) as (st' & a & Hr & Hn & Hth & Ha); [by eapply resume_same | done|].
    exists st', a. split; [|split; [done|split; [|done]]].
    + eapply rtc_l; [|exact Hr]. eapply step_run; [exact Ht|]. by exists x, fs'.
    + rewrite Hth. cbn. unfold resume. by rewrite list_insert_insert_eq.
Qed.

Lemma one_answered {A} (l : list A) (P : A -> bool) i x y : l !! i = Some x -> P x = false -> P y = true ->
  length (filter (fun z => P z = false) l) = S (length (filter (fun z => P z = false) (<[i := y]> l))).
Proof.
  intros Hl Hx Hy. rewrite (insert_take_drop l i y) by (by eapply lookup_lt_Some).
  rewrite <- (take_drop_middle l i x Hl) at 1. rewrite !filter_app, !length_app, !filter_cons.
  rewrite decide_True, decide_False by (rewrite ?Hx, ?Hy; done). cbn. lia.
Qed.

Lemma all_answered_upto n s fs st : reachable s fs st -> holder st = None ->
  length (filter (fun x => answered x = false) (threads st)) = n ->
  exists st', rtc (step s) st st' /\ length (threads st') = length (threads st) /\
    forall x, x ∈ threads st' -> answered x = true.
Proof.
  revert st. induction n as [|n IH]; intros st Hr Hh Hn.
  - exists st. split; [done|]. split; [done|]. intros x Hx. destruct (answered x) eqn:E; [done|].
    exfalso. assert (Hin : x ∈ filter (fun x => answered x = false) (threads st)) by (by apply list_elem_of_filter).
    destruct (filter _ (threads st)); [by apply elem_of_nil in Hin | done].
  - assert (exists x, x ∈ threads st /\ answered x = false) as ([r p] & Hx & Hp).
    { destruct (filter _ (threads st)) as [|x l] eqn:E; [done|]. exists x.
      assert (Hin : x ∈ filter (fun x => answered x = false) (threads st)) by (rewrite E; by left).
      apply list_elem_of_filter in Hin as [? ?]. done. }
    apply list_elem_of_lookup in Hx as [i Ht]. destruct (reachable_serial _ _ _ Hr) as (log & cur & Hs).
    assert (Hi : i ∉ acquired st).
    { rewrite (ser_order _ _ _ _ _ Hs), Hh. cbn. rewrite app_nil_r.
      intros ([j tr] & -> & Hl)%list_elem_of_fmap. apply (ser_done _ _ _ _ _ Hs) in Hl as (r' & a & Ht' & _).
      cbn in *. rewrite Ht in Ht'. by simplify_eq. }
    destruct (ser_outside _ _ _ _ _ Hs _ _ _ Ht Hi) as [(a & -> & _) | [-> _]]; [done|].
    set (st1 := MkSystem (disk st) (Some i) (resume st i r (unlocking (sigs s r))) (acquired st ++ [i]) (events st)).
    assert (H1 : step s st st1) by (by eapply step_run; [exact Ht|]).
    destruct (holder_ends s st1 i r (sigs s r)) as (st2 & a & H2 & Hh2 & Ht2 & _); [by eapply resume_same | done|].
    assert (H3 : rtc (step s) st st2) by (by eapply rtc_l).
    cbn in Ht2. unfold resume in Ht2. rewrite list_insert_insert_eq in Ht2.
    destruct (IH st2) as (st' & Hst' & Hlen & Hall); [by eapply reachable_trans | done | |].
    + rewrite Ht2. by rewrite (one_answered _ _ i _ (r, Ret a) Ht) in Hn; [injection Hn | done | done].
    + exists st'. split; [by etrans|]. split; [|done]. by rewrite Hlen, Ht2, length_insert.
Qed.

Lemma all_answered s fs st : reachable s fs st ->
  exists st', rtc (step s) st st' /\ length (threads st') = length (threads st) /\
    forall x, x ∈ threads st' -> answered x = true.
Proof.
  intros Hr. destruct (holder st) as [i|] eqn:Hh; [|by eapply all_answered_upto].
  destruct (reachable_serial _ _ _ Hr) as (log & cur & Hs). pose proof (ser_current _ _ _ _ _ Hs) as Hc.
  rewrite Hh in Hc. destruct Hc as (r & q & Ht & _).
  destruct (holder_ends s st i r q Ht Hh) as (st1 & a & H1 & Hh1 & Ht1 & _).
  destruct (all_answered_upto _ s fs st1 ltac:(by eapply reachable_trans) Hh1 eq_refl) as (st' & H2 & Hlen & Hall).
  exists st'. split; [by etrans|]. split; [|done]. by rewrite Hlen, Ht1, length_insert.
Qed.
