(* ===== verification/RegistrarConcProps.v ===== *)
(** * Properties of concurrent requests

    Requests at the registrar take effect one after the other, in the order in
    which they take the mutex: the disk and the answers are those of that
    sequence, whatever the interleaving. *)
From S2P Require Import Prelude Effects GoStrings Netip Json JsonStrings JsonFacts.
From S2P Require Import Api K8s AgentEnv FileSystem Config Topology Server TopologyFacts TopologyProps ServerProps RegistrarConc.
Local Open Scope Z_scope.
Local Open Scope prog_scope.

(** ** The sequence of requests *)

(** The critical sections that are over, as a run of the server. *)
Lemma serve_log s (ths : list (Request * prog lresp (outcome Response))) log :
  (forall i tr, (i, tr) ∈ log -> exists r a, ths !! i = Some (r, Ret a) /\ exec (Handler s r) tr a) ->
  exists answers, Forall2 (fun i x => ths !! i = Some (fst x, Ret (snd x))) (log.*1) answers /\
    exec (serve s (answers.*1)) (mjoin (log.*2)) (answers.*2).
Proof.
  induction log as [|[i tr] log IH]; intros H.
  { exists []. split; [constructor | done]. }
  destruct IH as (answers & HF & He); [intros; eapply H; by right|].
  destruct (H i tr ltac:(by left)) as (r & a & Ht & Hr).
  exists ((r, a) :: answers). split; [by constructor|].
  cbn [fmap list_fmap fst snd serve]. apply exec_mbind. exists tr, (mjoin (log.*2)), a. split; [done|]. split; [done|].
  apply exec_mbind. exists (mjoin (log.*2)), [], (answers.*2). by rewrite app_nil_r.
Qed.

Lemma step_acquired s st st' : step s st st' -> acquired st `prefix_of` acquired st'.
Proof.
  intros [st0 r | st0 i r p st1 Ht Ha]; [done|]. destruct p as [a | c k]; [done|].
  destruct c; cbn in Ha; [destruct Ha as [_ ->]; by apply prefix_app_r | by destruct Ha as [_ ->] |].
  by destruct Ha as (x & fs & _ & ->).
Qed.

Lemma steps_acquired s st st' : rtc (step s) st st' -> acquired st `prefix_of` acquired st'.
Proof. induction 1 as [|? ? ? H%step_acquired]; [done|]. by etrans. Qed.

(** A program can always go on, and without creating a file. *)
Definition stalled : handler aresp fsys := fun c fs =>
  match c as c return aresp c * fsys with
  | CreateTemp _ _ => (Err (errorf [Lit "no space left on device"]), fs)
  | c => sim no_net c fs
  end.

Lemma stalled_step c fs : fs_step fs (existT c (fst (stalled c fs))) (snd (stalled c fs)).
Proof. destruct c; try apply (sim_step no_net). done. Qed.

Lemma stalled_temps {A} (p : agent A) fs : temps (trace_of aresp stalled p fs) = [].
Proof.
  unfold trace_of. revert fs. induction p as [a | c k IH]; intros fs; [done|]. cbn [run].
  destruct (stalled c fs) as [x fs'] eqn:E. specialize (IH x fs'). destruct (run stalled (k x) fs') as [[a w] tr].
  cbn [snd] in *. change (temps (existT c x :: tr)) with (temps ([existT c x] ++ tr)). rewrite temps_app, IH.
  destruct c; try done. cbn in E. by injection E as <- <-.
Qed.

(** What has happened so far, completed to a run of the server. *)
Lemma serial_completes s fs st log cur : serial s fs st log cur -> exists rs l rest seen seen' fs',
  exec (serve s rs) (events st ++ rest) l /\ fs_run fs (events st) seen (disk st) /\
  fs_run (disk st) rest seen' fs' /\ temps rest = [].
Proof.
  intros [[seen H1] H2 H3 H4 H5 H6 H7]. destruct (serve_log s _ log H5) as (answers & _ & He).
  destruct (holder st) as [i|].
  - destruct H6 as (r & q & Ht & Hq).
    destruct (handler_run stalled q (disk st) stalled_step) as [seen' Hr].
    pose proof (runs_to_exec _ _ _ _ _ Hq (run_exec aresp stalled q (disk st))) as Hx.
    exists (answers.*1 ++ [r]), (answers.*2 ++ [result_of aresp stalled q (disk st)]),
      (trace_of aresp stalled q (disk st)), seen, seen', (state_of aresp stalled q (disk st)).
    split_and!; [|done|done|apply stalled_temps].
    rewrite H2, <- app_assoc. clear -He Hx. revert He. generalize (mjoin (log.*2)) as tr.
    induction answers as [|[r' a'] answers IH]; intros tr He; cbn [fmap list_fmap fst snd serve app] in *.
    + exec_inv He. cbn [app]. apply exec_mbind. eexists _, [], _. split; [symmetry; apply app_nil_r|]. split; [exact Hx|]. done.
    + apply exec_mbind in He as (t1 & t2 & a & -> & Ha & He). apply exec_mbind in He as (t3 & t4 & l & -> & Hl & He).
      exec_inv He. injection He as <- <-. rewrite app_nil_r, <- app_assoc.
      apply exec_mbind. eexists t1, _, a'. split; [done|]. split; [done|].
      apply exec_mbind. eexists _, [], _. split; [symmetry; apply app_nil_r|]. split; [by apply IH|]. done.
  - subst cur. exists (answers.*1), (answers.*2), [], seen, [], (disk st).
    split_and!; [|done|done|done]. by rewrite H2, !app_nil_r.
Qed.

Lemma finished_log s fs st log cur : serial s fs st log cur -> finished st = log.*1.
Proof.
  intros H. unfold finished. rewrite (ser_order _ _ _ _ _ H). destruct (holder st); cbn; [apply removelast_last | apply app_nil_r].
Qed.

(** C3: However the requests interleave, they take effect one after the other: the
    answers given and the commands issued so far are those of the server
    handling, in the order in which they took the mutex, the requests that are
    through, followed by the beginning of at most one more; a request outside of
    this order was refused without touching anything.  The order only grows, so
    that it agrees with real time, and every request can still be answered. *)
Theorem requests_serialized s fs st : reachable s fs st ->
  (exists answers tr cur seen,
     Forall2 (fun i x => threads st !! i = Some (fst x, Ret (snd x))) (finished st) answers /\
     exec (serve s (answers.*1)) tr (answers.*2) /\
     events st = tr ++ cur /\ fs_run fs (tr ++ cur) seen (disk st) /\
     match holder st with
     | None => cur = []
     | Some i => exists r p rest a, threads st !! i = Some (r, p) /\ exec (Handler s r) (cur ++ rest) a
     end) /\
  (forall i r a, threads st !! i = Some (r, Ret a) -> i ∈ finished st \/ exec (Handler s r) [] a) /\
  NoDup (acquired st) /\
  (forall i, i ∈ acquired st -> (i < length (threads st))%nat) /\
  (forall st', rtc (step s) st st' -> acquired st `prefix_of` acquired st') /\
  (exists st', rtc (step s) st st' /\ length (threads st') = length (threads st) /\
     forall x, x ∈ threads st' -> answered x = true).
Proof.
  intros Hr. destruct (reachable_serial _ _ _ Hr) as (log & cur & H).
  pose proof H as [[seen H1] H2 H3 H4 H5 H6 H7]. rewrite (finished_log _ _ _ _ _ H). split_and!.
  - destruct (serve_log s _ log H5) as (answers & HF & He).
    exists answers, (mjoin (log.*2)), cur, seen. rewrite <- H2. split_and!; [done..|].
    destruct (holder st) as [i|]; [|done]. destruct H6 as (r & q & Ht & Hq).
    eexists r, _, _, _. split; [exact Ht|].
    exact (runs_to_exec _ _ _ _ _ Hq (run_exec aresp stalled q (disk st))).
  - intros i r a Ht. destruct (decide (i ∈ acquired st)) as [Hi|Hi].
    + rewrite H3, elem_of_app in Hi. destruct Hi as [Hi|Hi]; [by left|]. exfalso.
      destruct (holder st) as [j|]; cbn in Hi; [|by apply elem_of_nil in Hi].
      apply list_elem_of_singleton in Hi as ->. destruct H6 as (r' & q & Ht' & _). rewrite Ht in Ht'.
      pose proof (unlocking_step q) as Hu. destruct q; rewrite Hu in Ht'; done.
    + right. destruct (H7 _ _ _ Ht Hi) as [(a' & [= ->] & He) | [? _]]; done.
  - done.
  - intros i Hi. destruct (ser_started _ _ _ _ _ _ H Hi) as [x Hx]. by eapply lookup_lt_Some.
  - intros st'. apply steps_acquired.
  - by eapply all_answered.
Qed.

(** ** What is on disk *)

Lemma answered_no_panic f env s fs st log cur orig i r a : new_server f env = Ok s -> utf8 (f_prefix f) ->
  valid_topology orig (f_topology f) fs -> serial s fs st log cur -> f_topology f ∉ temps (events st) ->
  threads st !! i = Some (r, Ret a) -> a <> Panic.
Proof.
  intros Hs Hp Hv H Ht Hi. pose proof H as [[seen H1] H2 H3 H4 H5 H6 H7]. rewrite H2 in H1, Ht.
  apply fs_run_app in H1 as (s1 & s2 & fs1 & _ & Hr & _). rewrite temps_app, not_elem_of_app in Ht. destruct Ht as [Ht _].
  destruct (decide (i ∈ acquired st)) as [Hin|Hin].
  - destruct (serve_log s _ log H5) as (answers & HF & He).
    destruct (serve_keeps_topology orig _ _ _ _ _ _ _ _ _ Hs Hp He Hr Ht Hv) as [_ Hno]. intros ->. apply Hno.
    rewrite H3, elem_of_app in Hin. destruct Hin as [[k Hk]%list_elem_of_lookup | Hin].
    + destruct (Forall2_lookup_l _ _ _ _ _ HF Hk) as ([r' a'] & Ha & Hx). cbn in Hx. rewrite Hi in Hx. injection Hx as <- <-.
      apply list_elem_of_lookup. exists k. by rewrite list_lookup_fmap, Ha.
    + exfalso. destruct (holder st) as [j|]; cbn in Hin; [|by apply elem_of_nil in Hin].
      apply list_elem_of_singleton in Hin as ->. destruct H6 as (r' & q & Ht' & _). rewrite Hi in Ht'.
      pose proof (unlocking_step q) as Hq. destruct q; rewrite Hq in Ht'; done.
  - destruct (H7 _ _ _ Hi Hin) as [(a' & [= ->] & He) | [? _]].
    + refine (proj2 (request_keeps_topology orig f env s r fs [] a' [] fs Hs Hp He _ _ Hv)); [done | by intros ?%elem_of_nil].
    + done.
Qed.

(** C15: From a topology that is a JSON object whose [sigs], if present, is an
    object, and whatever requests arrive, authorised or not and well formed or
    not: at every point of every interleaving the topology file is either the
    document of the start or a complete JSON object whose [sigs] is present and an
    object; in particular it is never null, so that no request panics. *)
Theorem topology_always_valid f env s fs orig st : new_server f env = Ok s -> utf8 (f_prefix f) ->
  fs !! f_topology f = Some orig -> topology_doc orig -> reachable s fs st -> f_topology f ∉ temps (events st) ->
  (exists raw, disk st !! f_topology f = Some raw /\
     (raw = orig \/ exists t kvs, Unmarshal (decode_raw_map None) raw = Ok (Some t) /\ t !! "sigs" = Some (JObj kvs))) /\
  (forall i r a, threads st !! i = Some (r, Ret a) -> a <> Panic).
Proof.
  intros Hs Hp Horig Hdoc Hr Ht. assert (Hv : valid_topology orig (f_topology f) fs) by (exists orig; eauto).
  destruct (reachable_serial _ _ _ Hr) as (log & cur & H). split; [|intros; by eapply answered_no_panic].
  destruct (serial_completes _ _ _ _ _ H) as (rs & l & rest & seen & seen' & fs' & He & H1 & H2 & Hrest).
  assert (Hfin : valid_topology orig (f_topology f) (disk st)).
  { destruct (proj1 (elem_of_cons _ _ _) (fs_run_last _ _ _ _ H1)) as [->|Hin]; [done|].
    eapply (serve_keeps_topology orig f env s rs fs (events st ++ rest) l (seen ++ seen') fs'); [done..| | | |].
    - apply fs_run_app. by exists seen, seen', (disk st).
    - by rewrite temps_app, Hrest, app_nil_r.
    - done.
    - apply elem_of_app. by left. }
  destruct Hfin as (raw & ? & _ & ?). by exists raw.
Qed.

(** An answer that says that the topology was replaced. *)
Definition accepted (a : outcome Response) : Prop :=
  exists code b, a = Val (Answer code b) /\ (code = 204 \/ code = 502).

Ltac accepted_no := intros (? & ? & [=] & [|]); subst.

(** What a request does to the topology file. *)
Lemma request_effect f env s r fs tr a seen fs' : new_server f env = Ok s ->
  exec (Handler s r) tr a -> fs_run fs tr seen fs' -> f_topology f ∉ temps tr ->
  (fs' !! f_topology f = fs !! f_topology f /\ ~ accepted a) \/
  (exists desired raw out, decode_body (decode_sig_map reject_unknown None) r = Ok desired /\
     fs !! f_topology f = Some raw /\
     patched (f_topology f) (default ∅ desired) (f_prefix f) raw = Val (Ok out) /\
     fs' !! f_topology f = Some out /\ accepted a).
Proof.
  intros Hs He Hr Ht. destruct (new_server_ok _ _ _ Hs) as (Hf & Hpre & _ & _ & _ & Hl).
  assert (Hno : forall x, forallb quiet tr = true -> a = x -> ~ accepted x ->
    fs' !! f_topology f = fs !! f_topology f /\ ~ accepted a).
  { intros x Hq -> Hx. by destruct (fs_run_quiet _ _ _ _ Hq Hr) as [-> _]. }
  unfold Handler, auth in He. case_bool_decide; [|exec_inv He; left; eapply Hno; [done..| by accepted_no]].
  destruct (authorized s r); cbn [negb] in He; [|exec_inv He; left; eapply Hno; [done..| by accepted_no]].
  rewrite sigs_dispatch in He. destruct (decide (rq_Method r = "GET")).
  { left. destruct (getSigs_exec _ _ _ He) as [Hq _]. unfold getSigs in He.
    apply exec_mbind in He as (t1 & t2 & m & -> & _ & He).
    destruct m; exec_inv He; (eapply Hno; [exact Hq | exact He | by accepted_no]). }
  destruct (decide (rq_Method r = "PUT")); [|exec_inv He; left; eapply Hno; [done..| by accepted_no]].
  destruct (decode_body (decode_sig_map reject_unknown None) r) as [desired|err] eqn:Ed.
  2:{ destruct (putSigs_bad _ _ _ _ _ Ed He) as [-> Ha]. clear Ed He. left. eapply Hno; [done | exact Ha | by accepted_no]. }
  apply (putSigs_exec _ _ _ _ _ Ed) in He as (tr1 & tr2 & p & -> & Hpatch & He).
  rewrite Hf, Hpre in Hpatch. rewrite temps_app in Ht. apply not_elem_of_app in Ht as [Ht1 _].
  apply fs_run_app in Hr as (s1 & s2 & fs1 & -> & Hr1 & Hr2).
  destruct (PatchSigs_files _ _ _ _ _ _ _ _ Hpatch Hr1) as [_ Hfin].
  destruct p as [[u|err]| |]; cbn [success] in Hfin.
  { right. destruct He as (re & He & ->). rewrite Hl in He. apply reload_exec in He as (ans & -> & _).
    fs_steps Hr2. subst. destruct Hfin as (raw & out & Hraw & Hpat & Hag). exists desired, raw, out.
    rewrite Hag, lookup_insert_eq by done. split_and!; [done..|]. destruct re; eexists _, _; (split; [reflexivity|]); auto. }
  all: left; destruct He as [-> ->]; fs_steps Hr2; split; [by apply Hfin | by accepted_no].
Qed.

(** ** The set a [GET] returns *)

(** A patched document can be patched and read again. *)
Lemma patched_readable topoFile desired prefix raw out : utf8 prefix -> utf8_sigs desired ->
  readable prefix raw -> patched topoFile desired prefix raw = Val (Ok out) -> readable prefix out.
Proof.
  intros Hp Hd Hread (t & sg & sg' & Hu & He & Hm & ->)%patched_ok. destruct (Hread t sg Hu He) as [Hone Hgood].
  pose proof (Unmarshal_read _ _ Hu) as Ht. pose proof (existing_read _ _ Ht He) as Hs. cbn in Ht.
  destruct (patched_map_read _ _ _ _ Hp Hd Hs Hm) as (Hs' & Hkeep & _).
  assert (Hnew : read_map 1 (<["sigs" := json_of_raw sg']> t)).
  { apply read_map_insert; [done | by apply utf8_ascii |]. by apply json_of_raw_wf; [exact depth1|]. }
  intros t2 sg2. rewrite (read_topology_text _ Hnew). intros [= <-].
  rewrite (existing_topology_text sg' t) by done. intros [= <-]. split.
  - intros k. rewrite lookup_fmap. intros [v Hv] Hk. rewrite lookup_insert_ne in Hv by done.
    apply Hone; [|done]. destruct (t !! k); [by eexists | done].
  - intros k v Hv Hk. destruct sg' as [m|]; cbn in Hv; [|by rewrite lookup_empty in Hv].
    rewrite lookup_fmap in Hv. apply fmap_Some in Hv as (w & Hw & ->). cbn in Hkeep, Hs'.
    destruct (Hs' _ _ Hw) as [_ Hwf]. rewrite !(decode_SIG_escape _ _ 2) by auto using wf_escape.
    apply (Hgood k); [|done]. by rewrite <- Hkeep.
Qed.

(** The critical section of an answered request. *)
Lemma log_at s fs st log cur k i r a : serial s fs st log cur -> acquired st !! k = Some i ->
  threads st !! i = Some (r, Ret a) -> exists tr, log !! k = Some (i, tr) /\ exec (Handler s r) tr a.
Proof.
  intros H Hk Ht. rewrite (ser_order _ _ _ _ _ H) in Hk. apply lookup_app_Some in Hk as [Hk | [_ Hk]].
  - rewrite list_lookup_fmap in Hk. apply fmap_Some in Hk as ([j tr] & Hl & ->). exists tr. split; [done|].
    destruct (ser_done _ _ _ _ _ H j tr (list_elem_of_lookup_2 _ _ _ Hl)) as (r' & a' & Ht' & He).
    cbn in Ht. rewrite Ht in Ht'. by injection Ht' as -> ->.
  - exfalso. pose proof (ser_current _ _ _ _ _ H) as Hc. destruct (holder st) as [j|]; cbn in Hk; [|done].
    apply list_lookup_singleton_Some in Hk as [_ ->]. destruct Hc as (r' & q & Ht' & _). rewrite Ht in Ht'.
    pose proof (unlocking_step q) as Hu. destruct q; rewrite Hu in Ht'; done.
Qed.

(** A stretch of the sequence. *)
Section Stretch.
Context (f : Flags) (env : environ) (s : Server) (Hs : new_server f env = Ok s).
Context (ths : list (Request * prog lresp (outcome Response))).

Definition served (x : nat * list (event aresp)) : Prop :=
  exists r a, ths !! fst x = Some (r, Ret a) /\ exec (Handler s r) (snd x) a.

Definition readable_on (fs : fsys) : Prop := exists raw, fs !! f_topology f = Some raw /\ readable (f_prefix f) raw.

Lemma stretch_readable L fs seen fs' : utf8 (f_prefix f) -> Forall served L -> fs_run fs (mjoin (L.*2)) seen fs' ->
  f_topology f ∉ temps (mjoin (L.*2)) -> readable_on fs -> readable_on fs'.
Proof.
  intros Hp HL. revert fs seen. induction HL as [|[i tr] L (r & a & _ & He) _ IH]; intros fs seen Hr Ht Hread.
  { fs_steps Hr. done. }
  change (mjoin (((i, tr) :: L).*2)) with (tr ++ mjoin (L.*2)) in *.
  apply fs_run_app in Hr as (s1 & s2 & fs1 & -> & Hr1 & Hr2). rewrite temps_app in Ht. apply not_elem_of_app in Ht as [Ht1 Ht2].
  eapply IH; [exact Hr2 | done |]. destruct Hread as (raw & Hraw & Hread).
  destruct (request_effect _ _ _ _ _ _ _ _ _ Hs He Hr1 Ht1) as [[Hsame _] | (desired & raw' & out & Hd & Hraw' & Hpat & Hout & _)].
  - exists raw. by rewrite Hsame.
  - exists out. split; [done|]. rewrite Hraw in Hraw'. injection Hraw' as <-.
    eapply patched_readable; [done | by eapply decode_body_utf8 | done..].
Qed.

Lemma stretch_same L fs seen fs' : Forall served L ->
  (forall x r a, x ∈ L -> ths !! fst x = Some (r, Ret a) -> ~ accepted a) ->
  fs_run fs (mjoin (L.*2)) seen fs' -> f_topology f ∉ temps (mjoin (L.*2)) ->
  fs' !! f_topology f = fs !! f_topology f.
Proof.
  intros HL. revert fs seen. induction HL as [|[i tr] L (r & a & Hth & He) _ IH]; intros fs seen Hno Hr Ht.
  { fs_steps Hr. done. }
  change (mjoin (((i, tr) :: L).*2)) with (tr ++ mjoin (L.*2)) in *.
  apply fs_run_app in Hr as (s1 & s2 & fs1 & -> & Hr1 & Hr2). rewrite temps_app in Ht. apply not_elem_of_app in Ht as [Ht1 Ht2].
  rewrite (IH fs1 s2); [|intros; eapply Hno; [by right | done] | done..].
  destruct (request_effect _ _ _ _ _ _ _ _ _ Hs He Hr1 Ht1) as [[Hsame _] | (? & ? & ? & _ & _ & _ & _ & Ha)]; [done|].
  by destruct (Hno (i, tr) r a (list_elem_of_here _ _) Hth).
Qed.
End Stretch.

(** A [GET] on a disk with a patched topology. *)
Lemma get_reads f env s get desired raw out fs tr a seen fs' : new_server f env = Ok s -> request_for "GET" s get ->
  utf8 (f_prefix f) -> utf8_sigs desired -> readable (f_prefix f) raw ->
  patched (f_topology f) desired (f_prefix f) raw = Val (Ok out) -> fs !! f_topology f = Some out ->
  exec (Handler s get) tr a -> fs_run fs tr seen fs' ->
  (exists err, tr = [existT (ReadFile (f_topology f)) (Err err)] /\ a = Val (http_error [Lit "reading topology"] 500)) \/
  a = Val (Answer 200 [Lit (sigs_text desired)]).
Proof.
  intros Hs Hget Hp Hu Hread Hpat Hout He%get_exec Hr; [|done].
  destruct (patched_managed _ _ _ _ _ Hp Hu Hread Hpat) as (m & Hm & Hall).
  destruct (new_server_ok _ _ _ Hs) as (Hf & Hpre & _).
  destruct (getSigs_exec _ _ _ He) as [_ (c & tr' & -> & H)]. rewrite Hf in *. destruct c as [raw'|err].
  - right. cbn in Hr. destruct Hr as (f1 & s2 & [-> Hread'] & _). rewrite Hout in Hread'. injection Hread' as <-.
    destruct (H m Hm) as (l & Hl & ->). by rewrite Hpre, (Hall l Hl).
  - left. exists err. by destruct H as [-> ->].
Qed.

(** What comes before the critical section of a request: the critical sections of
    the requests before it. *)
Lemma log_prefix s fs st log cur k j tr : serial s fs st log cur -> log !! k = Some (j, tr) ->
  exists answers pre post,
    Forall2 (fun i x => threads st !! i = Some (fst x, Ret (snd x))) (take k (acquired st)) answers /\
    exec (serve s (answers.*1)) pre (answers.*2) /\ events st = pre ++ tr ++ post.
Proof.
  intros H Hk. destruct (serve_log s (threads st) (take k log)) as (answers & HF & He).
  { intros i t (m & Hm%list_elem_of_lookup_2 & _)%elem_of_take. by apply (ser_done _ _ _ _ _ H). }
  exists answers, (mjoin ((take k log).*2)), (mjoin ((drop (S k) log).*2) ++ cur). split; [|split; [done|]].
  - rewrite (ser_order _ _ _ _ _ H), take_app_le, <- fmap_take; [done|].
    rewrite length_fmap. apply lookup_lt_Some in Hk. lia.
  - rewrite (ser_events _ _ _ _ _ H). rewrite <- (take_drop_middle log _ _ Hk) at 1.
    rewrite fmap_app, join_app. cbn. by rewrite <- !app_assoc.
Qed.

(** The events around two critical sections. *)
Lemma log_two log k k' x y : log !! k = Some x -> log !! k' = Some y -> (k < k')%nat ->
  exists (L1 L2 L3 : list (nat * list (event aresp))), log = L1 ++ x :: L2 ++ y :: L3 /\
    forall m z, L2 !! m = Some z -> log !! (k + S m)%nat = Some z /\ (k < k + S m < k')%nat.
Proof.
  intros Hx Hy Hk. set (d := drop (S k) log).
  assert (Hd : d !! (k' - S k)%nat = Some y) by (unfold d; rewrite lookup_drop; by replace (S k + (k' - S k))%nat with k' by lia).
  exists (take k log), (take (k' - S k) d), (drop (S (k' - S k)) d). split.
  - rewrite (take_drop_middle d _ _ Hd). unfold d. by rewrite (take_drop_middle log _ _ Hx).
  - intros m z Hz. apply lookup_take_Some in Hz as [Hz Hm]. unfold d in Hz. rewrite lookup_drop in Hz.
    replace (k + S m)%nat with (S k + m)%nat by lia. split; [done | lia].
Qed.

Lemma log_two_events (L1 L2 L3 : list (nat * list (event aresp))) i t1 j t2 cur :
  mjoin ((L1 ++ (i, t1) :: L2 ++ (j, t2) :: L3).*2) ++ cur
  = mjoin (L1.*2) ++ t1 ++ mjoin (L2.*2) ++ t2 ++ mjoin (L3.*2) ++ cur.
Proof. rewrite fmap_app, join_app. cbn. rewrite fmap_app, join_app. cbn. by rewrite <- !app_assoc. Qed.

(** C10: The topology at the start holds gateways that are gateways and no second
    member that the decoder would take for [sigs].  Then, in the order in which
    the requests took the mutex, and whatever else was in flight, a [GET] returns
    exactly the set of the last accepted [PUT] before it; it answers 500 instead
    only when its own read of the topology, at its place in that order, failed.
    So concurrent [PUT]s never mix: the last one wins wholesale.  The text decodes
    to the set, and as long as it is within the 1 MiB that the registrar reads it
    is accepted as the body of a [PUT], for that very set. *)
Theorem get_returns_last_put f env s fs raw st k k' i j put get a desired a' :
  new_server f env = Ok s -> utf8 (f_prefix f) -> fs !! f_topology f = Some raw -> readable (f_prefix f) raw ->
  reachable s fs st -> f_topology f ∉ temps (events st) ->
  acquired st !! k = Some i -> threads st !! i = Some (put, Ret a) -> accepted a ->
  decode_body (decode_sig_map reject_unknown None) put = Ok desired ->
  acquired st !! k' = Some j -> threads st !! j = Some (get, Ret a') -> request_for "GET" s get -> (k < k')%nat ->
  (forall m l r b, (k < m < k')%nat -> acquired st !! m = Some l -> threads st !! l = Some (r, Ret b) -> ~ accepted b) ->
  (exists answers pre err post,
     Forall2 (fun i x => threads st !! i = Some (fst x, Ret (snd x))) (take k' (acquired st)) answers /\
     exec (serve s (answers.*1)) pre (answers.*2) /\
     events st = pre ++ existT (ReadFile (f_topology f)) (Err err) :: post /\
     a' = Val (http_error [Lit "reading topology"] 500)) \/
  (let text := sigs_text (default ∅ desired) in
   a' = Val (Answer 200 [Lit text]) /\
   Unmarshal (decode_sig_map reject_unknown None) text = Ok (Some (default ∅ desired)) /\
   forall r, rq_Body r = text -> rq_Err r = None -> (String.length text <= maxBodyBytes)%nat ->
     decode_body (decode_sig_map reject_unknown None) r = Ok (Some (default ∅ desired))).
Proof.
  intros Hs Hp Hraw Hread Hr Ht Hk Hi Ha Hd Hk' Hj Hget Hlt Hbetween.
  destruct (reachable_serial _ _ _ Hr) as (log & cur & H). pose proof (decode_body_utf8 _ _ Hd) as Hu.
  destruct (log_at _ _ _ _ _ _ _ _ _ H Hk Hi) as (t1 & Hl1 & He1).
  destruct (log_at _ _ _ _ _ _ _ _ _ H Hk' Hj) as (t2 & Hl2 & He2).
  destruct (log_prefix _ _ _ _ _ _ _ _ H Hl2) as (answers & pre & post & HF & Hpre & Hpost).
  destruct (log_two _ _ _ _ _ Hl1 Hl2 Hlt) as (L1 & L2 & L3 & HL & Hin).
  assert (Hserved : Forall (served s (threads st)) log).
  { apply Forall_forall. intros [l tr] Hl. by apply (ser_done _ _ _ _ _ H) in Hl. }
  destruct (ser_run _ _ _ _ _ H) as [seen Hrun]. pose proof (ser_events _ _ _ _ _ H) as Hev.
  rewrite HL in Hserved. rewrite HL, log_two_events in Hev. rewrite Hev in Hrun, Ht.
  apply Forall_app in Hserved as [Hs1 [_ [Hs2 _]%Forall_app]%Forall_cons].
  rewrite !temps_app, !not_elem_of_app in Ht. destruct Ht as (Ht1 & Ht2 & Ht3 & _).
  apply fs_run_app in Hrun as (? & ? & f1 & _ & R1 & (? & ? & f2 & _ & R2 & (s3 & ? & f3 & _ & R3 & (? & ? & f4 & _ & R4 & _)%fs_run_app)%fs_run_app)%fs_run_app).
  destruct (stretch_readable f env s Hs _ _ _ _ _ Hp Hs1 R1 Ht1) as (raw1 & Hraw1 & Hread1); [by exists raw|].
  destruct (request_effect _ _ _ _ _ _ _ _ _ Hs He1 R2 Ht2) as [[_ Hn] | (d & raw' & out & Hd' & Hraw' & Hpat & Hout & _)]; [done|].
  rewrite Hd in Hd'. injection Hd' as <-. rewrite Hraw1 in Hraw'. injection Hraw' as <-.
  rewrite <- (stretch_same f env s Hs (threads st) L2 f2 s3 f3 Hs2) in Hout; [|  |done|done].
  - destruct (get_reads _ _ _ _ _ _ _ _ _ _ _ _ Hs Hget Hp Hu Hread1 Hpat Hout He2 R4) as [(err & -> & ->) | ->].
    + left. by exists answers, pre, err, post.
    + right. split; [done|]. split; [by apply sigs_text_decodes|].
      intros r Hb He Hlen. apply decode_sigs_text; [done..|]. by rewrite Hb.
  - intros y r b [m Hm]%list_elem_of_lookup Hx. destruct (Hin m y Hm) as [Hlog Hrange].
    eapply Hbetween; [exact Hrange | | exact Hx].
    rewrite (ser_order _ _ _ _ _ H). apply lookup_app_l_Some. by rewrite list_lookup_fmap, Hlog.
Qed.

(** ** A schedule *)
Inductive move := Arrive (r : Request) | Run (i : nat).

(** The move on a disk that behaves like [sim]; [None] when it is not possible. *)
Definition move_to (s : Server) (st : system) (m : move) : option system :=
  match m with
  | Arrive r =>
      Some (MkSystem (disk st) (holder st) (threads st ++ [(r, locked_Handler s r)]) (acquired st) (events st))
  | Run i =>
      '(r, p) ← threads st !! i;
      match p with
      | Ret _ => None
      | Do c k =>
          match c as c return (lresp c -> prog lresp (outcome Response)) -> option system with
          | Lock => fun k =>
              if bool_decide (holder st = None)
              then Some (MkSystem (disk st) (Some i) (resume st i r (k tt)) (acquired st ++ [i]) (events st)) else None
          | Unlock => fun k =>
              if bool_decide (holder st = Some i)
              then Some (MkSystem (disk st) None (resume st i r (k tt)) (acquired st) (events st)) else None
          | Use c => fun k =>
              let '(x, fs) := sim no_net c (disk st) in
              Some (MkSystem fs (holder st) (resume st i r (k x)) (acquired st) (events st ++ [existT c x]))
          end k
      end
  end.

Fixpoint play (s : Server) (st : system) (ms : list move) : option system :=
  match ms with
  | [] => Some st
  | m :: ms' => st' ← move_to s st m; play s st' ms'
  end.

Lemma move_step s st m st' : move_to s st m = Some st' -> step s st st'.
Proof.
  destruct m as [r|i]; cbn; [intros [= <-]; constructor|].
  destruct (threads st !! i) as [[r p]|] eqn:Ht; [|done]. cbn. intros H. eapply step_run; [exact Ht|].
  destruct p as [a | c k]; [done|]. destruct c; cbn.
  - case_bool_decide; [|done]. by injection H as <-.
  - case_bool_decide; [|done]. by injection H as <-.
  - pose proof (sim_step no_net c (disk st)) as Hs. destruct (sim no_net c (disk st)) as [x fs]. injection H as <-.
    by exists x, fs.
Qed.

Lemma registrar_play_reachable s fs ms st : play s (initial fs) ms = Some st -> reachable s fs st.
Proof.
  unfold reachable. generalize (initial fs). induction ms as [|m ms IH]; intros st0; cbn; [by intros [= ->]|].
  destruct (move_to s st0 m) as [st1|] eqn:E; [|done]. cbn. intros H. eapply rtc_l; [by eapply move_step | by apply IH].
Qed.

(** A [GET], an unauthorised request and a second [PUT] arrive while a [PUT] is
    inside; they go on when it is through. *)
Definition sample_other : Request := MkRequest "PUT" "/v1/sigs" "Bearer guess" "{}" None.
Definition sample_moves : list move :=
  [Arrive sample_put; Run 0; Run 0; Arrive sample_get; Arrive sample_other; Run 0; Run 0; Arrive sample_put]
  ++ replicate 9 (Run 0) ++ replicate 4 (Run 1) ++ [Run 3; Run 3].

Definition sample_system : system := default (initial sample_disk) (play sample_server (initial sample_disk) sample_moves).

Lemma sample_system_reachable : reachable sample_server sample_disk sample_system.
Proof.
  apply (registrar_play_reachable _ _ sample_moves). unfold sample_system.
  assert (H : match play sample_server (initial sample_disk) sample_moves with Some _ => true | None => false end = true)
    by (vm_compute; reflexivity).
  by destruct (play _ _ _).
Qed.

Lemma sample_system_temps : "/etc/scion/topology.json" ∉ temps (events sample_system).
Proof.
  replace (temps _) with ["/etc/scion.topology-*.json"] by (vm_compute; reflexivity).
  by intros H%list_elem_of_singleton.
Qed.

Lemma requests_serialized_witness : finished sample_system = [0; 1]%nat /\
  exists answers tr cur seen,
    Forall2 (fun i x => threads sample_system !! i = Some (fst x, Ret (snd x))) [0; 1]%nat answers /\
    exec (serve sample_server (answers.*1)) tr (answers.*2) /\
    fs_run sample_disk (tr ++ cur) seen (disk sample_system).
Proof.
  assert (Hf : finished sample_system = [0; 1]%nat) by (vm_compute; reflexivity). split; [exact Hf|].
  destruct (requests_serialized _ _ _ sample_system_reachable) as [(answers & tr & cur & seen & H1 & H2 & _ & H3 & _) _].
  rewrite Hf in H1. exists answers, tr, cur, seen. split; [exact H1|]. split; [exact H2 | exact H3].
Defined.

Lemma sample_topology_doc : topology_doc sample_topology.
Proof. eexists. split; [exact sample_read|]. right. eexists. vm_compute. reflexivity. Qed.

Lemma topology_always_valid_witness : exists raw t kvs,
  disk sample_system !! "/etc/scion/topology.json" = Some raw /\ raw <> sample_topology /\
  Unmarshal (decode_raw_map None) raw = Ok (Some t) /\ t !! "sigs" = Some (JObj kvs).
Proof.
  destruct (topology_always_valid default_flags sample_env sample_server sample_disk sample_topology sample_system
    sample_new_server) as [(raw & Hraw & Hdoc) _].
  - by apply utf8_ascii.
  - apply lookup_singleton_eq.
  - exact sample_topology_doc.
  - exact sample_system_reachable.
  - exact sample_system_temps.
  - assert (Hnew : raw <> sample_topology).
    { intros ->. assert (Hb : bool_decide (disk sample_system !! "/etc/scion/topology.json" = Some sample_topology) = false)
        by (vm_compute; reflexivity). exact (bool_decide_eq_false_1 _ Hb Hraw). }
    destruct Hdoc as [Hsame | (t & kvs & Hu & Ht)]; [destruct (Hnew Hsame)|]. exists raw, t, kvs. auto.
Defined.

Lemma get_returns_last_put_witness : exists a,
  threads sample_system !! 1%nat = Some (sample_get, Ret a) /\
  a = Val (Answer 200 [Lit (sigs_text sample_desired)]).
Proof.
  eexists. split; [vm_compute; reflexivity|].
  destruct (get_returns_last_put default_flags sample_env sample_server sample_disk sample_topology sample_system
    0 1 0 1 sample_put sample_get (Val (Answer 204 [])) (Some sample_desired)
    (Val (Answer 200 [Lit (sigs_text sample_desired)])) sample_new_server) as [(answers & pre & err & post & _ & _ & _ & Ha) | (Ha & _)].
  - by apply utf8_ascii.
  - apply lookup_singleton_eq.
  - exact sample_readable.
  - exact sample_system_reachable.
  - exact sample_system_temps.
  - vm_compute. reflexivity.
  - vm_compute. reflexivity.
  - exists 204, []. auto.
  - exact sample_put_decodes.
  - vm_compute. reflexivity.
  - vm_compute. reflexivity.
  - exact sample_get_for.
  - lia.
  - intros m l r b Hm. lia.
  - discriminate Ha.
  - vm_compute. reflexivity.
Defined.
