(* ===== verification/Policy.v ===== *)
(** * [internal/agent/policy]: the SIG routing and traffic policies

    [RenderRoutingPolicy], [RenderTrafficPolicy] and what they are built from:
    the input check [prepare], the guardrail [ValidateNoOverlap] and the CIDR
    subtraction [subtractCIDRs] by recursive halving. *)
From S2P Require Import Prelude GoStrings Netip NetipFacts Json.
Local Open Scope Z_scope.
Local Open Scope go_scope.

Record Input := MkInput {
  LocalIA : string;
  AdvertisedNets : list string;
  AcceptISDASes : list string;
  ForbiddenCIDRs : list string
}.

(** The base address of the upper half of a prefix: bit [p.Bits()], counted
    from the most significant one, is set in the byte array.  [Panic] is the
    run-time panic of [As4] or of the array index. *)
Definition upperHalfAddr (p : Prefix) : outcome Addr :=
  match As4 (paddr p) with
  | None => Panic
  | Some a4 =>
      let bit := pbits p in
      let i := Z.to_nat (Z.quot bit 8) in
      match a4 !! i with
      | None => Panic
      | Some x => Val (AddrFrom4 (<[i := Z.lor x (Z.shiftl 1 (7 - Z.rem bit 8) mod 256)]> a4))
      end
  end.

(** The loop over the excludes in [walk]: [None] when one of them covers all
    of [p], otherwise whether one overlaps it. *)
Fixpoint scan_excludes (ex : list Prefix) (p : Prefix) (overlap : bool) : option bool :=
  match ex with
  | [] => Some overlap
  | e :: ex' =>
      if (pbits e <=? pbits p) && Contains e (paddr p) then None
      else scan_excludes ex' p (if Overlaps p e then true else overlap)
  end.

Fixpoint walk (fuel : nat) (ex : list Prefix) (p : Prefix) (out : list string)
    : outcome (list string) :=
  match fuel with
  | O => NoFuel
  | S f =>
      match scan_excludes ex p false with
      | None => Val out
      | Some overlap =>
          if negb overlap then Val (out ++ [Prefix_String p])
          else if 32 <=? pbits p then Val out
          else
            out' ← walk f ex (PrefixFrom (paddr p) (pbits p + 1)) out;
            u ← upperHalfAddr p;
            walk f ex (PrefixFrom u (pbits p + 1)) out'
      end
  end.

Definition parse_exclude (e : string) : result Prefix :=
  match ParsePrefix e with
  | Err err => Err (wrapf [Lit "parsing exclude "; Quo e; Lit ": "] err)
  | Ok p => if negb (Is4 (paddr p))
            then Err (errorf [Lit "exclude "; Lit e; Lit ": only IPv4 is supported"])
            else Ok (Masked p)
  end.

(** One level of recursion per prefix bit: 33 levels are all there can be. *)
Definition walk_fuel : nat := 33.

Definition subtractCIDRs (base : string) (excludes : list string) : go (list string) :=
  match ParsePrefix base with
  | Err err => Val (Err (wrapf [Lit "parsing base "; Quo base; Lit ": "] err))
  | Ok b =>
      if negb (Is4 (paddr b))
      then Val (Err (errorf [Lit "base "; Lit base; Lit ": only IPv4 is supported"]))
      else
        let b := Masked b in
        ex <~ Val (mapM parse_exclude excludes);
        out ← walk walk_fuel ex b [];
        Val (Ok (sort_strings out))
  end.

Definition parse_forbidden (f : string) : result Prefix :=
  result_map_err (wrapf [Lit "parsing forbidden CIDR "; Quo f; Lit ": "]) (ParsePrefix f).

(** The inner loop of [ValidateNoOverlap]. *)
Fixpoint check_overlap (n : string) (p : Prefix) (fps : list Prefix) : option gerror :=
  match fps with
  | [] => None
  | fp :: fps' =>
      if Overlaps p fp
      then Some (errorf [Lit "prefix "; Lit n; Lit " overlaps forbidden CIDR ";
                         Lit (Prefix_String fp)])
      else check_overlap n p fps'
  end.

Fixpoint check_nets (nets : list string) (fps : list Prefix) : option gerror :=
  match nets with
  | [] => None
  | n :: nets' =>
      match ParsePrefix n with
      | Err err => Some (wrapf [Lit "parsing prefix "; Quo n; Lit ": "] err)
      | Ok p =>
          if pbits p =? 0
          then Some (errorf [Lit "prefix "; Lit n; Lit " is a default route"])
          else match check_overlap n p fps with
               | Some err => Some err
               | None => check_nets nets' fps
               end
      end
  end.

Definition ValidateNoOverlap (nets forbidden : list string) : option gerror :=
  match mapM parse_forbidden forbidden with
  | Err err => Some err
  | Ok fps => check_nets nets fps
  end.

Definition prepare (inp : Input) : go (list string) :=
  if bool_decide (LocalIA inp = "")
  then Val (Err (errorf [Lit "local IA must not be empty"]))
  else if bool_decide (AcceptISDASes inp = [])
  then Val (Err (errorf [Lit "no remote ISD-ASes to exchange prefixes with"]))
  else
    accepted <~ go_map_err (wrapf [Lit "computing accepted prefixes: "])
                  (subtractCIDRs "0.0.0.0/0" (ForbiddenCIDRs inp));
    match ValidateNoOverlap accepted (ForbiddenCIDRs inp) with
    | Some err => Val (Err (wrapf [Lit "guardrail violated: "] err))
    | None => Val (Ok accepted)
    end.

Definition advertise_line (inp : Input) (remote net : string) : string :=
  "advertise " +:+ LocalIA inp +:+ " " +:+ remote +:+ " " +:+ net +:+ newline.

Definition accept_line (inp : Input) (accepted : list string) (remote : string) : string :=
  "accept " +:+ remote +:+ " " +:+ LocalIA inp +:+ " " +:+ Join accepted "," +:+ newline.

(** The string builder: [b] is what was written so far. *)
Fixpoint write_advertise (inp : Input) (remote : string) (nets : list string) (b : string)
    : string :=
  match nets with
  | [] => b
  | net :: nets' => write_advertise inp remote nets' (b +:+ advertise_line inp remote net)
  end.

Fixpoint write_remotes (inp : Input) (accepted remotes : list string) (b : string) : string :=
  match remotes with
  | [] => b
  | remote :: remotes' =>
      write_remotes inp accepted remotes'
        (write_advertise inp remote (AdvertisedNets inp) b +:+ accept_line inp accepted remote)
  end.

Definition RenderRoutingPolicy (inp : Input) : go string :=
  accepted <~ prepare inp;
  Val (Ok (write_remotes inp accepted (AcceptISDASes inp) "")).

Record trafficPolicyAS := MkAS { Nets : list string }.

Record trafficPolicyDoc := MkDoc {
  ASes : gmap string trafficPolicyAS;
  ConfigVersion : Z
}.

Definition json_of_AS (a : trafficPolicyAS) : json :=
  JObj [(quote "Nets", JArr (map (fun n => JStr (quote n)) (Nets a)))].

Definition json_of_doc (d : trafficPolicyDoc) : json :=
  JObj [(quote "ASes", JObj (map (fun '(k, a) => (quote k, json_of_AS a))
                                 (sorted_entries (ASes d))));
        (quote "ConfigVersion", JNum (itoa (ConfigVersion d)))].

Definition traffic_doc (inp : Input) : trafficPolicyDoc :=
  MkDoc (foldl (fun m remote => <[remote := MkAS []]> m) ∅ (AcceptISDASes inp)) 1.

Definition RenderTrafficPolicy (inp : Input) : go string :=
  _ <~ prepare inp;
  Val (Ok (MarshalIndent "    " (json_of_doc (traffic_doc inp)) +:+ newline)).
