(* ===== verification/PolicyFacts.v ===== *)
(** * The policy engine is exact, minimal, total and fail-closed *)
From S2P Require Import Prelude GoStrings Netip NetipFacts Json Policy.
Local Open Scope Z_scope.

(** ** [upperHalfAddr] *)
Lemma lor_add x y : Z.land x y = 0 -> Z.lor x y = x + y.
Proof.
  intros H. rewrite Z.add_nocarry_lxor by done. symmetry. by apply Z.lxor_lor.
Qed.

Lemma land_high_low q n x : 0 <= n -> 0 <= x < 2 ^ n -> Z.land (q * 2 ^ n) x = 0.
Proof.
  intros Hn Hx. apply Z.bits_inj'. intros i Hi. rewrite Z.land_spec, Z.bits_0.
  destruct (decide (i < n)).
  - by rewrite Z.mul_pow2_bits_low.
  - rewrite <- (Z.mod_small x (2 ^ n)), Z.mod_pow2_bits_high by lia. apply andb_false_r.
Qed.

Lemma set_bit_value x k : 0 <= k <= 7 -> x mod 2 ^ (k + 1) = 0 ->
  Z.lor x (Z.shiftl 1 k mod 256) = x + 2 ^ k.
Proof.
  intros Hk [q ->]%Z.mod_divide; [|pose proof (Z_pow2_pos (k + 1)); lia].
  assert (2 ^ k < 2 ^ (k + 1)) by (apply Z.pow_lt_mono_r; lia).
  pose proof (Z_pow2_pos k).
  assert (Z.shiftl 1 k mod 256 = 2 ^ k) as ->.
  { rewrite Z.shiftl_1_l. apply Z.mod_small. split; [lia|].
    change 256 with (2 ^ 8). apply Z.pow_lt_mono_r; lia. }
  apply lor_add, land_high_low; lia.
Qed.

(** An aligned address has no bit set below its prefix length, byte by byte. *)
Lemma byte_of_aligned v i k : 0 <= v < 2 ^ 32 -> 0 <= i <= 3 -> 0 <= k <= 7 ->
  v mod 2 ^ (32 - (8 * i + k)) = 0 -> byte_of v i mod 2 ^ (7 - k + 1) = 0.
Proof.
  intros Hv Hi Hk Hm. rewrite byte_of_div by lia.
  replace (32 - (8 * i + k)) with ((7 - k + 1) + (24 - 8 * i)) in Hm by lia.
  rewrite Z.pow_add_r in Hm by lia.
  pose proof (Z_pow2_pos (7 - k + 1)). pose proof (Z_pow2_pos (24 - 8 * i)).
  apply Z.mod_divide in Hm as [q ->]; [|nia].
  rewrite Z.mul_assoc, Z.div_mul by lia.
  replace (2 ^ 8) with (2 ^ k * 2 ^ (7 - k + 1)) by (rewrite <- Z.pow_add_r by lia; f_equal; lia).
  rewrite Z.mul_mod_distr_r by (pose proof (Z_pow2_pos k); lia). apply Z.mod_mul. lia.
Qed.

Lemma of_bytes_insert a b c d i x : (i < 4)%nat ->
  of_bytes (<[i := x]> [a; b; c; d])
  = of_bytes [a; b; c; d] + (x - nth i [a; b; c; d] 0) * 2 ^ (24 - 8 * Z.of_nat i).
Proof.
  intros Hi. destruct i as [|[|[|[|]]]]; [| | | |lia];
    change (2 ^ (24 - 8 * Z.of_nat 0)) with 16777216;
    change (2 ^ (24 - 8 * Z.of_nat 1)) with 65536;
    change (2 ^ (24 - 8 * Z.of_nat 2)) with 256;
    change (2 ^ (24 - 8 * Z.of_nat 3)) with 1;
    unfold of_bytes; cbn -[Z.mul Z.add Z.sub]; lia.
Qed.

Lemma upperHalfAddr4 v b : aligned4 (P4 v b) -> b < 32 ->
  upperHalfAddr (P4 v b) = Val (Addr4 (v + 2 ^ (31 - b))).
Proof.
  intros (v' & b' & Heq & Hv & Hb & Hm) Hlt. injection Heq as <- <-.
  unfold upperHalfAddr; cbn [P4 paddr pbits As4].
  set (l := [byte_of v 0; byte_of v 1; byte_of v 2; byte_of v 3]).
  rewrite Z.quot_div_nonneg, Z.rem_mod_nonneg by lia.
  pose proof (Z.div_mod b 8 ltac:(lia)) as Hdm.
  pose proof (Z.mod_pos_bound b 8 ltac:(lia)) as Hk.
  set (i := b / 8) in *. set (k := b mod 8) in *.
  assert (Hlk : l !! Z.to_nat i = Some (byte_of v i)).
  { assert (i = 0 \/ i = 1 \/ i = 2 \/ i = 3) as [-> | [-> | [-> | ->]]] by lia; done. }
  rewrite Hlk. unfold AddrFrom4, l. do 2 f_equal.
  rewrite of_bytes_insert by lia. rewrite of_bytes_byte_of by done.
  rewrite set_bit_value by (lia || (apply byte_of_aligned; try lia; by rewrite <- Hdm)).
  replace (nth (Z.to_nat i) _ 0) with (byte_of v i)
    by (symmetry; apply (nth_lookup_Some l _ 0 _ Hlk)).
  rewrite Z2Nat.id by lia.
  replace (byte_of v i + 2 ^ (7 - k) - byte_of v i) with (2 ^ (7 - k)) by ring.
  rewrite <- Z.pow_add_r by lia. do 2 f_equal. lia.
Qed.

(** ** The loop over the excludes *)
Lemma scan_excludes_None ex p ov : scan_excludes ex p ov = None <->
  exists e, e ∈ ex /\ pbits e <= pbits p /\ Contains e (paddr p) = true.
Proof.
  revert ov. induction ex as [|e ex IH]; intros ov; cbn.
  - split; [done | intros (e & He & _); by apply not_elem_of_nil in He].
  - destruct ((pbits e <=? pbits p) && Contains e (paddr p)) eqn:E.
    + split; [|done]. intros _. case_bool_eq. exists e. split; [left | done].
    + rewrite IH. split.
      * intros (e' & He' & H). exists e'. split; [by right | done].
      * intros (e' & He' & Hb & Hc). apply elem_of_cons in He' as [-> | He']; [|by exists e'].
        rewrite (proj2 (Z.leb_le _ _) Hb), Hc in E. done.
Qed.

Lemma scan_excludes_Some ex p ov b : scan_excludes ex p ov = Some b ->
  b = ov || existsb (Overlaps p) ex.
Proof.
  revert ov. induction ex as [|e ex IH]; intros ov; cbn.
  - intros [= ->]. by rewrite orb_false_r.
  - destruct (_ && _); [done|]. intros ->%IH. destruct (Overlaps p e), ov; done.
Qed.

(** ** What [walk] computes *)

(** The addresses of [p] outside every exclude. *)
Definition allowed (ex : list Prefix) (p : Prefix) (a : Z) : Prop :=
  in4 p a /\ forall e, e ∈ ex -> ~ in4 e a.

(** [l] is the set of maximal prefixes inside [allowed ex p]. *)
Record exact_cover (ex : list Prefix) (p : Prefix) (l : list Prefix) : Prop := {
  ec_aligned : Forall aligned4 l;
  ec_cover : forall a, (exists q, q ∈ l /\ in4 q a) <-> allowed ex p a;
  ec_maximal : forall q, valid4 q -> (forall a, in4 q a -> allowed ex p a) ->
                 exists r, r ∈ l /\ forall a, in4 q a -> in4 r a;
  ec_disjoint : forall q r a, q ∈ l -> r ∈ l -> in4 q a -> in4 r a -> q = r;
  ec_nodup : NoDup l;
  ec_bits : Forall (fun q => pbits p <= pbits q) l
}.

Lemma in4_nonempty q : valid4 q -> exists a, in4 q a.
Proof. intros (v & b & -> & Hv & Hb). exists v. by apply in4_base. Qed.

Lemma exact_cover_excluded ex p : (exists e, e ∈ ex /\ forall a, in4 p a -> in4 e a) ->
  exact_cover ex p [].
Proof.
  intros (e & He & Hcov). split; try (by constructor).
  - intros a. split.
    + intros (q & Hq & _). by apply not_elem_of_nil in Hq.
    + intros [Hp Hno]. by destruct (Hno e He (Hcov a Hp)).
  - intros q Hq Hall. destruct (in4_nonempty q Hq) as [a Ha].
    destruct (Hall a Ha) as [Hp Hno]. by destruct (Hno e He (Hcov a Hp)).
  - intros q r a Hq. by apply not_elem_of_nil in Hq.
Qed.

Lemma exact_cover_clear ex p : aligned4 p -> (forall e a, e ∈ ex -> in4 p a -> ~ in4 e a) ->
  exact_cover ex p [p].
Proof.
  intros Hp Hno. split.
  - by constructor.
  - intros a. unfold allowed. setoid_rewrite list_elem_of_singleton. naive_solver.
  - intros q _ Hall. exists p. split; [by apply list_elem_of_singleton|].
    intros a Ha. by apply Hall.
  - intros q r a ->%list_elem_of_singleton ->%list_elem_of_singleton. done.
  - apply NoDup_singleton.
  - constructor; [lia|constructor].
Qed.

(** A prefix inside a split prefix, but not equal to it, is inside one half. *)
Lemma in_one_half v b q : aligned4 (P4 v b) -> b < 32 -> valid4 q -> b < pbits q ->
  (forall a, in4 q a -> in4 (P4 v b) a) ->
  (forall a, in4 q a -> in4 (P4 v (b + 1)) a)
  \/ (forall a, in4 q a -> in4 (P4 (v + 2 ^ (31 - b)) (b + 1)) a).
Proof.
  intros Hal Hlt Hq Hbits Hsub. destruct (in4_nonempty q Hq) as [a0 Ha0].
  destruct (aligned_lower v b Hal Hlt) as [Hl Hr].
  apply Hsub in Ha0 as Hp. rewrite in4_halves in Hp by done.
  destruct Hp as [Hp | Hp]; [left | right];
    apply (in4_nested q _ a0); auto with scion; cbn; lia.
Qed.

(** A wider prefix cannot fit strictly inside a narrower one. *)
Lemma in4_sub_bits p q : valid4 p -> valid4 q ->
  (forall a, in4 q a -> in4 p a) -> pbits p <= pbits q.
Proof.
  intros (v & b & -> & Hv & Hb) (w & c & -> & Hw & Hc) Hsub; cbn.
  destruct (decide (b <= c)); [done|exfalso].
  set (base := w / 2 ^ (32 - c) * 2 ^ (32 - c)).
  pose proof (Z_pow2_pos (32 - c) ltac:(lia)). pose proof (Z_pow2_pos (32 - b) ltac:(lia)).
  assert (Hlt : 2 ^ (32 - b) <= 2 ^ (32 - c) - 1).
  { assert (2 ^ (32 - b) < 2 ^ (32 - c)) by (apply Z.pow_lt_mono_r; lia). lia. }
  assert (H1 : in4 (P4 w c) base) by (rewrite in4_iff by lia; unfold base; by rewrite Z.div_mul by lia).
  assert (H2 : in4 (P4 w c) (base + 2 ^ (32 - b))).
  { rewrite in4_iff by lia. unfold base.
    rewrite Z.add_comm, Z.div_add by lia. rewrite (Z.div_small (2 ^ (32 - b))) by lia. lia. }
  apply Hsub in H1, H2. rewrite in4_iff in H1, H2 by lia.
  replace (base + 2 ^ (32 - b)) with (base + 1 * 2 ^ (32 - b)) in H2 by ring.
  rewrite Z.div_add in H2 by lia. lia.
Qed.

Lemma exact_cover_split ex v b ll lr : aligned4 (P4 v b) -> b < 32 ->
  (exists e a, e ∈ ex /\ in4 (P4 v b) a /\ in4 e a) ->
  exact_cover ex (P4 v (b + 1)) ll ->
  exact_cover ex (P4 (v + 2 ^ (31 - b)) (b + 1)) lr ->
  exact_cover ex (P4 v b) (ll ++ lr).
Proof.
  intros Hal Hlt (e0 & a0 & He0 & Hpa0 & Hea0) HL HR.
  assert (Hsep : forall q r a, q ∈ ll -> r ∈ lr -> in4 q a -> in4 r a -> False).
  { intros q r a Hq Hr Ha Hb. eapply (halves_disjoint v b a); try done.
    - eapply (ec_cover _ _ _ HL). by exists q.
    - eapply (ec_cover _ _ _ HR). by exists r. }
  split.
  - apply Forall_app. split; [apply HL | apply HR].
  - intros a. unfold allowed. rewrite in4_halves by done.
    pose proof (ec_cover _ _ _ HL a) as CL. pose proof (ec_cover _ _ _ HR a) as CR.
    unfold allowed in *. setoid_rewrite elem_of_app. naive_solver.
  - intros q Hq Hall. destruct (in_one_half v b q) as [Hh | Hh]; auto.
    + assert (b <= pbits q).
      { apply (in4_sub_bits (P4 v b) q); auto with scion. intros a Ha. by apply Hall. }
      destruct (decide (b = pbits q)) as [Heq|]; [exfalso|lia].
      assert (in4 q a0) as Hqa0.
      { destruct (in4_nonempty q Hq) as [a1 Ha1].
        apply (in4_nested (P4 v b) q a1); auto with scion; cbn; [lia|]. by apply Hall. }
      apply Hall in Hqa0 as [_ Hno]. by apply (Hno e0).
    + intros a Ha. by apply Hall.
    + destruct (ec_maximal _ _ _ HL q Hq) as (r & Hr & Hs).
      { intros a Ha. split; [by apply Hh | by apply Hall]. }
      exists r. split; [apply elem_of_app; by left | done].
    + destruct (ec_maximal _ _ _ HR q Hq) as (r & Hr & Hs).
      { intros a Ha. split; [by apply Hh | by apply Hall]. }
      exists r. split; [apply elem_of_app; by right | done].
  - intros q r a [Hq|Hq]%elem_of_app [Hr|Hr]%elem_of_app Ha Hb.
    + by eapply (ec_disjoint _ _ _ HL).
    + by destruct (Hsep q r a).
    + by destruct (Hsep r q a).
    + by eapply (ec_disjoint _ _ _ HR).
  - apply NoDup_app. split_and!; [apply HL | | apply HR].
    intros q Hq Hq'. pose proof (ec_aligned _ _ _ HL) as HA. rewrite Forall_forall in HA.
    destruct (in4_nonempty q) as [a Ha]; [by apply aligned4_valid, HA | by destruct (Hsep q q a)].
  - apply Forall_app. split.
    + eapply Forall_impl; [apply (ec_bits _ _ _ HL)|]. cbn. intros; lia.
    + eapply Forall_impl; [apply (ec_bits _ _ _ HR)|]. cbn. intros; lia.
Qed.

Lemma PrefixFrom4 v b : 0 <= b <= 32 -> PrefixFrom (Addr4 v) b = P4 v b.
Proof.
  intros Hb. unfold PrefixFrom; cbn.
  by rewrite (proj2 (Z.leb_le 0 b)), (proj2 (Z.leb_le b 32)) by lia.
Qed.

(** [walk] with one unit of fuel per remaining bit returns, without a panic,
    and appends the texts of an exact cover. *)
Lemma walk_exact fuel ex v b out :
  Forall valid4 ex -> aligned4 (P4 v b) -> 33 - b <= Z.of_nat fuel ->
  exists l, walk fuel ex (P4 v b) out = Val (out ++ map Prefix_String l)
            /\ exact_cover ex (P4 v b) l
            /\ ((exists e a, e ∈ ex /\ in4 (P4 v b) a /\ in4 e a) ->
                 Forall (fun q => b < pbits q) l).
Proof.
  intros Hex. revert v b out. induction fuel as [|fuel IH]; intros v b out Hal Hfuel.
  { destruct Hal as (? & ? & [= <- <-] & ?). lia. }
  assert (Hb : 0 <= b <= 32) by (destruct Hal as (? & ? & [= <- <-] & ?); lia).
  rewrite Forall_forall in Hex. cbn [walk].
  destruct (scan_excludes ex (P4 v b) false) as [ov|] eqn:Escan.
  - apply scan_excludes_Some in Escan as Hov. cbn [orb] in Hov.
    destruct ov; cbn [negb].
    + symmetry in Hov. apply existsb_spec in Hov as (e & He & Hover).
      apply Overlaps4_iff in Hover as (a & Ha & Hpa & Hea); [|auto with scion..].
      destruct (Z.leb_spec 32 (pbits (P4 v b))) as [H32|H32]; cbn in H32.
      { (* a /32 that overlaps an exclude is covered by it *)
        assert (scan_excludes ex (P4 v b) false = None) as Hn; [|congruence].
        apply scan_excludes_None. exists e. split; [done|]. cbn.
        destruct (Hex e He) as (w & c & -> & Hw & Hc). cbn. split; [lia|].
        apply (in4_nested (P4 v b) (P4 w c) a); auto using in4_base with scion.
        cbn. lia. }
      destruct (aligned_lower v b Hal H32) as [Hl Hr].
      cbn [P4 paddr pbits]. rewrite PrefixFrom4 by lia.
      destruct (IH v (b + 1) out Hl ltac:(lia)) as (ll & -> & HL & _). cbn [mbind outcome_bind].
      rewrite upperHalfAddr4 by done. cbn [mbind outcome_bind]. rewrite PrefixFrom4 by lia.
      destruct (IH _ (b + 1) (out ++ map Prefix_String ll) Hr ltac:(lia)) as (lr & -> & HR & _).
      exists (ll ++ lr). rewrite map_app, app_assoc. split_and!; [done | | ].
      * apply exact_cover_split; try done. by exists e, a.
      * intros _. apply Forall_app. split.
        -- eapply Forall_impl; [apply (ec_bits _ _ _ HL)|]. cbn. intros; lia.
        -- eapply Forall_impl; [apply (ec_bits _ _ _ HR)|]. cbn. intros; lia.
    + exists [P4 v b].
      assert (Hno : forall e a, e ∈ ex -> in4 (P4 v b) a -> ~ in4 e a).
      { intros e a He Hpa Hea. symmetry in Hov. rewrite existsb_false in Hov.
        apply Hov in He as Hf. apply not_true_iff_false in Hf. apply Hf.
        apply (Overlaps4_share _ _ a); auto with scion. }
      split_and!; [done | by apply exact_cover_clear | ].
      intros (e & a & He & Hpa & Hea). by destruct (Hno e a).
  - apply scan_excludes_None in Escan as (e & He & Hbits & Hc). cbn in Hbits, Hc.
    exists []. rewrite app_nil_r. split_and!; [done | | constructor].
    apply exact_cover_excluded. exists e. split; [done|].
    apply (in4_nested (P4 v b) e v); auto using in4_base with scion.
Qed.

(** ** Lists of CIDR texts as address sets *)
Definition ipv4_cidr (s : string) : Prop :=
  exists p, ParsePrefix s = Ok p /\ Is4 (paddr p) = true.

(** [a] lies in one of the CIDRs written in [l]. *)
Definition text_in4 (l : list string) (a : Z) : Prop :=
  exists s p, s ∈ l /\ ParsePrefix s = Ok p /\ in4 p a.

Lemma text_in4_each l a : text_in4 l a <-> exists c, c ∈ l /\ text_in4 [c] a.
Proof.
  unfold text_in4. setoid_rewrite list_elem_of_singleton. naive_solver.
Qed.

Lemma parse_exclude_Ok s q : parse_exclude s = Ok q <->
  exists p, ParsePrefix s = Ok p /\ Is4 (paddr p) = true /\ q = Masked p.
Proof.
  unfold parse_exclude. destruct (ParsePrefix s) as [p|]; [|naive_solver].
  destruct (Is4 (paddr p)) eqn:E; cbn; naive_solver congruence.
Qed.

Lemma parse_excludes_Ok l : Forall ipv4_cidr l -> exists ex, mapM parse_exclude l = Ok ex.
Proof.
  induction 1 as [|s l (p & Hp & H4) _ (ex & IH)]; [by exists []|].
  exists (Masked p :: ex). cbn. rewrite (proj2 (parse_exclude_Ok s (Masked p))) by eauto.
  cbn. by rewrite IH.
Qed.

Lemma parse_excludes_inv l ex : mapM parse_exclude l = Ok ex ->
  Forall ipv4_cidr l /\ Forall valid4 ex
  /\ forall a, (exists e, e ∈ ex /\ in4 e a) <-> text_in4 l a.
Proof.
  rewrite mapM_Ok. induction 1 as [|s q l ex Hsq _ (IH1 & IH2 & IH3)].
  - split_and!; [constructor|constructor|]. intros a. unfold text_in4. split.
    + intros (e & He & _). by apply not_elem_of_nil in He.
    + intros (s & p & Hs & _). by apply not_elem_of_nil in Hs.
  - apply parse_exclude_Ok in Hsq as (p & Hp & H4 & ->).
    destruct (ParsePrefix_Ok4 s p Hp H4) as [Hv _].
    split_and!; [constructor; [by exists p | done] | |].
    + constructor; [by apply aligned4_valid, Masked_aligned | done].
    + intros a. unfold text_in4 in *. setoid_rewrite elem_of_cons. split.
      * intros (e & [-> | He] & Ha).
        -- exists s, p. split_and!; [by left | done | by rewrite <- Masked_in4].
        -- destruct (proj1 (IH3 a)) as (s' & p' & ? & ? & ?); [by exists e|].
           exists s', p'. by split; [right|].
      * intros (s' & p' & [-> | Hs'] & Hp' & Ha).
        -- rewrite Hp in Hp'. injection Hp' as <-. exists (Masked p).
           split; [by left | by rewrite Masked_in4].
        -- destruct (proj2 (IH3 a)) as (e & ? & ?); [by exists s', p'|].
           exists e. by split; [right|].
Qed.

(** The texts of well-formed prefixes denote those prefixes. *)
Lemma text_in4_print l a : Forall aligned4 l ->
  text_in4 (map Prefix_String l) a <-> exists q, q ∈ l /\ in4 q a.
Proof.
  intros Hl. rewrite Forall_forall in Hl. unfold text_in4. split.
  - intros (s & p & Hs & Hp & Ha). apply list_elem_of_fmap in Hs as (q & -> & Hq).
    destruct (Hl q Hq) as (v & b & -> & Hv & Hb & _).
    rewrite ParsePrefix_String4 in Hp by lia. simplify_eq. by exists (P4 v b).
  - intros (q & Hq & Ha). destruct (Hl q Hq) as (v & b & -> & Hv & Hb & _).
    exists (Prefix_String (P4 v b)), (P4 v b). split_and!; [by apply list_elem_of_fmap_2 | | done].
    by apply ParsePrefix_String4.
Qed.

Lemma text_in4_sort l a : text_in4 (sort_strings l) a <-> text_in4 l a.
Proof. unfold text_in4. by setoid_rewrite elem_of_sort_strings. Qed.

(** ** [subtractCIDRs] *)
Lemma subtractCIDRs_run base b excludes :
  ParsePrefix base = Ok b -> Is4 (paddr b) = true -> Forall ipv4_cidr excludes ->
  exists ex l, mapM parse_exclude excludes = Ok ex
    /\ subtractCIDRs base excludes = Val (Ok (sort_strings (map Prefix_String l)))
    /\ exact_cover ex (Masked b) l
    /\ ((exists a, in4 b a /\ text_in4 excludes a) ->
        Forall (fun q => pbits b < pbits q) l).
Proof.
  intros Hb H4 Hex. destruct (ParsePrefix_Ok4 base b Hb H4) as [Hv _].
  destruct (parse_excludes_Ok excludes Hex) as [ex Hm]. exists ex.
  destruct (parse_excludes_inv _ _ Hm) as (_ & Hval & Hden).
  destruct (Masked_aligned b Hv) as (v & n & Heq & Hv' & Hn & Hmod).
  destruct (walk_exact walk_fuel ex v n []) as (l & Hw & Hc & Hs); [done| |unfold walk_fuel; lia|].
  { by exists v, n. }
  exists l. rewrite Heq. split_and!; [done | | done | ].
  - unfold subtractCIDRs. rewrite Hb, H4, Heq, Hm. cbn [negb go_bind]. by rewrite Hw.
  - intros (a & Ha & Ht). rewrite <- (Masked_pbits b Hv), Heq. apply Hs.
    apply Hden in Ht as (e & He & Hea). exists e, a. rewrite <- Heq. by rewrite Masked_in4.
Qed.

(** The injection argument behind minimality. *)
Lemma length_le_by_injection {A B} (R : A -> B -> Prop) (l : list A) (k : list B) :
  NoDup l -> (forall x, x ∈ l -> exists y, y ∈ k /\ R x y) ->
  (forall x x' y, x ∈ l -> x' ∈ l -> R x y -> R x' y -> x = x') ->
  (length l <= length k)%nat.
Proof.
  intros Hnd. revert k. induction Hnd as [|x l Hx Hnd IH]; intros k Hex Hinj; cbn; [lia|].
  destruct (Hex x) as (y & Hy & Hxy); [left|].
  apply list_elem_of_split in Hy as (k1 & k2 & ->).
  assert (length l <= length (k1 ++ k2))%nat as Hle.
  { apply IH.
    - intros x' Hx'. destruct (Hex x') as (y' & Hy' & Hxy'); [by right|].
      exists y'. split; [|done]. apply elem_of_app in Hy' as [Hy' | Hy'].
      + apply elem_of_app. by left.
      + apply elem_of_cons in Hy' as [-> | Hy']; [|apply elem_of_app; by right].
        exfalso. apply Hx. rewrite (Hinj x x' y); [done | left | by right | done | done].
    - intros x1 x2 y' H1 H2. apply Hinj; by right. }
  rewrite length_app in *. cbn. lia.
Qed.

Lemma exact_cover_minimal ex p l k : exact_cover ex p l -> Forall valid4 k ->
  (forall a, (exists q, q ∈ k /\ in4 q a) <-> allowed ex p a) ->
  (length l <= length k)%nat.
Proof.
  intros Hl Hk Hcov. rewrite Forall_forall in Hk.
  pose proof (ec_aligned _ _ _ Hl) as Hal. rewrite Forall_forall in Hal.
  apply (length_le_by_injection (fun r c => (forall a, in4 c a -> in4 r a) /\ valid4 c)).
  - apply Hl.
  - intros r Hr. destruct (in4_nonempty r) as [a Ha]; [by apply aligned4_valid, Hal|].
    assert (allowed ex p a) as Hall by (apply (ec_cover _ _ _ Hl); by exists r).
    apply Hcov in Hall as (c & Hc & Hca). exists c. split; [done|]. split; [|by apply Hk].
    destruct (ec_maximal _ _ _ Hl c (Hk c Hc)) as (r' & Hr' & Hsub).
    { intros x Hx. apply Hcov. by exists c. }
    by rewrite (ec_disjoint _ _ _ Hl r r' a Hr Hr' Ha (Hsub a Hca)).
  - intros r r' c Hr Hr' [H1 Hv] [H2 _]. destruct (in4_nonempty c Hv) as [a Ha].
    apply (ec_disjoint _ _ _ Hl r r' a); auto.
Qed.
