(* ===== verification/PolicyProps.v ===== *)
(** * Properties of the SIG policy engine

    [subtractCIDRs] is exact and minimal; [prepare] is total and fails
    closed, and its guardrail is sound. *)
From S2P Require Import Prelude GoStrings Netip NetipFacts Json Policy PolicyFacts.
Local Open Scope Z_scope.

(** C2: for every IPv4 base and every list of IPv4 excludes, [subtractCIDRs]
    returns (it neither panics nor runs out of fuel) a sorted list whose CIDRs
    cover an address if and only if the base covers it and no exclude does. *)
Theorem subtractCIDRs_exact (base : string) (b : Prefix) (excludes : list string)
    (Hb : ParsePrefix base = Ok b) (H4 : Is4 (paddr b) = true)
    (Hex : Forall ipv4_cidr excludes) :
  exists out, subtractCIDRs base excludes = Val (Ok out)
    /\ Sorted String.le out
    /\ forall a, text_in4 out a <-> in4 b a /\ ~ text_in4 excludes a.
Proof.
  destruct (subtractCIDRs_run base b excludes Hb H4 Hex) as (ex & l & Hm & Hrun & Hc & _).
  destruct (ParsePrefix_Ok4 base b Hb H4) as [Hv _].
  destruct (parse_excludes_inv _ _ Hm) as (_ & _ & Hden).
  eexists. split; [exact Hrun|]. split; [apply sort_strings_sorted|].
  intros a. rewrite text_in4_sort, text_in4_print by apply (ec_aligned _ _ _ Hc).
  rewrite (ec_cover _ _ _ Hc). unfold allowed. rewrite Masked_in4, <- Hden by done.
  naive_solver.
Qed.

Lemma subtractCIDRs_exact_witness :
  ParsePrefix "10.0.0.0/8" = Ok (P4 167772160 8)
  /\ exists out, subtractCIDRs "10.0.0.0/8" ["10.128.0.0/9"; "10.64.0.0/10"] = Val (Ok out)
     /\ Sorted String.le out
     /\ forall a, text_in4 out a
          <-> in4 (P4 167772160 8) a /\ ~ text_in4 ["10.128.0.0/9"; "10.64.0.0/10"] a.
Proof.
  split; [vm_compute; reflexivity|].
  apply subtractCIDRs_exact; [vm_compute; reflexivity | reflexivity |].
  apply Forall_cons; split; [exists (P4 176160768 9) | apply Forall_singleton; exists (P4 171966464 10)];
    (split; [vm_compute; reflexivity | reflexivity]).
Defined.

(** C27: the cover [subtractCIDRs] returns is minimal: no list of IPv4 prefixes
    that denotes the same set of addresses is shorter. *)
Theorem subtractCIDRs_minimal (base : string) (b : Prefix) (excludes out : list string)
    (k : list Prefix)
    (Hb : ParsePrefix base = Ok b) (H4 : Is4 (paddr b) = true)
    (Hrun : subtractCIDRs base excludes = Val (Ok out))
    (Hk : Forall valid4 k)
    (Hsame : forall a, (exists q, q ∈ k /\ in4 q a) <-> text_in4 out a) :
  (length out <= length k)%nat.
Proof.
  assert (Hex : Forall ipv4_cidr excludes).
  { unfold subtractCIDRs in Hrun. rewrite Hb, H4 in Hrun. cbn [negb] in Hrun.
    destruct (mapM parse_exclude excludes) as [ex|] eqn:Hm; [|done].
    by apply parse_excludes_inv in Hm as (? & _). }
  destruct (subtractCIDRs_run base b excludes Hb H4 Hex) as (ex & l & Hm & Hrun' & Hc & _).
  rewrite Hrun in Hrun'. injection Hrun' as ->.
  rewrite sort_strings_Permutation, length_map.
  apply (exact_cover_minimal ex (Masked b)); [done | done |].
  intros a. rewrite Hsame, text_in4_sort, text_in4_print by apply (ec_aligned _ _ _ Hc).
  apply (ec_cover _ _ _ Hc).
Qed.

Lemma subtractCIDRs_minimal_witness :
  subtractCIDRs "0.0.0.0/0" ["128.0.0.0/1"] = Val (Ok ["0.0.0.0/1"])
  /\ (length ["0.0.0.0/1"] <= length [P4 0 1])%nat.
Proof.
  split; [vm_compute; reflexivity|].
  apply (subtractCIDRs_minimal "0.0.0.0/0" (P4 0 0) ["128.0.0.0/1"] ["0.0.0.0/1"] [P4 0 1]).
  - vm_compute; reflexivity.
  - reflexivity.
  - vm_compute; reflexivity.
  - apply Forall_singleton. exists 0, 1. split; [reflexivity | lia].
  - intros a. unfold text_in4. split.
    + intros (q & ->%list_elem_of_singleton & Hq). exists "0.0.0.0/1", (P4 0 1).
      split; [by apply list_elem_of_singleton | split; [vm_compute; reflexivity | done]].
    + intros (s & p & ->%list_elem_of_singleton & Hp & Hq). exists (P4 0 1).
      split; [by apply list_elem_of_singleton |].
      assert (ParsePrefix "0.0.0.0/1" = Ok (P4 0 1)) as Hp' by (vm_compute; reflexivity).
      rewrite Hp' in Hp. by injection Hp as <-.
Defined.

(** ** [prepare] *)
Definition prepare_ready (inp : Input) : Prop :=
  LocalIA inp <> "" /\ AcceptISDASes inp <> [] /\ ForbiddenCIDRs inp <> []
  /\ Forall ipv4_cidr (ForbiddenCIDRs inp).

Lemma parse_forbidden_Ok f p : parse_forbidden f = Ok p <-> ParsePrefix f = Ok p.
Proof. apply result_map_err_Ok. Qed.

Lemma check_overlap_None n p fps :
  check_overlap n p fps = None <-> forall fp, fp ∈ fps -> Overlaps p fp = false.
Proof.
  induction fps as [|fp fps IH]; cbn.
  - split; [intros _ fp H; by apply not_elem_of_nil in H | done].
  - destruct (Overlaps p fp) eqn:E.
    + split; [done|]. intros H. rewrite (H fp) in E; [done | left].
    + rewrite IH. split.
      * intros H q [-> | Hq]%elem_of_cons; auto.
      * intros H q Hq. apply H. by right.
Qed.

Definition net_clear (fps : list Prefix) (n : string) : Prop :=
  exists p, ParsePrefix n = Ok p /\ pbits p <> 0 /\ forall fp, fp ∈ fps -> Overlaps p fp = false.

Lemma check_nets_None nets fps : check_nets nets fps = None <-> Forall (net_clear fps) nets.
Proof.
  induction nets as [|n nets IH]; cbn.
  - split; [constructor | done].
  - rewrite Forall_cons, <- IH. unfold net_clear at 1.
    destruct (ParsePrefix n) as [p|]; [|naive_solver].
    destruct (Z.eqb_spec (pbits p) 0); [naive_solver|].
    destruct (check_overlap n p fps) eqn:E.
    + split; [done|]. intros [(p' & [= <-] & _ & H) _]. by rewrite (proj2 (check_overlap_None _ _ _)) in E.
    + rewrite check_overlap_None in E. naive_solver.
Qed.

Lemma ValidateNoOverlap_None nets forbidden :
  ValidateNoOverlap nets forbidden = None <->
  exists fps, Forall2 (fun f fp => ParsePrefix f = Ok fp) forbidden fps
              /\ Forall (net_clear fps) nets.
Proof.
  unfold ValidateNoOverlap. split.
  - destruct (mapM parse_forbidden forbidden) as [fps|] eqn:E; [|done].
    intros H. exists fps. split; [|by apply check_nets_None].
    apply mapM_Ok in E. by eapply Forall2_impl; [exact E|]; intros ? ? ?%parse_forbidden_Ok.
  - intros (fps & H2 & H). rewrite (proj2 (mapM_Ok parse_forbidden forbidden fps)).
    + by apply check_nets_None.
    + by eapply Forall2_impl; [exact H2|]; intros ? ? ?%parse_forbidden_Ok.
Qed.

Lemma base_parse : ParsePrefix "0.0.0.0/0" = Ok (P4 0 0).
Proof. vm_compute. reflexivity. Qed.

Lemma in4_all a : 0 <= a < 2 ^ 32 <-> in4 (P4 0 0) a.
Proof.
  rewrite in4_iff by lia. change (32 - 0) with 32. rewrite (Z.div_small 0) by lia. split.
  - intros. by apply Z.div_small.
  - intros H. apply Z.div_small_iff in H; lia.
Qed.

Lemma forbidden_parse l : Forall ipv4_cidr l ->
  exists fps, Forall2 (fun f fp => ParsePrefix f = Ok fp) l fps /\ Forall valid4 fps
    /\ forall fp, fp ∈ fps -> exists f, f ∈ l /\ ParsePrefix f = Ok fp.
Proof.
  induction 1 as [|s l (p & Hp & H4) _ (fps & IH1 & IH2 & IH3)].
  - exists []. split_and!; [constructor | constructor |].
    intros fp H. by apply not_elem_of_nil in H.
  - exists (p :: fps). split_and!; [by constructor | |].
    + constructor; [|done]. by apply (ParsePrefix_Ok4 s p).
    + intros fp [-> | Hfp]%elem_of_cons; [exists s; split; [left | done]|].
      destruct (IH3 fp Hfp) as (f & Hf & Hpf). exists f. by split; [right|].
Qed.

(** The subtraction from the whole address space passes the guardrail as soon
    as something is forbidden. *)
Lemma subtract_all_clear forbidden : Forall ipv4_cidr forbidden -> forbidden <> [] ->
  exists out, subtractCIDRs "0.0.0.0/0" forbidden = Val (Ok out)
    /\ ValidateNoOverlap out forbidden = None
    /\ Forall ipv4_cidr out
    /\ forall a, 0 <= a < 2 ^ 32 -> text_in4 out a <-> ~ text_in4 forbidden a.
Proof.
  intros Hf Hne.
  destruct (subtractCIDRs_run _ _ _ base_parse eq_refl Hf) as (ex & l & Hm & Hrun & Hc & Hbits).
  destruct (parse_excludes_inv _ _ Hm) as (_ & _ & Hden).
  pose proof (ec_aligned _ _ _ Hc) as Hal.
  assert (Hv0 : valid4 (P4 0 0)) by (by exists 0, 0).
  assert (Hex : forall a, text_in4 (map Prefix_String l) a <-> 0 <= a < 2 ^ 32 /\ ~ text_in4 forbidden a).
  { intros a. rewrite text_in4_print by done. rewrite (ec_cover _ _ _ Hc). unfold allowed.
    rewrite Masked_in4, <- in4_all, <- Hden by done. naive_solver. }
  eexists. split; [exact Hrun|]. split.
  - destruct (forbidden_parse _ Hf) as (fps & H2 & Hvf & Hin).
    apply ValidateNoOverlap_None. exists fps. split; [done|].
    apply Forall_forall. intros s Hs. rewrite elem_of_sort_strings in Hs.
    apply list_elem_of_fmap in Hs as (q & -> & Hq).
    rewrite Forall_forall in Hal, Hvf. destruct (Hal q Hq) as (v & b & -> & Hv & Hb & _).
    exists (P4 v b). split_and!; [by apply ParsePrefix_String4 | |].
    + assert (Forall (fun q => pbits (P4 0 0) < pbits q) l) as Hpos.
      { apply Hbits. destruct forbidden as [|f0 fs]; [done|].
        inversion Hf as [|? ? (p & Hp & H4) _]; subst.
        destruct (ParsePrefix_Ok4 f0 p Hp H4) as [Hvp _].
        destruct (in4_nonempty p Hvp) as [a Ha]. exists a. split.
        - apply in4_all. by apply (in4_range p).
        - exists f0, p. by split; [left|]. }
      rewrite Forall_forall in Hpos. specialize (Hpos _ Hq). cbn in *. lia.
    + intros fp Hfp. apply not_true_iff_false. intros Hov.
      apply Overlaps4_iff in Hov as (a & Ha & Hqa & Hfa); [|by exists v, b | auto].
      destruct (proj1 (Hex a)) as [_ Hno].
      * apply text_in4_print; [by apply Forall_forall|]. by exists (P4 v b).
      * apply Hno. destruct (Hin fp Hfp) as (f & Hf' & Hpf). by exists f, fp.
  - split.
    + apply Forall_forall. intros s Hs. rewrite elem_of_sort_strings in Hs.
      apply list_elem_of_fmap in Hs as (q & -> & Hq). rewrite Forall_forall in Hal.
      destruct (Hal q Hq) as (v & b & -> & Hv & Hb & _). exists (P4 v b).
      split; [by apply ParsePrefix_String4 | done].
    + intros a Ha. rewrite text_in4_sort, Hex. naive_solver.
Qed.

Lemma subtract_none : subtractCIDRs "0.0.0.0/0" [] = Val (Ok ["0.0.0.0/0"]).
Proof. vm_compute. reflexivity. Qed.

(** Whatever the deny list, the subtraction returns a list or an error. *)
Lemma subtract_total forbidden : exists r, subtractCIDRs "0.0.0.0/0" forbidden = Val r.
Proof.
  destruct (mapM parse_exclude forbidden) as [ex|e] eqn:E.
  - apply parse_excludes_inv in E as (Hf & _).
    destruct (subtractCIDRs_run _ _ _ base_parse eq_refl Hf) as (? & ? & _ & -> & _). by eexists.
  - unfold subtractCIDRs. rewrite base_parse, E. by eexists.
Qed.

Lemma prepare_ready_Ok inp : prepare_ready inp ->
  exists acc, prepare inp = Val (Ok acc)
    /\ ValidateNoOverlap acc (ForbiddenCIDRs inp) = None
    /\ Forall ipv4_cidr acc
    /\ forall a, 0 <= a < 2 ^ 32 -> text_in4 acc a <-> ~ text_in4 (ForbiddenCIDRs inp) a.
Proof.
  intros (Hia & Has & Hne & Hf). destruct (subtract_all_clear _ Hf Hne) as (out & Hs & Hval & Hv4 & Hex).
  exists out. split_and!; [|done..]. unfold prepare.
  rewrite !bool_decide_eq_false_2 by done. rewrite Hs. cbn [go_map_err result_map_err go_bind].
  by rewrite Hval.
Qed.

Lemma prepare_total inp : exists r, prepare inp = Val r.
Proof.
  unfold prepare. case_bool_decide; [by eexists|]. case_bool_decide; [by eexists|].
  destruct (subtract_total (ForbiddenCIDRs inp)) as [[out|e] ->]; cbn; [|by eexists].
  destruct (ValidateNoOverlap _ _); by eexists.
Qed.

Lemma prepare_Ok_ready inp acc : prepare inp = Val (Ok acc) -> prepare_ready inp.
Proof.
  intros H. destruct (decide (LocalIA inp = "")) as [E1|E1];
    [unfold prepare in H; by rewrite E1 in H|].
  destruct (decide (AcceptISDASes inp = [])) as [E2|E2];
    [unfold prepare in H; rewrite bool_decide_eq_false_2 in H by done; by rewrite E2 in H|].
  unfold prepare_ready. split_and!; [done..| |].
  - intros E3. unfold prepare in H. rewrite !bool_decide_eq_false_2 in H by done.
    rewrite E3, subtract_none in H. vm_compute in H. done.
  - unfold prepare in H. rewrite !bool_decide_eq_false_2 in H by done.
    apply go_bind_Ok in H as (out & H & _). unfold subtractCIDRs in H.
    rewrite base_parse in H. cbn [negb Is4 P4 paddr] in H.
    destruct (mapM parse_exclude (ForbiddenCIDRs inp)) as [ex|] eqn:E; [|done].
    by apply parse_excludes_inv in E as (? & _).
Qed.

(** C26: [prepare] always returns (no panic, no divergence), and it succeeds
    exactly when the local IA is set, there is a remote AS, and the deny list
    is non-empty and consists of IPv4 CIDRs.  An empty deny list (which would
    leave a default route) and any unparsable or IPv6 entry are refused. *)
Theorem prepare_fail_closed (inp : Input) :
  (exists r, prepare inp = Val r)
  /\ ((exists acc, prepare inp = Val (Ok acc)) <-> prepare_ready inp).
Proof.
  split; [apply prepare_total|]. split.
  - intros [acc H]. by apply (prepare_Ok_ready inp acc).
  - intros (acc & H & _)%prepare_ready_Ok. by exists acc.
Qed.

(** C4: whatever [prepare] lets through is safe and complete: each accepted
    CIDR parses, is not a default route and overlaps no forbidden CIDR, and
    the accepted CIDRs cover every IPv4 address no forbidden CIDR covers. *)
Theorem prepare_guardrail (inp : Input) (acc : list string)
    (Hok : prepare inp = Val (Ok acc)) :
  (forall s, s ∈ acc -> exists p, ParsePrefix s = Ok p /\ pbits p <> 0
     /\ forall f fp, f ∈ ForbiddenCIDRs inp -> ParsePrefix f = Ok fp -> Overlaps p fp = false)
  /\ (forall a, 0 <= a < 2 ^ 32 -> text_in4 acc a <-> ~ text_in4 (ForbiddenCIDRs inp) a).
Proof.
  destruct (prepare_ready_Ok inp (prepare_Ok_ready _ _ Hok)) as (acc' & H & Hval & _ & Hex).
  rewrite Hok in H. injection H as <-. split; [|done].
  apply ValidateNoOverlap_None in Hval as (fps & H2 & Hclear).
  rewrite Forall_forall in Hclear. intros s Hs.
  destruct (Hclear s Hs) as (p & Hp & Hb & Hov). exists p. split_and!; [done..|].
  intros f fp Hf Hfp. apply Hov.
  apply list_elem_of_lookup in Hf as [i Hi].
  destruct (Forall2_lookup_l _ _ _ i f H2 Hi) as (fp' & Hi' & Hfp').
  assert (fp' = fp) as <- by congruence. by apply list_elem_of_lookup_2 in Hi'.
Qed.

Definition sample_input : Input :=
  MkInput "1-ff00:0:112" ["10.128.2.0/23"; "192.168.111.20/32"]
    ["1-ff00:0:110"; "2-ff00:0:210"] ["10.128.0.0/14"; "128.0.0.0/1"].

Definition sample_accepted : list string :=
  ["0.0.0.0/5"; "10.0.0.0/9"; "10.132.0.0/14"; "10.136.0.0/13"; "10.144.0.0/12";
   "10.160.0.0/11"; "10.192.0.0/10"; "11.0.0.0/8"; "12.0.0.0/6"; "16.0.0.0/4";
   "32.0.0.0/3"; "64.0.0.0/2"; "8.0.0.0/7"].

Lemma prepare_sample : prepare sample_input = Val (Ok sample_accepted).
Proof. vm_compute. reflexivity. Qed.

Lemma prepare_guardrail_witness :
  (forall s, s ∈ sample_accepted -> exists p, ParsePrefix s = Ok p /\ pbits p <> 0
     /\ forall f fp, f ∈ ForbiddenCIDRs sample_input -> ParsePrefix f = Ok fp ->
          Overlaps p fp = false)
  /\ (forall a, 0 <= a < 2 ^ 32 ->
        text_in4 sample_accepted a <-> ~ text_in4 (ForbiddenCIDRs sample_input) a).
Proof. apply (prepare_guardrail sample_input sample_accepted prepare_sample). Defined.
