(* ===== verification/PolicyText.v ===== *)
(** * The rendered policies, read back

    Readers of the two files that the agent writes for the gateway, and what the
    files say to them. *)
From S2P Require Import Prelude GoStrings Netip NetipFacts Json JsonStrings JsonFacts Policy PolicyFacts PolicyProps.
Local Open Scope Z_scope.

(** ** The rendered routing policy, read back

    The text format is the one of the comment of [RenderRoutingPolicy], a rule per
    line: [<action> <from-ia> <to-ia> <prefix>[,<prefix>...] [# comment]].  Fields
    are separated by one space, every prefix must parse, and a list of prefixes
    has at least one; the identifiers of the ASes are any words.  A rule set
    accepts an address from an AS when some accept rule for it lists a covering
    prefix (everything else is rejected by the gateway's default); a text that is
    not of the format accepts nothing. *)
Inductive rule :=
| RAdvertise (from to : string) (nets : list string)
| RAccept (from to : string) (nets : list string).

Definition word (s : string) : bool := bool_decide (s <> "").

Definition prefix_list (nets : list string) : bool :=
  forallb (fun n => is_ok (ParsePrefix n)) nets.

Definition comment (fields : list string) : bool :=
  match fields with [] => true | w :: _ => HasPrefix w "#" end.

Definition read_rule (line : string) : option rule :=
  match Split line " " with
  | action :: from :: to :: nets :: rest =>
      if word from && word to && prefix_list (Split nets ",") && comment rest then
        if bool_decide (action = "advertise") then Some (RAdvertise from to (Split nets ","))
        else if bool_decide (action = "accept") then Some (RAccept from to (Split nets ","))
        else None
      else None
  | _ => None
  end.

Definition read_policy (text : string) : option (list rule) :=
  match reverse (Split text (byte 10)) with
  | "" :: lines => mapM read_rule (reverse lines)
  | _ => None
  end.

Definition accepts (rules : list rule) (from to : string) (a : Z) : Prop :=
  exists nets, RAccept from to nets ∈ rules /\ text_in4 nets a.

Definition policy_accepts (text : string) (from to : string) (a : Z) : Prop :=
  exists rules, read_policy text = Some rules /\ accepts rules from to a.

Definition advertises (rules : list rule) (from to net : string) : Prop :=
  exists nets, RAdvertise from to nets ∈ rules /\ net ∈ nets.

(** Texts that fit in one field of a rule. *)
Definition field_text (s : string) : bool := lacks " " s && lacks (byte 10) s.

Definition printable (inp : Input) : Prop :=
  field_text (LocalIA inp) = true
  /\ Forall (fun r => r <> "" /\ field_text r = true) (AcceptISDASes inp)
  /\ Forall (fun n => field_text n = true /\ lacks "," n = true /\ is_ok (ParsePrefix n) = true)
       (AdvertisedNets inp).

Definition fields_line (action from to nets : string) : string :=
  Join [action; from; to; nets] " ".

Definition remote_lines (inp : Input) (accepted : list string) (remote : string) : list string :=
  map (fields_line "advertise" (LocalIA inp) remote) (AdvertisedNets inp)
  ++ [fields_line "accept" remote (LocalIA inp) (Join accepted ",")].

Lemma write_advertise_lines inp remote nets b :
  write_advertise inp remote nets b
  = b +:+ unlines (map (fields_line "advertise" (LocalIA inp) remote) nets) (byte 10).
Proof.
  revert b. induction nets as [|n nets IH]; intros b; cbn [write_advertise map unlines].
  - by rewrite string_app_nil_r.
  - rewrite IH. unfold advertise_line, fields_line, newline, Join; cbn [String.concat].
    rewrite !string_app_assoc. done.
Qed.

Lemma write_remotes_lines inp accepted remotes b :
  write_remotes inp accepted remotes b
  = b +:+ unlines (mjoin (map (remote_lines inp accepted) remotes)) (byte 10).
Proof.
  revert b. induction remotes as [|r remotes IH]; intros b; cbn [write_remotes map mjoin list_join].
  - by rewrite string_app_nil_r.
  - rewrite IH, write_advertise_lines, unlines_app. unfold remote_lines at 2.
    rewrite unlines_app. cbn [unlines]. unfold accept_line, fields_line, newline, Join.
    cbn [String.concat]. rewrite !string_app_assoc. done.
Qed.

Lemma Split_fields action from to nets :
  lacks " " action = true -> field_text from = true -> field_text to = true -> field_text nets = true ->
  Split (fields_line action from to nets) " " = [action; from; to; nets].
Proof.
  unfold field_text, fields_line. intros. case_bool_eq. change " "%string with (String " " "").
  apply Split_Join; [done|]. by repeat constructor.
Qed.

Lemma read_line action from to nets r :
  lacks " " action = true -> field_text from = true -> field_text to = true ->
  field_text nets = true -> from <> "" -> to <> "" -> prefix_list (Split nets ",") = true ->
  (if bool_decide (action = "advertise") then Some (RAdvertise from to (Split nets ","))
   else if bool_decide (action = "accept") then Some (RAccept from to (Split nets ","))
   else None) = Some r ->
  read_rule (fields_line action from to nets) = Some r.
Proof.
  intros Ha Hf Ht Hn Hf0 Ht0 Hp H. unfold read_rule. rewrite Split_fields by done.
  unfold word. by rewrite !bool_decide_eq_true_2, Hp by done.
Qed.

(** An accept rule without prefixes is not of the format. *)
Lemma read_no_prefixes from to : field_text from = true -> field_text to = true ->
  read_rule (fields_line "accept" from to "") = None.
Proof.
  intros Hf Ht. unfold read_rule. rewrite Split_fields by done.
  replace (prefix_list _) with false by (vm_compute; reflexivity). by rewrite andb_false_r.
Qed.

Lemma fields_line_lacks action from to nets :
  lacks (byte 10) action = true -> field_text from = true -> field_text to = true ->
  field_text nets = true -> lacks (byte 10) (fields_line action from to nets) = true.
Proof.
  unfold field_text, fields_line. intros. case_bool_eq.
  apply lacks_Join; [done|]. by repeat constructor.
Qed.

Definition remote_rules (inp : Input) (accepted : list string) (remote : string) : list rule :=
  map (fun n => RAdvertise (LocalIA inp) remote [n]) (AdvertisedNets inp)
  ++ [RAccept remote (LocalIA inp) accepted].

Lemma cidr_char_lacks s sep : ipv4_cidr s -> cidr_char sep = false -> lacks sep s = true.
Proof.
  intros (p & Hp & H4) Hsep. apply ParsePrefix_Ok4 in Hp as [_ Hs]; [|done].
  revert Hs. apply str_forall_weaken. intros c Hc. case_bool_decide; [congruence | done].
Qed.

Lemma accepted_field acc : Forall ipv4_cidr acc -> field_text (Join acc ",") = true.
Proof.
  intros H. unfold field_text. apply andb_true_intro. split; (apply lacks_Join; [done|]);
    (eapply Forall_impl; [exact H|]); intros s Hs; by apply cidr_char_lacks.
Qed.

Lemma accepted_split acc : Forall ipv4_cidr acc -> acc <> [] -> Split (Join acc ",") "," = acc.
Proof.
  intros H Hne. change ","%string with (String "," ""). apply Split_Join; [done|].
  eapply Forall_impl; [exact H|]. intros s Hs. by apply cidr_char_lacks.
Qed.

Lemma ipv4_prefix_list acc : Forall ipv4_cidr acc -> prefix_list acc = true.
Proof.
  unfold prefix_list. induction 1 as [|s acc (p & Hp & _) _ IH]; cbn; [done|]. by rewrite Hp, IH.
Qed.

#[local] Instance text_in4_dec l a : Decision (text_in4 l a).
Proof.
  destruct (decide (Exists (fun s => match ParsePrefix s with
                                     | Ok p => Contains p (Addr4 a) | Err _ => false end = true) l)) as [H|H];
    [left | right]; unfold text_in4.
  - apply Exists_exists in H as (s & Hs & H). destruct (ParsePrefix s) as [p|] eqn:E; [|done]. by exists s, p.
  - intros (s & p & Hs & Hp & Hin). apply H, Exists_exists. exists s. by rewrite Hp.
Defined.

(** The accepted prefixes are none exactly when no address is left. *)
Lemma accepted_none acc (P : Z -> Prop) : Forall ipv4_cidr acc ->
  (forall a, 0 <= a < 2 ^ 32 -> text_in4 acc a <-> P a) ->
  acc = [] <-> forall a, 0 <= a < 2 ^ 32 -> ~ P a.
Proof.
  intros H Hex. split.
  - intros -> a Ha Hp. apply Hex in Hp as (s & p & []%not_elem_of_nil & _). done.
  - intros Hno. destruct H as [|s acc (p & Hp & H4) _]; [done|].
    destruct (ParsePrefix_Ok4 s p Hp H4) as [Hv _]. destruct (in4_nonempty p Hv) as [a Ha].
    pose proof (in4_range p a Hv Ha) as Hr. exfalso. apply (Hno a Hr), (Hex a Hr).
    exists s, p. split; [by left | done].
Qed.

Lemma read_policy_unlines lines rules :
  Forall (fun s => lacks (byte 10) s = true) lines ->
  Forall2 (fun l r => read_rule l = Some r) lines rules ->
  read_policy (unlines lines (byte 10)) = Some rules.
Proof.
  intros Hl H. unfold read_policy. rewrite Split_unlines by done.
  rewrite reverse_snoc, reverse_involutive. by apply mapM_Some.
Qed.

Lemma fields_no_newline inp acc remote : printable inp -> field_text remote = true ->
  Forall ipv4_cidr acc ->
  Forall (fun s => lacks (byte 10) s = true) (remote_lines inp acc remote).
Proof.
  intros (Hia & _ & Hnets) Hr Hacc. pose proof (accepted_field acc Hacc) as Hj.
  unfold remote_lines. apply Forall_app. split; [|apply Forall_singleton; by apply fields_line_lacks].
  apply Forall_map. eapply Forall_impl; [exact Hnets|]. intros n (Hn & _). by apply fields_line_lacks.
Qed.

Lemma remote_lines_read inp acc remote : printable inp -> LocalIA inp <> "" ->
  remote <> "" -> field_text remote = true -> Forall ipv4_cidr acc -> acc <> [] ->
  Forall2 (fun l r => read_rule l = Some r) (remote_lines inp acc remote) (remote_rules inp acc remote).
Proof.
  intros (Hia & _ & Hnets) Hl Hr0 Hr Hacc Hne. pose proof (accepted_field acc Hacc) as Hj.
  unfold remote_lines, remote_rules. apply Forall2_app.
  - induction Hnets as [|n nets (Hn & Hc & Hp) _ IH]; cbn [map]; constructor; [|done].
    apply read_line; try done; rewrite Split_lacks by done; [|done].
    unfold prefix_list. cbn. by rewrite Hp.
  - constructor; [|constructor]. apply read_line; try done; rewrite accepted_split by done; [|done].
    by apply ipv4_prefix_list.
Qed.

Lemma all_lines_no_newline inp acc remotes : printable inp ->
  Forall (fun r => r <> "" /\ field_text r = true) remotes -> Forall ipv4_cidr acc ->
  Forall (fun s => lacks (byte 10) s = true) (mjoin (map (remote_lines inp acc) remotes)).
Proof.
  intros Hp Hr Hacc. induction Hr as [|r rs [_ Hr] _ IH]; cbn; [constructor|].
  apply Forall_app. split; [by apply fields_no_newline | done].
Qed.

Lemma all_lines_read inp acc remotes : printable inp -> LocalIA inp <> "" ->
  Forall (fun r => r <> "" /\ field_text r = true) remotes -> Forall ipv4_cidr acc -> acc <> [] ->
  read_policy (unlines (mjoin (map (remote_lines inp acc) remotes)) (byte 10))
  = Some (mjoin (map (remote_rules inp acc) remotes)).
Proof.
  intros Hp Hl Hr Hacc Hne. apply read_policy_unlines; [by apply all_lines_no_newline|].
  induction Hr as [|r rs [Hr0 Hr] _ IH]; cbn; [by constructor|].
  apply Forall2_app; [by apply remote_lines_read | done].
Qed.

(** One rule without prefixes makes the text unreadable. *)
Lemma no_prefixes_unread inp remotes : printable inp ->
  Forall (fun r => r <> "" /\ field_text r = true) remotes -> remotes <> [] ->
  read_policy (unlines (mjoin (map (remote_lines inp []) remotes)) (byte 10)) = None.
Proof.
  intros Hp Hr Hne. unfold read_policy.
  rewrite Split_unlines by (by apply all_lines_no_newline).
  rewrite reverse_snoc, reverse_involutive. apply mapM_None.
  destruct Hr as [|r rs [_ Hr] _]; [done|]. cbn. apply Exists_app. left.
  unfold remote_lines. apply Exists_app. right. left. apply read_no_prefixes; [done | apply Hp].
Qed.

Lemma elem_of_rules inp acc r : r ∈ mjoin (map (remote_rules inp acc) (AcceptISDASes inp)) <->
  exists remote, remote ∈ AcceptISDASes inp
    /\ ((exists n, n ∈ AdvertisedNets inp /\ r = RAdvertise (LocalIA inp) remote [n])
        \/ r = RAccept remote (LocalIA inp) acc).
Proof.
  rewrite list_elem_of_join. setoid_rewrite list_elem_of_fmap. split.
  - intros (l & Hr & (remote & -> & Hrem)). exists remote. split; [done|].
    unfold remote_rules in Hr. apply elem_of_app in Hr as [Hr | ->%list_elem_of_singleton]; [|by right].
    apply list_elem_of_fmap in Hr as (n & -> & Hn). left. by exists n.
  - intros (remote & Hrem & H). exists (remote_rules inp acc remote).
    split; [|by exists remote]. unfold remote_rules. apply elem_of_app.
    destruct H as [(n & Hn & ->) | ->]; [left | right; by apply list_elem_of_singleton].
    apply list_elem_of_fmap. by exists n.
Qed.

(** The rules of the routing policy of an input. *)
Definition routing_meaning (inp : Input) (rules : list rule) : Prop :=
  (forall from to a, 0 <= a < 2 ^ 32 ->
     accepts rules from to a <->
     from ∈ AcceptISDASes inp /\ to = LocalIA inp /\ ~ text_in4 (ForbiddenCIDRs inp) a)
  /\ (forall from to net, advertises rules from to net <->
       from = LocalIA inp /\ to ∈ AcceptISDASes inp /\ net ∈ AdvertisedNets inp).

Lemma rules_meaning inp acc :
  (forall a, 0 <= a < 2 ^ 32 -> text_in4 acc a <-> ~ text_in4 (ForbiddenCIDRs inp) a) ->
  routing_meaning inp (mjoin (map (remote_rules inp acc) (AcceptISDASes inp))).
Proof.
  intros Hex. split.
  - intros from to a Ha. unfold accepts. setoid_rewrite elem_of_rules. rewrite <- Hex by done. split.
    + by intros (nets & (remote & Hrem & [(n & _ & [=]) | [= -> -> ->]]) & Hin).
    + intros (Hf & -> & Hin). exists acc. split; [|done]. exists from. split; [done | by right].
  - intros from to net. unfold advertises. setoid_rewrite elem_of_rules. split.
    + by intros (nets & (remote & Hrem & [(n & Hn & [= -> -> ->]) | [=]]) & ->%list_elem_of_singleton).
    + intros (-> & Hto & Hnet). exists [net]. split; [|by apply list_elem_of_singleton].
      exists to. split; [done|]. left. by exists net.
Qed.

(** The rendered text is of the format exactly when some address is permitted. *)
Definition routing_text (inp : Input) (text : string) : Prop :=
  ((exists a, 0 <= a < 2 ^ 32 /\ ~ text_in4 (ForbiddenCIDRs inp) a) /\
   exists rules, read_policy text = Some rules /\ routing_meaning inp rules)
  \/ ((forall a, 0 <= a < 2 ^ 32 -> text_in4 (ForbiddenCIDRs inp) a) /\ read_policy text = None).

Lemma routing_rules inp text : RenderRoutingPolicy inp = Val (Ok text) -> printable inp -> routing_text inp text.
Proof.
  unfold RenderRoutingPolicy. intros Hok Hprint. apply go_bind_Ok in Hok as (acc & Hprep & [= <-]).
  destruct (prepare_Ok_ready _ _ Hprep) as (Hia & Has & Hready).
  destruct (prepare_ready_Ok inp (prepare_Ok_ready _ _ Hprep)) as (acc' & H & _ & Hv4 & Hex).
  rewrite Hprep in H. injection H as <-. unfold routing_text.
  pose proof (accepted_none acc _ Hv4 Hex) as Hnone.
  rewrite write_remotes_lines. destruct acc as [|c acc'].
  - right. split; [|apply no_prefixes_unread; (done || apply Hprint)]. intros a Ha. apply dec_stable. by apply Hnone.
  - left. split.
    + destruct (Forall_inv Hv4) as (p & Hp & H4). destruct (ParsePrefix_Ok4 c p Hp H4) as [Hv _].
      destruct (in4_nonempty p Hv) as [a Ha]. pose proof (in4_range p a Hv Ha) as Hr.
      exists a. split; [done|]. apply (Hex a Hr). exists c, p. split; [by left | done].
    + eexists. split; [apply all_lines_read; (done || apply Hprint) | by apply rules_meaning].
Qed.

(** What a text accepts, whether it is of the format or not. *)
Lemma routing_accepts inp text : routing_text inp text ->
  (is_Some (read_policy text) <-> exists a, 0 <= a < 2 ^ 32 /\ ~ text_in4 (ForbiddenCIDRs inp) a) /\
  forall from to a, 0 <= a < 2 ^ 32 ->
    policy_accepts text from to a <->
    from ∈ AcceptISDASes inp /\ to = LocalIA inp /\ ~ text_in4 (ForbiddenCIDRs inp) a.
Proof.
  intros [(Ha & rules & Hr & Hacc & _) | (Hall & Hr)]; unfold policy_accepts; rewrite Hr; split.
  - by split; intros _; [|exists rules].
  - intros from to a Hb. rewrite <- (Hacc from to a Hb). split; [by intros (? & [= <-] & ?) | by exists rules].
  - split; [by intros [? [=]] | intros (a & Ha & Hno); by apply Hall in Ha].
  - intros from to a Hb. split; [by intros (? & [=] & _) | intros (_ & _ & Hno); by apply Hall in Hb].
Qed.

(** ** The traffic policy

    A document [{"ASes": {"<ia>": {"Nets": [...]}, ...}, "ConfigVersion": n}]: the
    ASes the gateway exchanges traffic with, each with its static prefixes. *)
Definition read_as (v : json) : option (list json) :=
  match v with
  | JObj [(k, JArr nets)] => if bool_decide (unquote k = "Nets") then Some nets else None
  | _ => None
  end.

Definition read_traffic (text : string) : option (list (string * list json) * string) :=
  match parse text with
  | Some (JObj [(k1, JObj ases); (k2, JNum version)]) =>
      if bool_decide (unquote k1 = "ASes") && bool_decide (unquote k2 = "ConfigVersion") then
        l ← mapM (fun '(k, v) => nets ← read_as v; Some (unquote k, nets)) ases; Some (l, version)
      else None
  | _ => None
  end.

Lemma traffic_ases inp ia x : ASes (traffic_doc inp) !! ia = Some x <-> ia ∈ AcceptISDASes inp /\ x = MkAS [].
Proof.
  cbn [traffic_doc ASes]. assert (H : forall l (m : gmap string trafficPolicyAS),
    foldl (fun m remote => <[remote := MkAS []]> m) m l !! ia = Some x <->
    (ia ∈ l /\ x = MkAS []) \/ ((ia ∉ l) /\ m !! ia = Some x)).
  { induction l as [|r l IH]; intros m; cbn [foldl].
    - pose proof (not_elem_of_nil ia). naive_solver.
    - rewrite IH, elem_of_cons, lookup_insert_Some. destruct (decide (ia ∈ l)); naive_solver. }
  rewrite H, lookup_empty. naive_solver.
Qed.

Lemma doc_wf inp : Forall utf8 (AcceptISDASes inp) -> wf 0 (json_of_doc (traffic_doc inp)).
Proof.
  intros Hu. assert (Hk : forall s, str_forall (fun c => code c <? 128) s = true -> raw_text (quote s)) by (intros; by apply quote_raw, utf8_ascii).
  apply wf_obj; [exact depth0|]. apply Forall_cons. split; [|apply Forall_singleton].
  - split; [by apply Hk|]. apply wf_entries; [exact depth1|]. intros k v [Hin ->]%traffic_ases. split.
    + apply quote_raw. by eapply (proj1 (Forall_forall _ _)).
    + apply wf_obj; [exact depth2|]. apply Forall_singleton. split; [by apply Hk|].
      apply wf_arr; [exact depth3 | by apply Forall_nil].
  - split; [by apply Hk | by apply wf_num].
Qed.

Lemma traffic_entries inp text : RenderTrafficPolicy inp = Val (Ok text) -> Forall utf8 (AcceptISDASes inp) ->
  exists l, read_traffic text = Some (l, "1") /\ NoDup (l.*1) /\
    forall ia nets, (ia, nets) ∈ l <-> ia ∈ AcceptISDASes inp /\ nets = [].
Proof.
  unfold RenderTrafficPolicy. intros (acc & _ & [= <-])%go_bind_Ok Hu.
  unfold read_traffic, MarshalIndent. rewrite parse_print; [|by apply indent_ok | by apply doc_wf | done].
  cbv beta iota delta [json_of_doc]. rewrite !unquote_quote by (by apply utf8_ascii).
  set (es := sorted_entries (ASes (traffic_doc inp))).
  assert (Hes : forall k v, (k, v) ∈ es <-> k ∈ AcceptISDASes inp /\ v = MkAS []).
  { intros k v. unfold es. rewrite sorted_entries_lookup. apply traffic_ases. }
  exists (map (fun '(k, _) => (k, [])) es). split_and!.
  - rewrite !bool_decide_eq_true_2 by done. cbn [andb].
    replace (mapM _ _) with (Some (map (fun '(k, _) => (k, [] : list json)) es)); [done|]. symmetry. apply mapM_Some.
    apply Forall2_fmap_2. apply Forall_Forall2_diag, Forall_forall. intros [k v] [Hk ->]%Hes.
    cbv beta iota. rewrite (unquote_quote k) by (by eapply (proj1 (Forall_forall _ _))). vm_compute (read_as _). done.
  - replace ((map _ es).*1) with (es.*1); [apply sorted_entries_nodup|].
    rewrite <- list_fmap_compose. apply list_fmap_ext. by intros i [k v] _.
  - intros ia nets. rewrite list_elem_of_fmap. split.
    + intros ([k v] & [= -> ->] & [Hk _]%Hes). done.
    + intros [Hin ->]. exists (ia, MkAS []). split; [done | by apply Hes].
Qed.


(** The two cases occur. *)
Definition closed_input : Input :=
  MkInput "1-ff00:0:112" ["10.128.2.0/23"] ["1-ff00:0:110"] ["0.0.0.0/0"].

