(* ===== verification/Sig.v ===== *)
(** * [internal/agent/sig]: the embedded gateway

    [addrs], [Run] and [enableTunForwarding].  The connector and the gateway of
    the SCION library are commands; the goroutine of [Run] is a program of its
    own. *)
From S2P Require Import Prelude Effects GoStrings Api K8s Netip AgentEnv.
Local Open Scope Z_scope.
Local Open Scope prog_scope.

Definition ctrlPort : Z := 30256.
Definition dataPort : Z := 30056.
Definition probePort : Z := 30856.

(** [ReloadTrigger] and [OnUp] are only asked whether they are nil. *)
Record Params := MkParams {
  ConfigDir : string;
  p_TrafficPolicyFile : string;
  p_RoutingPolicyFile : string;
  TunName : string;
  NodeIP : list Z;
  has_ReloadTrigger : bool;
  has_OnUp : bool
}.

Definition addrs (nodeIP : list Z) : UDPAddr * UDPAddr * UDPAddr :=
  (MkUDPAddr nodeIP ctrlPort, MkUDPAddr nodeIP dataPort, MkUDPAddr nodeIP probePort).

(** [netip.AddrFromSlice], of which only the bytes matter here. *)
Definition AddrFromSlice (ip : list Z) : option (list Z) :=
  if (length ip =? 4)%nat || (length ip =? 16)%nat then Some ip else None.

(** The 16 bytes of [net.ParseIP]'s result. *)
Fixpoint bytes_be (n : nat) (v : Z) : list Z :=
  match n with O => [] | S m => bytes_be m (v / 256) ++ [v mod 256] end.

Definition To16 (a : Addr) : list Z :=
  match a with
  | AddrZero => []
  | Addr4 v => bytes_be 16 (Z.shiftl 65535 32 + v)
  | Addr6 v _ => bytes_be 16 v
  end.

(** ** The tun device *)
Definition exhausted (last : option gerror) : gerror :=
  let m := [Lit "enabling tun forwarding after retries exhausted"] in
  match last with Some e => wrapf (m ++ [Lit ": "]) e | None => errorf m end.

Fixpoint tun_attempts (n : nat) (path : string) (delay : Z) (last : option gerror) : agent (option gerror) :=
  match n with
  | O => Ret (Some (exhausted last))
  | S m =>
      d ← call (Sleep delay);
      match d with
      | Some err => Ret (Some err)
      | None =>
          w ← call (WriteFile path "1");
          match w with
          | None => Ret None
          | Some err => tun_attempts m path delay (Some err)
          end
      end
  end.

Definition enableTunForwarding (path : string) (attempts delay : Z) : agent (option gerror) :=
  tun_attempts (Z.to_nat attempts) path delay None.

Definition forwarding_path (tun : string) : string :=
  JoinPath ["/proc/sys/net/ipv4/conf"; tun; "forwarding"].

(** The goroutine that [Run] starts; its error is only logged. *)
Definition tun_goroutine (p : Params) : agent (option gerror) :=
  enableTunForwarding (forwarding_path (TunName p)) 60 Second.

(** ** [Run] *)
Definition new_gateway (p : Params) (localIA : string) (nodeIP : list Z) : Gateway :=
  let '(ctrlAddr, dataAddr, probeAddr) := addrs nodeIP in
  MkGateway "scion-node-agent" (p_TrafficPolicyFile p) (p_RoutingPolicyFile p)
    ctrlAddr (udp_IP ctrlAddr) (udp_IP ctrlAddr) (udp_IP ctrlAddr) probeAddr (udp_IP ctrlAddr)
    dataAddr (udp_IP dataAddr) (TunName p) localIA.

(** With the gateway constructed. *)
Definition start_gateway (p : Params) (gw : Gateway) : agent (result unit) :=
  _ ← (if has_OnUp p then call OnUp else Ret tt);
  _ ← call (Spawn "tun forwarding");
  e ← call (GatewayRun gw);
  Ret (check e).

(** The address to bind: the node's, or the library's choice. *)
Definition bind_ip (p : Params) : agent (result (list Z)) :=
  if bool_decide (NodeIP p = []) then
    r ← call DefaultLocalIP;
    match r with
    | Err err => Ret (Err (wrapf [Lit "determining default local IP: "] err))
    | Ok ip => Ret (Ok ip)
    end
  else Ret (Ok (NodeIP p)).

(** With the connector open. *)
Definition with_connector (p : Params) : agent (result unit) :=
  r ← call LocalIA;
  match r with
  | Err err => Ret (Err (wrapf [Lit "retrieving local ISD-AS: "] err))
  | Ok localIA =>
      nodeIP <~ bind_ip p;
      match AddrFromSlice nodeIP with
      | None => Ret (Err (errorf [Lit "invalid IP address"]))
      | Some _ => start_gateway p (new_gateway p localIA nodeIP)
      end
  end.

Definition certs_dir (configDir : string) : string := JoinPath [configDir; "certs"].

Definition sig_Run (p : Params) : agent (result unit) :=
  if negb (has_ReloadTrigger p) then Ret (Err (errorf [Lit "ReloadTrigger must not be nil"]))
  else
    e ← call (LoadASInfo (JoinPath [ConfigDir p; "topology.json"]));
    match e with
    | Some err => Ret (Err (wrapf [Lit "loading AS info from topology: "] err))
    | None =>
        e ← call (Acquire "connector" (certs_dir (ConfigDir p)));
        match e with
        | Some err => Ret (Err (wrapf [Lit "creating standalone daemon connector: "] err))
        | None =>
            r ← with_connector p;
            _ ← call (Release "connector" (certs_dir (ConfigDir p)));
            Ret r
        end
    end.
