(* ===== verification/Resources.v ===== *)
(** * Resources that are opened and closed

    A trace is [balanced] when every resource that was opened in it is closed
    again and nothing else is.  Databases, connectors and periodic tasks are
    closed in the reverse order of opening; a storage in memory is closed at any
    time after it was made.  A listener is handed over to the goroutine that
    serves it, which closes it before it ends; the [Wait] of the group returns
    after all its goroutines have ended. *)
From S2P Require Import Prelude Effects Api K8s AgentEnv.

Abbreviation stack := (list (string * string)).

Definition pop (x : string * string) (st : stack) : option stack :=
  match st with
  | top :: st' => if bool_decide (top = x) then Some st' else None
  | [] => None
  end.

Fixpoint take_out (x : string * string) (st : stack) : option stack :=
  match st with
  | y :: st' => if bool_decide (y = x) then Some st' else st'' ← take_out x st'; Some (y :: st'')
  | [] => None
  end.

(** The open resources, and those handed over to the server. *)
Abbreviation held := (stack * stack)%type.

Definition on_open (f : stack -> option stack) (h : held) : option held :=
  st ← f (fst h); Some (st, snd h).

Definition push (x : string * string) : held -> option held := on_open (fun st => Some (x :: st)).

Definition hand_over (h : held) : option held :=
  match fst h with
  | ("listener", a) :: st => Some (st, ("listener", a) :: snd h)
  | _ => None
  end.

(** The resources after an event; [None] when one is closed that may not be, or
    the server started without a listener. *)
Definition resource_step (ev : event aresp) (h : held) : option held :=
  let 'existT c r := ev in
  match c as c return aresp c -> option held with
  | Acquire n a => fun r => match r with None => push (n, a) h | Some _ => Some h end
  | Release n a => fun _ => on_open (pop (n, a)) h
  | Start n => fun _ => push (n, "") h
  | Stop n => fun _ => on_open (pop (n, "")) h
  | NewStorage n => fun _ => push (n, "") h
  | Close n => fun _ => on_open (take_out (n, "")) h
  | Listen a => fun r => match r with None => push ("listener", a) h | Some _ => Some h end
  | Spawn n => fun _ => if bool_decide (n = "serve") then hand_over h else Some h
  | GroupWait => fun _ => Some (fst h, [])
  | _ => fun _ => Some h
  end r.

Fixpoint resources (tr : list (event aresp)) (h : held) : option held :=
  match tr with
  | [] => Some h
  | ev :: tr' => h' ← resource_step ev h; resources tr' h'
  end.

Definition balanced (tr : list (event aresp)) : Prop := forall st, resources tr (st, []) = Some (st, []).

Lemma resources_app t1 t2 h : resources (t1 ++ t2) h = (h' ← resources t1 h; resources t2 h').
Proof.
  revert h. induction t1 as [|ev t1 IH]; intros h; [done|]. cbn [app resources].
  destruct (resource_step ev h); [apply IH | done].
Qed.

Lemma balanced_nil : balanced [].
Proof. done. Qed.

Lemma balanced_app t1 t2 : balanced t1 -> balanced t2 -> balanced (t1 ++ t2).
Proof. intros H1 H2 st. rewrite resources_app, H1. cbn. apply H2. Qed.

(** Events that neither open nor close. *)
Definition neutral (c : acmd) : bool := 
  match c with
  | Acquire _ _ | Release _ _ | Start _ | Stop _ | NewStorage _ | Close _ | Listen _ => false
  | Spawn n => negb (bool_decide (n = "serve"))
  | _ => true
  end.

Lemma balanced_neutral c r tr : neutral c = true -> balanced tr -> balanced (existT c r :: tr).
Proof.
  intros Hc Ht st. cbn [resources].
  assert (Hs : resource_step (existT c r) (st, []) = Some (st, [])).
  { destruct c; try discriminate Hc; try reflexivity. cbn in Hc |- *. apply negb_true_iff in Hc. by rewrite Hc. }
  rewrite Hs. apply Ht.
Qed.

Lemma balanced_failed n a e tr : balanced tr -> balanced (existT (Acquire n a) (Some e) :: tr).
Proof. intros Ht st. apply Ht. Qed.

Lemma balanced_bracket n a x t1 t2 : balanced t1 -> balanced t2 ->
  balanced (existT (Acquire n a) None :: t1 ++ existT (Release n a) x :: t2).
Proof.
  intros H1 H2 st. cbn [resources resource_step push on_open mbind option_bind fst snd].
  rewrite resources_app, H1. cbn.
  rewrite bool_decide_eq_true_2 by done. apply H2.
Qed.

Lemma balanced_task n u v t1 t2 : balanced t1 -> balanced t2 ->
  balanced (existT (Start n) u :: t1 ++ existT (Stop n) v :: t2).
Proof.
  intros H1 H2 st. cbn [resources resource_step push on_open mbind option_bind fst snd].
  rewrite resources_app, H1. cbn.
  rewrite bool_decide_eq_true_2 by done. apply H2.
Qed.

Lemma balanced_only {A} (p : agent A) tr a : only neutral p -> exec p tr a -> balanced tr.
Proof.
  intros Hp He. pose proof (only_exec _ _ _ _ _ Hp He) as H. clear Hp He.
  induction tr as [|[c r] tr IH]; [done|]. cbn [forallb projT1] in H. apply andb_prop in H as [Hc Ht].
  apply balanced_neutral; auto.
Qed.

#[export] Hint Resolve balanced_nil balanced_app balanced_failed : scion.
