(* ===== verification/SigProps.v ===== *)
(** * Properties of the embedded gateway

    The order in which [Run] brings the gateway up and down, and the retries of
    [enableTunForwarding]. *)
From S2P Require Import Prelude Effects GoStrings Api K8s Netip AgentEnv FileSystem Resources Sig.
Local Open Scope Z_scope.

(** Rounds of [enableTunForwarding] in which the write failed. *)
Definition failed_round (path : string) (delay : Z) (err : gerror) : list (event aresp) :=
  [existT (Sleep delay) None; existT (WriteFile path "1") (Some err)].

Lemma tun_attempts_spec n path delay prev tr r : exec (tun_attempts n path delay prev) tr r ->
  exists errs rest, (length errs <= n)%nat /\ tr = mjoin (failed_round path delay <$> errs) ++ rest /\
    ((rest = [existT (Sleep delay) None; existT (WriteFile path "1") None] /\ (length errs < n)%nat /\ r = None) \/
     (exists err, rest = [existT (Sleep delay) (Some err)] /\ (length errs < n)%nat /\ r = Some err) \/
     (rest = [] /\ length errs = n /\ r = Some (exhausted (last (option_list prev ++ errs))))).
Proof.
  revert prev tr. induction n as [|n IH]; intros prev tr He; cbn [tun_attempts] in He.
  - exec_inv He. subst r. exists [], []. split; [done|]. split; [done|]. do 2 right. by destruct prev.
  - exec_inv He. destruct r0 as [err|].
    + exec_inv He. subst r. exists [], [existT (Sleep delay) (Some err)]. split; [cbn; lia|]. split; [done|].
      right; left. exists err. split; [done|]. split; [cbn; lia | done].
    + exec_inv He. destruct r0 as [err|].
      * apply IH in He as (errs & rest & Hl & -> & Hrest). exists (err :: errs), rest.
        split; [cbn; lia|]. split; [done|]. destruct Hrest as [(-> & Hn & ->) | [(e & -> & Hn & ->) | (-> & Hn & ->)]].
        -- left. split; [done|]. split; [cbn; lia | done].
        -- right; left. exists e. split; [done|]. split; [cbn; lia | done].
        -- do 2 right. split; [done|]. split; [cbn; lia|]. by destruct prev.
      * exec_inv He. subst r. exists [], [existT (Sleep delay) None; existT (WriteFile path "1") None].
        split; [cbn; lia|]. split; [done|]. left. split; [done|]. split; [cbn; lia | done].
Qed.

(** A configuration, and a gateway that ends without error. *)
Definition sample_params : Params :=
  MkParams "/var/lib/scion/etc" "/var/lib/scion/gateway-traffic.json" "/var/lib/scion/gateway-routing.policy" "scion0"
    (To16 (Addr4 3221225987)) true true.

Definition no_answer (_ : string) : result HttpResp := Err (errorf [Lit "no network"]).

(** [enableTunForwarding] always returns, after at most [attempts] writes of
    [1], each after a pause: without error exactly when its last write
    succeeded, with the context's error as soon as that is cancelled, and with the
    last write's error only after [attempts] failed writes. *)
Lemma enableTunForwarding_spec path attempts delay tr r :
  exec (enableTunForwarding path attempts delay) tr r ->
  exists errs rest, (length errs <= Z.to_nat attempts)%nat /\
    tr = mjoin (failed_round path delay <$> errs) ++ rest /\
    ((rest = [existT (Sleep delay) None; existT (WriteFile path "1") None] /\
      Z.of_nat (length errs) < attempts /\ r = None) \/
     (exists err, rest = [existT (Sleep delay) (Some err)] /\
      Z.of_nat (length errs) < attempts /\ r = Some err) \/
     (rest = [] /\ length errs = Z.to_nat attempts /\ r = Some (exhausted (last errs)))).
Proof.
  intros (errs & rest & Hl & -> & H)%tun_attempts_spec. exists errs, rest. split; [done|]. split; [done|].
  destruct H as [(-> & Hn & ->) | [(err & -> & Hn & ->) | (-> & Hn & ->)]].
  - left. split; [done|]. split; [lia | done].
  - right; left. exists err. split; [done|]. split; [lia | done].
  - by do 2 right.
Qed.

Lemma enableTunForwarding_spec_witness :
  result_of aresp (sim no_answer) (enableTunForwarding "/proc/forwarding" 60 Second) ∅ = None /\
  exists errs rest, (length errs <= 60)%nat /\
    trace_of aresp (sim no_answer) (enableTunForwarding "/proc/forwarding" 60 Second) ∅
    = mjoin (failed_round "/proc/forwarding" Second <$> errs) ++ rest.
Proof.
  destruct (enableTunForwarding_spec "/proc/forwarding" 60 Second _ _
    (run_exec aresp (sim no_answer) (enableTunForwarding "/proc/forwarding" 60 Second) ∅))
    as (errs & rest & Hl & Ht & _). split; [vm_compute; reflexivity|].
  exists errs, rest. split; [exact Hl | exact Ht].
Defined.

(** The commands that bring the gateway up. *)
Definition is_start (ev : event aresp) : bool :=
  match projT1 ev with OnUp | Spawn _ | GatewayRun _ => true | _ => false end.

(** The events between the connector and the end of the gateway. *)
Definition up_events (p : Params) : list (event aresp) :=
  (if has_OnUp p then [existT OnUp tt] else []) ++ [existT (Spawn "tun forwarding") tt].

Definition certs_of (p : Params) : string := certs_dir (ConfigDir p).

Lemma start_gateway_exec p gw tr r : exec (start_gateway p gw) tr r ->
  exists e, tr = up_events p ++ [existT (GatewayRun gw) e] /\ r = check e.
Proof.
  unfold start_gateway, up_events. intros (tr1 & tr2 & u & -> & H1 & He)%exec_mbind.
  assert (tr1 = if has_OnUp p then [existT OnUp tt] else []) as ->.
  { destruct (has_OnUp p); [apply exec_call in H1 as -> | by destruct H1 as [-> _]]. by destruct u. }
  exec_inv He. subst r. exists r1. destruct r0. by rewrite <- app_assoc.
Qed.

Lemma bind_ip_exec p tr ip : exec (bind_ip p) tr (Ok ip) -> forallb (fun ev => negb (is_start ev)) tr = true /\
  (NodeIP p <> [] -> ip = NodeIP p).
Proof.
  unfold bind_ip. case_bool_decide as E; intros He.
  - exec_inv He. destruct r; exec_inv He; by split.
  - exec_inv He. injection He as ->. by split.
Qed.

Definition no_start (tr : list (event aresp)) : Prop := forallb (fun ev => negb (is_start ev)) tr = true.

Lemma no_start_app t1 t2 : no_start t1 -> no_start t2 -> no_start (t1 ++ t2).
Proof. unfold no_start. intros H1 H2. by rewrite forallb_app, H1, H2. Qed.

(** The gateway runs, on the address of the node if one was given. *)
Definition gateway_ran (p : Params) (tr : list (event aresp)) (r : result unit) : Prop :=
  exists pre ia ip e, tr = pre ++ up_events p ++ [existT (GatewayRun (new_gateway p ia ip)) e] /\
    no_start pre /\ r = check e /\ (NodeIP p <> [] -> ip = NodeIP p) /\ AddrFromSlice ip = Some ip.

Lemma with_connector_exec p tr r : exec (with_connector p) tr r ->
  balanced tr /\ (gateway_ran p tr r \/ no_start tr /\ is_ok r = false).
Proof.
  intros He. split.
  { eapply balanced_only; [|exact He]. unfold with_connector, bind_ip, start_gateway. only_steps. }
  unfold with_connector in He. exec_inv He. destruct r0 as [ia|err]; [|exec_inv He; subst; by right].
  apply exec_try in He as [(tr1 & tr2 & ip & -> & [Hs Hip]%bind_ip_exec & He) | (err & -> & He)].
  - destruct (AddrFromSlice ip) as [ip'|] eqn:Ea.
    + apply start_gateway_exec in He as (e & -> & ->). left.
      exists (existT LocalIA (Ok ia) :: tr1), ia, ip, e. split_and!; [done | exact Hs | done | done |].
      unfold AddrFromSlice in *. by destruct (_ || _).
    + exec_inv He. subst r. right. rewrite app_nil_r. by split.
  - right. split; [|done]. unfold bind_ip in He. case_bool_decide; exec_inv He; [|done].
    by destruct r; exec_inv He.
Qed.

(** C20: The gateway is reported as up at most once, and only with the connector
    open and the gateway constructed, immediately before it runs on the address
    of the node and the three fixed ports; a failure before that point reports
    nothing and starts nothing.  On every path the connector is closed exactly
    when it was opened, after the gateway has ended, and the answer is the
    gateway's. *)
Theorem sig_Run_ordering p tr r : exec (sig_Run p) tr r ->
  balanced tr /\
  (no_start tr /\ is_ok r = false \/
   exists t1 t2 c, tr = t1 ++ t2 ++ [existT (Release "connector" (certs_of p)) c] /\ no_start t1 /\
     existT (Acquire "connector" (certs_of p)) None ∈ t1 /\ has_ReloadTrigger p = true /\ gateway_ran p t2 r).
Proof.
  unfold sig_Run. intros He. destruct (has_ReloadTrigger p) eqn:Et; cbn [negb] in He.
  2:{ exec_inv He. subst. split; [done|]. by left. }
  exec_inv He. destruct r0 as [err|].
  { exec_inv He. subst. split; [done|]. by left. }
  exec_inv He. destruct r0 as [err|].
  { exec_inv He. subst. split; [done|]. by left. }
  apply exec_mbind in He as (tr1 & tr2 & r1 & -> & [Hb Hr]%with_connector_exec & He). exec_inv He. subst r1.
  split.
  - apply balanced_neutral; [done|]. by apply balanced_bracket.
  - destruct Hr as [Hg | [Hn Hr]]; [right | left].
    + exists [existT (LoadASInfo (JoinPath [ConfigDir p; "topology.json"])) None; existT (Acquire "connector" (certs_of p)) None], tr1, r0.
      split_and!; [done | done | | done | done]. apply list_elem_of_further, list_elem_of_here.
    + split; [|done]. apply (no_start_app (_ :: _ :: tr1)); [exact Hn | done].
Qed.

Lemma sig_Run_ordering_witness :
  balanced (trace_of aresp (sim no_answer) (sig_Run sample_params) ∅) /\
  result_of aresp (sim no_answer) (sig_Run sample_params) ∅ = Ok tt.
Proof.
  destruct (sig_Run_ordering sample_params _ _ (run_exec aresp (sim no_answer) (sig_Run sample_params) ∅)) as [Hb _].
  split; [exact Hb | vm_compute; reflexivity].
Defined.

