(* ===== verification/DaemonAPI.v ===== *)
(** * [internal/agent/daemonapi]: the daemon API on the node

    [Run] with its deferred calls, [registerOrReuse] and [resetStaleTrustCache].
    The objects of the SCION and gRPC libraries are opened, started and closed by
    commands; [server_config] is how they are wired to each other. *)
From S2P Require Import Prelude Effects GoStrings GoTime Api K8s AgentEnv Sig.
Local Open Scope Z_scope.
Local Open Scope prog_scope.

(** ** [registerOrReuse]

    The collector to use: the new one, or the registered one; the type assertion
    panics on a collector of another type. *)
Definition registerOrReuse (c : string) : agent (go string) :=
  r ← call (Register c);
  match r with
  | Registered => Ret (Val (Ok c))
  | AlreadyRegistered (Some existing) => Ret (Val (Ok existing))
  | AlreadyRegistered None => Ret Panic
  | RegisterFailed err => Ret (Val (Err err))
  end.

(** ** [resetStaleTrustCache] *)
Definition trust_db (stateDir : string) : string := JoinPath [stateDir; "sd.trust.db"].
Definition path_db (stateDir : string) : string := JoinPath [stateDir; "sd.path.db"].

(** The files of both caches, in the order of the two loops. *)
Definition cache_files (stateDir : string) : list string :=
  base ← ["sd.trust.db"; "sd.path.db"]; suffix ← [""; "-wal"; "-shm"]; [JoinPath [stateDir; base +:+ suffix]].

Fixpoint remove_all (files : list string) : agent (result unit) :=
  match files with
  | [] => Ret (Ok tt)
  | p :: files' =>
      e ← call (Remove p);
      match e with
      | Some err => if negb (is_kind ENotExist err)
                    then Ret (Err (wrapf [Lit "removing stale daemon cache {file="; Lit p; Lit "}: "] err))
                    else remove_all files'
      | None => remove_all files'
      end
  end.

Definition resetStaleTrustCache (certsDir stateDir : string) : agent (result unit) :=
  let db := trust_db stateDir in
  e ← call (Acquire "trust storage" db);
  match e with
  | Some err => Ret (Err (wrapf [Lit "opening trust cache for preflight: "] err))
  | None =>
      loadErr ← call (LoadTRCs certsDir db);
      closeErr ← call (Release "trust storage" db);
      match closeErr, loadErr with
      | Some err, None => Ret (Err (wrapf [Lit "closing trust cache after preflight: "] err))
      | None, None => Ret (Ok tt)
      | _, Some err =>
          if negb (is_kind EWriteFailed err) then Ret (Err (wrapf [Lit "preflight TRC load: "] err))
          else remove_all (cache_files stateDir)
      end
  end.

(** ** [Run] *)

(** The resolver of service addresses knows the control service only. *)
Definition SvcResolver (is_SvcCS : bool) (controlServices : list string) : outcome (list string) :=
  if negb is_SvcCS then Panic else Val controlServices.

Definition fail (m : string) (err : gerror) : agent (go unit) := Ret (Val (Err (wrapf [Lit m] err))).

(** The objects of [Run].  The engine's inspector caches; the verifier is the one
    that checks segments. *)
Definition queryInterval : Z := 5 * Minute.
Definition dialer : object := TCPDialer TopologyLoader.
Definition engine (certsDir stateDir : string) : object :=
  TrustEngine certsDir (Database "trust storage" (trust_db stateDir)) dialer.
Definition requester : object := Requester dialer.
Definition verifier (certsDir stateDir : string) : object := Verifier (engine certsDir stateDir).

Definition fetcher_config (certsDir stateDir : string) : FetcherConfig :=
  MkFetcherConfig TopologyLoader TopologyLoader TopologyLoader TopologyLoader requester
    (Database "path storage" (path_db stateDir)) (engine certsDir stateDir) (verifier certsDir stateDir)
    RevocationCache queryInterval.

Definition server_config (certsDir stateDir : string) : ServerConfig :=
  MkServerConfig TopologyLoader TopologyLoader TopologyLoader (fetcher_config certsDir stateDir)
    (engine certsDir stateDir) RevocationCache None.

(** With the listener open. *)
Definition serve_group (certsDir stateDir : string) : agent (go unit) :=
  _ ← call (RegisterServer (server_config certsDir stateDir));
  _ ← call (Spawn "serve");
  _ ← call (Spawn "graceful stop");
  e ← call GroupWait;
  Ret (Val (check e)).

Definition listen (certsDir stateDir listenAddr : string) : agent (go unit) :=
  e ← call (Listen listenAddr);
  match e with
  | Some err => fail "listening: " err
  | None => serve_group certsDir stateDir
  end.

(** With the trust database open. *)
Definition with_trust_db (certsDir stateDir listenAddr : string) : agent (go unit) :=
  r ← registerOrReuse "trustengine_db_queries_total";
  match r with
  | Panic => Ret Panic
  | NoFuel => Ret NoFuel
  | Val (Err err) => fail "registering trust DB metrics: " err
  | Val (Ok _) =>
      e ← call (Construct "trust engine" certsDir);
      match e with
      | Some err => fail "creating trust engine: " err
      | None =>
          _ ← call (Start "daemon_trc_loader");
          r ← listen certsDir stateDir listenAddr;
          _ ← call (Stop "daemon_trc_loader");
          Ret r
      end
  end.

(** With the path database open and both cleaners running. *)
Definition with_cleaners (certsDir stateDir listenAddr : string) : agent (go unit) :=
  e ← call (Acquire "trust storage" (trust_db stateDir));
  match e with
  | Some err => fail "initializing trust database: " err
  | None =>
      r ← with_trust_db certsDir stateDir listenAddr;
      _ ← call (Release "trust storage" (trust_db stateDir));
      Ret r
  end.

(** With the error group running the topology loader. *)
Definition with_group (certsDir stateDir listenAddr : string) : agent (go unit) :=
  _ ← call (Spawn "topology");
  _ ← call (NewStorage "revocation storage");
  e ← call (Acquire "path storage" (path_db stateDir));
  match e with
  | Some err => fail "initializing path storage: " err
  | None =>
      _ ← call (Start "sd_segments");
      _ ← call (Start "sd_revocation");
      r ← with_cleaners certsDir stateDir listenAddr;
      _ ← call (Stop "sd_revocation");
      _ ← call (Stop "sd_segments");
      _ ← call (Close "revocation storage");
      _ ← call (Release "path storage" (path_db stateDir));
      Ret r
  end.

(** The deferred function sets the result only when there is no error yet. *)
Definition keep_first (r : go unit) (werr : option gerror) : go unit :=
  match r with Val (Ok _) => Val (check werr) | _ => r end.

Definition daemon_Run (configDir stateDir listenAddr : string) : agent (go unit) :=
  r ← resetStaleTrustCache (certs_dir configDir) stateDir;
  match r with
  | Err err => Ret (Val (Err err))
  | Ok _ =>
      e ← call (Construct "topology loader" (JoinPath [configDir; "topology.json"]));
      match e with
      | Some err => fail "creating topology loader: " err
      | None =>
          r ← with_group (certs_dir configDir) stateDir listenAddr;
          _ ← call Cancel;
          werr ← call GroupWait;
          _ ← call Cancel;
          Ret (keep_first r werr)
      end
  end.
