(* ===== verification/DaemonAPIProps.v ===== *)
(** * Properties of the daemon API

    Resources and goroutines of [Run] on every return path; the files that
    [resetStaleTrustCache] removes and those it leaves alone. *)
From S2P Require Import Prelude Effects GoStrings Api K8s AgentEnv FileSystem Resources Sig SigProps DaemonAPI.
Local Open Scope Z_scope.

(** ** The caches *)
Lemma remove_all_spec files fs tr r seen fs' : exec (remove_all files) tr r -> fs_run fs tr seen fs' ->
  (forall g, g ∈ fs' :: seen -> forall q, g !! q = fs !! q \/ q ∈ files /\ g !! q = None) /\
  (is_ok r = true -> forall q, q ∈ files -> fs' !! q = None).
Proof.
  revert fs tr seen. induction files as [|p files IH]; intros fs tr seen He Hr; cbn [remove_all] in He.
  { exec_inv He. subst r. fs_steps Hr. split; [|set_solver]. intros g ->%list_elem_of_singleton q. by left. }
  exec_inv He. cbn in Hr. destruct Hr as (f1 & s & Hs & -> & Hr).
  assert (H1 : forall q, f1 !! q = fs !! q \/ q = p /\ f1 !! q = None).
  { intros q. destruct r0; [destruct Hs as [-> _]; by left | subst f1].
    destruct (decide (p = q)) as [->|]; [right; by rewrite lookup_delete_eq | left; by apply lookup_delete_ne]. }
  assert (Hmono : (match r0 with Some err => is_kind ENotExist err = true | None => True end) -> f1 !! p = None).
  { destruct r0 as [err|]; [by destruct Hs as [-> Hne] | intros _; subst f1; apply lookup_delete_eq]. }
  destruct (match r0 with Some err => negb (is_kind ENotExist err) | None => false end) eqn:Estop.
  - destruct r0 as [err|]; [|done]. rewrite Estop in He. exec_inv He. subst r. fs_steps Hr.
    split; [|done]. intros g [-> | ->%list_elem_of_singleton]%elem_of_cons q;
      destruct (H1 q) as [?|[-> ?]]; auto; right; split; auto; apply list_elem_of_here.
  - assert (He' : exec (remove_all files) tr0 r).
    { destruct r0 as [err|]; [|done]. by rewrite Estop in He. }
    destruct (IH _ _ _ He' Hr) as [Hall Hok]. split.
    + assert (Hstep : forall g : fsys, (forall q, g !! q = f1 !! q \/ q ∈ files /\ g !! q = None) ->
        forall q, g !! q = fs !! q \/ q ∈ p :: files /\ g !! q = None).
      { intros g Hg q. destruct (Hg q) as [-> | [? ?]]; [|right; split; [by apply list_elem_of_further | done]].
        destruct (H1 q) as [? | [-> ?]]; [by left | right; split; [apply list_elem_of_here | done]]. }
      intros g [-> | [-> | Hg]%elem_of_cons]%elem_of_cons; apply Hstep.
      * apply Hall. by left.
      * intros q. by left.
      * apply Hall. by right.
    + intros Hr' q [-> | Hq]%elem_of_cons; [|auto].
      assert (Hp : f1 !! p = None) by (apply Hmono; destruct r0; [by apply negb_false_iff | done]).
      destruct (Hall fs' (list_elem_of_here _ _) p) as [-> | [_ ?]]; done.
Qed.

Lemma remove_all_result files tr r : exec (remove_all files) tr r ->
  r = Ok tt \/ exists p err, p ∈ files /\ existT (Remove p) (Some err) ∈ tr /\ is_kind ENotExist err = false /\
    r = Err (wrapf [Lit "removing stale daemon cache {file="; Lit p; Lit "}: "] err).
Proof.
  revert tr. induction files as [|p files IH]; intros tr He; cbn [remove_all] in He; [exec_inv He; by left|].
  exec_inv He. assert (Hrest : exec (remove_all files) tr0 r -> r = Ok tt \/ exists q err, q ∈ p :: files /\
    existT (Remove q) (Some err) ∈ existT (Remove p) r0 :: tr0 /\ is_kind ENotExist err = false /\
    r = Err (wrapf [Lit "removing stale daemon cache {file="; Lit q; Lit "}: "] err)).
  { intros [->|(q & err & Hq & Hin & H)]%IH; [by left|]. right. exists q, err.
    split; [by apply list_elem_of_further|]. split; [by apply list_elem_of_further | done]. }
  destruct r0 as [err|]; [|auto]. destruct (is_kind ENotExist err) eqn:E; cbn [negb] in He; [auto|].
  exec_inv He. right. exists p, err. split_and!; [apply list_elem_of_here..|done|done].
Qed.

(** How a preflight ended, as the events [e] and [t] after the storage was opened. *)
Definition preflight_end (certsDir stateDir : string) (tr : list (event aresp)) (r : result unit)
    (removed : list (event aresp) -> Prop) : Prop :=
  let db := trust_db stateDir in
  (exists err, tr = [existT (Acquire "trust storage" db) (Some err)] /\
     r = Err (wrapf [Lit "opening trust cache for preflight: "] err)) \/
  exists loadErr closeErr t,
    tr = existT (Acquire "trust storage" db) None :: existT (LoadTRCs certsDir db) loadErr
         :: existT (Release "trust storage" db) closeErr :: t /\
    match loadErr with
    | None => t = [] /\ r = match closeErr with
                           | Some err => Err (wrapf [Lit "closing trust cache after preflight: "] err)
                           | None => Ok tt
                           end
    | Some err => if is_kind EWriteFailed err then removed t
                  else t = [] /\ r = Err (wrapf [Lit "preflight TRC load: "] err)
    end.

Lemma reset_cases certsDir stateDir tr r : exec (resetStaleTrustCache certsDir stateDir) tr r ->
  preflight_end certsDir stateDir tr r (fun t => exec (remove_all (cache_files stateDir)) t r).
Proof.
  unfold resetStaleTrustCache. intros He. exec_inv He. destruct r0 as [err|].
  { exec_inv He. left. by exists err. }
  exec_inv He. right. exists r0, r1, tr0. split; [done|]. destruct r0 as [loadErr|].
  - assert (He' : exec (if negb (is_kind EWriteFailed loadErr)
        then Ret (Err (wrapf [Lit "preflight TRC load: "] loadErr)) else remove_all (cache_files stateDir)) tr0 r)
      by (by destruct r1). clear He.
    destruct (is_kind EWriteFailed loadErr); cbn [negb] in He'; [done|]. by exec_inv He'.
  - destruct r1; by exec_inv He.
Qed.

Lemma preflight_frame certsDir stateDir fs tr r seen fs' :
  exec (resetStaleTrustCache certsDir stateDir) tr r -> fs_run fs tr seen fs' ->
  forall g, g ∈ seen -> forall q, q ∉ db_files (trust_db stateDir) -> q ∉ cache_files stateDir -> g !! q = fs !! q.
Proof.
  intros [(err & -> & _) | (loadErr & closeErr & t & -> & Ht)]%reset_cases Hr g Hg q Hq Hc.
  { cbn in Hr. destruct Hr as (f1 & s1 & H1 & -> & -> & ->). apply list_elem_of_singleton in Hg as ->. auto. }
  cbn in Hr. destruct Hr as (f1 & s1 & H1 & -> & f2 & s2 & H2 & -> & f3 & s3 & H3 & -> & Hr).
  assert (Hpre : forall g, g ∈ [f1; f2; f3] -> g !! q = fs !! q).
  { intros g' Hg'. rewrite !elem_of_cons, elem_of_nil in Hg'.
    destruct Hg' as [-> | [-> | [-> | []]]]; rewrite ?H3, ?H2, ?H1 by done; done. }
  apply (elem_of_app [f1; f2; f3] s3) in Hg as [Hg|Hg]; [by apply Hpre|].
  assert (Hend : t = [] \/ exec (remove_all (cache_files stateDir)) t r).
  { destruct loadErr as [err|]; [|left; apply Ht]. destruct (is_kind EWriteFailed err); [by right | left; apply Ht]. }
  destruct Hend as [-> | He].
  { cbn in Hr. destruct Hr as [-> ->]. by apply not_elem_of_nil in Hg. }
  destruct (remove_all_spec _ _ _ _ _ _ He Hr) as [Hall _].
  destruct (Hall g (list_elem_of_further _ _ _ Hg) q) as [-> | [? _]]; [|done]. apply Hpre. by right; right; left.
Qed.

(** C22: The preflight leaves every file but those of the two caches as it was, at
    every point.  It opens the trust cache, loads the TRCs and closes it; when one
    of the three fails, the error of opening, else of loading, else of closing is
    returned, and nothing is removed.  Only when loading failed as a write, the
    sign of re-bootstrapped trust material, the files of both caches are removed:
    then it succeeds with all of them gone, or returns the error of the removal
    that failed. *)
Theorem resetStaleTrustCache_spec certsDir stateDir fs tr r seen fs' :
  exec (resetStaleTrustCache certsDir stateDir) tr r -> fs_run fs tr seen fs' ->
  (forall g, g ∈ seen -> forall q, q ∉ db_files (trust_db stateDir) -> q ∉ cache_files stateDir ->
     g !! q = fs !! q) /\
  preflight_end certsDir stateDir tr r (fun t =>
    (r = Ok tt /\ forall q, q ∈ cache_files stateDir -> fs' !! q = None) \/
    exists p err, p ∈ cache_files stateDir /\ existT (Remove p) (Some err) ∈ t /\ is_kind ENotExist err = false /\
      r = Err (wrapf [Lit "removing stale daemon cache {file="; Lit p; Lit "}: "] err)).
Proof.
  intros He Hr. split; [by eapply preflight_frame|].
  destruct (reset_cases _ _ _ _ He) as [H | (loadErr & closeErr & t & -> & Ht)]; [by left|].
  right. exists loadErr, closeErr, t. split; [done|]. destruct loadErr as [err|]; [|done].
  destruct (is_kind EWriteFailed err); [|done].
  cbn in Hr. destruct Hr as (f1 & s1 & _ & _ & f2 & s2 & _ & _ & f3 & s3 & _ & _ & Hr).
  destruct (remove_all_result _ _ _ Ht) as [-> | H]; [|by right]. left. split; [done|].
  by apply (remove_all_spec _ _ _ _ _ _ Ht Hr).
Qed.

(** An AS whose trust material changed: the preflight finds a conflict. *)
Definition stale : handler aresp fsys := fun c fs =>
  match c as c return aresp c * fsys with
  | LoadTRCs _ _ => (Some (Error EWriteFailed [Lit "constraint failed"]), fs)
  | c => sim no_answer c fs
  end.

Lemma stale_step c fs : fs_step fs (existT c (fst (stale c fs))) (snd (stale c fs)).
Proof. destruct c; try exact (sim_step no_answer _ fs). by intros q _. Qed.

Lemma stale_run {A} (p : agent A) fs :
  exists seen, fs_run fs (trace_of aresp stale p fs) seen (state_of aresp stale p fs).
Proof. apply handler_run, stale_step. Qed.

Definition stale_fs : fsys := <["/state/sd.trust.db" := "old"]> {["/etc/certs/ISD1-B1-S1.trc" := "new"]}.
Definition stale_reset : agent (result unit) := resetStaleTrustCache "/etc/certs" "/state".

Lemma resetStaleTrustCache_spec_witness :
  state_of aresp stale stale_reset stale_fs !! "/state/sd.trust.db" = None.
Proof.
  destruct (stale_run stale_reset stale_fs) as [seen Hrun].
  destruct (resetStaleTrustCache_spec "/etc/certs" "/state" stale_fs _ _ seen _ (run_exec _ _ _ _) Hrun)
    as [_ [(err & H & _) | (loadErr & closeErr & t & Htr & H)]].
  - apply (f_equal length) in H. vm_compute in H. discriminate H.
  - assert (E : loadErr = Some (Error EWriteFailed [Lit "constraint failed"])).
    { apply (f_equal (fun l => match nth_error l 1 with
        | Some (existT (LoadTRCs _ _) e) => e | _ => None end)) in Htr. vm_compute in Htr. by symmetry. }
    rewrite E in H. cbn in H. destruct H as [[_ H] | (p & err & _ & _ & _ & H)]; [|vm_compute in H; discriminate H].
    apply H. apply list_elem_of_here.
Defined.

(** ** [Run] *)
Lemma reset_balanced certsDir stateDir tr r : exec (resetStaleTrustCache certsDir stateDir) tr r -> balanced tr.
Proof.
  unfold resetStaleTrustCache. intros He. exec_inv He. destruct r0 as [err|].
  { exec_inv He. by apply balanced_failed. }
  exec_inv He.
  apply (balanced_bracket _ _ _ [existT (LoadTRCs certsDir (trust_db stateDir)) r0]); [done|].
  assert (Hrm : forall l, only neutral (remove_all l)).
  { induction l as [|p l IH]; cbn [remove_all]; only_steps; apply IH. }
  revert He. apply balanced_only. only_steps; apply Hrm.
Qed.

Lemma listen_balanced certsDir stateDir addr tr r : exec (listen certsDir stateDir addr) tr r -> balanced tr.
Proof.
  unfold listen, serve_group. intros He. exec_inv He. destruct r0 as [err|].
  - unfold fail in He. exec_inv He. by intros st.
  - exec_inv He. by intros st.
Qed.

Lemma with_trust_db_balanced certsDir stateDir addr tr r : exec (with_trust_db certsDir stateDir addr) tr r -> balanced tr.
Proof.
  unfold with_trust_db. intros (t1 & t2 & x & -> & H1 & He)%exec_mbind. apply balanced_app.
  { revert H1. apply balanced_only. unfold registerOrReuse. only_steps. }
  destruct x as [[c|err]| |]; [|unfold fail in He; exec_inv He; done..].
  exec_inv He. destruct r0 as [err|]; [unfold fail in He; by exec_inv He|].
  exec_inv He. apply exec_mbind in He as (t3 & t4 & x & -> & H3%listen_balanced & He). exec_inv He.
  apply balanced_neutral; [done|]. by apply balanced_task.
Qed.

Lemma with_cleaners_balanced certsDir stateDir addr tr r :
  exec (with_cleaners certsDir stateDir addr) tr r -> balanced tr.
Proof.
  unfold with_cleaners. intros He. exec_inv He. destruct r0 as [err|]; [unfold fail in He; by exec_inv He|].
  apply exec_mbind in He as (t3 & t4 & x & -> & H3%with_trust_db_balanced & He). exec_inv He.
  by apply balanced_bracket.
Qed.

(** Everything is closed but, when the path storage does not open, the revocation
    storage that was made before it. *)
Definition closed (stateDir : string) (tr : list (event aresp)) : Prop :=
  balanced tr \/
  (exists err, existT (Acquire "path storage" (path_db stateDir)) (Some err) ∈ tr) /\
  forall st, resources tr (st, []) = Some (("revocation storage", "") :: st, []).

Lemma closed_around stateDir t1 t2 t3 : balanced t1 -> closed stateDir t2 ->
  (forall st, resources t3 (st, []) = Some (st, [])) -> closed stateDir (t1 ++ t2 ++ t3).
Proof.
  intros H1 [H2 | [(err & Hin) H2]] H3; [left; by repeat apply balanced_app|]. right. split.
  - exists err. set_solver.
  - intros st. rewrite resources_app, H1. cbn. rewrite resources_app, H2. cbn. apply H3.
Qed.

Lemma with_group_closed certsDir stateDir addr tr r :
  exec (with_group certsDir stateDir addr) tr r -> closed stateDir tr.
Proof.
  unfold with_group. intros He. exec_inv He.
  destruct r2 as [err|].
  { unfold fail in He. exec_inv He. right. split; [|done]. exists err. in_list. }
  exec_inv He. left. apply exec_mbind in He as (t3 & t4 & x & -> & H3%with_cleaners_balanced & He). exec_inv He.
  intros st. cbn [resources resource_step]. rewrite bool_decide_eq_false_2 by done.
  cbn [push on_open mbind option_bind fst snd]. rewrite resources_app, H3. cbn.
  by repeat (first [rewrite bool_decide_eq_true_2 by done | rewrite bool_decide_eq_false_2 by done]; cbn).
Qed.

Definition is_Spawn (c : acmd) : bool := match c with Spawn _ => true | _ => false end.
Definition no_Spawn (tr : list (event aresp)) : Prop := forallb (fun ev => negb (is_Spawn (projT1 ev))) tr = true.

Lemma no_Spawn_app t1 t2 : no_Spawn t1 -> no_Spawn t2 -> no_Spawn (t1 ++ t2).
Proof. unfold no_Spawn. intros H1 H2. rewrite forallb_app. by apply andb_true_intro. Qed.

Lemma reset_no_Spawn certsDir stateDir tr r : exec (resetStaleTrustCache certsDir stateDir) tr r -> no_Spawn tr.
Proof.
  assert (Hrm : forall l, only (fun c => negb (is_Spawn c)) (remove_all l)).
  { induction l as [|p l IH]; cbn [remove_all]; only_steps; apply IH. }
  apply (only_exec aresp (fun c => negb (is_Spawn c))). unfold resetStaleTrustCache. only_steps; apply Hrm.
Qed.

(** *** What is open while the server runs *)

(** The databases that an object and the server reach. *)
Fixpoint databases (o : object) : list (string * string) :=
  match o with
  | Database kind path => [(kind, path)]
  | TopologyLoader | RevocationCache => []
  | TCPDialer o | Requester o | Verifier o => databases o
  | TrustEngine _ db dialer => databases db ++ databases dialer
  end.

Definition reached (cfg : ServerConfig) : list (string * string) :=
  let f := sc_Fetcher cfg in
  o ← [sc_IA cfg; sc_MTU cfg; sc_LocalASInfo cfg; fc_IA f; fc_MTU f; fc_Core f; fc_NextHopper f; fc_RPC f; fc_PathDB f;
       fc_Inspector f; fc_Verifier f; fc_RevCache f; sc_Engine cfg; sc_RevCache cfg] ++ option_list (sc_DRKeyClient cfg);
  databases o.

Definition is_serve (c : acmd) : bool := bool_decide (c = Spawn "serve").
Definition no_serve (tr : list (event aresp)) : Prop := forallb (fun ev => negb (is_serve (projT1 ev))) tr = true.

Lemma no_serve_app t1 t2 : no_serve t1 -> no_serve t2 -> no_serve (t1 ++ t2).
Proof. unfold no_serve. intros H1 H2. rewrite forallb_app. by apply andb_true_intro. Qed.

(** The server is started at most once, after it was registered and with all the
    databases it reaches open, and is waited for before anything else happens. *)
Definition serves_open (st : stack) (tr : list (event aresp)) : Prop :=
  no_serve tr \/
  exists pre cfg w post st',
    tr = pre ++ [existT (RegisterServer cfg) tt; existT (Spawn "serve") tt; existT (Spawn "graceful stop") tt;
                 existT GroupWait w] ++ post /\
    no_serve pre /\ no_serve post /\ resources pre (st, []) = Some (st', []) /\ reached cfg ⊆ st' /\
    exists a, head st' = Some ("listener", a).

Lemma serves_open_wrap st st1 a t b :
  no_serve a -> resources a (st, []) = Some (st1, []) -> serves_open st1 t -> no_serve b -> serves_open st (a ++ t ++ b).
Proof.
  intros Ha Hr [Ht | (pre & cfg & w & post & st' & -> & Hpre & Hpost & Hs & Hn)] Hb.
  - left. by repeat apply no_serve_app.
  - right. exists (a ++ pre), cfg, w, (post ++ b), st'. split; [by rewrite <- !app_assoc|].
    split; [by apply no_serve_app|]. split; [by apply no_serve_app|]. by rewrite resources_app, Hr.
Qed.

Lemma only_no_serve {A} (p : agent A) tr a : only (fun c => negb (is_serve c)) p -> exec p tr a -> no_serve tr.
Proof. apply (only_exec aresp (fun c => negb (is_serve c))). Qed.

Lemma remove_all_no_serve l : only (fun c => negb (is_serve c)) (remove_all l).
Proof. induction l as [|p l IH]; cbn [remove_all]; only_steps; apply IH. Qed.

Lemma reset_no_serve certsDir stateDir tr r : exec (resetStaleTrustCache certsDir stateDir) tr r -> no_serve tr.
Proof. apply only_no_serve. unfold resetStaleTrustCache. only_steps; apply remove_all_no_serve. Qed.

Lemma listen_open certsDir stateDir addr st tr r :
  reached (server_config certsDir stateDir) ⊆ st -> exec (listen certsDir stateDir addr) tr r -> serves_open st tr.
Proof.
  intros Hn He. unfold listen in He. exec_inv He. destruct r0 as [err|]; [unfold fail in He; exec_inv He; by left|].
  unfold serve_group in He. exec_inv He. destruct r0, r1, r2. right.
  exists [existT (Listen addr) None], (server_config certsDir stateDir), r3, [], (("listener", addr) :: st).
  split_and!; try done; [|by exists addr]. intros x Hx. apply list_elem_of_further, Hn, Hx.
Qed.

Lemma with_trust_db_open certsDir stateDir addr st tr r :
  reached (server_config certsDir stateDir) ⊆ st -> exec (with_trust_db certsDir stateDir addr) tr r -> serves_open st tr.
Proof.
  intros Hn. unfold with_trust_db. intros (t1 & t2 & x & -> & H1 & He)%exec_mbind.
  assert (Hb1 : balanced t1) by (revert H1; apply balanced_only; unfold registerOrReuse; only_steps).
  assert (Hs1 : no_serve t1) by (revert H1; apply only_no_serve; unfold registerOrReuse; only_steps).
  destruct x as [[c|err]| |]; [|unfold fail in He; exec_inv He; left; by rewrite app_nil_r..].
  exec_inv He. destruct r0 as [err|]; [unfold fail in He; exec_inv He; left; by apply no_serve_app|].
  exec_inv He. apply exec_mbind in He as (t3 & t4 & x & -> & H3 & He). exec_inv He. destruct r0.
  change (serves_open st (t1 ++ [existT (Construct "trust engine" certsDir) None; existT (Start "daemon_trc_loader") tt]
    ++ t3 ++ [existT (Stop "daemon_trc_loader") r1])).
  rewrite app_assoc. eapply serves_open_wrap; [by apply no_serve_app | by rewrite resources_app, Hb1 | | done].
  eapply listen_open; [|exact H3]. set_solver.
Qed.

Lemma with_group_open certsDir stateDir addr st tr r : exec (with_group certsDir stateDir addr) tr r -> serves_open st tr.
Proof.
  unfold with_group. intros He. exec_inv He. destruct r0, r1, r2 as [err|]; [unfold fail in He; exec_inv He; by left|].
  exec_inv He. apply exec_mbind in He as (t3 & t4 & x & -> & H3 & He). exec_inv He. destruct r0, r1.
  eapply (serves_open_wrap _ _ [existT (Spawn "topology") tt; existT (NewStorage "revocation storage") tt; existT (Acquire "path storage" (path_db stateDir)) None;
    existT (Start "sd_segments") tt; existT (Start "sd_revocation") tt] t3); [done | done | | done].
  unfold with_cleaners in H3. exec_inv H3. destruct r0 as [err|]; [unfold fail in H3; exec_inv H3; by left|].
  apply exec_mbind in H3 as (t5 & t6 & y & -> & H5 & H3). exec_inv H3.
  eapply (serves_open_wrap _ _ [existT (Acquire "trust storage" (trust_db stateDir)) None] t5); [done | done | | done].
  eapply with_trust_db_open; [|exact H5]. cbn. set_solver.
Qed.

(** C21: On every return path of [Run], errors and a panic included, each database
    and periodic task that was opened is closed again exactly once, the last one
    first, and so are the listener, by the server it was handed to, and the
    revocation storage; that storage only is left open when the path storage
    could not be opened.  Once a goroutine was started the context is cancelled
    and the group waited for before [Run] returns; and the result is the first
    error, the group's only if there was none before.  The gRPC server starts at
    most once, on the listener and with every database that its configuration
    reaches open, and has ended before any of them is closed. *)
Theorem daemon_Run_cleanup configDir stateDir addr tr r : exec (daemon_Run configDir stateDir addr) tr r ->
  closed stateDir tr /\ serves_open [] tr /\
  ((no_Spawn tr /\ success r = false) \/
   exists t1 t2 r0 w, tr = t1 ++ t2 ++ [existT Cancel tt; existT GroupWait w; existT Cancel tt] /\ no_Spawn t1 /\
     exec (with_group (certs_dir configDir) stateDir addr) t2 r0 /\
     r = match r0 with Val (Ok _) => Val (check w) | _ => r0 end).
Proof.
  unfold daemon_Run. intros (t1 & t2 & x & -> & H1 & He)%exec_mbind.
  pose proof (reset_balanced _ _ _ _ H1) as Hb. pose proof (reset_no_serve _ _ _ _ H1) as Hq.
  pose proof (reset_no_Spawn _ _ _ _ H1) as Hn.
  destruct x as [u|err].
  2:{ exec_inv He. subst r. rewrite app_nil_r. split; [by left|]. split; by left. }
  exec_inv He. destruct r0 as [err|].
  { unfold fail in He. exec_inv He. subst r. split; [left; by apply balanced_app|].
    split; left; [by apply no_serve_app | split; [by apply no_Spawn_app | done]]. }
  apply exec_mbind in He as (t3 & t4 & r0 & -> & H3 & He). exec_inv He. subst r.
  pose proof (with_group_closed _ _ _ _ _ H3) as Hg.
  set (c := existT (Construct "topology loader" (JoinPath [configDir; "topology.json"])) None : event aresp).
  change (c :: t3 ++ ?l) with ([c] ++ t3 ++ l). rewrite app_assoc. split_and!.
  - apply closed_around; [by apply balanced_app | done | done].
  - eapply serves_open_wrap; [by apply no_serve_app | by rewrite resources_app, Hb | | done].
    by eapply with_group_open.
  - right. exists (t1 ++ [c]), t3, r0, r2. split; [by destruct r1, r3|]. split; [by apply no_Spawn_app | done].
Qed.


Lemma daemon_Run_cleanup_witness :
  closed "/state" (trace_of aresp stale (daemon_Run "/etc" "/state" "127.0.0.1:30255") stale_fs) /\
  result_of aresp stale (daemon_Run "/etc" "/state" "127.0.0.1:30255") stale_fs = Val (Ok tt).
Proof.
  destruct (daemon_Run_cleanup "/etc" "/state" "127.0.0.1:30255" _ _
    (run_exec aresp stale (daemon_Run "/etc" "/state" "127.0.0.1:30255") stale_fs)) as [Hb _].
  split; [exact Hb | vm_compute; reflexivity].
Defined.
