(* ===== verification/Agent.v ===== *)
(** * [cmd/agent]: the node agent

    Node identity, the policy input, the rendering of both policy files, the
    start-up sequence of [run] and the loop that re-renders the policies. *)
From S2P Require Import Prelude Effects GoStrings Api K8s Netip Json Config AgentEnv Kube Bootstrap Policy Sig.
Local Open Scope Z_scope.
Local Open Scope prog_scope.

(** ** Small helpers *)
Fixpoint split_parts (parts : list string) : list string :=
  match parts with
  | [] => []
  | p :: parts' =>
      let p := TrimSpace p in
      if negb (bool_decide (p = "")) then p :: split_parts parts' else split_parts parts'
  end.

Definition split (s : string) : list string := split_parts (Split s ",").

Definition is_ipv4_prefix (cidr : string) : bool :=
  match ParsePrefix cidr with Ok prefix => Is4 (paddr prefix) | Err _ => false end.

Definition is_ipv4_ip (ip : string) : bool :=
  match ParseIP ip with Some a => To4_ok a | None => false end.

Definition advertisedNets (info : NodeInfo) (cfg : Config) : list string :=
  (if AdvertisePodCIDR cfg
   then filter (fun cidr => is_ipv4_prefix cidr = true) (PodCIDRs info) else [])
  ++ (if AdvertiseNodeIP cfg && is_ipv4_ip (InternalIP info)
      then [InternalIP info +:+ "/32"] else []).

(** [fmt]'s [%v] of a string slice. *)
Definition slice_text (l : list string) : string := "[" +:+ Join l " " +:+ "]".

Definition checkAdvertisable (cfg : Config) (info : NodeInfo) (nets : list string)
    : option gerror :=
  if AdvertisePodCIDR cfg && bool_decide (nets = [])
  then Some (errorf
    [Lit "pod CIDR advertisement is enabled but no IPv4 pod CIDR was discovered (node ";
     Lit (NodeName cfg); Lit ": podCIDRs="; Lit (slice_text (PodCIDRs info));
     Lit "); the CNI must use node-CIDR-allocator IPAM, or set SCION_LOCAL_PREFIXES, or disable spec.advertisement.podCIDR"])
  else None.

Definition localIA (confDir : string) : agent (result string) :=
  r ← call (ReadFile (JoinPath [confDir; "topology.json"]));
  match r with
  | Err err => Ret (Err err)
  | Ok data =>
      match Unmarshal (decode_struct1 "isd_as") data with
      | Err err => Ret (Err (wrapf [Lit "parsing topology.json: "] err))
      | Ok ia => if bool_decide (ia = "")
                 then Ret (Err (errorf [Lit "topology.json has no isd_as field"]))
                 else Ret (Ok ia)
      end
  end.

Definition policyInput (confDir : string) (info : NodeInfo) (cfg : Config)
    : agent (result Input) :=
  ia <~ localIA confDir;
  Ret (Ok (MkInput ia (advertisedNets info cfg) (split (Config.AcceptISDASes cfg))
             (split (cfg_ForbiddenCIDRs cfg)))).

Definition renderPolicies (inp : Input) (trafficFile routingFile : string) : agent (go unit) :=
  traffic <! Ret (RenderTrafficPolicy inp);
  routing <! Ret (RenderRoutingPolicy inp);
  w ← call (WriteFile trafficFile traffic);
  match w with
  | Some err => Ret (Val (Err err))
  | None => w ← call (WriteFile routingFile routing); Ret (Val (check w))
  end.

(** ** Node identity *)
Section NodeIdentity.
Context `{L : K8sLib}.

(** The node information and whether the IPAM is dynamic. *)
Definition cni_info (nodeName : string) (info : NodeInfo) : agent (result (NodeInfo * bool)) :=
  calico ← CalicoPodCIDRs nodeName;
  match calico with
  | Ok cidrs =>
      let info := if bool_decide (cidrs = []) then info else MkNodeInfo cidrs (InternalIP info) in
      Ret (Ok (info, true))
  | Err calicoErr =>
      if negb (is_kind ENotFound calicoErr) then Ret (Err calicoErr)
      else
        cilium ← CiliumPodCIDRs nodeName;
        match cilium with
        | Ok cidrs =>
            let info := if bool_decide (cidrs = []) then info
                        else MkNodeInfo cidrs (InternalIP info) in
            Ret (Ok (info, true))
        | Err ciliumErr =>
            if negb (is_kind ENotFound ciliumErr) then Ret (Err ciliumErr)
            else Ret (Ok (info, false))
        end
  end.

Definition nodeInfo (env : environ) (cfg : Config) : agent (result (NodeInfo * bool)) :=
  let prefixes := env "SCION_LOCAL_PREFIXES" in
  if negb (bool_decide (prefixes = "")) then
    let ip := env "SCION_NODE_IP" in
    match ParseIP ip with
    | None => Ret (Err (errorf [Lit "SCION_NODE_IP required and must be a valid IP when SCION_LOCAL_PREFIXES is set, got ";
                                Quo ip]))
    | Some _ => Ret (Ok (MkNodeInfo (split prefixes) ip, false))
    end
  else
    c ← call InClusterConfig;
    match c with
    | Some err => Ret (Err (wrapf [Lit "in-cluster config: "] err))
    | None =>
        c ← call NewClientset;
        match c with
        | Some err => Ret (Err err)
        | None =>
            info <~ GetNodeInfo (NodeName cfg);
            c ← call NewDynamicClient;
            match c with
            | Some err => Ret (Err err)
            | None => cni_info (NodeName cfg) info
            end
        end
    end.

(** ** Start-up: [run] up to the first rendered policies *)
Record Setup := MkSetup {
  s_cfg : Config;
  s_info : NodeInfo;
  s_dynamicIPAM : bool;
  s_confDir : string;
  s_trafficFile : string;
  s_routingFile : string;
  s_disc : Discoverer;
  s_input : Input
}.

Definition startup (env : environ) : agent (go Setup) :=
  match FromEnv env with
  | (_, Some err) => Ret (Val (Err (wrapf [Lit "config: "] err)))
  | (cfg, None) =>
      node ← nodeInfo env cfg;
      match node with
      | Err err => Ret (Val (Err (wrapf [Lit "node identity: "] err)))
      | Ok (info, dynamicIPAM) =>
          match ParseIP (InternalIP info) with
          | None => Ret (Val (Err (errorf [Lit "invalid node IP "; Quo (InternalIP info)])))
          | Some _ =>
              let confDir := JoinPath [StateDir cfg; "etc"] in
              let trafficPolicyFile := JoinPath [StateDir cfg; "gateway-traffic.json"] in
              let routingPolicyFile := JoinPath [StateDir cfg; "gateway-routing.policy"] in
              m ← call (MkdirAll confDir);
              match m with
              | Some err => Ret (Val (Err err))
              | None =>
                  match NewDiscoverer (BootstrapMode cfg) (cfg_DiscoveryURL cfg)
                          (cfg_DNSDomain cfg) (cfg_DHCPInterface cfg) with
                  | Err err => Ret (Val (Err (wrapf [Lit "bootstrap discoverer: "] err)))
                  | Ok disc =>
                      f ← Fetch disc confDir;
                      match f with
                      | Err err => Ret (Val (Err (wrapf [Lit "initial bootstrap fetch: "] err)))
                      | Ok _ =>
                          inp <! no_panic (policyInput confDir info cfg);
                          match (match checkAdvertisable cfg info (AdvertisedNets inp) with
                                 | Some err => if negb dynamicIPAM then Some err else None
                                 | None => None
                                 end) with
                          | Some err => Ret (Val (Err err))
                          | None =>
                              r ← renderPolicies inp trafficPolicyFile routingPolicyFile;
                              match go_map_err (wrapf [Lit "initial policy render: "]) r with
                              | Val (Ok _) => Ret (Val (Ok (MkSetup cfg info dynamicIPAM confDir
                                                trafficPolicyFile routingPolicyFile disc inp)))
                              | Val (Err err) => Ret (Val (Err err))
                              | Panic => Ret Panic
                              | NoFuel => Ret NoFuel
                              end
                          end
                      end
                  end
              end
          end
      end
  end.

(** What [run] passes to the gateway; [net.ParseIP] has succeeded before. *)
Definition gateway_params (s : Setup) : Params :=
  MkParams (s_confDir s) (s_trafficFile s) (s_routingFile s) (cfg_TunName (s_cfg s))
    (match ParseIP (InternalIP (s_info s)) with Some a => To16 a | None => [] end) true true.

(** ** The re-render loop

    [rerender] logs its errors and goes on; the answer says whether the
    policies were written and the reload was signalled. *)
Definition rerender (s : Setup) (info : NodeInfo) : agent (outcome bool) :=
  r ← policyInput (s_confDir s) info (s_cfg s);
  match r with
  | Err _ => Ret (Val false)
  | Ok inp =>
      r ← renderPolicies inp (s_trafficFile s) (s_routingFile s);
      match r with
      | Val (Ok _) => _ ← call (TrySend "reload"); Ret (Val true)
      | Val (Err _) => Ret (Val false)
      | Panic => Ret Panic
      | NoFuel => Ret NoFuel
      end
  end.

(** What the loop's [select] can pick: the tick channel is nil, and never
    picked, without dynamic IPAM. *)
Inductive trigger := TopoChanged | Tick.

(** One turn of the loop: the node information it leaves, and whether it
    re-rendered.  [info] is a variable shared by all turns. *)
Definition turn (env : environ) (s : Setup) (info : NodeInfo) (t : trigger)
    : agent (outcome (NodeInfo * bool)) :=
  match t with
  | TopoChanged => r ← rerender s info; Ret (b ← r; Val (info, b))
  | Tick =>
      r ← nodeInfo env (s_cfg s);
      match r with
      | Err _ => Ret (Val (info, false))
      | Ok (current, _) =>
          if bool_decide (PodCIDRs current = PodCIDRs info) then Ret (Val (info, false))
          else r ← rerender s current; Ret (b ← r; Val (current, b))
      end
  end.

Fixpoint turns (env : environ) (s : Setup) (info : NodeInfo) (ts : list trigger)
    : agent (outcome NodeInfo) :=
  match ts with
  | [] => Ret (Val info)
  | t :: ts' =>
      r ← turn env s info t;
      match r with
      | Val (info', _) => turns env s info' ts'
      | Panic => Ret Panic
      | NoFuel => Ret NoFuel
      end
  end.

End NodeIdentity.

(** ** [closeOnce] and [waitForFiles] *)

(** A channel that can be closed, and the [sync.Once] guarding it: closing it a
    second time would panic. *)
Record OnceChan := MkOnceChan { once_done : bool; chan_closed : bool }.

Definition close_chan (c : OnceChan) : outcome OnceChan :=
  if chan_closed c then Panic else Val (MkOnceChan (once_done c) true).

Definition closeOnce (c : OnceChan) : outcome OnceChan :=
  if once_done c then Val c
  else c' ← close_chan c; Val (MkOnceChan true (chan_closed c')).

(** The first path that does not exist, empty when there is none. *)
Fixpoint first_missing (paths : list string) : agent string :=
  match paths with
  | [] => Ret ""
  | p :: paths' =>
      e ← call (Stat p);
      match e with
      | Err _ => Ret p
      | Ok _ => first_missing paths'
      end
  end.

(** [polls] bounds the number of rounds that are followed. *)
Fixpoint waitForFiles (polls : nat) (paths : list string) : agent (outcome (result unit)) :=
  match polls with
  | O => Ret NoFuel
  | S n =>
      missing ← first_missing paths;
      if bool_decide (missing = "") then Ret (Val (Ok tt))
      else
        d ← call (Sleep (5 * Second));
        match d with
        | Some err => Ret (Val (Err err))
        | None => waitForFiles n paths
        end
  end.
