(* ===== verification/AgentProps.v ===== *)
(** * Properties of the node agent

    The operator's policy reaches the agent's policy engine unchanged; what the
    policy files contain and when a reload is signalled; node identity. *)
From S2P Require Import Prelude Effects GoStrings Api K8s Netip NetipFacts Json GoTime Render Config.
From S2P Require Import AgentEnv Kube FileSystem Bootstrap Policy PolicyFacts PolicyProps Agent.
Local Open Scope Z_scope.

(** ** Comma-separated lists *)
Definition list_item (s : string) : Prop :=
  s <> "" /\ str_forall plain_char s = true /\ lacks "," s = true.

Lemma split_parts_items l : Forall list_item l -> split_parts l = l.
Proof.
  induction 1 as [|s l (Hne & Hp & _) _ IH]; [done|]. cbn [split_parts].
  rewrite TrimSpace_plain by done. rewrite bool_decide_eq_false_2 by done. cbn. by rewrite IH.
Qed.

(** What [strings.Join] wrote, [split] reads back. *)
Lemma split_Join l : Forall list_item l -> split (Join l ",") = l.
Proof.
  intros H. destruct (decide (l = [])) as [->|Hne]; [done|]. unfold split.
  rewrite Split_Join; [by apply split_parts_items | done |].
  eapply Forall_impl; [exact H | by intros s (_ & _ & ?)].
Qed.

Lemma cidr_item s : ipv4_cidr s -> list_item s.
Proof.
  intros (p & Hp & H4). destruct (ParsePrefix_Ok4 s p Hp H4) as [_ Hc]. split_and!.
  - intros ->. done.
  - revert Hc. apply str_forall_weaken. intros c. unfold cidr_char, v4_char, plain_char, byte_is, is_digit. lia.
  - revert Hc. apply str_forall_weaken. intros c. unfold cidr_char, v4_char, byte_is, is_digit.
    intros Hc. apply negb_true_iff, bool_decide_eq_false. intros ->. done.
Qed.

Lemma isd_as_item s : isd_as_pattern s = true -> list_item s.
Proof.
  unfold isd_as_pattern. destruct (cut_first 45 s) as [[isd asn]|] eqn:E; [|done].
  intros H. case_bool_eq. apply cut_first_Some in E as (c & Hc & ->).
  assert (Hall : str_forall (fun c => ia_char c || byte_is 45 c) (isd +:+ String c asn) = true).
  { rewrite str_forall_app. cbn. rewrite Hc, orb_true_r. cbn. apply andb_true_intro. split.
    - revert H2. apply str_forall_weaken. intros d. unfold ia_char. by intros ->.
    - revert H0. apply str_forall_weaken. by intros d ->. }
  split_and!.
  - destruct isd; done.
  - revert Hall. apply str_forall_weaken. intros d. unfold ia_char, plain_char, byte_is, is_digit. lia.
  - revert Hall. apply str_forall_weaken. intros d. unfold ia_char, byte_is, is_digit.
    intros Hd. apply negb_true_iff, bool_decide_eq_false. intros ->. done.
Qed.

(** ** From the custom resource to the policy engine *)

(** The environment the kubelet gives the agent's container: [nodeName] stands
    for the field reference to the pod's node name. *)
Definition container_env (o : KObj) : list EnvVar :=
  match o_Payload o with
  | PDaemonSet spec => mjoin (map ct_Env (ps_Containers (dss_Template spec)))
  | _ => []
  end.

Definition pod_environ (o : KObj) (nodeName : string) : environ := fun k =>
  match List.find (fun e => bool_decide (ev_Name e = k)) (container_env o) with
  | Some e => match ev_FieldPath e with Some _ => nodeName | None => ev_Value e end
  | None => ""
  end.

Lemma container_env_DaemonSet sn image deny tls :
  container_env (DaemonSet sn image deny tls) = base_env sn deny ++ (if tls then tls_env else []).
Proof.
  unfold container_env, DaemonSet. destruct (SecretRef (Api.Bootstrap (Spec sn))), tls; cbn; done.
Qed.

Definition refresh_of (sn : ScionNetwork) : string :=
  let i := RefreshInterval (Api.Bootstrap (Spec sn)) in if bool_decide (i = "") then "1h" else i.

Lemma getenv_spec env k def : getenv env k def = if bool_decide (env k = "") then def else env k.
Proof. unfold getenv. by destruct (bool_decide (env k = "")). Qed.

Lemma getenvBool_str env k def b : env k = boolStr b -> getenvBool env k def = b.
Proof. unfold getenvBool. intros ->. by destruct b. Qed.

Lemma FromEnv_DaemonSet sn image deny tls nodeName d :
  crd_valid (Spec sn) = true -> nodeName <> "" -> ParseDuration (refresh_of sn) = Ok d ->
  exists cfg, FromEnv (pod_environ (DaemonSet sn image deny tls) nodeName) = (cfg, None) /\
    NodeName cfg = nodeName /\ BootstrapMode cfg = Mode (Api.Bootstrap (Spec sn)) /\
    cfg_RefreshInterval cfg = d /\ StateDir cfg = stateDir /\
    AdvertisePodCIDR cfg = boolOr (PodCIDR (Advertisement (Spec sn))) true /\
    AdvertiseNodeIP cfg = boolOr (NodeIP (Advertisement (Spec sn))) false /\
    Config.AcceptISDASes cfg = Join (ISDASes (AcceptPolicy (Spec sn))) "," /\
    cfg_ForbiddenCIDRs cfg = Join deny ",".
Proof.
  intros Hv Hn Hd. unfold crd_valid in Hv. rewrite !andb_true_iff in Hv.
  destruct Hv as [[[[[[[[Hm Hurl] _] _] _] _] _] _] _].
  set (env := pod_environ _ _). unfold FromEnv.
  assert (Hget : forall k, env k = pod_environ (DaemonSet sn image deny tls) nodeName k) by done.
  unfold pod_environ in Hget. rewrite container_env_DaemonSet in Hget.
  assert (Hr : getenv env "SCION_REFRESH_INTERVAL" "1h" = refresh_of sn).
  { rewrite getenv_spec, Hget. by destruct tls. }
  assert (Hmode : getenv env "SCION_BOOTSTRAP_MODE" "url" = Mode (Api.Bootstrap (Spec sn))).
  { rewrite getenv_spec, Hget.
    change (bool_decide (Mode (Api.Bootstrap (Spec sn)) ∈ ["url"; "dns"; "dhcp"; "mdns"]) = true) in Hm.
    destruct (decide (Mode (Api.Bootstrap (Spec sn)) = "")) as [E|E].
    - rewrite E in Hm. by vm_compute in Hm.
    - destruct tls; cbn; by rewrite (bool_decide_eq_false_2 _ E). }
  assert (Hdir : getenv env "SCION_STATE_DIR" "/var/lib/scion-node-agent" = stateDir).
  { rewrite getenv_spec, Hget. by destruct tls. }
  rewrite Hr, Hmode, Hdir, Hd.
  rewrite (getenvBool_str env _ _ (boolOr (PodCIDR (Advertisement (Spec sn))) true)) by (by rewrite Hget).
  rewrite (getenvBool_str env "SCION_ADVERTISE_NODE_IP" _ (boolOr (NodeIP (Advertisement (Spec sn))) false))
    by (by rewrite Hget).
  assert (Htls : bool_decide (env "SCION_METRICS_TLS_CERT" = "")
                 = bool_decide (env "SCION_METRICS_TLS_KEY" = "")) by (rewrite !Hget; by destruct tls).
  cbn [MetricsTLSCert MetricsTLSKey]. rewrite Htls, Bool.eqb_reflx. cbn [negb].
  assert (Hnode : env "NODE_NAME" = nodeName) by (by rewrite Hget).
  assert (Hu : env "SCION_DISCOVERY_URL" = DiscoveryURL (Api.Bootstrap (Spec sn))) by (by rewrite Hget).
  assert (Ha : env "SCION_ACCEPT_ISD_ASES" = Join (ISDASes (AcceptPolicy (Spec sn))) ",") by (by rewrite Hget).
  assert (Hf : env "SCION_FORBIDDEN_CIDRS" = Join deny ",") by (by rewrite Hget).
  unfold with_refresh. cbn [NodeName BootstrapMode cfg_DiscoveryURL].
  rewrite Hnode, Hu, Ha, Hf, (bool_decide_eq_false_2 _ Hn), Hm. cbn [negb].
  destruct (bool_decide (Mode _ = "url")); cbn in Hurl |- *;
    [apply negb_true_iff in Hurl; rewrite Hurl|]; by eexists.
Qed.

Lemma FromEnv_policy sn image deny tls nodeName d :
  crd_valid (Spec sn) = true -> nodeName <> "" -> ParseDuration (refresh_of sn) = Ok d ->
  Forall ipv4_cidr deny ->
  exists cfg, FromEnv (pod_environ (DaemonSet sn image deny tls) nodeName) = (cfg, None) /\
  forall confDir info tr inp, exec (policyInput confDir info cfg) tr (Ok inp) ->
    AcceptISDASes inp = ISDASes (AcceptPolicy (Spec sn)) /\ Policy.ForbiddenCIDRs inp = deny /\
    (deny <> [] -> exists acc, prepare inp = Val (Ok acc) /\
       forall a, 0 <= a < 2 ^ 32 -> text_in4 acc a <-> ~ text_in4 deny a).
Proof.
  intros Hv Hn Hd Hdeny.
  destruct (FromEnv_DaemonSet sn image deny tls nodeName d Hv Hn Hd)
    as (cfg & Hcfg & _ & _ & _ & _ & _ & _ & Ha & Hf).
  exists cfg. split; [done|]. intros confDir info tr inp He.
  unfold crd_valid in Hv. rewrite !andb_true_iff in Hv. destruct Hv as [[[[[[[[_ _] _] Hia0] Hia] _] _] _] _].
  rewrite forallb_spec in Hia.
  apply negb_true_iff, bool_decide_eq_false in Hia0.
  apply exec_try in He as [(t1 & t2 & ia & -> & Hl & He) | (e & ? & _)]; [|done].
  exec_inv He. injection He as ->.
  rewrite Ha, Hf, !split_Join; cycle 1.
  { eapply Forall_impl; [exact Hdeny | apply cidr_item]. }
  { apply Forall_forall. intros x Hx. apply isd_as_item. auto. }
  split_and!; [done..|]. intros Hne.
  destruct (prepare_ready_Ok (MkInput ia (advertisedNets info cfg) (ISDASes (AcceptPolicy (Spec sn))) deny))
    as (acc & Hacc & _ & _ & Hex); [|by exists acc].
  split_and!; cbn; [|done..].
  unfold localIA in Hl. exec_inv Hl. destruct r as [data|]; [|exec_inv Hl; done].
  destruct (Unmarshal _ data) as [ia'|]; [|exec_inv Hl; done].
  destruct (bool_decide (ia' = "")) eqn:E; exec_inv Hl; [done|].
  injection Hl as ->. by apply bool_decide_eq_false in E.
Qed.

(** An admitted resource. *)
Definition sample_spec : ScionNetworkSpec := MkSpec
  (MkBootstrapSpec "url" "http://ds:8041" "" "" (Some "pins") "30m")
  (MkAdvertisementSpec None None)
  (MkAcceptPolicySpec ["1-ff00:0:110"; "1-ff00:0:111"] [] [])
  (MkDataplaneSpec "") (MkRegistrarSpec "" "" None) ∅ [] "".

Definition sample_status : ScionNetworkStatus :=
  MkStatus [] "" (MkNodeSummary 0 0 []) (MkRegistrarStatus 0 [] None []).

Definition sample_sn : ScionNetwork :=
  MkScionNetwork "net" "uid-1" 1 None [] sample_spec sample_status.

(** ** Pins *)
(** The pin directory the operator mounts is the one the agent checks: for
    the state directory the agent uses when the operator deployed it, the pin
    of a TRC is looked up in the mount path of the pinned-TRC secret. *)
Lemma pin_path_is_mounted (sn : ScionNetwork) (image : string) (deny : list string) (tls : bool)
    (secret name : string) :
  SecretRef (Api.Bootstrap (Spec sn)) = Some secret ->
  name <> "" -> name <> "." -> name <> ".." -> lacks "/" name = true ->
  exists spec c dir, o_Payload (DaemonSet sn image deny tls) = PDaemonSet spec /\
    MkVolume "pinned-trcs" (SecretVolume secret None) ∈ ps_Volumes (dss_Template spec) /\
    c ∈ ps_Containers (dss_Template spec) /\
    MkVolumeMount "pinned-trcs" dir true ∈ ct_VolumeMounts c /\
    pin_path (JoinPath [stateDir; "etc"]) name = dir +:+ "/" +:+ name.
Proof.
  intros Hs H1 H2 H3 Hn. unfold DaemonSet. rewrite Hs.
  assert (Hp : pin_path (JoinPath [stateDir; "etc"]) name = pinnedTRCsDir +:+ "/" +:+ name).
  { unfold pin_path. rewrite BasePath_plain by done.
    change (JoinPath [stateDir; "etc"]) with "/var/lib/scion-node-agent/etc".
    unfold JoinPath. cbn [filter list_filter decide].
    rewrite decide_True, decide_True, decide_True, decide_True by done.
    rewrite bool_decide_eq_false_2 by done.
    change (Join ["/var/lib/scion-node-agent/etc"; ".."; "pinned-trcs"; name] "/")
      with ("/var/lib/scion-node-agent/etc/../pinned-trcs" +:+ String "/" name).
    unfold Clean. rewrite Split_slash_last, clean_parts_last by done.
    change (HasPrefix _ "/") with true.
    replace (clean_parts true [] (Split "/var/lib/scion-node-agent/etc/../pinned-trcs" "/"))
      with ["var"; "lib"; "scion-node-agent"; "pinned-trcs"] by (vm_compute; reflexivity).
    reflexivity. }
  rewrite Hp. destruct tls; do 3 eexists; (split; [reflexivity|]); cbn; (split; [in_list|]);
    (split; [in_list|]); (split; [in_list|]); reflexivity.
Qed.

Lemma pin_path_is_mounted_witness :
  exists spec c dir, o_Payload (DaemonSet sample_sn "img" [] true) = PDaemonSet spec /\
    MkVolume "pinned-trcs" (SecretVolume "pins" None) ∈ ps_Volumes (dss_Template spec) /\
    c ∈ ps_Containers (dss_Template spec) /\
    MkVolumeMount "pinned-trcs" dir true ∈ ct_VolumeMounts c /\
    pin_path (JoinPath [stateDir; "etc"]) "ISD1-B1-S1.trc" = dir +:+ "/" +:+ "ISD1-B1-S1.trc".
Proof.
  apply (pin_path_is_mounted sample_sn "img" [] true "pins" "ISD1-B1-S1.trc");
    solve [reflexivity | discriminate | vm_compute; reflexivity].
Defined.

(** ** Rendering and reloading *)
Lemma RenderTrafficPolicy_total inp : exists r, RenderTrafficPolicy inp = Val r.
Proof.
  unfold RenderTrafficPolicy. destruct (prepare_total inp) as [[acc|e] ->]; by eexists.
Qed.

Lemma RenderRoutingPolicy_total inp : exists r, RenderRoutingPolicy inp = Val r.
Proof.
  unfold RenderRoutingPolicy. destruct (prepare_total inp) as [[acc|e] ->]; by eexists.
Qed.

(** What [renderPolicies] does: nothing on a refused input, otherwise the two
    writes, in order, of the two rendered texts. *)
Lemma go_try_Ret {cmd} {resp : cmd -> Type} {A B} (m : go A) (f : A -> prog resp (go B)) :
  go_try (Ret m) f = match m with
                     | Val (Ok a) => f a
                     | Val (Err e) => Ret (Val (Err e))
                     | Panic => Ret Panic
                     | NoFuel => Ret NoFuel
                     end.
Proof. done. Qed.

Lemma renderPolicies_spec inp tf rf tr r : exec (renderPolicies inp tf rf) tr r ->
  (exists e, r = Val (Err e) /\ tr = [] /\
     (RenderTrafficPolicy inp = Val (Err e) \/ RenderRoutingPolicy inp = Val (Err e))) \/
  exists traffic routing, RenderTrafficPolicy inp = Val (Ok traffic) /\
    RenderRoutingPolicy inp = Val (Ok routing) /\
    ((exists e, r = Val (Err e) /\ tr = [existT (WriteFile tf traffic) (Some e)]) \/
     exists w, r = Val (check w) /\
       tr = [existT (WriteFile tf traffic) None; existT (WriteFile rf routing) w]).
Proof.
  unfold renderPolicies. rewrite go_try_Ret.
  destruct (RenderTrafficPolicy_total inp) as [[traffic|e] ->]; intros H.
  2:{ exec_inv H. subst r. left. exists e. auto. }
  rewrite go_try_Ret in H. destruct (RenderRoutingPolicy_total inp) as [[routing|e] Hr]; rewrite Hr in H.
  2:{ exec_inv H. subst r. left. exists e. auto. }
  right. exists traffic, routing. split_and!; [done..|].
  exec_inv H. destruct r0 as [e|]; exec_inv H; subst r; [left; eauto | right; eauto].
Qed.

(** Events that change files or signal a reload. *)
Definition effect (ev : event aresp) : bool :=
  match projT1 ev with
  | WriteFile _ _ | TrySend _ => true
  | _ => false
  end.

Lemma policyInput_effects confDir info cfg tr r : exec (policyInput confDir info cfg) tr r ->
  filter (fun ev => effect ev = true) tr = [].
Proof.
  unfold policyInput. intros [(t1 & t2 & ia & -> & Hl & H) | (e & -> & Hl)]%exec_try;
    [exec_inv H; rewrite app_nil_r|]; unfold localIA in Hl; exec_inv Hl;
    repeat case_match; exec_inv Hl; done.
Qed.

(** The input of a re-render: the AS of the topology file that was read, the
    prefixes of the node as they are now, and the lists of the configuration. *)
Definition current_input (s : Setup) (info : NodeInfo) (tr : list (event aresp)) (inp : Input) : Prop :=
  (exists data, existT (ReadFile (JoinPath [s_confDir s; "topology.json"])) (Ok data) ∈ tr /\
     Unmarshal (decode_struct1 "isd_as") data = Ok (LocalIA inp)) /\
  AdvertisedNets inp = advertisedNets info (s_cfg s) /\
  AcceptISDASes inp = split (Config.AcceptISDASes (s_cfg s)) /\
  Policy.ForbiddenCIDRs inp = split (cfg_ForbiddenCIDRs (s_cfg s)).

Lemma policyInput_current s info tr inp : exec (policyInput (s_confDir s) info (s_cfg s)) tr (Ok inp) ->
  current_input s info tr inp.
Proof.
  unfold policyInput. intros [(t1 & t2 & ia & -> & Hl & He) | (e & ? & _)]%exec_try; [|done]. exec_inv He.
  injection He as ->. split; [|done]. unfold localIA in Hl. exec_inv Hl. destruct r as [data|]; [|by exec_inv Hl].
  exists data. split; [by left|]. destruct (Unmarshal _ data) as [ia'|]; [|by exec_inv Hl].
  destruct (bool_decide (ia' = "")); exec_inv Hl; [done|]. by injection Hl as ->.
Qed.

(** C23: a re-render writes both policy files or is reported as not done.  It
    always returns; a reload is signalled exactly when it succeeded, and then
    it is the last of exactly three effects, after the completed writes of the
    traffic policy and of the routing policy rendered from one and the same
    input, which is the current one and whose deny list is non-empty; when
    rendering is refused, neither file is touched. *)
Theorem rerender_reload (s : Setup) (info : NodeInfo) (tr : list (event aresp)) (r : outcome bool) :
  exec (rerender s info) tr r ->
  exists b, r = Val b /\
  let effects := filter (fun ev => effect ev = true) tr in
  (b = true <-> existT (TrySend "reload") tt ∈ tr) /\
  (b = true -> exists inp traffic routing,
     current_input s info tr inp /\ prepare_ready inp /\
     RenderTrafficPolicy inp = Val (Ok traffic) /\ RenderRoutingPolicy inp = Val (Ok routing) /\
     effects = [existT (WriteFile (s_trafficFile s) traffic) None;
                existT (WriteFile (s_routingFile s) routing) None;
                existT (TrySend "reload") tt]) /\
  (b = false ->
     effects = [] \/ exists f d e, last effects = Some (existT (WriteFile f d) (Some e))).
Proof.
  unfold rerender. intros (t1 & t2 & ri & -> & Hi & H)%exec_mbind.
  pose proof (policyInput_effects _ _ _ _ _ Hi) as He1.
  assert (Hno : existT (TrySend "reload") tt ∉ t1).
  { intros Hin. assert (existT (TrySend "reload") tt ∈ filter (fun ev => effect ev = true) t1) as Hf
      by (by apply list_elem_of_filter). rewrite He1 in Hf. by apply elem_of_nil in Hf. }
  destruct ri as [inp|e].
  2:{ exec_inv H. subst r. exists false. rewrite app_nil_r, He1. split; [done|].
      split; [split; [done | by intros ?] | split; [done | by left]]. }
  apply exec_mbind in H as (t3 & t4 & rr & -> & Hr & H).
  apply renderPolicies_spec in Hr as
    [(e & -> & -> & _) | (traffic & routing & Ht & Hrt & [(e & -> & ->) | (w & -> & ->)])].
  - exec_inv H. subst r. exists false. rewrite !app_nil_r, He1. split; [done|].
    split; [split; [done | by intros ?] | split; [done | by left]].
  - exec_inv H. subst r. exists false. rewrite app_nil_r, filter_app, He1. split; [done|]. split; [|split].
    + split; [done|]. rewrite elem_of_app, list_elem_of_singleton. by intros [? | [=]].
    + done.
    + intros _. right. by do 3 eexists.
  - destruct w as [e|]; cbn [check] in H; cbv beta iota in H.
    + exec_inv H. subst r. exists false. rewrite app_nil_r, filter_app, He1. split; [done|]. split; [|split].
      * split; [done|]. rewrite elem_of_app, !elem_of_cons, elem_of_nil. by intros [? | [[=] | [[=] | []]]].
      * done.
      * intros _. right. by do 3 eexists.
    + exec_inv H. subst r. destruct r0. exists true. split; [done|]. split; [|split].
      * split; [intros _ | done]. rewrite !elem_of_app, !elem_of_cons. auto.
      * intros _. exists inp, traffic, routing. split; [|split_and!; [|done..|]].
        -- destruct (policyInput_current _ _ _ _ Hi) as [(data & Hin & Hu) Hrest]. split; [|done].
           exists data. split; [apply elem_of_app; by left | done].
        -- unfold RenderTrafficPolicy in Ht. apply go_bind_Ok in Ht as (acc & Ha & _).
           by eapply prepare_Ok_ready.
        -- by rewrite !filter_app, He1.
      * done.
Qed.

Definition sample_cfg : Config :=
  fst (FromEnv (pod_environ (DaemonSet sample_sn "img" ["10.0.0.0/8"; "192.168.0.0/16"] true) "n1")).

Definition sample_input0 : Input := MkInput "1-ff00:0:112" [] [] [].

Definition sample_setup : Setup :=
  MkSetup sample_cfg (MkNodeInfo ["10.1.0.0/24"] "10.0.0.5") true "/s/etc" "/s/traffic" "/s/routing"
    (URLDiscoverer "http://ds") sample_input0.

Definition topo_text : string :=
  "{" +:+ str_lit "isd_as" +:+ ":" +:+ str_lit "1-ff00:0:112" +:+ "}".

Definition no_net (url : string) : result HttpResp := Err (errorf [Lit "no route"]).

Definition sample_disk : fsys := {["/s/etc/topology.json" := topo_text]}.

Lemma rerender_reload_witness :
  exists b, result_of aresp (sim no_net) (rerender sample_setup (MkNodeInfo ["10.1.0.0/24"] "10.0.0.5")) sample_disk
    = Val b /\
  (b = true <-> existT (TrySend "reload") tt ∈
     trace_of aresp (sim no_net) (rerender sample_setup (MkNodeInfo ["10.1.0.0/24"] "10.0.0.5")) sample_disk).
Proof.
  destruct (rerender_reload sample_setup (MkNodeInfo ["10.1.0.0/24"] "10.0.0.5") _ _
    (run_exec aresp (sim no_net) _ sample_disk)) as (b & Hb & Hiff & _).
  exists b. exact (conj Hb Hiff).
Defined.

Lemma rerender_Val s info tr r : exec (rerender s info) tr r -> exists b, r = Val b.
Proof.
  unfold rerender. intros (t1 & t2 & ri & -> & Hi & H)%exec_mbind.
  destruct ri as [inp|e]; [|exec_inv H; subst; by eexists].
  apply exec_mbind in H as (t3 & t4 & rr & -> & Hr & H).
  apply renderPolicies_spec in Hr as
    [(e & -> & _) | (traffic & routing & _ & _ & [(e & -> & _) | ([w|] & -> & _)])];
    cbn [check] in H; exec_inv H; subst; by eexists.
Qed.

Section Loop.
Context `{L : K8sLib}.

Lemma turn_Val env s info t tr r : exec (turn env s info t) tr r -> exists ib, r = Val ib.
Proof.
  destruct t; cbn [turn].
  - intros (t1 & t2 & ri & -> & [b ->]%rerender_Val & H)%exec_mbind. exec_inv H. subst. by eexists.
  - intros (t1 & t2 & [[current dyn]|e] & -> & _ & H)%exec_mbind; [|exec_inv H; subst; by eexists].
    destruct (bool_decide _); [exec_inv H; subst; by eexists|].
    apply exec_mbind in H as (t3 & t4 & ri & -> & [b ->]%rerender_Val & H). exec_inv H. subst. by eexists.
Qed.

(** The re-render loop never panics and never gets stuck: whatever the
    triggers, and whatever the API server, the file system and the topology
    file answer on the way, every turn returns and the loop goes on. *)
Lemma turns_return (env : environ) (s : Setup) (info : NodeInfo) (ts : list trigger)
    (tr : list (event aresp)) (r : outcome NodeInfo) :
  exec (turns env s info ts) tr r -> exists info', r = Val info'.
Proof.
  revert info tr. induction ts as [|t ts IH]; intros info tr H; cbn [turns] in H.
  - exec_inv H. subst. by eexists.
  - apply exec_mbind in H as (t1 & t2 & ri & -> & [[info' b] ->]%turn_Val & H). by eapply IH.
Qed.

(** The block affinities the API server lists, all along a run. *)
Definition allocation_is (items : list Unstructured) (ev : event aresp) : Prop :=
  let 'existT c r := ev in
  match c as c return aresp c -> Prop with
  | ListBlockAffinities => fun r => r = Ok items
  | _ => fun _ => True
  end r.

Lemma GetNodeInfo_effects name tr r : exec (GetNodeInfo name) tr r ->
  filter (fun ev => effect ev = true) tr = [].
Proof.
  unfold GetNodeInfo. intros H. exec_inv H. destruct r0; [|by exec_inv H].
  destruct (bool_decide _); by exec_inv H.
Qed.

Lemma CiliumPodCIDRs_effects name tr r : exec (CiliumPodCIDRs name) tr r ->
  filter (fun ev => effect ev = true) tr = [].
Proof. unfold CiliumPodCIDRs. intros H. exec_inv H. destruct r0; by exec_inv H. Qed.

Lemma cni_info_calico name info items tr r : exec (cni_info name info) tr r ->
  Forall (allocation_is items) tr -> calico_blocks name items [] <> [] ->
  filter (fun ev => effect ev = true) tr = [] /\
  r = Ok (MkNodeInfo (calico_blocks name items []) (InternalIP info), true).
Proof.
  unfold cni_info, CalicoPodCIDRs. intros (t1 & t2 & rc & -> & Hc & H)%exec_mbind Hall Hne.
  exec_inv Hc. apply Forall_app in Hall as [Hall _].
  destruct r0 as [items'|e]; exec_inv Hc; subst rc; apply Forall_cons in Hall as [Hi _]; [|done].
  injection Hi as ->. cbv beta iota in H. rewrite bool_decide_eq_false_2 in H by done.
  by exec_inv H.
Qed.

Lemma nodeInfo_calico env cfg items tr r : env "SCION_LOCAL_PREFIXES" = "" ->
  exec (nodeInfo env cfg) tr r -> Forall (allocation_is items) tr ->
  calico_blocks (NodeName cfg) items [] <> [] ->
  filter (fun ev => effect ev = true) tr = [] /\
  forall info dyn, r = Ok (info, dyn) -> PodCIDRs info = calico_blocks (NodeName cfg) items [].
Proof.
  intros Henv H Hall Hne. unfold nodeInfo in H. rewrite Henv in H.
  change (negb (bool_decide ("" = ""))) with false in H.
  exec_inv H. destruct r0 as [e|]; [exec_inv H; by subst|].
  exec_inv H. destruct r0 as [e|]; [exec_inv H; by subst|].
  cbv beta iota in H. apply exec_try in H as [(t1 & t2 & info & -> & Hg & H) | (e & -> & Hg)];
    apply GetNodeInfo_effects in Hg; [|done].
  exec_inv H. destruct r0 as [e|].
  { exec_inv H. subst r. split; [|done]. by rewrite !filter_cons_False, filter_app, Hg by done. }
  apply Forall_cons in Hall as [_ Hall]. apply Forall_cons in Hall as [_ Hall].
  apply Forall_app in Hall as [_ Hall]. apply Forall_cons in Hall as [_ Hall].
  destruct (cni_info_calico _ _ _ _ _ H Hall Hne) as [He ->]. split.
  - by rewrite !filter_cons_False, filter_app, Hg, filter_cons_False, He by done.
  - by intros ? ? [= <- <-].
Qed.

(** C39: a failed re-render is not repeated.  When a tick has found new pod
    CIDRs and its re-render failed (so that the policy files still hold the old
    prefixes), the loop has already replaced its node information: as long as
    the Calico allocation stays the same, no later tick, however many there
    are, writes a file or signals a reload. *)
Theorem failed_rerender_not_retried (env : environ) (s : Setup) (info info' : NodeInfo) (n : nat)
    (items : list Unstructured) (t1 t2 : list (event aresp)) (r : outcome NodeInfo) :
  env "SCION_LOCAL_PREFIXES" = "" -> calico_blocks (NodeName (s_cfg s)) items [] <> [] ->
  exec (turn env s info Tick) t1 (Val (info', false)) ->
  PodCIDRs info' <> PodCIDRs info -> Forall (allocation_is items) t1 ->
  exec (turns env s info' (replicate n Tick)) t2 r -> Forall (allocation_is items) t2 ->
  r = Val info' /\ filter (fun ev => effect ev = true) t2 = [].
Proof.
  intros Henv Hne H1 Hch Ha1 H2 Ha2.
  assert (Hi : PodCIDRs info' = calico_blocks (NodeName (s_cfg s)) items []).
  { cbn [turn] in H1. apply exec_mbind in H1 as (t3 & t4 & ri & -> & Hn & H1).
    apply Forall_app in Ha1 as [Ha _].
    destruct (nodeInfo_calico env (s_cfg s) items t3 ri Henv Hn Ha Hne) as [_ Hi].
    destruct ri as [[current dyn]|e]; [|exec_inv H1; injection H1 as ->; done].
    destruct (bool_decide _); [exec_inv H1; injection H1 as ->; done|].
    apply exec_mbind in H1 as (t5 & t6 & rb & -> & [b ->]%rerender_Val & H1).
    exec_inv H1. cbn in H1. injection H1 as -> _. by eapply Hi. }
  clear H1 Hch Ha1 t1. revert t2 H2 Ha2. induction n as [|n IH]; intros t2 H2 Ha2; cbn [replicate turns] in H2.
  { exec_inv H2. by subst. }
  apply exec_mbind in H2 as (t3 & t4 & ri & -> & Ht & H2). apply Forall_app in Ha2 as [Ha Hb].
  cbn [turn] in Ht. apply exec_mbind in Ht as (t5 & t6 & rn & -> & Hn & Ht).
  apply Forall_app in Ha as [Ha Ha'].
  destruct (nodeInfo_calico env (s_cfg s) items t5 rn Henv Hn Ha Hne) as [He Hr].
  destruct rn as [[current dyn]|e].
  - rewrite bool_decide_eq_true_2 in Ht by (rewrite Hi; by eapply Hr). exec_inv Ht. subst ri.
    destruct (IH t4 H2 Hb) as [-> He4]. split; [done|]. by rewrite app_nil_r, filter_app, He, He4.
  - exec_inv Ht. subst ri.
    destruct (IH t4 H2 Hb) as [-> He4]. split; [done|]. by rewrite app_nil_r, filter_app, He, He4.
Qed.
End Loop.

(** An API server with one Calico block for the node, in front of a file system
    whose next [k] writes fail. *)
Definition calico_item (node cidr : string) : Unstructured :=
  MkUnstructured "blk" [("spec", GMap [("node", GStr node); ("state", GStr "confirmed");
                                       ("deleted", GStr "false"); ("cidr", GStr cidr)])].

Definition api_sim (items : list Unstructured) : handler aresp (nat * fsys) := fun c w =>
  match c as c return aresp c * (nat * fsys) with
  | GetNode name => (Ok (MkNode name ∅ ∅ "" [] [MkNodeAddress "InternalIP" "10.0.0.5"]), w)
  | ListBlockAffinities => (Ok items, w)
  | WriteFile p d =>
      match fst w with
      | S k => (Some (errorf [Lit "no space left on device"]), (k, snd w))
      | O => (None, (O, <[p := d]> (snd w)))
      end
  | c' => let '(r, fs) := sim no_net c' (snd w) in (r, (fst w, fs))
  end.

Definition no_env (k : string) : string := "".
Definition old_info : NodeInfo := MkNodeInfo ["10.9.0.0/24"] "10.0.0.5".
Definition new_info : NodeInfo := MkNodeInfo ["10.1.0.0/26"] "10.0.0.5".
Definition one_block : list Unstructured := [calico_item "n1" "10.1.0.0/26"].

Lemma turns_return_witness :
  exists info', result_of aresp (api_sim one_block)
    (turns (L := ref_lib) no_env sample_setup old_info [Tick; TopoChanged; Tick]) (1%nat, sample_disk) = Val info'.
Proof.
  eapply (turns_return (L := ref_lib) no_env sample_setup old_info [Tick; TopoChanged; Tick]).
  apply run_exec.
Defined.

(** The failing tick, and three more. *)
Definition first_tick : agent (outcome (NodeInfo * bool)) :=
  turn (L := ref_lib) no_env sample_setup old_info Tick.
Definition more_ticks : agent (outcome NodeInfo) :=
  turns (L := ref_lib) no_env sample_setup new_info (replicate 3 Tick).

Lemma failed_rerender_not_retried_witness :
  result_of aresp (api_sim one_block) first_tick (1%nat, sample_disk) = Val (new_info, false) /\
  result_of aresp (api_sim one_block) more_ticks (0%nat, sample_disk) = Val new_info /\
  filter (fun ev => effect ev = true) (trace_of aresp (api_sim one_block) more_ticks (0%nat, sample_disk)) = [].
Proof.
  assert (H1 : result_of aresp (api_sim one_block) first_tick (1%nat, sample_disk) = Val (new_info, false))
    by (vm_compute; reflexivity).
  split; [exact H1|].
  apply (failed_rerender_not_retried (L := ref_lib) no_env sample_setup old_info new_info 3 one_block
    (trace_of aresp (api_sim one_block) first_tick (1%nat, sample_disk))
    (trace_of aresp (api_sim one_block) more_ticks (0%nat, sample_disk))
    (result_of aresp (api_sim one_block) more_ticks (0%nat, sample_disk))).
  - reflexivity.
  - vm_compute. discriminate.
  - rewrite <- H1. exact (run_exec aresp (api_sim one_block) first_tick (1%nat, sample_disk)).
  - discriminate.
  - vm_compute. repeat constructor.
  - exact (run_exec aresp (api_sim one_block) more_ticks (0%nat, sample_disk)).
  - vm_compute. repeat constructor.
Defined.

(** ** What is advertised *)

(** A host route parses as an IPv4 prefix exactly when its address does. *)
Lemma host_route_ipv4 ip : ipv4_cidr (ip +:+ "/32") <-> exists v, ParseAddr ip = Ok v /\ Is4 v = true.
Proof.
  split.
  - intros (p & Hp & H4). unfold ParsePrefix in Hp.
    change (ip +:+ "/32") with (ip +:+ String (ascii_of_nat 47) "32") in Hp.
    rewrite cut_last_app in Hp by done.
    destruct (ParseAddr ip) as [v|]; [|done]. exists v. split; [done|].
    destruct v as [|v|]; [|done|]; cbn in Hp; repeat case_match; simplify_eq; done.
  - intros (v & E & H4). destruct v as [|v|]; try done. exists (P4 v 32).
    by rewrite (host_route_parse _ _ E).
Qed.

(** What a node advertises is exactly what its configuration asks for: the
    discovered pod CIDRs that are IPv4 prefixes when pod CIDRs are advertised,
    and the node's address as a host route when that is on and the address
    passes the IPv4 guard.  All of it is IPv4 exactly when an address that
    passes the guard is one in dotted-decimal form: the IPv4-mapped form passes
    the guard too and gives an IPv6 prefix. *)
Lemma advertisedNets_ipv4 (info : NodeInfo) (cfg : Config) :
  (forall n, n ∈ advertisedNets info cfg <->
     (AdvertisePodCIDR cfg = true /\ n ∈ PodCIDRs info /\ ipv4_cidr n) \/
     (AdvertiseNodeIP cfg = true /\ is_ipv4_ip (InternalIP info) = true /\ n = InternalIP info +:+ "/32")) /\
  (Forall ipv4_cidr (advertisedNets info cfg) <->
     ~ (AdvertiseNodeIP cfg = true /\ is_ipv4_ip (InternalIP info) = true /\
        forall v, ParseAddr (InternalIP info) = Ok v -> Is4 v = false)).
Proof.
  assert (Hiff : forall n, n ∈ advertisedNets info cfg <->
     (AdvertisePodCIDR cfg = true /\ n ∈ PodCIDRs info /\ ipv4_cidr n) \/
     (AdvertiseNodeIP cfg = true /\ is_ipv4_ip (InternalIP info) = true /\ n = InternalIP info +:+ "/32")).
  { intros n. unfold advertisedNets. rewrite elem_of_app.
    assert (Hp : is_ipv4_prefix n = true <-> ipv4_cidr n).
    { unfold is_ipv4_prefix, ipv4_cidr. destruct (ParsePrefix n) as [p|e]; naive_solver. }
    destruct (AdvertisePodCIDR cfg), (AdvertiseNodeIP cfg), (is_ipv4_ip (InternalIP info)); cbn;
      rewrite ?list_elem_of_filter, ?list_elem_of_singleton, ?elem_of_nil, ?Hp; naive_solver. }
  split; [exact Hiff|]. rewrite Forall_forall. split.
  - intros Hall (Hn & Hip & H6).
    destruct (proj1 (host_route_ipv4 (InternalIP info))) as (v & E & H4); [|by rewrite (H6 v E) in H4].
    apply Hall, Hiff. by right.
  - intros Hno n [(_ & _ & ?) | (Hn & Hip & ->)]%Hiff; [done|]. apply host_route_ipv4.
    unfold is_ipv4_ip, ParseIP in Hip. destruct (ParseAddr (InternalIP info)) as [v|] eqn:E; [|done].
    exists v. split; [done|]. destruct (Is4 v) eqn:H4; [done|]. exfalso. apply Hno.
    unfold is_ipv4_ip, ParseIP. rewrite E. split_and!; [done | done |]. by intros ? [= <-].
Qed.

(** The IPv4-mapped form in use. *)
Example mapped_node_ip_advertised :
  let cfg := MkConfig "n1" "url" "" "" "" 0 "" "" false true true "" "" "" "" "" in
  advertisedNets (MkNodeInfo [] "::ffff:10.0.0.5") cfg = ["::ffff:10.0.0.5/32"] /\
  is_ipv4_prefix "::ffff:10.0.0.5/32" = false.
Proof. vm_compute. split; reflexivity. Qed.

(** The start-up guardrail for pod-CIDR advertisement looks at all
    advertised prefixes: it refuses exactly when pod CIDRs are to be advertised
    and nothing at all is, so a node that advertises its own address passes it
    with no IPv4 pod CIDR discovered. *)
Lemma checkAdvertisable_spec (cfg : Config) (info : NodeInfo) :
  (checkAdvertisable cfg info (advertisedNets info cfg) = None <->
   AdvertisePodCIDR cfg = false \/ (exists c, c ∈ PodCIDRs info /\ ipv4_cidr c) \/
   (AdvertiseNodeIP cfg = true /\ is_ipv4_ip (InternalIP info) = true)).
Proof.
  assert (Hp : forall n, is_ipv4_prefix n = true <-> ipv4_cidr n).
  { intros n. unfold is_ipv4_prefix, ipv4_cidr. destruct (ParsePrefix n) as [p|e]; naive_solver. }
  unfold checkAdvertisable, advertisedNets.
  destruct (AdvertisePodCIDR cfg); cbn [andb]; [|naive_solver].
  set (l := filter _ _).
  assert (Hl : l <> [] <-> exists c, c ∈ PodCIDRs info /\ ipv4_cidr c).
  { split.
    - intros Hne. destruct l as [|c l'] eqn:E; [done|]. exists c.
      assert (c ∈ l) as Hc by (rewrite E; apply list_elem_of_here).
      apply list_elem_of_filter in Hc as [H1 H2]. by rewrite <- Hp.
    - intros (c & Hc & H4) E. assert (c ∈ l) as Hin by (apply list_elem_of_filter; by rewrite Hp).
      rewrite E in Hin. by apply elem_of_nil in Hin. }
  destruct (AdvertiseNodeIP cfg && is_ipv4_ip (InternalIP info)) eqn:E.
  - apply andb_prop in E as [-> ->]. rewrite bool_decide_eq_false_2 by (by destruct l). naive_solver.
  - rewrite app_nil_r. case_bool_decide as El.
    + split; [done|]. intros [? | [H%Hl | [H1 H2]]]; [done | done |]. by rewrite H1, H2 in E.
    + split; [|done]. intros _. right; left. by apply Hl.
Qed.

(** ** Node identity *)
Section Identity.
Context `{L : K8sLib} `{!K8sLaws L}.

Definition string_at (u : Unstructured) (path : list string) : string :=
  match gpath (GMap (u_Object u)) path with Some (GStr s) => s | _ => "" end.

(** A block affinity that gives [node] the block [cidr]. *)
Definition block_of (node cidr : string) (item : Unstructured) : Prop :=
  string_at item ["spec"; "node"] = node /\ string_at item ["spec"; "state"] = "confirmed" /\
  string_at item ["spec"; "deleted"] <> "true" /\ string_at item ["spec"; "cidr"] = cidr /\ cidr <> "".

Lemma elem_of_calico_blocks node items acc c :
  c ∈ calico_blocks node items acc <-> c ∈ acc \/ exists item, item ∈ items /\ block_of node c item.
Proof.
  revert acc. induction items as [|item items IH]; intros acc; cbn [calico_blocks].
  { split; [by left | intros [?|(? & ?%elem_of_nil & _)]; done]. }
  rewrite IH, elem_of_app.
  assert (Hb : c ∈ calico_block node item <-> block_of node c item).
  { unfold calico_block, block_of, nested_string, string_at. rewrite !nested_string_value.
    repeat (case_bool_decide; cbn [negb]); rewrite ?list_elem_of_singleton, ?elem_of_nil; naive_solver. }
  rewrite Hb. setoid_rewrite elem_of_cons. naive_solver.
Qed.

Definition or_else (cidrs dflt : list string) : list string :=
  if bool_decide (cidrs = []) then dflt else cidrs.

(** C33: where a node's identity comes from inside a cluster.  The address is
    the Node's first InternalIP.  With the Calico API present the pod CIDRs are
    the confirmed, undeleted blocks affine to the node (the Node's own CIDRs
    only while there is none) and the caller is told to refresh; Cilium is
    consulted only when the Calico API does not exist; the Node's own CIDRs
    without refresh are used only when neither API exists.  Any other API error
    is an error. *)
Theorem nodeInfo_sources (env : environ) (cfg : Config) (info : NodeInfo) (dyn : bool)
    (tr : list (event aresp)) :
  env "SCION_LOCAL_PREFIXES" = "" -> exec (nodeInfo env cfg) tr (Ok (info, dyn)) ->
  exists node, existT (GetNode (NodeName cfg)) (Ok node) ∈ tr /\
    InternalIP info = internal_ip (n_Addresses node) /\ InternalIP info <> "" /\
    ((exists items, existT ListBlockAffinities (Ok items) ∈ tr /\ dyn = true /\
        exists blocks, PodCIDRs info = or_else blocks (node_pod_cidrs node) /\
          forall c, c ∈ blocks <-> exists item, item ∈ items /\ block_of (NodeName cfg) c item) \/
     exists e, existT ListBlockAffinities (Err e) ∈ tr /\ e_kind e = ENotFound /\
       ((exists items, existT ListCiliumNodes (Ok items) ∈ tr /\ dyn = true /\
           PodCIDRs info = or_else (cilium_cidrs (NodeName cfg) items) (node_pod_cidrs node)) \/
        (exists e', existT ListCiliumNodes (Err e') ∈ tr /\ e_kind e' = ENotFound /\ dyn = false /\
           PodCIDRs info = node_pod_cidrs node))).
Proof.
  intros Henv H. unfold nodeInfo in H. rewrite Henv in H.
  change (negb (bool_decide ("" = ""))) with false in H.
  exec_inv H. destruct r as [e|]; [by exec_inv H|].
  exec_inv H. destruct r as [e|]; [by exec_inv H|].
  cbv beta iota in H. apply exec_try in H as [(t1 & t2 & inf & -> & Hg & H) | (e & ? & _)]; [|done].
  unfold GetNodeInfo in Hg. exec_inv Hg. destruct r as [node|]; [|by exec_inv Hg].
  destruct (bool_decide _) eqn:Eip in Hg; exec_inv Hg; [done|]. injection Hg as ->. case_bool_eq.
  cbn [InternalIP] in Eip.
  exec_inv H. destruct r as [e|]; [by exec_inv H|].
  cbv beta iota in H. unfold cni_info in H. apply exec_mbind in H as (t3 & t4 & rc & -> & Hc & H).
  unfold CalicoPodCIDRs in Hc. exec_inv Hc. exists node.
  split; [set_solver|]. destruct r as [items|e]; exec_inv Hc; subst rc; cbv beta iota in H.
  - exec_inv H. injection H as -> ->.
    split; [by case_bool_decide|]. split; [by case_bool_decide|]. left. exists items.
    split; [set_solver|]. split; [done|]. exists (calico_blocks (NodeName cfg) items []).
    split; [unfold or_else; by case_bool_decide|]. intros c. rewrite elem_of_calico_blocks, elem_of_nil.
    naive_solver.
  - unfold is_kind in H. cbn [e_kind wrapf] in H. case_bool_decide as Ek; cbn [negb] in H; [|by exec_inv H].
    apply exec_mbind in H as (t5 & t6 & rc & -> & Hc & H).
    unfold CiliumPodCIDRs in Hc. exec_inv Hc. destruct r as [items|e']; exec_inv Hc; subst rc; cbv beta iota in H.
    + exec_inv H. injection H as -> ->. split; [by case_bool_decide|]. split; [by case_bool_decide|].
      right. exists e. split; [set_solver|]. split; [done|]. left. exists items. split; [set_solver|].
      split; [done|]. unfold or_else. by case_bool_decide.
    + unfold is_kind in H. cbn [e_kind wrapf] in H. case_bool_decide as Ek'; cbn [negb] in H; [|by exec_inv H].
      exec_inv H. injection H as -> ->. split; [done|]. split; [done|].
      right. exists e. split; [set_solver|]. split; [done|]. right. exists e'. split; [set_solver|]. done.
Qed.
End Identity.

Lemma nodeInfo_sources_witness :
  exists node, existT (GetNode "n1") (Ok node) ∈
      trace_of aresp (api_sim one_block) (nodeInfo (L := ref_lib) no_env sample_cfg) (0%nat, sample_disk) /\
    InternalIP new_info = internal_ip (n_Addresses node) /\ InternalIP new_info <> "".
Proof.
  assert (H1 : result_of aresp (api_sim one_block) (nodeInfo (L := ref_lib) no_env sample_cfg)
                 (0%nat, sample_disk) = Ok (new_info, true)) by (vm_compute; reflexivity).
  destruct (nodeInfo_sources (L := ref_lib) (K8sLaws0 := ref_laws) no_env sample_cfg new_info true
    (trace_of aresp (api_sim one_block) (nodeInfo (L := ref_lib) no_env sample_cfg) (0%nat, sample_disk)))
    as (node & Hn & Hip & Hne & _).
  - reflexivity.
  - rewrite <- H1. exact (run_exec aresp (api_sim one_block) _ (0%nat, sample_disk)).
  - exists node. exact (conj Hn (conj Hip Hne)).
Defined.
