(* ===== verification/Health.v ===== *)
(** * [internal/agent/health]: liveness and readiness *)
From S2P Require Import Prelude.
Local Open Scope Z_scope.

Definition ComponentBootstrap : string := "bootstrap".
Definition ComponentGateway : string := "gateway".

(** The map guarded by the mutex. *)
Record Health := MkHealth { ready : gmap string bool }.

Definition New : Health := MkHealth ∅.

Definition SetReady (component : string) (ok : bool) (h : Health) : Health :=
  MkHealth (<[component := ok]> (ready h)).

(** A missing key of a Go map reads as [false]. *)
Definition is_ready (h : Health) (c : string) : bool := default false (ready h !! c).

Fixpoint readyz_scan (h : Health) (cs : list string) : Z :=
  match cs with
  | [] => 200
  | c :: cs' => if negb (is_ready h c) then 503 else readyz_scan h cs'
  end.

(** The routes the component registers itself: the status of the two probes,
    [None] for the metrics handler of the Prometheus library and for patterns
    others may register. *)
Definition Mux (h : Health) (path : string) : option Z :=
  if bool_decide (path = "/healthz") then Some 200
  else if bool_decide (path = "/readyz")
  then Some (readyz_scan h [ComponentBootstrap; ComponentGateway])
  else None.

(** The reports of the agent's parts, in the order they arrive. *)
Definition reports (l : list (string * bool)) : Health :=
  foldl (fun h '(c, ok) => SetReady c ok h) New l.

(** The last report of a component. *)
Definition last_report (c : string) (l : list (string * bool)) : option bool :=
  snd <$> last (filter (fun r => fst r = c) l).

Lemma reports_lookup c l : ready (reports l) !! c = last_report c l.
Proof.
  unfold reports, last_report. induction l as [|[c' ok] l IH] using rev_ind; [done|].
  rewrite foldl_app, filter_app. cbn [foldl SetReady ready]. destruct (decide (c' = c)) as [->|Hne].
  - by rewrite lookup_insert_eq, filter_cons_True, filter_nil, last_snoc by done.
  - by rewrite lookup_insert_ne, filter_cons_False, filter_nil, app_nil_r by done.
Qed.

(** Readiness follows the last reports: after any sequence of reports,
    [/readyz] answers 200 exactly when the last report of the bootstrap and the
    last report of the gateway were both positive, and 503 otherwise (also
    before a first report); [/healthz] always answers 200. *)
Lemma readyz_last_reports (l : list (string * bool)) :
  Mux (reports l) "/healthz" = Some 200 /\
  Mux (reports l) "/readyz" =
    Some (if bool_decide (last_report ComponentBootstrap l = Some true /\
                          last_report ComponentGateway l = Some true) then 200 else 503).
Proof.
  split; [done|]. unfold Mux. cbn [readyz_scan].
  rewrite bool_decide_eq_false_2, bool_decide_eq_true_2 by done.
  unfold is_ready. rewrite !reports_lookup. f_equal.
  destruct (last_report ComponentBootstrap l) as [[]|], (last_report ComponentGateway l) as [[]|];
    cbn; case_bool_decide; naive_solver.
Qed.
