(* ===== verification/Supervisor.v ===== *)
(** * [cmd/agent]: the goroutines of [run]

    After start-up [run] starts a group of goroutines that share a context, two
    channels with a buffer of one, the channel [sigUp], the health map and the
    metrics server.  [step] is one atomic action of one of them; the events are
    the interleavings.  What the goroutines call (the gateway, the daemon, the
    refresh loop) ends with any result, but only after cancellation where the
    called code returns nothing else.  Where the called code can panic
    ([bootstrap.Run] on its interval, [daemonapi.Run]) there is an action with
    the outcome [Panic]: a panic in a goroutine ends the process. *)
From S2P Require Import Prelude Effects K8s Config Agent Health.
Local Open Scope Z_scope.

(** What [run] read from the configuration. *)
Record Options := MkOptions {
  o_dynamicIPAM : bool;
  o_daemonAPI : bool;
  o_tls : bool;
  o_refreshInterval : Z
}.

(** A goroutine ends with the error it returns, [None] for nil. *)
Inductive LoopPc := LoopIdle | LoopWritten | LoopEnded (e : option gerror).
Inductive GatewayPc := GwStarting | GwReporting | GwUp | GwEnded (e : option gerror).
Inductive DaemonPc := DWaiting | DServing | DEnded (e : option gerror).
Inductive ServerPc := SWaiting | SServing | SEnded (e : option gerror).
Inductive BootstrapPc := BFetching | BTicking | BEnded (e : option gerror).
Inductive TaskPc := Running | Ended (e : option gerror).

(** The handler of the metrics server. *)
Inductive ServerHandler := PlainMux | Authenticated.

(** [rendered] counts the renderings of the policy files and [loaded] is the one
    the gateway last read; both only serve the statements. *)
Record Group := MkGroup {
  cancelled : bool;
  first_err : option gerror;
  topoChanged : bool;
  reload_pending : bool;
  self_sent : bool;
  sigUp : OnceChan;
  health : Health;
  srv_handler : ServerHandler;
  srv_shutdown : bool;
  g_bootstrap : BootstrapPc;
  g_loop : LoopPc;
  g_gateway : GatewayPc;
  g_daemon : DaemonPc;
  g_server : ServerPc;
  g_shutdown : TaskPc;
  rendered : nat;
  loaded : nat
}.

(** The group as [run] starts it; without the daemon API its goroutine is not
    started. *)
Definition start (o : Options) : Group :=
  MkGroup false None false false false (MkOnceChan false false) (SetReady ComponentBootstrap true New)
    PlainMux false BFetching LoopIdle GwStarting (if o_daemonAPI o then DWaiting else DEnded None)
    (if o_tls o then SWaiting else SServing) Running 1 0.

Definition ctx_err : gerror := Error ECanceled [Lit "context canceled"].

(** [errgroup]: the first error is kept and cancels the context. *)
Definition finish (e : option gerror) (g : Group) : Group :=
  match e, first_err g with
  | Some err, None =>
      MkGroup true (Some err) (topoChanged g) (reload_pending g) (self_sent g) (sigUp g) (health g)
        (srv_handler g) (srv_shutdown g) (g_bootstrap g) (g_loop g) (g_gateway g) (g_daemon g)
        (g_server g) (g_shutdown g) (rendered g) (loaded g)
  | _, _ => g
  end.

(** Assignments to the fields. *)
Definition set_cancelled (g : Group) : Group :=
  MkGroup true (first_err g) (topoChanged g) (reload_pending g) (self_sent g) (sigUp g) (health g)
    (srv_handler g) (srv_shutdown g) (g_bootstrap g) (g_loop g) (g_gateway g) (g_daemon g)
    (g_server g) (g_shutdown g) (rendered g) (loaded g).
Definition set_channels (topo reload self : bool) (g : Group) : Group :=
  MkGroup (cancelled g) (first_err g) topo reload self (sigUp g) (health g)
    (srv_handler g) (srv_shutdown g) (g_bootstrap g) (g_loop g) (g_gateway g) (g_daemon g)
    (g_server g) (g_shutdown g) (rendered g) (loaded g).
Definition set_bootstrap (pc : BootstrapPc) (g : Group) : Group :=
  MkGroup (cancelled g) (first_err g) (topoChanged g) (reload_pending g) (self_sent g) (sigUp g) (health g)
    (srv_handler g) (srv_shutdown g) pc (g_loop g) (g_gateway g) (g_daemon g)
    (g_server g) (g_shutdown g) (rendered g) (loaded g).
Definition set_loop (pc : LoopPc) (n : nat) (g : Group) : Group :=
  MkGroup (cancelled g) (first_err g) (topoChanged g) (reload_pending g) (self_sent g) (sigUp g) (health g)
    (srv_handler g) (srv_shutdown g) (g_bootstrap g) pc (g_gateway g) (g_daemon g)
    (g_server g) (g_shutdown g) n (loaded g).
Definition set_gateway (pc : GatewayPc) (up : bool) (c : OnceChan) (g : Group) : Group :=
  MkGroup (cancelled g) (first_err g) (topoChanged g) (reload_pending g) (self_sent g) c
    (SetReady ComponentGateway up (health g))
    (srv_handler g) (srv_shutdown g) (g_bootstrap g) (g_loop g) pc (g_daemon g)
    (g_server g) (g_shutdown g) (rendered g) (loaded g).
Definition set_loaded (n : nat) (g : Group) : Group :=
  MkGroup (cancelled g) (first_err g) (topoChanged g) (reload_pending g) (self_sent g) (sigUp g) (health g)
    (srv_handler g) (srv_shutdown g) (g_bootstrap g) (g_loop g) (g_gateway g) (g_daemon g)
    (g_server g) (g_shutdown g) (rendered g) n.
Definition set_daemon (pc : DaemonPc) (g : Group) : Group :=
  MkGroup (cancelled g) (first_err g) (topoChanged g) (reload_pending g) (self_sent g) (sigUp g) (health g)
    (srv_handler g) (srv_shutdown g) (g_bootstrap g) (g_loop g) (g_gateway g) pc
    (g_server g) (g_shutdown g) (rendered g) (loaded g).
Definition set_server (pc : ServerPc) (h : ServerHandler) (g : Group) : Group :=
  MkGroup (cancelled g) (first_err g) (topoChanged g) (reload_pending g) (self_sent g) (sigUp g) (health g)
    h (srv_shutdown g) (g_bootstrap g) (g_loop g) (g_gateway g) (g_daemon g)
    pc (g_shutdown g) (rendered g) (loaded g).
Definition set_shutdown (pc : TaskPc) (g : Group) : Group :=
  MkGroup (cancelled g) (first_err g) (topoChanged g) (reload_pending g) (self_sent g) (sigUp g) (health g)
    (srv_handler g) true (g_bootstrap g) (g_loop g) (g_gateway g) (g_daemon g)
    (g_server g) pc (rendered g) (loaded g).

(** ** The actions *)
Inductive action :=
| Signal                          (* SIGINT or SIGTERM *)
| TopologyChange                  (* [bootstrap.Run] reports a change *)
| BootstrapTicker                 (* after its first round it makes its ticker *)
| BootstrapEnd                    (* [bootstrap.Run] returns *)
| Rerender (t : trigger) (ok : bool)   (* the loop takes a trigger; [ok]: the files were written *)
| SendReload                      (* the send after a re-render *)
| LoopEnd
| GatewayReady                    (* the callback of [sig.Run] sets readiness *)
| GatewayOnUp                     (* and then closes [sigUp] *)
| GatewaySelfSend                 (* the gateway's own first reload *)
| GatewayReload                   (* the gateway receives and reads the policies *)
| GatewayEnd (e : option gerror)
| DaemonStart
| DaemonGiveUp                    (* the context is done first *)
| DaemonEnd (e : option gerror)
| DaemonPanic                     (* [daemonapi.Run] panics *)
| FilesReady                      (* the certificate files exist and the client is built *)
| ServerFail (err : gerror)       (* waiting, the client, or listening fails *)
| ServerGiveUp                    (* [waitForFiles] after cancellation *)
| ServerClosed                    (* [http.ErrServerClosed] *)
| ShutdownCall                    (* [srv.Shutdown] is entered: the server stops serving *)
| ShutdownEnd (e : option gerror).

(** One action; [None] where it is not enabled. *)
Definition step (o : Options) (a : action) (g : Group) : option (outcome Group) :=
  match a with
  | Signal => Some (Val (set_cancelled g))
  | TopologyChange =>
      match g_bootstrap g with
      | BFetching | BTicking => Some (Val (set_channels true (reload_pending g) (self_sent g) g))
      | BEnded _ => None
      end
  | BootstrapTicker =>
      match g_bootstrap g with
      | BFetching => Some (if o_refreshInterval o <=? 0 then Panic else Val (set_bootstrap BTicking g))
      | _ => None
      end
  | BootstrapEnd =>
      match g_bootstrap g with
      | BTicking => if cancelled g
                    then Some (Val (finish (Some ctx_err) (set_bootstrap (BEnded (Some ctx_err)) g))) else None
      | _ => None
      end
  | Rerender t ok =>
      match g_loop g with
      | LoopIdle =>
          let g' := match t with TopoChanged => set_channels false (reload_pending g) (self_sent g) g | Tick => g end in
          if match t with TopoChanged => topoChanged g | Tick => o_dynamicIPAM o end
          then Some (Val (if ok then set_loop LoopWritten (S (rendered g)) g' else g')) else None
      | _ => None
      end
  | SendReload =>
      match g_loop g with
      | LoopWritten => Some (Val (set_channels (topoChanged g) true (self_sent g) (set_loop LoopIdle (rendered g) g)))
      | _ => None
      end
  | LoopEnd =>
      match g_loop g with
      | LoopIdle => if cancelled g
                    then Some (Val (finish (Some ctx_err) (set_loop (LoopEnded (Some ctx_err)) (rendered g) g)))
                    else None
      | _ => None
      end
  | GatewayReady =>
      match g_gateway g with
      | GwStarting | GwUp => Some (Val (set_gateway GwReporting true (sigUp g) g))
      | _ => None
      end
  | GatewayOnUp =>
      match g_gateway g with
      | GwReporting => Some (c ← closeOnce (sigUp g); Val (set_gateway GwUp true c g))
      | _ => None
      end
  | GatewaySelfSend =>
      match g_gateway g with
      | GwUp => if self_sent g || reload_pending g then None
                else Some (Val (set_channels (topoChanged g) true true g))
      | _ => None
      end
  | GatewayReload =>
      match g_gateway g with
      | GwUp => if reload_pending g
                then Some (Val (set_loaded (rendered g) (set_channels (topoChanged g) false (self_sent g) g)))
                else None
      | _ => None
      end
  | GatewayEnd e =>
      match g_gateway g with
      | GwReporting | GwEnded _ => None
      | _ => Some (Val (finish e (set_gateway (GwEnded e) false (sigUp g) g)))
      end
  | DaemonStart =>
      match g_daemon g with
      | DWaiting => if chan_closed (sigUp g) then Some (Val (set_daemon DServing g)) else None
      | _ => None
      end
  | DaemonGiveUp =>
      match g_daemon g with
      | DWaiting => if cancelled g then Some (Val (finish (Some ctx_err) (set_daemon (DEnded (Some ctx_err)) g))) else None
      | _ => None
      end
  | DaemonEnd e =>
      match g_daemon g with
      | DServing => Some (Val (finish e (set_daemon (DEnded e) g)))
      | _ => None
      end
  | DaemonPanic =>
      match g_daemon g with
      | DServing => Some Panic
      | _ => None
      end
  | FilesReady =>
      match g_server g with
      | SWaiting => Some (Val (set_server SServing Authenticated g))
      | _ => None
      end
  | ServerFail err =>
      match g_server g with
      | SEnded _ => None
      | _ => Some (Val (finish (Some err) (set_server (SEnded (Some err)) (srv_handler g) g)))
      end
  | ServerGiveUp =>
      match g_server g with
      | SWaiting => if cancelled g
                    then Some (Val (finish (Some ctx_err) (set_server (SEnded (Some ctx_err)) (srv_handler g) g)))
                    else None
      | _ => None
      end
  | ServerClosed =>
      match g_server g with
      | SServing => if srv_shutdown g then Some (Val (set_server (SEnded None) (srv_handler g) g)) else None
      | _ => None
      end
  | ShutdownCall =>
      match g_shutdown g with
      | Running => if cancelled g && negb (srv_shutdown g) then Some (Val (set_shutdown Running g)) else None
      | Ended _ => None
      end
  | ShutdownEnd e =>
      match g_shutdown g with
      | Running => if srv_shutdown g then Some (Val (finish e (set_shutdown (Ended e) g))) else None
      | Ended _ => None
      end
  end.

(** [g.Wait] returns when all have ended; a cancellation is no error of [run]. *)
Definition all_ended (g : Group) : bool :=
  match g_bootstrap g, g_loop g, g_gateway g, g_daemon g, g_server g, g_shutdown g with
  | BEnded _, LoopEnded _, GwEnded _, DEnded _, SEnded _, Ended _ => true
  | _, _, _, _, _, _ => false
  end.

Definition run_result (g : Group) : option (result unit) :=
  if all_ended g
  then Some (match first_err g with
             | Some err => if is_kind ECanceled err then Ok tt else Err err
             | None => Ok tt
             end)
  else None.

(** [main]: the exit status, from the set-up of the library's logger and what
    [run] returned. *)
Definition agent_main (logSetup : option gerror) (run : result unit) : Z :=
  match logSetup with
  | Some _ => 1
  | None => match run with Err _ => 1 | Ok _ => 0 end
  end.
