(* ===== verification/SupervisorProps.v ===== *)
(** * Properties of the goroutine group

    An invariant of every interleaving, what each error of a goroutine leads to,
    and that a cancelled group can always come to its end. *)
From S2P Require Import Prelude Effects K8s Config Agent Health Supervisor.
Local Open Scope Z_scope.

Inductive reachable (o : Options) : Group -> Prop :=
| reach_start : reachable o (start o)
| reach_step a g g' : reachable o g -> step o a g = Some (Val g') -> reachable o g'.

(** A sequence of actions, for examples. *)
Fixpoint play (o : Options) (l : list action) (g : Group) : option Group :=
  match l with
  | [] => Some g
  | a :: l' => match step o a g with Some (Val g') => play o l' g' | _ => None end
  end.

Lemma play_reachable o l g g' : reachable o g -> play o l g = Some g' -> reachable o g'.
Proof.
  revert g. induction l as [|a l IH]; intros g Hr; cbn [play]; [by intros [= <-]|].
  destruct (step o a g) as [[g1| |]|] eqn:E; try done. apply IH. by eapply reach_step.
Qed.

Definition sample_options : Options := MkOptions true true true Minute.

(** The gateway is up, the daemon serves, and a re-render awaits its reload. *)
Definition sample_actions : list action :=
  [BootstrapTicker; GatewayReady; GatewayOnUp; GatewaySelfSend; GatewayReload; DaemonStart; FilesReady; GatewayReady; GatewayOnUp;
   Rerender Tick true; SendReload].
Definition sample_group : Group := default (start sample_options) (play sample_options sample_actions (start sample_options)).

Lemma sample_reachable : reachable sample_options sample_group.
Proof.
  apply (play_reachable _ sample_actions (start sample_options)); [constructor | vm_compute; reflexivity].
Qed.

Lemma is_ready_SetReady h c c' b : is_ready (SetReady c b h) c' = if bool_decide (c = c') then b else is_ready h c'.
Proof.
  unfold is_ready, SetReady. cbn [ready]. case_bool_decide as E.
  - subst. by rewrite lookup_insert_eq.
  - by rewrite lookup_insert_ne.
Qed.

(** The gateway reported that it is up, and has not ended. *)
Definition up (g : Group) : bool := match g_gateway g with GwReporting | GwUp => true | _ => false end.

(** ** The invariant *)
Record inv (o : Options) (g : Group) : Prop := MkInv {
  inv_once : once_done (sigUp g) = chan_closed (sigUp g);
  inv_daemon : g_daemon g = DServing -> chan_closed (sigUp g) = true;
  inv_daemon_off : g_daemon g = DWaiting \/ g_daemon g = DServing -> o_daemonAPI o = true;
  inv_up : g_gateway g = GwUp -> chan_closed (sigUp g) = true;
  inv_ready : is_ready (health g) ComponentGateway = up g;
  inv_bootstrap : is_ready (health g) ComponentBootstrap = true;
  inv_cancel : first_err g <> None -> cancelled g = true;
  inv_tls : o_tls o = true -> g_server g = SServing -> srv_handler g = Authenticated;
  inv_server : g_server g = SWaiting -> o_tls o = true;
  inv_fresh : loaded g = rendered g \/ reload_pending g = true \/ g_loop g = LoopWritten \/ self_sent g = false;
  inv_bootstrap_end : (exists e, g_bootstrap g = BEnded e) -> cancelled g = true;
  inv_interval : g_bootstrap g <> BFetching -> 0 < o_refreshInterval o;
  inv_shutdown : g_shutdown g <> Running -> srv_shutdown g = true
}.

(** [finish] touches the context and the first error only. *)
Lemma inv_finish o e g : inv o g -> inv o (finish e g).
Proof.
  intros [? ? ? ? ? ? Hc ? ? ? Hb ? ?]. unfold finish. destruct e as [err|]; [|by split].
  destruct (first_err g) eqn:E; split; cbn; auto; by rewrite E.
Qed.

Lemma inv_start o : inv o (start o).
Proof.
  destruct o as [dyn [] [] iv]; split; cbn; try done; try (by intros [?|?]); try (by right; right; right);
    by intros [e ?].
Qed.

(** Closing [sigUp] again is harmless. *)
Lemma closeOnce_closed c : once_done c = chan_closed c -> closeOnce c = Val (MkOnceChan true true).
Proof. destruct c as [[] []]; cbn; by intros. Qed.

Lemma inv_GatewayOnUp o g g' : inv o g -> step o GatewayOnUp g = Some (Val g') -> inv o g'.
Proof.
  intros [H1 H2 H3 H4 H5 H6 H7 H8 H9 H10 H11 Hi H12] Hs.
  assert (g' = set_gateway GwUp true (MkOnceChan true true) g) as ->.
  { cbn [step] in Hs. rewrite (closeOnce_closed _ H1) in Hs. by destruct (g_gateway g); inversion Hs. }
  split; cbn; try assumption; try done; rewrite is_ready_SetReady; by case_bool_decide.
Qed.

Lemma group_step_inv o a g g' : inv o g -> step o a g = Some (Val g') -> inv o g'.
Proof.
  intros Hi. destruct a; try exact (inv_GatewayOnUp o g g' Hi);
    pose proof Hi as [H1 H2 H3 H4 H5 H6 H7 H8 H9 H10 H11 Hint H12]; cbn [step]; intros Hs.
  all: repeat (case_match; try discriminate Hs);
    try (match type of Hs with Some (Val ?x) = _ => assert (g' = x) as -> by congruence; clear Hs end).
  all: try apply inv_finish.
  all: split; cbn; try assumption; try done.
  all: try (intros; congruence).
  all: try (intros [|]; congruence).
  all: try (intros [? ?]; congruence).
  all: try (intros _; first [lia | apply Hint; congruence]).
  all: try (rewrite is_ready_SetReady; by case_bool_decide).
  all: try (by intros _; apply H3; rewrite ?H; left).
  all: destruct H10 as [?|[?|[?|?]]]; auto; discriminate.
Qed.

Lemma reachable_inv o g : reachable o g -> inv o g.
Proof. induction 1; [apply inv_start | by eapply group_step_inv]. Qed.

(** The process crashes exactly when the refresh loop makes its ticker with an
    interval that is not positive, or the daemon API panics. *)
Lemma panics_only o a g : inv o g -> step o a g = Some Panic <->
  (a = BootstrapTicker /\ g_bootstrap g = BFetching /\ o_refreshInterval o <= 0) \/
  (a = DaemonPanic /\ g_daemon g = DServing).
Proof.
  intros Hi. split.
  - destruct a; cbn [step]; try rewrite (closeOnce_closed _ (inv_once _ _ Hi));
      intros Hs; repeat (case_match; try discriminate Hs); [done | left; split_and!; [done..|by apply Z.leb_le] | by right].
  - intros [(-> & E & H) | [-> E]]; cbn [step]; rewrite E; [|done].
    by rewrite (proj2 (Z.leb_le _ _) H).
Qed.

Lemma no_fuel o a g : inv o g -> step o a g <> Some NoFuel.
Proof.
  intros Hi. destruct a; cbn [step]; try rewrite (closeOnce_closed _ (inv_once _ _ Hi)); by repeat case_match.
Qed.

(** C16: In every interleaving of the goroutines: the daemon API starts only after
    the gateway reported that it is up; [/readyz] answers 200 exactly between that
    report and the end of the gateway; with a certificate the server serves the
    authenticated handler only; and policies the gateway has not read yet always
    have a reload on the way.  The process crashes at exactly two points: where
    the refresh loop makes its ticker, if the configured interval is not positive,
    and in the daemon API while that serves; in particular not in closing
    [sigUp], although the gateway may report more than once. *)
Theorem group_invariant o g : reachable o g ->
  (g_daemon g = DServing -> chan_closed (sigUp g) = true /\ o_daemonAPI o = true) /\
  (Mux (health g) "/readyz" = Some 200 <-> up g = true) /\
  (o_tls o = true -> g_server g = SServing -> srv_handler g = Authenticated) /\
  (loaded g <> rendered g -> reload_pending g = true \/ g_loop g = LoopWritten \/ self_sent g = false) /\
  (forall a r, step o a g = Some r -> (exists g', r = Val g') \/
     r = Panic /\ (a = BootstrapTicker /\ g_bootstrap g = BFetching /\ o_refreshInterval o <= 0 \/
                  a = DaemonPanic /\ g_daemon g = DServing)) /\
  (g_bootstrap g = BFetching -> o_refreshInterval o <= 0 -> step o BootstrapTicker g = Some Panic).
Proof.
  intros Hi%reachable_inv. pose proof Hi as [H1 H2 H3 H4 H5 H6 H7 H8 H9 H10 H11 Hint H12].
  split_and!; [auto | | done | tauto | |].
  - unfold Mux. rewrite bool_decide_eq_false_2, bool_decide_eq_true_2 by done. cbn [readyz_scan].
    rewrite H6, H5. cbn. by destruct (up g).
  - intros a r Hs. destruct r as [g'| |]; [left; by eexists | right; split; [done|] | by apply no_fuel in Hs].
    by apply (panics_only o a g Hi).
  - intros E Hle. apply panics_only; [done|]. by left.
Qed.

(** Without an interval the refresh loop crashes the process. *)
Definition zero_options : Options := MkOptions true true true 0.

Lemma group_invariant_witness :
  chan_closed (sigUp sample_group) = true /\ Mux (health sample_group) "/readyz" = Some 200 /\
  srv_handler sample_group = Authenticated /\ step zero_options BootstrapTicker (start zero_options) = Some Panic.
Proof.
  destruct (group_invariant sample_options sample_group sample_reachable) as (Hd & Hr & Ht & _).
  split; [apply Hd; vm_compute; reflexivity|].
  split; [apply Hr; vm_compute; reflexivity|]. split; [apply Ht; vm_compute; reflexivity|].
  apply (group_invariant zero_options (start zero_options)); [constructor | reflexivity | discriminate].
Defined.

(** ** Errors *)
Definition moves (o : Options) (g g' : Group) : Prop := exists a, step o a g = Some (Val g').

(** The error with which an action ends a goroutine. *)
Definition failing (a : action) : option gerror :=
  match a with
  | GatewayEnd e | DaemonEnd e | ShutdownEnd e => e
  | ServerFail err => Some err
  | BootstrapEnd | LoopEnd | DaemonGiveUp | ServerGiveUp => Some ctx_err
  | _ => None
  end.

Lemma first_err_finish e g : first_err (finish e g) = match first_err g with Some err => Some err | None => e end.
Proof. unfold finish. by destruct e, (first_err g) eqn:E; rewrite ?E. Qed.

Lemma step_first_err o a g g' : step o a g = Some (Val g') ->
  first_err g' = match first_err g with Some err => Some err | None => failing a end.
Proof.
  destruct a; cbn [step failing]; intros Hs; try (destruct (closeOnce (sigUp g)); cbn in Hs);
    repeat match type of Hs with context [match ?x with _ => _ end] => destruct x eqn:?; try discriminate Hs end;
    match type of Hs with Some (Val ?x) = _ => assert (g' = x) as -> by congruence; clear Hs end;
    rewrite ?first_err_finish; by destruct (first_err g) eqn:E; cbn; rewrite ?E.
Qed.

Lemma moves_first_err o g g' err : rtc (moves o) g g' -> first_err g = Some err -> first_err g' = Some err.
Proof.
  induction 1 as [|g g1 g' [a Hs] _ IH]; [done|]. intros Hg. apply IH.
  by rewrite (step_first_err _ _ _ _ Hs), Hg.
Qed.

(** The first goroutine to end with an error decides what [run] returns,
    whatever the others do afterwards. *)
Lemma first_error_reported o g a g' g'' err r :
  reachable o g -> first_err g = None -> failing a = Some err -> step o a g = Some (Val g') ->
  rtc (moves o) g' g'' -> run_result g'' = Some r ->
  r = (if is_kind ECanceled err then Ok tt else Err err) /\ cancelled g'' = true.
Proof.
  intros Hr Hn Hf Hs Hm Hres.
  assert (He : first_err g'' = Some err).
  { eapply moves_first_err; [exact Hm|]. by rewrite (step_first_err _ _ _ _ Hs), Hn. }
  assert (Hr' : reachable o g'').
  { assert (Hr1 : reachable o g') by (by eapply reach_step). clear -Hr1 Hm.
    induction Hm as [|g1 g2 g3 [b Hb] _ IH]; [done|]. apply IH. by eapply reach_step. }
  split; [|apply (inv_cancel _ _ (reachable_inv _ _ Hr')); by rewrite He].
  unfold run_result in Hres. destruct (all_ended g''); [|done]. rewrite He in Hres. by injection Hres as <-.
Qed.

Definition tun_error : gerror := errorf [Lit "tun device"].
Definition failed_group : Group :=
  default sample_group (play sample_options [GatewayEnd (Some tun_error)] sample_group).
Definition ended_group : Group :=
  default failed_group (play sample_options [BootstrapEnd; LoopEnd; DaemonEnd None; ShutdownCall; ServerClosed; ShutdownEnd None] failed_group).

Lemma sample_error_reported : run_result ended_group = Some (Err tun_error).
Proof.
  assert (Hm : rtc (moves sample_options) failed_group ended_group).
  { eapply rtc_l; [exists BootstrapEnd; vm_compute; reflexivity|].
    eapply rtc_l; [exists LoopEnd; vm_compute; reflexivity|].
    eapply rtc_l; [exists (DaemonEnd None); vm_compute; reflexivity|].
    eapply rtc_l; [exists ShutdownCall; vm_compute; reflexivity|].
    eapply rtc_l; [exists ServerClosed; vm_compute; reflexivity|].
    eapply rtc_l; [exists (ShutdownEnd None); vm_compute; reflexivity | apply rtc_refl]. }
  destruct (run_result ended_group) as [r|] eqn:E; [|vm_compute in E; discriminate E].
  destruct (first_error_reported sample_options sample_group (GatewayEnd (Some tun_error)) failed_group ended_group
    tun_error r sample_reachable) as [-> _]; [reflexivity | reflexivity | vm_compute; reflexivity | exact Hm | exact E |].
  reflexivity.
Defined.

(** ** Shutting down *)

(** How much is left to end. *)
Definition left_over (g : Group) : nat :=
  (match g_bootstrap g with BFetching => 2 | BTicking => 1 | BEnded _ => 0 end)
  + (match g_loop g with LoopIdle => 1 | LoopWritten => 2 | LoopEnded _ => 0 end)
  + (match g_gateway g with GwEnded _ => 0 | GwReporting => 2 | _ => 1 end)
  + (match g_daemon g with DEnded _ => 0 | _ => 1 end)
  + (match g_server g with SEnded _ => 0 | _ => 1 end)
  + (match g_shutdown g with Running => if srv_shutdown g then 1 else 2 | Ended _ => 0 end).

Lemma left_over_finish e g : left_over (finish e g) = left_over g.
Proof. unfold finish. destruct e, (first_err g); done. Qed.

Lemma cancelled_finish e g : cancelled g = true -> cancelled (finish e g) = true.
Proof. unfold finish. by destruct e, (first_err g). Qed.

Definition ends_soon (o : Options) (g : Group) : Prop :=
  exists a g', step o a g = Some (Val g') /\ cancelled g' = true /\ (left_over g' < left_over g)%nat.

Lemma ends_soon_finish o a e g g' : cancelled g' = true -> (left_over g' < left_over g)%nat ->
  step o a g = Some (Val (finish e g')) -> ends_soon o g.
Proof.
  intros Hc Hl Hs. exists a, (finish e g'). split; [done|].
  by rewrite left_over_finish, (cancelled_finish _ _ Hc).
Qed.

(** The action that ends a goroutine, or brings the loop closer to it. *)
Ltac ends a :=
  first
    [ eapply (ends_soon_finish _ a); [| |cbn [step]; repeat (simpl_pc; cbn iota); reflexivity]; [done | unfold left_over; cbn; simpl_pc; lia]
    | eexists a, _; split; [cbn [step]; repeat (simpl_pc; cbn iota); reflexivity|];
      split; [done | unfold left_over; cbn; simpl_pc; lia] ]
with simpl_pc := repeat match goal with E : _ = _ |- _ => rewrite E end.

Lemma progress o g : 0 < o_refreshInterval o -> inv o g -> cancelled g = true -> all_ended g = false -> ends_soon o g.
Proof.
  intros Hpos%Z.leb_gt Hi Hc He.
  destruct (g_bootstrap g) eqn:Eb; [ends BootstrapTicker | ends BootstrapEnd |].
  destruct (g_loop g) eqn:El; [ends LoopEnd | ends SendReload |].
  destruct (g_gateway g) eqn:Eg; [ends (GatewayEnd None) | | ends (GatewayEnd None) |].
  { pose proof (closeOnce_closed _ (inv_once _ _ Hi)) as Ec. ends GatewayOnUp. }
  destruct (g_daemon g) eqn:Ed; [ends DaemonGiveUp | ends (DaemonEnd None) |].
  destruct (g_shutdown g) eqn:Es.
  { destruct (srv_shutdown g) eqn:Esh; [ends (ShutdownEnd None) | ends ShutdownCall]. }
  assert (Hsh : srv_shutdown g = true) by (apply (inv_shutdown _ _ Hi); by rewrite Es).
  destruct (g_server g) eqn:Ev; [ends ServerGiveUp | ends ServerClosed |].
  unfold all_ended in He. by rewrite Eb, El, Eg, Ed, Ev, Es in He.
Qed.

Lemma can_end o g : 0 < o_refreshInterval o -> inv o g -> cancelled g = true ->
  exists g', rtc (moves o) g g' /\ is_Some (run_result g').
Proof.
  intros Hpos Hr. remember (left_over g) as n eqn:En. revert g Hr En.
  induction n as [n IH] using lt_wf_ind. intros g Hi -> Hc.
  destruct (all_ended g) eqn:Ea.
  { exists g. split; [done|]. unfold run_result. rewrite Ea. by eexists. }
  destruct (progress o g Hpos Hi Hc Ea) as (a & g1 & Hs & Hc1 & Hl).
  destruct (IH _ Hl g1 (group_step_inv _ _ _ _ Hi Hs) eq_refl Hc1) as (g' & Hm & H).
  exists g'. split; [|done]. eapply rtc_l; [by exists a | done].
Qed.

(** C30: From every reachable state in which the context is cancelled, and with a
    positive refresh interval, the goroutines can all come to their end (the
    library calls return once the context is done), and [run] then returns.  With
    an interval that is not positive [run] never returns: the refresh loop cannot
    get past its ticker, where the process crashes.  In every execution [run]
    returns the error of the goroutine that failed first, and no error if that was
    the cancellation.  It does not return before the context is cancelled, and
    when it returned the process exits with status 0 exactly when no goroutine
    failed first with another error than the cancellation. *)
Theorem shutdown_completes o g : reachable o g -> cancelled g = true ->
  (0 < o_refreshInterval o -> exists g', rtc (moves o) g g' /\ is_Some (run_result g')) /\
  (o_refreshInterval o <= 0 -> forall g', reachable o g' ->
     run_result g' = None /\ step o BootstrapTicker g' = Some Panic) /\
  (forall g0 a g1 g' err r, reachable o g0 -> first_err g0 = None ->
     failing a = Some err -> step o a g0 = Some (Val g1) -> rtc (moves o) g1 g' -> run_result g' = Some r ->
     r = (if is_kind ECanceled err then Ok tt else Err err)) /\
  (forall g', reachable o g' -> is_Some (run_result g') -> cancelled g' = true) /\
  (forall g' r, run_result g' = Some r ->
     agent_main None r = 0 <-> forall err, first_err g' = Some err -> is_kind ECanceled err = true).
Proof.
  intros Hr Hc. split; [intros Hpos; by apply can_end; [|apply reachable_inv|]|]. split_and!.
  - intros Hle g' Hr'%reachable_inv.
    assert (E : g_bootstrap g' = BFetching).
    { pose proof (inv_interval _ _ Hr') as Hi. destruct (g_bootstrap g'); [done | |]; by lapply Hi; [lia|]. }
    split; [unfold run_result, all_ended; by rewrite E | apply panics_only; [done|]; by left].
  - intros g0 a g1 g' err r Hr0 Hn Hf Hs Hm Hres. by destruct (first_error_reported o g0 a g1 g' err r).
  - intros g' Hr' [r Hres]. apply (inv_bootstrap_end _ _ (reachable_inv _ _ Hr')).
    unfold run_result, all_ended in Hres. destruct (g_bootstrap g'); [done | done | by eexists].
  - intros g' r. unfold run_result. destruct (all_ended g'); [|done]. intros [= <-]. cbn [agent_main].
    destruct (first_err g') as [err|]; [|naive_solver]. destruct (is_kind ECanceled err) eqn:E; [naive_solver|].
    split; [done|]. intros H. by rewrite (H err eq_refl) in E.
Qed.

Lemma shutdown_completes_witness :
  (exists g', rtc (moves sample_options) (set_cancelled sample_group) g' /\ is_Some (run_result g')) /\
  run_result (set_cancelled (start zero_options)) = None.
Proof.
  split.
  - apply (shutdown_completes sample_options (set_cancelled sample_group)); [|reflexivity..].
    apply (reach_step _ Signal sample_group); [exact sample_reachable | reflexivity].
  - assert (Hr : reachable zero_options (set_cancelled (start zero_options)))
      by (apply (reach_step _ Signal (start zero_options)); [constructor | reflexivity]).
    apply (shutdown_completes zero_options (set_cancelled (start zero_options))); [exact Hr | reflexivity | discriminate | exact Hr].
Defined.
