(* ===== verification/MetricsAuth.v ===== *)
(** * [internal/agent/metricsauth]: authenticated metrics

    The middleware as a program over the commands that leave it: the two
    critical sections on the decision cache and the two API reviews.  A step
    relation interleaves any number of requests on one cache and one clock. *)
From S2P Require Import Prelude Effects GoStrings Api K8s.
Local Open Scope Z_scope.

Definition cacheTTL : Z := 2 * Minute.
Definition cacheMax : Z := 128.

Record UserInfo := MkUserInfo { ui_Username : string; ui_UID : string; ui_Groups : list string }.
Record TokenReviewStatus := MkTokenReviewStatus { trs_Authenticated : bool; trs_User : UserInfo }.

Record NonResourceAttributes := MkNonResource { nra_Path : string; nra_Verb : string }.

Inductive mcmd :=
| CacheCheck (token : string)   (* the first critical section *)
| TokenReview (token : string)
| AccessReview (user : UserInfo) (attrs : NonResourceAttributes)
| CacheStore (token : string).  (* the second one *)

Definition mresp (c : mcmd) : Type :=
  match c with
  | CacheCheck _ => bool
  | TokenReview _ => result TokenReviewStatus
  | AccessReview _ _ => result bool
  | CacheStore _ => unit
  end.

Abbreviation mprog := (prog mresp).

(** The map [allowed] of the authenticator. *)
Abbreviation cache := (gmap string Z).

Definition cached (now : Z) (allowed : cache) (token : string) : bool :=
  match allowed !! token with Some exp => now <? exp | None => false end.

Definition store (now : Z) (allowed : cache) (token : string) : cache :=
  let allowed := if cacheMax <=? Z.of_nat (size allowed) then ∅ else allowed in
  <[token := now + cacheTTL]> allowed.

Definition check (token : string) : mprog (result Z) :=
  hit ← call (CacheCheck token);
  if (hit : bool) then Ret (Ok 200)
  else
    tr ← call (TokenReview token);
    match tr with
    | Err err => Ret (Err err)
    | Ok status =>
        if negb (trs_Authenticated status) then Ret (Ok 401)
        else
          sar ← call (AccessReview (trs_User status) (MkNonResource "/metrics" "get"));
          match sar with
          | Err err => Ret (Err err)
          | Ok allowed =>
              if negb allowed then Ret (Ok 403)
              else _ ← call (CacheStore token); Ret (Ok 200)
          end
    end.

(** [Next]: the request reaches the wrapped handler. *)
Inductive answer := Next | HttpError (status : Z).

Definition Middleware (unauthenticated : list string) (path authorization : string) : mprog answer :=
  if bool_decide (path ∈ unauthenticated) then Ret Next
  else match CutPrefix authorization "Bearer " with
  | None => Ret (HttpError 401)
  | Some token =>
      if bool_decide (token = "") then Ret (HttpError 401)
      else
        r ← check token;
        match r with
        | Err _ => Ret (HttpError 500)
        | Ok status => if negb (status =? 200) then Ret (HttpError status) else Ret Next
        end
  end.

(** ** Requests in flight *)
Record request := MkRequest { rq_path : string; rq_auth : string }.

(** What happened, per request: a request has the number it arrived with. *)
Inductive entry :=
| Arrived (id : nat) (rq : request)
| Looked (id : nat) (token : string) (hit : bool)
| TokenReviewed (id : nat) (token : string) (r : result TokenReviewStatus)
| AccessReviewed (id : nat) (user : UserInfo) (attrs : NonResourceAttributes) (r : result bool)
| Stored (id : nat) (token : string)
| Served (id : nat) (rq : request).

(** [log] records the events with their times, the last one first: every lookup,
    every answer of the API server as it was given, every insertion into the
    cache, and the requests that reached the handler.  No step reads it. *)
Record system := MkSystem {
  clock : Z;
  allowed : cache;
  threads : list (nat * request * mprog answer);
  log : list (Z * entry)
}.

Definition initial (now : Z) : system := MkSystem now ∅ [] [].

Definition note (s : system) (e : entry) : list (Z * entry) := (clock s, e) :: log s.

(** Thread [i], request [id], goes on as [p] after the event [e]. *)
Definition resume (s : system) (i id : nat) (rq : request) (p : mprog answer) (e : entry) : system :=
  MkSystem (clock s) (allowed s) (<[i := (id, rq, p)]> (threads s)) (note s e).

(** One command of a thread: the cache sections run against the shared cache at
    the current time, the reviews get any answer. *)
Definition advance (s : system) (i id : nat) (rq : request) (p : mprog answer) (s' : system) : Prop :=
  match p with
  | Ret a =>
      s' = MkSystem (clock s) (allowed s) (delete i (threads s))
             (match a with Next => note s (Served id rq) | HttpError _ => log s end)
  | Do c k =>
      match c as c return (mresp c -> mprog answer) -> Prop with
      | CacheCheck token => fun k =>
          let hit := cached (clock s) (allowed s) token in
          s' = resume s i id rq (k hit) (Looked id token hit)
      | TokenReview token => fun k => exists r, s' = resume s i id rq (k r) (TokenReviewed id token r)
      | AccessReview user attrs => fun k => exists r,
          s' = resume s i id rq (k r) (AccessReviewed id user attrs r)
      | CacheStore token => fun k =>
          s' = MkSystem (clock s) (store (clock s) (allowed s) token) (<[i := (id, rq, k tt)]> (threads s))
                 (note s (Stored id token))
      end k
  end.

Inductive step (skip : list string) : system -> system -> Prop :=
| step_time s d : 0 <= d ->
    step skip s (MkSystem (clock s + d) (allowed s) (threads s) (log s))
| step_arrive s id rq : (forall t rq', (t, Arrived id rq') ∉ log s) ->
    step skip s (MkSystem (clock s) (allowed s)
      (threads s ++ [(id, rq, Middleware skip (rq_path rq) (rq_auth rq))]) (note s (Arrived id rq)))
| step_run s i id rq p s' : threads s !! i = Some (id, rq, p) -> advance s i id rq p s' -> step skip s s'.

Definition reachable (skip : list string) (now : Z) : system -> Prop :=
  rtc (step skip) (initial now).

(** ** The invariant *)
Definition bearer (rq : request) (token : string) : Prop :=
  token <> "" /\ rq_auth rq = "Bearer " +:+ token.

(** Between its arrival and [t] the request [id] with this token had both reviews
    answered in its favour: a TokenReview that authenticated the token, and a
    SubjectAccessReview that allows the user of that very answer to [get]
    [/metrics]. *)
Definition vetted (l : list (Z * entry)) (id : nat) (token : string) (t : Z) : Prop :=
  exists rq status t0 t1 t2, bearer rq token /\ (t0, Arrived id rq) ∈ l /\
    (t1, TokenReviewed id token (Ok status)) ∈ l /\ trs_Authenticated status = true /\
    (t2, AccessReviewed id (trs_User status) (MkNonResource "/metrics" "get") (Ok true)) ∈ l /\
    t0 <= t1 <= t2 /\ t2 <= t.

(** At [now] the token was stored less than two minutes ago, by a request that
    had been vetted itself. *)
Definition recently_vetted (l : list (Z * entry)) (token : string) (now : Z) : Prop :=
  exists id t, (t, Stored id token) ∈ l /\ t <= now < t + cacheTTL /\ vetted l id token t.

(** What justifies letting a request through at [t]: it bypasses the check, or it
    was vetted, or its lookup found a token that was. *)
Definition justified (skip : list string) (l : list (Z * entry)) (id : nat) (rq : request) (t : Z) : Prop :=
  rq_path rq ∈ skip \/ exists token, bearer rq token /\
    (vetted l id token t
     \/ exists tc, (tc, Looked id token true) ∈ l /\ tc <= t /\ recently_vetted l token tc).

(** The points a request can be at. *)
Definition finish (r : result Z) : mprog answer :=
  match r with
  | Err _ => Ret (HttpError 500)
  | Ok status => if negb (status =? 200) then Ret (HttpError status) else Ret Next
  end.

Definition after_access (token : string) (sar : result bool) : mprog answer :=
  (match sar with
   | Err err => Ret (Err err)
   | Ok allowed => if negb allowed then Ret (Ok 403) else _ ← call (CacheStore token); Ret (Ok 200)
   end) ≫= finish.

Definition after_review (token : string) (tr : result TokenReviewStatus) : mprog answer :=
  (match tr with
   | Err err => Ret (Err err)
   | Ok status =>
       if negb (trs_Authenticated status) then Ret (Ok 401)
       else
         sar ← call (AccessReview (trs_User status) (MkNonResource "/metrics" "get"));
         match sar with
         | Err err => Ret (Err err)
         | Ok allowed =>
             if negb allowed then Ret (Ok 403)
             else _ ← call (CacheStore token); Ret (Ok 200)
         end
   end) ≫= finish.

(** The request arrived, with its token, no later than [t]. *)
Definition arrived (l : list (Z * entry)) (id : nat) (rq : request) (token : string) (t : Z) : Prop :=
  bearer rq token /\ exists t0, (t0, Arrived id rq) ∈ l /\ t0 <= t.

(** ... and its token was authenticated as the user. *)
Definition authenticated (l : list (Z * entry)) (id : nat) (rq : request) (token : string)
    (user : UserInfo) (t : Z) : Prop :=
  exists status t1, arrived l id rq token t1 /\ (t1, TokenReviewed id token (Ok status)) ∈ l /\
    trs_Authenticated status = true /\ user = trs_User status /\ t1 <= t.

Inductive phase (skip : list string) (l : list (Z * entry)) (now : Z) (id : nat) (rq : request) : mprog answer -> Prop :=
| ph_refused st : phase skip l now id rq (Ret (HttpError st))
| ph_next : justified skip l id rq now -> phase skip l now id rq (Ret Next)
| ph_start token : arrived l id rq token now -> phase skip l now id rq (check token ≫= finish)
| ph_review token : arrived l id rq token now ->
    phase skip l now id rq (Do (TokenReview token) (after_review token))
| ph_access token user : authenticated l id rq token user now ->
    phase skip l now id rq (Do (AccessReview user (MkNonResource "/metrics" "get")) (after_access token))
| ph_store token : bearer rq token -> vetted l id token now ->
    phase skip l now id rq (Do (CacheStore token) (fun _ => Ret Next)).

Record inv (skip : list string) (s : system) : Prop := {
  inv_size : Z.of_nat (size (allowed s)) <= cacheMax;
  inv_cache : forall token exp, allowed s !! token = Some exp ->
    exists id t, (t, Stored id token) ∈ log s /\ t <= clock s /\ exp = t + cacheTTL /\ vetted (log s) id token t;
  inv_threads : forall id rq p, (id, rq, p) ∈ threads s -> phase skip (log s) (clock s) id rq p;
  inv_served : forall id rq t, (t, Served id rq) ∈ log s -> justified skip (log s) id rq t
}.

(** Facts that survive a step. *)
Section Mono.
Context (l l' : list (Z * entry)) (Hl : l ⊆ l').

Lemma vetted_mono id token t t' : vetted l id token t -> t <= t' -> vetted l' id token t'.
Proof.
  intros (rq & st & t0 & t1 & t2 & H1 & H2 & H3 & H4 & H5 & H6 & H7) Ht.
  exists rq, st, t0, t1, t2. split_and!; auto; lia.
Qed.

Lemma recently_mono token t : recently_vetted l token t -> recently_vetted l' token t.
Proof.
  intros (id & u & Hs & Hu & Hv). exists id, u. split_and!; [auto | lia.. | by eapply vetted_mono].
Qed.

Lemma justified_mono skip id rq t t' : justified skip l id rq t -> t <= t' -> justified skip l' id rq t'.
Proof.
  intros [H | (token & Hb & [Hv | (tc & Hc & Htc & Hr)])] Ht; [by left | right; exists token; split; [done|]..].
  - left. by eapply vetted_mono.
  - right. exists tc. split_and!; [auto | lia | by apply recently_mono].
Qed.

Lemma arrived_mono id rq token t t' : arrived l id rq token t -> t <= t' -> arrived l' id rq token t'.
Proof. intros (Hb & t0 & H & Ht0) Ht. split; [done|]. exists t0. split; [auto | lia]. Qed.

Lemma authenticated_mono id rq token user t t' :
  authenticated l id rq token user t -> t <= t' -> authenticated l' id rq token user t'.
Proof.
  intros (st & t1 & Ha & Hr & Hs & Hu & Ht1) Ht. exists st, t1.
  split_and!; [by eapply arrived_mono | auto | done | done | lia].
Qed.

Lemma phase_mono skip now now' id rq p : phase skip l now id rq p -> now <= now' -> phase skip l' now' id rq p.
Proof.
  intros [st | Hj | token Ha | token Ha | token user Ha | token Hb Hv] Hn; econstructor;
    eauto using justified_mono, arrived_mono, authenticated_mono, vetted_mono.
Qed.
End Mono.

Lemma note_subset s e : log s ⊆ note s e.
Proof. intros x Hx. by apply list_elem_of_further. Qed.

Lemma note_here s e : (clock s, e) ∈ note s e.
Proof. apply list_elem_of_here. Qed.

Lemma note_further s e t e' : (t, e') ∈ note s e -> e' <> e -> (t, e') ∈ log s.
Proof. intros [[= -> ->] | H]%elem_of_cons Hne; [done | done]. Qed.

#[local] Hint Resolve note_subset note_here : core.

Lemma Middleware_phase skip s id rq :
  phase skip (note s (Arrived id rq)) (clock s) id rq (Middleware skip (rq_path rq) (rq_auth rq)).
Proof.
  unfold Middleware. case_bool_decide; [apply ph_next; by left|].
  destruct (CutPrefix _ _) as [token|] eqn:E; [|constructor].
  case_bool_decide; [constructor|]. apply CutPrefix_Some in E. apply ph_start. split; [done|].
  exists (clock s). split; [auto | lia].
Qed.

(** A change that keeps the cache and serves nobody. *)
Lemma inv_threads_step skip s s' : inv skip s ->
  allowed s' = allowed s -> log s ⊆ log s' -> clock s <= clock s' ->
  (forall id rq t, (t, Served id rq) ∈ log s' -> (t, Served id rq) ∈ log s) ->
  (forall id rq p, (id, rq, p) ∈ threads s' -> (id, rq, p) ∈ threads s \/ phase skip (log s') (clock s') id rq p) ->
  inv skip s'.
Proof.
  intros [Hsz Hc Hth Hsv] Ha Hl Hcl Hs Ht. split; rewrite ?Ha.
  - done.
  - intros token exp (id & t & H1 & H2 & H3 & H4)%Hc. exists id, t.
    split_and!; [auto | lia | done |]. by eapply vetted_mono.
  - intros id rq p [H|H]%Ht; [|done]. by eapply phase_mono; [..|apply Hth|].
  - intros id rq t H%Hs%Hsv. by eapply justified_mono.
Qed.

Lemma elem_of_insert_thread {A} (l : list A) i x y : y ∈ <[i := x]> l -> y = x \/ y ∈ l.
Proof.
  intros [j Hj]%list_elem_of_lookup. apply list_lookup_insert_Some in Hj as [(-> & <- & _) | [_ H]];
    [by left | right; by eapply list_elem_of_lookup_2].
Qed.

(** One thread goes on after an event that serves nobody. *)
Lemma inv_resume skip s i id rq p e : inv skip s -> (forall id' rq', e <> Served id' rq') ->
  phase skip (note s e) (clock s) id rq p -> inv skip (resume s i id rq p e).
Proof.
  intros Hi He Hp. apply (inv_threads_step skip s); cbn [resume allowed log clock threads]; auto; [lia | |].
  - intros id' rq' t H. eapply note_further; [exact H|]. intros E. by eapply He.
  - intros id' rq' p' [[= -> -> ->] | H]%elem_of_insert_thread; [by right | by left].
Qed.

Lemma store_spec now a token : Z.of_nat (size a) <= cacheMax ->
  Z.of_nat (size (store now a token)) <= cacheMax /\
  forall t exp, store now a token !! t = Some exp ->
    (t = token /\ exp = now + cacheTTL) \/ a !! t = Some exp.
Proof.
  unfold store, cacheMax. intros Hs. destruct (128 <=? Z.of_nat (size a)) eqn:E; split.
  - rewrite map_size_insert, lookup_empty, map_size_empty. cbn. lia.
  - intros t exp [[<- <-] | [_ H]]%lookup_insert_Some; [by left | by rewrite lookup_empty in H].
  - rewrite map_size_insert. destruct (a !! token); cbn; lia.
  - intros t exp [[<- <-] | [_ H]]%lookup_insert_Some; [by left | by right].
Qed.

Lemma inv_cached skip s token : inv skip s -> cached (clock s) (allowed s) token = true ->
  recently_vetted (log s) token (clock s).
Proof.
  intros Hi. unfold cached. destruct (allowed s !! token) as [exp|] eqn:E; [|done].
  intros Hlt%Z.ltb_lt. destruct (inv_cache _ _ Hi _ _ E) as (id & t & H1 & H2 & -> & H4).
  exists id, t. split_and!; [done | lia.. | done].
Qed.

(** Storing the token of a vetted request. *)
Lemma inv_store skip s i id rq token p : inv skip s -> vetted (log s) id token (clock s) ->
  phase skip (note s (Stored id token)) (clock s) id rq p ->
  inv skip (MkSystem (clock s) (store (clock s) (allowed s) token) (<[i := (id, rq, p)]> (threads s))
              (note s (Stored id token))).
Proof.
  intros [Hsz Hc Ht Hsv] Hv Hp.
  destruct (store_spec (clock s) (allowed s) token Hsz) as [Hs1 Hs2]. split; cbn [clock allowed threads log]; [done| | |].
  - intros t exp [[-> ->] | H]%Hs2.
    + exists id, (clock s). split_and!; [auto | lia | done |]. eapply vetted_mono; [auto | exact Hv | lia].
    + destruct (Hc _ _ H) as (j & u & ? & ? & ? & Hj). exists j, u.
      split_and!; [by apply list_elem_of_further | done.. |]. eapply vetted_mono; [auto | exact Hj | lia].
  - intros id' rq' p' [[= -> -> ->] | H]%elem_of_insert_thread; [done|].
    eapply phase_mono; [auto | by apply Ht | lia].
  - intros id' rq' t H. apply note_further in H; [|done]. eapply justified_mono; [auto | by apply Hsv | lia].
Qed.

(** A request leaves. *)
Lemma inv_leave skip s i id rq a : inv skip s -> (a = Next -> justified skip (log s) id rq (clock s)) ->
  inv skip (MkSystem (clock s) (allowed s) (delete i (threads s))
              (match a with Next => note s (Served id rq) | HttpError _ => log s end)).
Proof.
  intros Hi Hj. destruct a as [|st].
  - specialize (Hj eq_refl). destruct Hi as [Hsz Hc Ht Hsv]. split; cbn [clock allowed threads log]; [done| | |].
    + intros t exp (j & u & ? & ? & ? & Hv)%Hc. exists j, u.
      split_and!; [by apply list_elem_of_further | done.. |]. eapply vetted_mono; [auto | exact Hv | lia].
    + intros id' rq' p' H%list_elem_of_delete_inv. eapply phase_mono; [auto | by apply Ht | lia].
    + intros id' rq' t [[= -> -> ->] | H]%elem_of_cons; (eapply justified_mono; [auto | | reflexivity]); [done | by apply Hsv].
  - eapply inv_threads_step; [exact Hi | done | done | cbn; lia | done |].
    cbn. intros id' rq' p' Hin. left. by apply list_elem_of_delete_inv in Hin.
Qed.

Lemma inv_run skip s i id rq p s' : inv skip s -> threads s !! i = Some (id, rq, p) ->
  advance s i id rq p s' -> inv skip s'.
Proof.
  intros Hi Hth. pose proof (inv_threads _ _ Hi id rq p (list_elem_of_lookup_2 _ _ _ Hth)) as Hp.
  destruct Hp as [st | Hj | token Ha | token Ha | token user Ha | token Hb Hv].
  - intros ->. by apply (inv_leave skip s i id rq (HttpError st)).
  - intros ->. by apply (inv_leave skip s i id rq Next).
  - intros ->. apply inv_resume; [done | done|].
    destruct (cached (clock s) (allowed s) token) eqn:E.
    + apply ph_next. right. exists token. split; [apply Ha|]. right. exists (clock s).
      split_and!; [auto | lia |]. eapply recently_mono; [auto | by eapply inv_cached].
    + apply ph_review. eapply arrived_mono; [auto | exact Ha | lia].
  - intros [r ->]. apply inv_resume; [done | done|].
    destruct r as [st|e]; [|constructor]. unfold after_review.
    destruct (trs_Authenticated st) eqn:E; [|constructor]. apply (ph_access _ _ _ _ _ token).
    exists st, (clock s). split_and!; [|auto | done | done | lia]. eapply arrived_mono; [auto | exact Ha | lia].
  - intros [r ->]. apply inv_resume; [done | done|]. destruct r as [[]|]; [|constructor..].
    destruct Ha as (st & t1 & (Hb & t0 & Harr & Ht0) & Hr & Hs & -> & Ht1).
    apply ph_store; [done|]. exists rq, st, t0, t1, (clock s).
    split_and!; [exact Hb | by apply note_subset | by apply note_subset | done | auto | lia..].
  - intros ->. apply inv_store; [done | done|]. apply ph_next. right. exists token. split; [done|]. left.
    eapply vetted_mono; [auto | exact Hv | lia].
Qed.

Lemma inv_step skip s s' : inv skip s -> step skip s s' -> inv skip s'.
Proof.
  intros Hi Hst. revert Hi. destruct Hst as [s0 d Hd | s0 id rq Hid | s0 i id rq p s1 Hth Ha]; intros Hi.
  - apply (inv_threads_step skip s0); cbn [allowed log clock threads]; auto; lia.
  - apply (inv_threads_step skip s0); cbn [allowed log clock threads]; auto; [lia | |].
    + intros id' rq' t H. by eapply note_further.
    + intros id' rq' p [H | [= -> -> ->]%list_elem_of_singleton]%elem_of_app;
        [by left | right; apply Middleware_phase].
  - by eapply inv_run.
Qed.

Lemma inv_reachable skip now s : reachable skip now s -> inv skip s.
Proof.
  intros H. assert (H0 : inv skip (initial now)).
  { split; cbn.
    - done.
    - intros token exp Hl. by rewrite lookup_empty in Hl.
    - by intros ? ? ? ?%elem_of_nil.
    - by intros ? ? ? ?%elem_of_nil. }
  revert H0. induction H as [|s1 s2 s3 Hst _ IH]; [done|]. intros Hi. apply IH. by eapply inv_step.
Qed.

(** C13: only vetted callers get through.  However requests, reviews and the
    clock interleave, a request that reached the wrapped handler was for an
    unauthenticated path, or it carried a non-empty bearer token and was vetted:
    since its arrival a TokenReview had answered that the token is authenticated,
    and a SubjectAccessReview that the user of that answer may [get] [/metrics];
    or its lookup in the cache found the token, which another request, vetted
    itself, had stored less than two minutes before. *)
Theorem metrics_access_vetted (skip : list string) (now : Z) (s : system) (id : nat) (rq : request) (t : Z) :
  reachable skip now s -> (t, Served id rq) ∈ log s ->
  rq_path rq ∈ skip \/ exists token, bearer rq token /\
    (vetted (log s) id token t \/
     exists tc id' t', (tc, Looked id token true) ∈ log s /\ tc <= t /\
       (t', Stored id' token) ∈ log s /\ t' <= tc < t' + 2 * Minute /\ vetted (log s) id' token t').
Proof.
  intros Hi%inv_reachable H.
  destruct (inv_served _ _ Hi _ _ _ H) as [Hp | (token & Hb & [Hv | (tc & Hc & Ht & id' & t' & Hr)])].
  - by left.
  - right. exists token. auto.
  - right. exists token. split; [done|]. right. by exists tc, id', t'.
Qed.

(** C37: the decision cache is bounded and its decisions expire: in every
    reachable state it holds at most 128 tokens, and a token it answers for at the
    current time was stored less than two minutes ago by a request that had both
    reviews of its own, made between its arrival and the storing, answered
    positively.  So an answer from the cache does not extend the life of a
    decision. *)
Theorem metrics_cache_bounded (skip : list string) (now : Z) (s : system) :
  reachable skip now s ->
  Z.of_nat (size (allowed s)) <= 128 /\
  forall token, cached (clock s) (allowed s) token = true ->
    exists id t, (t, Stored id token) ∈ log s /\ t <= clock s < t + 2 * Minute /\ vetted (log s) id token t.
Proof.
  intros Hi%inv_reachable. split; [apply (inv_size _ _ Hi)|].
  intros token. by apply (inv_cached skip).
Qed.

(** One scrape with a token the API server accepts, to the end. *)
Definition scrape : request := MkRequest "/metrics" "Bearer tok".
Definition scraper : TokenReviewStatus := MkTokenReviewStatus true (MkUserInfo "prom" "u" []).

Definition probes : list string := ["/healthz"; "/readyz"].

Lemma scrape_start : Middleware probes "/metrics" "Bearer tok" = (check "tok" ≫= finish).
Proof. vm_compute. reflexivity. Qed.

(** The log of the scrape, up to its [n]-th event. *)
Definition scrape_log (n : nat) : list (Z * entry) :=
  reverse (take n (map (pair 0)
    [Arrived 0 scrape; Looked 0 "tok" false; TokenReviewed 0 "tok" (Ok scraper);
     AccessReviewed 0 (trs_User scraper) (MkNonResource "/metrics" "get") (Ok true);
     Stored 0 "tok"; Served 0 scrape])).

Definition at_point (p : mprog answer) (n : nat) : system := MkSystem 0 ∅ [(0%nat, scrape, p)] (scrape_log n).

Definition scrape_end : system := MkSystem 0 (store 0 ∅ "tok") [] (scrape_log 6).

Lemma scrape_reachable : reachable probes 0 scrape_end.
Proof.
  unfold reachable.
  trans (at_point (check "tok" ≫= finish) 1).
  { apply rtc_once. rewrite <- scrape_start. apply (step_arrive probes (initial 0) 0 scrape).
    by intros ? ? ?%elem_of_nil. }
  trans (at_point (Do (TokenReview "tok") (after_review "tok")) 2).
  { apply rtc_once, (step_run _ _ 0 0 scrape (check "tok" ≫= finish)); [reflexivity|].
    unfold advance, check. cbn [mbind prog_mbind prog_bind call at_point clock allowed].
    replace (cached 0 ∅ "tok") with false by (vm_compute; reflexivity). reflexivity. }
  trans (at_point (Do (AccessReview (trs_User scraper) (MkNonResource "/metrics" "get")) (after_access "tok")) 3).
  { apply rtc_once, (step_run _ _ 0 0 scrape (Do (TokenReview "tok") (after_review "tok"))); [reflexivity|].
    exists (Ok scraper). reflexivity. }
  trans (at_point (Do (CacheStore "tok") (fun _ => Ret Next)) 4).
  { eapply rtc_once, (step_run _ _ 0 0 scrape); [reflexivity|]. exists (Ok true). reflexivity. }
  trans (MkSystem 0 (store 0 ∅ "tok") [(0%nat, scrape, Ret Next)] (scrape_log 5)).
  { eapply rtc_once, (step_run _ _ 0 0 scrape); reflexivity. }
  eapply rtc_once, (step_run _ _ 0 0 scrape); reflexivity.
Qed.

Lemma metrics_access_vetted_witness :
  (0, Served 0 scrape) ∈ log scrape_end /\
  (rq_path scrape ∈ probes \/ exists token, bearer scrape token /\
    (vetted (log scrape_end) 0 token 0 \/
     exists tc id' t', (tc, Looked 0 token true) ∈ log scrape_end /\ tc <= 0 /\
       (t', Stored id' token) ∈ log scrape_end /\ t' <= tc < t' + 2 * Minute /\ vetted (log scrape_end) id' token t')).
Proof.
  assert (Hs : (0, Served 0 scrape) ∈ log scrape_end) by in_list. split; [exact Hs|].
  exact (metrics_access_vetted probes 0 scrape_end 0 scrape 0 scrape_reachable Hs).
Defined.

Lemma metrics_cache_bounded_witness :
  Z.of_nat (size (allowed scrape_end)) <= 128 /\
  exists id t, (t, Stored id "tok") ∈ log scrape_end /\ t <= clock scrape_end < t + 2 * Minute /\
    vetted (log scrape_end) id "tok" t.
Proof.
  destruct (metrics_cache_bounded probes 0 scrape_end scrape_reachable) as [H1 H2].
  split; [exact H1|]. apply H2. vm_compute. reflexivity.
Defined.
