(* ===== verification/OperatorEnv.v ===== *)
(** * The environment of the operator

    The commands by which the controller reaches the API server, the AS-side
    registrar, the discovery server, the clock and the metrics registry.  Their
    answers are not constrained. *)
From S2P Require Import Prelude Effects GoStrings Api K8s Render AgentEnv.
Local Open Scope Z_scope.

(** The API kinds the controller reads as unstructured objects. *)
Inductive gvk :=
| ConfigNetwork            (* config.openshift.io/v1 Network *)
| OperatorNetwork          (* operator.openshift.io/v1 Network *)
| RouteAdvertisements      (* k8s.ovn.org/v1 *)
| IPPools                  (* crd.projectcalico.org/v1 *)
| CiliumNodes.             (* cilium.io/v2 *)

(** A request to the AS-side registrar or to the discovery server.  [ca] is the
    CA bundle the client trusts instead of the system roots. *)
Record HttpReq := MkHttpReq {
  rq_method : string;
  rq_url : string;
  rq_headers : list (string * string);
  rq_body : string;
  rq_ca : option string
}.

(** What [generateMetricsCert] returns. *)
Record CertBundle := MkCertBundle { cb_cert : string; cb_key : string; cb_ca : string }.

Inductive ocmd :=
| OGetSN (name : string)
| OUpdateSN (sn : ScionNetwork)
| OUpdateStatus (sn : ScionNetwork)
| OGet (k : gvk) (name : string)
| OList (k : gvk) (limit : option Z)
| OListNodes (selector : option (gmap string string))
| OListServiceCIDRs
| OListPods (namespace app : string)
| OGetDaemonSet (namespace name : string)
| OGetSecret (namespace name : string)
(* [controllerutil.CreateOrUpdate]: the mutate function is applied to the object
   as found, or to [obj] when there is none, before it is written *)
| OCreateOrUpdate (obj : KObj) (mutate : KObj -> result KObj)
| ONewRequest (method url : string)
| OHttp (req : HttpReq)
| OGenerateCert
| ONow
| OGauge (v : Z).

Definition oresp (c : ocmd) : Type :=
  match c with
  | OGetSN _ | OUpdateSN _ => result ScionNetwork
  | OUpdateStatus _ => option gerror
  | OGet _ _ => result Unstructured
  | OList _ _ => result (list Unstructured)
  | OListNodes _ => result (list Node)
  | OListServiceCIDRs => result (list (list string))
  | OListPods _ _ => result (list Pod)
  | OGetDaemonSet _ _ => result DaemonSetState
  | OGetSecret _ _ => result (gmap string string)
  | OCreateOrUpdate _ _ => option gerror
  | ONewRequest _ _ => option gerror
  | OHttp _ => result HttpResp
  | OGenerateCert => result CertBundle
  | ONow => Z
  | OGauge _ => unit
  end.

Abbreviation oper := (prog oresp).

(** [crypto/x509] and [encoding/pem], as far as they are used: decoding the
    first certificate of a PEM text, and whether a CA bundle holds any. *)
Record Certificate := MkCertificate { NotAfter : Z; DNSNames : list string }.

Class X509Lib := {
  ParseCertificatePEM : string -> option Certificate;
  VerifyHostname : Certificate -> string -> bool;
  AppendCertsFromPEM : string -> bool
}.

(** [ctrl.SetControllerReference]: makes the resource the controller of an
    object, and refuses an object another controller owns. *)
Class CtrlLib := { SetControllerReference : ScionNetwork -> KObj -> result KObj }.

Definition with_owner (uid : string) (o : KObj) : KObj :=
  let m := o_Meta o in
  MkObj (MkMeta (m_Name m) (m_Namespace m) (m_Labels m) (Some uid)) (o_Payload o).

Class CtrlLaws (C : CtrlLib) : Prop := {
  set_controller_free : forall sn o, m_Owner (o_Meta o) = None ->
    SetControllerReference sn o = Ok (with_owner (sn_UID sn) o);
  set_controller_own : forall sn o, m_Owner (o_Meta o) = Some (sn_UID sn) ->
    SetControllerReference sn o = Ok o;
  set_controller_other : forall sn o uid, m_Owner (o_Meta o) = Some uid -> uid <> sn_UID sn ->
    is_ok (SetControllerReference sn o) = false
}.

Definition ref_ctrl : CtrlLib := {|
  SetControllerReference := fun sn o =>
    match m_Owner (o_Meta o) with
    | Some uid => if bool_decide (uid = sn_UID sn) then Ok o
                  else Err (errorf [Lit "Object is already owned by another controller"])
    | None => Ok (with_owner (sn_UID sn) o)
    end
|}.

Lemma ref_ctrl_laws : CtrlLaws ref_ctrl.
Proof.
  split; cbn.
  - by intros sn o ->.
  - intros sn o ->. by rewrite bool_decide_eq_true_2.
  - intros sn o uid -> Hne. by rewrite bool_decide_eq_false_2.
Qed.

(** Errors that mean an optional API is missing. *)
Definition api_absent (err : gerror) : bool := is_kind ENotFound err || is_kind ENoMatch err.
Definition api_unreadable (err : gerror) : bool :=
  is_kind ENotFound err || is_kind EForbidden err || is_kind ENoMatch err.

(** [http.StatusText]. *)
Definition status_texts : list (Z * string) :=
  [(100, "Continue"); (101, "Switching Protocols"); (102, "Processing"); (103, "Early Hints");
   (200, "OK"); (201, "Created"); (202, "Accepted"); (203, "Non-Authoritative Information");
   (204, "No Content"); (205, "Reset Content"); (206, "Partial Content"); (207, "Multi-Status");
   (208, "Already Reported"); (226, "IM Used"); (300, "Multiple Choices");
   (301, "Moved Permanently"); (302, "Found"); (303, "See Other"); (304, "Not Modified");
   (305, "Use Proxy"); (307, "Temporary Redirect"); (308, "Permanent Redirect");
   (400, "Bad Request"); (401, "Unauthorized"); (402, "Payment Required"); (403, "Forbidden");
   (404, "Not Found"); (405, "Method Not Allowed"); (406, "Not Acceptable");
   (407, "Proxy Authentication Required"); (408, "Request Timeout"); (409, "Conflict");
   (410, "Gone"); (411, "Length Required"); (412, "Precondition Failed");
   (413, "Request Entity Too Large"); (414, "Request URI Too Long");
   (415, "Unsupported Media Type"); (416, "Requested Range Not Satisfiable");
   (417, "Expectation Failed"); (418, "I'm a teapot"); (421, "Misdirected Request");
   (422, "Unprocessable Entity"); (423, "Locked"); (424, "Failed Dependency");
   (425, "Too Early"); (426, "Upgrade Required"); (428, "Precondition Required");
   (429, "Too Many Requests"); (431, "Request Header Fields Too Large");
   (451, "Unavailable For Legal Reasons"); (500, "Internal Server Error");
   (501, "Not Implemented"); (502, "Bad Gateway"); (503, "Service Unavailable");
   (504, "Gateway Timeout"); (505, "HTTP Version Not Supported");
   (506, "Variant Also Negotiates"); (507, "Insufficient Storage"); (508, "Loop Detected");
   (510, "Not Extended"); (511, "Network Authentication Required")].

Definition StatusText (code : Z) : string :=
  match List.find (fun p => fst p =? code) status_texts with Some p => snd p | None => "" end.
