(* ===== verification/OperatorSim.v ===== *)
(** * A simulated cluster

    One environment for the operator's programs: a store of API objects, fixed
    lists of nodes and CNI objects, a registrar and a clock.  It serves the
    concrete runs of the development. *)
From S2P Require Import Prelude Effects GoStrings Api K8s Render AgentEnv OperatorEnv.
Local Open Scope Z_scope.

Record world := MkWorld {
  w_sn : option ScionNetwork;
  w_nodes : list Node;
  w_service_cidrs : list (list string);
  w_pools : result (list Unstructured);
  w_pods : list Pod;
  w_ds : option DaemonSetState;
  w_objects : gmap string KObj;
  w_refuse : option string;          (* the key of an object whose writes fail *)
  w_http : HttpReq -> result HttpResp;
  w_cert : CertBundle;
  w_now : Z;
  w_gauge : option Z
}.

Definition with_sn (sn : ScionNetwork) (w : world) : world :=
  MkWorld (Some sn) (w_nodes w) (w_service_cidrs w) (w_pools w) (w_pods w) (w_ds w) (w_objects w)
    (w_refuse w) (w_http w) (w_cert w) (w_now w) (w_gauge w).
Definition with_objects (os : gmap string KObj) (w : world) : world :=
  MkWorld (w_sn w) (w_nodes w) (w_service_cidrs w) (w_pools w) (w_pods w) (w_ds w) os
    (w_refuse w) (w_http w) (w_cert w) (w_now w) (w_gauge w).
Definition with_refuse (k : option string) (w : world) : world :=
  MkWorld (w_sn w) (w_nodes w) (w_service_cidrs w) (w_pools w) (w_pods w) (w_ds w) (w_objects w)
    k (w_http w) (w_cert w) (w_now w) (w_gauge w).
Definition with_gauge (v : Z) (w : world) : world :=
  MkWorld (w_sn w) (w_nodes w) (w_service_cidrs w) (w_pools w) (w_pods w) (w_ds w) (w_objects w)
    (w_refuse w) (w_http w) (w_cert w) (w_now w) (Some v).

Definition kind_of (p : payload) : string :=
  match p with
  | PNamespace => "Namespace" | PServiceAccount => "ServiceAccount" | PClusterRole _ => "ClusterRole"
  | PClusterRoleBinding _ _ => "ClusterRoleBinding" | PDaemonSet _ => "DaemonSet" | PSCC _ => "SCC"
  | PSecret _ _ => "Secret" | PConfigMap _ => "ConfigMap"
  end.

Definition key (kind ns name : string) : string := kind +:+ "/" +:+ ns +:+ "/" +:+ name.
Definition key_of (o : KObj) : string :=
  key (kind_of (o_Payload o)) (m_Namespace (o_Meta o)) (m_Name (o_Meta o)).

Definition not_found {A} : result A := Err (Error ENotFound [Lit "not found"]).
Definition no_match {A} : result A := Err (Error ENoMatch [Lit "no matches for kind"]).
Definition refused : gerror := errorf [Lit "connection refused"].

Definition osim : handler oresp world := fun c w =>
  match c as c return oresp c * world with
  | OGetSN _ => (match w_sn w with Some sn => Ok sn | None => not_found end, w)
  | OUpdateSN sn => (Ok sn, with_sn sn w)
  | OUpdateStatus sn => (None, with_sn sn w)
  | OGet _ _ => (no_match, w)
  | OList IPPools _ => (w_pools w, w)
  | OList _ _ => (no_match, w)
  | OListNodes None => (Ok (w_nodes w), w)
  | OListNodes (Some sel) => (Ok (filter (fun n => sel ⊆ n_Labels n) (w_nodes w)), w)
  | OListServiceCIDRs => (Ok (w_service_cidrs w), w)
  | OListPods _ _ => (Ok (w_pods w), w)
  | OGetDaemonSet _ _ => (match w_ds w with Some d => Ok d | None => not_found end, w)
  | OGetSecret ns name =>
      (match w_objects w !! key "Secret" ns name with
       | Some (MkObj _ (PSecret _ data)) => Ok data
       | _ => not_found
       end, w)
  | OCreateOrUpdate obj mutate =>
      if bool_decide (w_refuse w = Some (key_of obj)) then (Some refused, w)
      else match mutate (default obj (w_objects w !! key_of obj)) with
           | Ok o => (None, with_objects (<[key_of obj := o]> (w_objects w)) w)
           | Err e => (Some e, w)
           end
  | ONewRequest _ _ => (None, w)
  | OHttp req => (w_http w req, w)
  | OGenerateCert => (Ok (w_cert w), w)
  | ONow => (w_now w, w)
  | OGauge v => (tt, with_gauge v w)
  end.

(** A library in which a certificate is the text [cert] for the metrics name. *)
Definition sim_x509 : X509Lib := {|
  ParseCertificatePEM := fun s =>
    if bool_decide (s = "cert")
    then Some (MkCertificate (1000 * 24 * Hour) ["scion-node-agent-metrics.scion-system.svc"]) else None;
  VerifyHostname := fun c name => bool_decide (name ∈ DNSNames c);
  AppendCertsFromPEM := fun s => bool_decide (s = "cert")
|}.

(** A three-node cluster with one Calico pool. *)
Definition sim_node (name ip cidr : string) : Node :=
  MkNode name {["role" := "worker"]} ∅ cidr [cidr] [MkNodeAddress "InternalIP" ip].

Definition sim_pool (cidr : string) (disabled : bool) : Unstructured :=
  MkUnstructured "pool" [("spec", GMap [("cidr", GStr cidr); ("disabled", GBool disabled)])].

Definition sim_spec (backend : string) : ScionNetworkSpec := MkSpec
  (MkBootstrapSpec "url" "http://ds:8041/" "" "" None "")
  (MkAdvertisementSpec None None)
  (MkAcceptPolicySpec ["1-ff00:0:110"] ["192.168.0.0/16"] ["172.16.0.0/12"])
  (MkDataplaneSpec "") (MkRegistrarSpec backend "http://as:8642" None) {["role" := "worker"]} [] "".

Definition sim_sn (backend : string) (deleted : option Z) (fins : list string) : ScionNetwork :=
  MkScionNetwork "cluster" "uid-1" 3 deleted fins (sim_spec backend)
    (MkStatus [] "" (MkNodeSummary 0 0 []) (MkRegistrarStatus 0 [] None [])).

Definition sim_pod (node : string) (ready : bool) : Pod :=
  MkPod ("agent-" +:+ node) node 0
    [MkPodCondition "Ready" (if ready then ConditionTrue else ConditionFalse) 0].

(** The registrar answers PUT with [code], the discovery server is down. *)
Definition sim_http (code : Z) (req : HttpReq) : result HttpResp :=
  if bool_decide (rq_method req = "PUT") then Ok (MkHttpResp code "" "" None)
  else Err refused.

Definition sim_world (sn : ScionNetwork) (code : Z) : world := MkWorld (Some sn)
  [sim_node "n2" "10.0.0.2" "10.244.2.0/24"; sim_node "n1" "10.0.0.1" "10.244.1.0/24"]
  [["10.96.0.0/12"; "fd00::/108"]]
  (Ok [sim_pool "10.245.0.0/16" false; sim_pool "10.246.0.0/16" true])
  [sim_pod "n1" true; sim_pod "n2" true] (Some (MkDaemonSetState 1 1 2)) ∅ None (sim_http code)
  (MkCertBundle "cert" "key" "ca") (20 * Minute) None.
