(* ===== verification/DenyList.v ===== *)
(** * The deny list of the operator

    [clusterForbiddenCIDRs] and its sources, and the check on node-address
    advertisement ([scionnetwork_controller.go]). *)
From S2P Require Import Prelude Effects GoStrings Netip Api K8s Render AgentEnv OperatorEnv.
Local Open Scope Z_scope.
Local Open Scope prog_scope.

Definition isIPv4CIDR (cidr : string) : bool :=
  match ParsePrefix cidr with Ok prefix => Is4 (paddr prefix) | Err _ => false end.

Definition ipv4_only (l : list string) : list string := filter (fun c => isIPv4CIDR c = true) l.

Fixpoint dedupe_go (inp out : list string) : list string :=
  match inp with
  | [] => out
  | s :: inp' =>
      if negb (bool_decide (s = "")) && negb (bool_decide (s ∈ out))
      then dedupe_go inp' (out ++ [s]) else dedupe_go inp' out
  end.

Definition dedupe (inp : list string) : list string := dedupe_go inp [].

Fixpoint specIPv4CIDRs_go (field : string) (cidrs out : list string) : result (list string) :=
  match cidrs with
  | [] => Ok out
  | cidr :: cidrs' =>
      match ParsePrefix cidr with
      | Err err => Err (wrapf [Lit "invalid CIDR "; Quo cidr; Lit " in spec.acceptPolicy.";
                               Lit field; Lit ": "] err)
      | Ok prefix =>
          specIPv4CIDRs_go field cidrs' (if Is4 (paddr prefix) then out ++ [cidr] else out)
      end
  end.

Definition specIPv4CIDRs (field : string) (cidrs : list string) : result (list string) :=
  specIPv4CIDRs_go field cidrs [].

Definition node_cidrs (n : Node) : list string :=
  if bool_decide (n_PodCIDRs n = []) && negb (bool_decide (n_PodCIDR n = ""))
  then [n_PodCIDR n] else n_PodCIDRs n.

Definition nodePodCIDRs : oper (result (list string)) :=
  r ← call (OListNodes None);
  match r with
  | Err err => Ret (Err (wrapf [Lit "list nodes for pod CIDR derivation: "] err))
  | Ok nodes => Ret (Ok (ipv4_only (mjoin (map node_cidrs nodes))))
  end.

Definition serviceCIDRs : oper (result (list string)) :=
  r ← call OListServiceCIDRs;
  match r with
  | Err err => if api_unreadable err then Ret (Ok [])
               else Ret (Err (wrapf [Lit "list service CIDRs: "] err))
  | Ok items => Ret (Ok (ipv4_only (mjoin items)))
  end.

Section Lib.
Context `{L : K8sLib}.

Definition pool_cidr (item : Unstructured) : list string :=
  if fst (fst (NestedBool (u_Object item) ["spec"; "disabled"])) then []
  else let cidr := fst (fst (NestedString (u_Object item) ["spec"; "cidr"])) in
       if isIPv4CIDR cidr then [cidr] else [].

Definition calicoPoolCIDRs : oper (result (list string)) :=
  r ← call (OList IPPools None);
  match r with
  | Err err => if api_unreadable err then Ret (Ok [])
               else Ret (Err (wrapf [Lit "list calico IP pools: "] err))
  | Ok items => Ret (Ok (mjoin (map pool_cidr items)))
  end.

Definition cilium_node_cidrs (item : Unstructured) : list string :=
  ipv4_only (fst (fst (NestedStringSlice (u_Object item) ["spec"; "ipam"; "podCIDRs"]))).

Definition ciliumNodeCIDRs : oper (result (list string)) :=
  r ← call (OList CiliumNodes None);
  match r with
  | Err err => if api_unreadable err then Ret (Ok [])
               else Ret (Err (wrapf [Lit "list cilium nodes: "] err))
  | Ok items => Ret (Ok (mjoin (map cilium_node_cidrs items)))
  end.

(** The CIDRs in the OpenShift network configuration. *)
Definition cluster_network (v : gval) : list string :=
  match v with
  | GMap m => match gfield m "cidr" with
              | GStr cidr => if isIPv4CIDR cidr then [cidr] else []
              | _ => []
              end
  | _ => []
  end.

Definition openshift_cidrs (nc : Unstructured) : list string :=
  let cns := fst (fst (NestedSlice (u_Object nc) ["spec"; "clusterNetwork"])) in
  let svc := fst (fst (NestedStringSlice (u_Object nc) ["spec"; "serviceNetwork"])) in
  mjoin (map cluster_network cns) ++ ipv4_only svc.

(** The OpenShift part: its CIDRs and whether the API was found. *)
Definition openshiftNetwork : oper (result (list string * bool)) :=
  r ← call (OGet ConfigNetwork "cluster");
  match r with
  | Ok nc => Ret (Ok (openshift_cidrs nc, true))
  | Err err => if api_absent err then Ret (Ok ([], false))
               else Ret (Err (wrapf [Lit "read openshift network config: "] err))
  end.

Definition clusterForbiddenCIDRs (sn : ScionNetwork) : oper (result (list string * bool)) :=
  match specIPv4CIDRs "forbiddenCIDRs" (ForbiddenCIDRs (AcceptPolicy (Spec sn))) with
  | Err err => Ret (Err err)
  | Ok out =>
      match specIPv4CIDRs "underlayCIDRs" (UnderlayCIDRs (AcceptPolicy (Spec sn))) with
      | Err err => Ret (Err err)
      | Ok underlay =>
          let out := out ++ underlay in
          os <~ openshiftNetwork;
          let out := out ++ os.1 in
          nodeCIDRs <~ nodePodCIDRs;
          let out := out ++ nodeCIDRs in
          svcCIDRs <~ serviceCIDRs;
          let out := out ++ svcCIDRs in
          calicoCIDRs <~ calicoPoolCIDRs;
          let out := out ++ calicoCIDRs in
          ciliumCIDRs <~ ciliumNodeCIDRs;
          let out := out ++ ciliumCIDRs in
          Ret (Ok (sort_strings (dedupe out), os.2))
      end
  end.

End Lib.

(** ** [validateNodeIPAdvertisement] *)

(** The underlay prefixes that parse. *)
Definition underlay_prefixes (cidrs : list string) : list Prefix :=
  omap (fun c => match ParsePrefix c with Ok p => Some p | Err _ => None end) cidrs.

Fixpoint inside (prefixes : list Prefix) (ip : Addr) : option Prefix :=
  match prefixes with
  | [] => None
  | p :: prefixes' => if Contains p ip then Some p else inside prefixes' ip
  end.

(** The first InternalIP of a node that lies in an underlay prefix. *)
Fixpoint check_addresses (prefixes : list Prefix) (name : string) (addrs : list NodeAddress)
    : option gerror :=
  match addrs with
  | [] => None
  | a :: addrs' =>
      if negb (bool_decide (na_Type a = "InternalIP")) then check_addresses prefixes name addrs'
      else match ParseAddr (na_Address a) with
      | Err _ => check_addresses prefixes name addrs'
      | Ok ip =>
          match inside prefixes ip with
          | Some prefix => Some (errorf
              [Lit "advertisement.nodeIP is enabled but node "; Lit name; Lit " IP ";
               Lit (na_Address a); Lit " is inside underlay CIDR "; Lit (Prefix_String prefix);
               Lit "; advertising it would route the SCION underlay into the tunnel (routing loop) — disable spec.advertisement.nodeIP or move node IPs off the underlay"])
          | None => check_addresses prefixes name addrs'
          end
      end
  end.

Fixpoint check_nodes (prefixes : list Prefix) (nodes : list Node) : option gerror :=
  match nodes with
  | [] => None
  | n :: nodes' =>
      match check_addresses prefixes (n_Name n) (n_Addresses n) with
      | Some err => Some err
      | None => check_nodes prefixes nodes'
      end
  end.

Definition validateNodeIPAdvertisement (sn : ScionNetwork) : oper (option gerror) :=
  if negb (default false (NodeIP (Advertisement (Spec sn)))) then Ret None
  else
    let prefixes := underlay_prefixes (UnderlayCIDRs (AcceptPolicy (Spec sn))) in
    if bool_decide (prefixes = []) then Ret None
    else
      r ← call (OListNodes (Some (NodeSelector (Spec sn))));
      match r with
      | Err err => Ret (Some (wrapf [Lit "list nodes for nodeIP advertisement check: "] err))
      | Ok nodes => Ret (check_nodes prefixes nodes)
      end.
