(* ===== verification/DenyListProps.v ===== *)
(** * Properties of the deny list

    It is the sorted, duplicate-free set of the IPv4 CIDRs its sources offer,
    independent of the order in which they offer them, and it is refused
    whenever a source cannot be read. *)
From S2P Require Import Prelude Effects GoStrings Netip NetipFacts Api K8s Render AgentEnv OperatorEnv.
From S2P Require Import OperatorSim PolicyFacts DenyList.
Local Open Scope Z_scope.

Lemma isIPv4CIDR_spec c : isIPv4CIDR c = true <-> ipv4_cidr c.
Proof. unfold isIPv4CIDR, ipv4_cidr. destruct (ParsePrefix c) as [p|e]; naive_solver. Qed.

Lemma ipv4_cidr_ne c : ipv4_cidr c -> c <> "".
Proof. intros (p & Hp & _) ->. done. Qed.

Lemma elem_of_ipv4_only c l : c ∈ ipv4_only l <-> ipv4_cidr c /\ c ∈ l.
Proof. unfold ipv4_only. by rewrite list_elem_of_filter, isIPv4CIDR_spec. Qed.

Lemma dedupe_go_spec inp out : NoDup out ->
  NoDup (dedupe_go inp out) /\ forall c, c ∈ dedupe_go inp out <-> c ∈ out \/ (c ∈ inp /\ c <> "").
Proof.
  revert out. induction inp as [|s inp IH]; intros out Hnd; cbn [dedupe_go].
  { split; [done|]. intros c. rewrite elem_of_nil. naive_solver. }
  setoid_rewrite elem_of_cons. repeat case_bool_decide; cbn.
  - destruct (IH out Hnd) as [H1 H2]. split; [done|]. intros c. rewrite H2. naive_solver.
  - destruct (IH out Hnd) as [H1 H2]. split; [done|]. intros c. rewrite H2. naive_solver.
  - destruct (IH out Hnd) as [H1 H2]. split; [done|]. intros c. rewrite H2. naive_solver.
  - destruct (IH (out ++ [s])) as [H1 H2].
    { apply NoDup_app. split_and!; [done | | apply NoDup_singleton].
      intros x Hx ->%list_elem_of_singleton. done. }
    split; [done|]. intros c. rewrite H2, elem_of_app, list_elem_of_singleton. naive_solver.
Qed.

Lemma elem_of_dedupe c l : c ∈ dedupe l <-> c ∈ l /\ c <> "".
Proof.
  unfold dedupe. destruct (dedupe_go_spec l []) as [_ H]; [constructor|]. rewrite H, elem_of_nil.
  naive_solver.
Qed.

Lemma NoDup_dedupe l : NoDup (dedupe l).
Proof. unfold dedupe. destruct (dedupe_go_spec l []) as [H _]; [constructor|done]. Qed.

(** Two sorted duplicate-free lists with the same elements are equal. *)
Lemma sort_dedupe_ext l k : (forall c, c ∈ dedupe l <-> c ∈ dedupe k) ->
  sort_strings (dedupe l) = sort_strings (dedupe k).
Proof.
  intros H. apply sort_strings_perm, NoDup_Permutation; [apply NoDup_dedupe.. | done].
Qed.

Lemma specIPv4CIDRs_go_spec field l out r : specIPv4CIDRs_go field l out = Ok r ->
  r = out ++ ipv4_only l /\ Forall (fun c => is_ok (ParsePrefix c) = true) l.
Proof.
  revert out. induction l as [|c l IH]; intros out; cbn [specIPv4CIDRs_go].
  { intros [= <-]. by rewrite app_nil_r. }
  destruct (ParsePrefix c) as [p|e] eqn:E; [|done]. intros H. apply IH in H as [-> Hf].
  split; [|by constructor; [rewrite E|]]. unfold ipv4_only.
  assert (Hc : isIPv4CIDR c = Is4 (paddr p)) by (unfold isIPv4CIDR; by rewrite E).
  destruct (Is4 (paddr p)).
  - rewrite filter_cons_True by done. by rewrite <- app_assoc.
  - rewrite filter_cons_False by (by rewrite Hc). done.
Qed.

Lemma specIPv4CIDRs_all field l out : forallb (fun c => is_ok (ParsePrefix c)) l = true ->
  exists r, specIPv4CIDRs_go field l out = Ok r.
Proof.
  revert out. induction l as [|c l IH]; intros out; cbn; [by eexists|].
  destruct (ParsePrefix c); [apply IH | done].
Qed.

(** ** What the sources offer *)
Section Sources.
Context `{L : K8sLib} `{!K8sLaws L}.

(** An enabled Calico pool with this CIDR. *)
Definition pool_offers (item : Unstructured) (c : string) : Prop :=
  fst (fst (NestedBool (u_Object item) ["spec"; "disabled"])) = false /\
  gpath (GMap (u_Object item)) ["spec"; "cidr"] = Some (GStr c).

Definition cilium_offers (item : Unstructured) (c : string) : Prop :=
  exists l ss, gpath (GMap (u_Object item)) ["spec"; "ipam"; "podCIDRs"] = Some (GSlice l) /\
    gstrings l = Some ss /\ c ∈ ss.

Definition openshift_offers (nc : Unstructured) (c : string) : Prop :=
  (exists l m, gpath (GMap (u_Object nc)) ["spec"; "clusterNetwork"] = Some (GSlice l) /\
     GMap m ∈ l /\ gfield m "cidr" = GStr c) \/
  (exists l ss, gpath (GMap (u_Object nc)) ["spec"; "serviceNetwork"] = Some (GSlice l) /\
     gstrings l = Some ss /\ c ∈ ss).

(** What one exchange with the API server offers. *)
Definition event_offers (ev : event oresp) (c : string) : Prop :=
  let 'existT cmd r := ev in
  match cmd as cmd return oresp cmd -> Prop with
  | OGet ConfigNetwork "cluster" => fun r =>
      match r with Ok nc => openshift_offers nc c | Err _ => False end
  | OListNodes None => fun r =>
      match r with Ok nodes => exists n, n ∈ nodes /\ c ∈ node_cidrs n | Err _ => False end
  | OListServiceCIDRs => fun r =>
      match r with Ok items => exists l, l ∈ items /\ c ∈ l | Err _ => False end
  | OList IPPools None => fun r =>
      match r with Ok items => exists i, i ∈ items /\ pool_offers i c | Err _ => False end
  | OList CiliumNodes None => fun r =>
      match r with Ok items => exists i, i ∈ items /\ cilium_offers i c | Err _ => False end
  | _ => fun _ => False
  end r.

(** [c] is offered by the resource or by one of the API answers in [tr]. *)
Definition offered (sn : ScionNetwork) (tr : list (event oresp)) (c : string) : Prop :=
  c ∈ ForbiddenCIDRs (AcceptPolicy (Spec sn)) \/ c ∈ UnderlayCIDRs (AcceptPolicy (Spec sn)) \/
  Exists (fun ev => event_offers ev c) tr.

Lemma elem_of_pools items c : c ∈ mjoin (map pool_cidr items) <->
  ipv4_cidr c /\ exists i, i ∈ items /\ pool_offers i c.
Proof.
  rewrite list_elem_of_join. setoid_rewrite list_elem_of_In. setoid_rewrite in_map_iff.
  setoid_rewrite <- list_elem_of_In. unfold pool_offers.
  assert (Hi : forall i, c ∈ pool_cidr i <-> ipv4_cidr c /\
    fst (fst (NestedBool (u_Object i) ["spec"; "disabled"])) = false /\
    gpath (GMap (u_Object i)) ["spec"; "cidr"] = Some (GStr c)).
  { intros i. unfold pool_cidr. rewrite nested_string_value.
    destruct (fst (fst (NestedBool _ _))); [rewrite elem_of_nil; naive_solver|].
    destruct (gpath _ _) as [[]|]; try (change (isIPv4CIDR "") with false; rewrite elem_of_nil; naive_solver).
    destruct (isIPv4CIDR s) eqn:E.
    - apply isIPv4CIDR_spec in E. rewrite list_elem_of_singleton. naive_solver.
    - rewrite elem_of_nil. split; [done|]. intros (H & _ & [= ->]).
      apply isIPv4CIDR_spec in H. by rewrite H in E. }
  split; [intros (l & Hc & i & <- & Hin); apply Hi in Hc; naive_solver|].
  intros (H4 & i & Hin & Ho). exists (pool_cidr i). split; [by apply Hi | by exists i].
Qed.

Lemma elem_of_ciliums items c : c ∈ mjoin (map cilium_node_cidrs items) <->
  ipv4_cidr c /\ exists i, i ∈ items /\ cilium_offers i c.
Proof.
  rewrite list_elem_of_join. setoid_rewrite list_elem_of_In. setoid_rewrite in_map_iff.
  setoid_rewrite <- list_elem_of_In.
  assert (Hi : forall i, c ∈ cilium_node_cidrs i <-> ipv4_cidr c /\ cilium_offers i c).
  { intros i. unfold cilium_node_cidrs, cilium_offers. rewrite elem_of_ipv4_only, nested_strings_value.
    destruct (gpath _ _) as [[]|]; try (rewrite elem_of_nil; naive_solver).
    destruct (gstrings l) eqn:E; cbn [default]; [naive_solver|]. rewrite elem_of_nil. naive_solver. }
  split; [intros (l & Hc & i & <- & Hin); apply Hi in Hc; naive_solver|].
  intros (H4 & i & Hin & Ho). exists (cilium_node_cidrs i). split; [by apply Hi | by exists i].
Qed.

Lemma elem_of_openshift nc c : c ∈ openshift_cidrs nc <-> ipv4_cidr c /\ openshift_offers nc c.
Proof.
  unfold openshift_cidrs, openshift_offers. rewrite elem_of_app, elem_of_ipv4_only.
  rewrite nested_slice_value, nested_strings_value.
  assert (Hm : forall l, c ∈ mjoin (map cluster_network l) <->
    ipv4_cidr c /\ exists m, GMap m ∈ l /\ gfield m "cidr" = GStr c).
  { intros l. rewrite list_elem_of_join. setoid_rewrite list_elem_of_In. setoid_rewrite in_map_iff.
    setoid_rewrite <- list_elem_of_In. split.
    - intros (k & Hc & v & <- & Hin). unfold cluster_network in Hc.
      destruct v; try (by apply elem_of_nil in Hc). destruct (gfield m "cidr") eqn:E; try (by apply elem_of_nil in Hc).
      destruct (isIPv4CIDR s) eqn:E4; [|by apply elem_of_nil in Hc].
      apply list_elem_of_singleton in Hc as ->. apply isIPv4CIDR_spec in E4. eauto.
    - intros (H4 & m & Hin & Hf). exists (cluster_network (GMap m)). split; [|by exists (GMap m)].
      cbn. rewrite Hf. rewrite (proj2 (isIPv4CIDR_spec c) H4). by apply list_elem_of_singleton. }
  rewrite Hm.
  destruct (gpath _ ["spec"; "clusterNetwork"]) as [[]|]; destruct (gpath _ ["spec"; "serviceNetwork"]) as [[]|];
    rewrite ?elem_of_nil;
    repeat match goal with
    | |- context[default [] (gstrings ?l)] => destruct (gstrings l) eqn:?; cbn [default]; rewrite ?elem_of_nil
    end; set_solver.
Qed.

(** Each source makes one call, and lists the IPv4 part of what it offers. *)
Definition lists (tr : list (event oresp)) (l : list string) : Prop :=
  forall c, c ∈ l <-> ipv4_cidr c /\ Exists (fun ev => event_offers ev c) tr.

Lemma lists_one ev l : (forall c, c ∈ l <-> ipv4_cidr c /\ event_offers ev c) -> lists [ev] l.
Proof. intros H c. rewrite H, Exists_cons, Exists_nil. naive_solver. Qed.

Lemma nodePodCIDRs_spec tr l : exec nodePodCIDRs tr (Ok l) -> lists tr l.
Proof.
  unfold nodePodCIDRs. intros H. exec_inv H. destruct r as [nodes|e]; exec_inv H; [|done].
  injection H as ->. apply lists_one. intros c. cbn [event_offers].
  rewrite elem_of_ipv4_only, list_elem_of_join. setoid_rewrite list_elem_of_In. setoid_rewrite in_map_iff.
  setoid_rewrite <- list_elem_of_In. split.
  - intros (H4 & k & Hc & n & <- & Hin). eauto.
  - intros (H4 & n & Hin & Hc). split; [done|]. exists (node_cidrs n). eauto.
Qed.

Lemma serviceCIDRs_spec tr l : exec serviceCIDRs tr (Ok l) -> lists tr l.
Proof.
  unfold serviceCIDRs. intros H. exec_inv H. destruct r as [items|e].
  - exec_inv H. injection H as ->. apply lists_one. intros c. cbn [event_offers].
    rewrite elem_of_ipv4_only, list_elem_of_join. naive_solver.
  - destruct (api_unreadable e); exec_inv H; [|done]. injection H as ->. apply lists_one.
    intros c. cbn [event_offers]. rewrite elem_of_nil. naive_solver.
Qed.

Lemma calicoPoolCIDRs_spec tr l : exec calicoPoolCIDRs tr (Ok l) -> lists tr l.
Proof.
  unfold calicoPoolCIDRs. intros H. exec_inv H. destruct r as [items|e].
  - exec_inv H. injection H as ->. apply lists_one. intros c. apply elem_of_pools.
  - destruct (api_unreadable e); exec_inv H; [|done]. injection H as ->. apply lists_one.
    intros c. cbn [event_offers]. rewrite elem_of_nil. naive_solver.
Qed.

Lemma ciliumNodeCIDRs_spec tr l : exec ciliumNodeCIDRs tr (Ok l) -> lists tr l.
Proof.
  unfold ciliumNodeCIDRs. intros H. exec_inv H. destruct r as [items|e].
  - exec_inv H. injection H as ->. apply lists_one. intros c. apply elem_of_ciliums.
  - destruct (api_unreadable e); exec_inv H; [|done]. injection H as ->. apply lists_one.
    intros c. cbn [event_offers]. rewrite elem_of_nil. naive_solver.
Qed.

Lemma openshiftNetwork_spec tr os : exec openshiftNetwork tr (Ok os) -> lists tr (fst os).
Proof.
  unfold openshiftNetwork. intros H. exec_inv H. destruct r as [nc|e].
  - exec_inv H. injection H as ->. apply lists_one. intros c. apply elem_of_openshift.
  - destruct (api_absent e); exec_inv H; [|done]. injection H as ->. apply lists_one.
    intros c. cbn. rewrite elem_of_nil. naive_solver.
Qed.

Lemma lists_app t1 t2 l1 l2 : lists t1 l1 -> lists t2 l2 -> lists (t1 ++ t2) (l1 ++ l2).
Proof. unfold lists. intros H1 H2 c. rewrite elem_of_app, H1, H2, Exists_app. naive_solver. Qed.

Lemma clusterForbiddenCIDRs_run sn tr deny os : exec (clusterForbiddenCIDRs sn) tr (Ok (deny, os)) ->
  exists out, deny = sort_strings (dedupe out) /\
  (forall c, c ∈ out <-> ipv4_cidr c /\ offered sn tr c) /\
  Forall (fun c => is_ok (ParsePrefix c) = true)
    (ForbiddenCIDRs (AcceptPolicy (Spec sn)) ++ UnderlayCIDRs (AcceptPolicy (Spec sn))).
Proof.
  unfold clusterForbiddenCIDRs. intros H.
  destruct (specIPv4CIDRs "forbiddenCIDRs" _) as [fb|e] eqn:Ef; [|by exec_inv H].
  destruct (specIPv4CIDRs "underlayCIDRs" _) as [ul|e] eqn:Eu; [|by exec_inv H].
  apply specIPv4CIDRs_go_spec in Ef as [-> Hf1]. apply specIPv4CIDRs_go_spec in Eu as [-> Hf2].
  apply exec_try in H as [(t1 & t2 & oc & -> & Ho%openshiftNetwork_spec & H) | (e & ? & _)]; [|done].
  apply exec_try in H as [(t3 & t4 & nd & -> & Hn%nodePodCIDRs_spec & H) | (e & ? & _)]; [|done].
  apply exec_try in H as [(t5 & t6 & sv & -> & Hs%serviceCIDRs_spec & H) | (e & ? & _)]; [|done].
  apply exec_try in H as [(t7 & t8 & cp & -> & Hc%calicoPoolCIDRs_spec & H) | (e & ? & _)]; [|done].
  apply exec_try in H as [(t9 & t10 & cl & -> & Hl%ciliumNodeCIDRs_spec & H) | (e & ? & _)]; [|done].
  exec_inv H. injection H as -> ->. rewrite app_nil_r.
  pose proof (lists_app _ _ _ _ Ho (lists_app _ _ _ _ Hn (lists_app _ _ _ _ Hs (lists_app _ _ _ _ Hc Hl)))) as Hall.
  unfold lists in Hall.
  eexists. split; [reflexivity|]. split; [|by apply Forall_app]. intros c.
  rewrite <- !app_assoc. rewrite !(elem_of_app (ipv4_only _)), !elem_of_ipv4_only, (Hall c). unfold offered.
  naive_solver.
Qed.

(** C7: the deny list is exactly the set of IPv4 CIDRs its sources offer.
    Whenever [clusterForbiddenCIDRs] succeeds, its list is sorted, free of
    duplicates and made of IPv4 CIDRs, and a CIDR is on it if and only if it is
    one and it comes from the resource's forbidden or underlay CIDRs, the
    OpenShift network configuration, a node's pod CIDRs, the ServiceCIDR API, an
    enabled Calico pool or a Cilium node. *)
Theorem clusterForbiddenCIDRs_exact (sn : ScionNetwork) (tr : list (event oresp)) (deny : list string)
    (os : bool) :
  exec (clusterForbiddenCIDRs sn) tr (Ok (deny, os)) ->
  Sorted String.le deny /\ NoDup deny /\ Forall ipv4_cidr deny /\
  forall c, c ∈ deny <-> ipv4_cidr c /\ offered sn tr c.
Proof.
  intros (out & -> & Hout & _)%clusterForbiddenCIDRs_run.
  assert (Hd : forall c, c ∈ sort_strings (dedupe out) <-> ipv4_cidr c /\ offered sn tr c).
  { intros c. rewrite elem_of_sort_strings, elem_of_dedupe, Hout.
    pose proof (ipv4_cidr_ne c). naive_solver. }
  split_and!; [apply sort_strings_sorted | | | done].
  - rewrite sort_strings_Permutation. apply NoDup_dedupe.
  - apply Forall_forall. intros c [? _]%Hd. done.
Qed.

(** The deny list does not depend on the order in which the API server
    lists objects, nor on repeated entries: two runs whose answers offer the
    same CIDRs give the same list, so that the rendered DaemonSet environment
    does not change and no agent is restarted. *)
Lemma clusterForbiddenCIDRs_deterministic (sn : ScionNetwork) (tr tr' : list (event oresp))
    (deny deny' : list string) (os os' : bool) :
  exec (clusterForbiddenCIDRs sn) tr (Ok (deny, os)) ->
  exec (clusterForbiddenCIDRs sn) tr' (Ok (deny', os')) ->
  (forall c, ipv4_cidr c -> offered sn tr c <-> offered sn tr' c) ->
  deny = deny' /\ forall image tls, DaemonSet sn image deny tls = DaemonSet sn image deny' tls.
Proof.
  intros (out & -> & Hout & _)%clusterForbiddenCIDRs_run (out' & -> & Hout' & _)%clusterForbiddenCIDRs_run H.
  assert (E : sort_strings (dedupe out) = sort_strings (dedupe out')).
  { apply sort_dedupe_ext. intros c. rewrite !elem_of_dedupe, Hout, Hout'. specialize (H c). tauto. }
  by rewrite E.
Qed.

(** An answer that is an error the derivation does not tolerate. *)
Definition blocking (ev : event oresp) : bool :=
  let 'existT cmd r := ev in
  match cmd as cmd return oresp cmd -> bool with
  | OGet _ _ => fun r => match r with Err e => negb (api_absent e) | Ok _ => false end
  | OListNodes _ => fun r => match r with Err _ => true | Ok _ => false end
  | OListServiceCIDRs => fun r => match r with Err e => negb (api_unreadable e) | Ok _ => false end
  | OList _ _ => fun r => match r with Err e => negb (api_unreadable e) | Ok _ => false end
  | _ => fun _ => false
  end r.

(** Each source fails exactly when its one answer is blocking. *)
Definition fails_closed {A} (p : oper (result A)) : Prop :=
  forall tr r, exec p tr r -> is_ok r = negb (existsb blocking tr).

Lemma sources_fail_closed :
  fails_closed openshiftNetwork /\ fails_closed nodePodCIDRs /\ fails_closed serviceCIDRs /\
  fails_closed calicoPoolCIDRs /\ fails_closed ciliumNodeCIDRs.
Proof.
  unfold fails_closed, openshiftNetwork, nodePodCIDRs, serviceCIDRs, calicoPoolCIDRs, ciliumNodeCIDRs.
  split_and!; intros tr r H; exec_inv H; (destruct r0 as [x|e]; [exec_inv H; by subst|]); cbn;
    [destruct (api_absent e) | exec_inv H; by subst | destruct (api_unreadable e)
     | destruct (api_unreadable e) | destruct (api_unreadable e)]; exec_inv H; by subst.
Qed.

Lemma fails_closed_try {A B} (p : oper (result A)) (f : A -> oper (result B)) :
  fails_closed p -> (forall a, fails_closed (f a)) -> fails_closed (try_bind p f).
Proof.
  intros Hp Hf tr r [(t1 & t2 & a & -> & H1 & H2) | (e & -> & H1)]%exec_try.
  - apply Hp in H1. apply Hf in H2. rewrite existsb_app, negb_orb, <- H1, H2. done.
  - apply Hp in H1. by rewrite <- H1.
Qed.

(** C28: the deny list is computed from complete information or not at all.  An
    entry of the resource that does not parse is an error before any API call;
    otherwise [clusterForbiddenCIDRs] succeeds exactly when no source answered
    with an error, the absence (or, for the optional APIs, the unreadability)
    of an API apart; in particular a failure to list the nodes is never taken
    for an empty list. *)
Theorem clusterForbiddenCIDRs_fail_closed (sn : ScionNetwork) (tr : list (event oresp))
    (r : result (list string * bool)) :
  exec (clusterForbiddenCIDRs sn) tr r ->
  let spec := ForbiddenCIDRs (AcceptPolicy (Spec sn)) ++ UnderlayCIDRs (AcceptPolicy (Spec sn)) in
  if forallb (fun c => is_ok (ParsePrefix c)) spec
  then is_ok r = negb (existsb blocking tr)
  else is_ok r = false /\ tr = [].
Proof.
  intros H spec. unfold clusterForbiddenCIDRs in H.
  destruct (specIPv4CIDRs "forbiddenCIDRs" _) as [fb|e] eqn:Ef.
  2:{ replace (forallb _ spec) with false; [exec_inv H; by subst|]. symmetry. apply not_true_iff_false.
      unfold spec. rewrite forallb_app. intros [Hf _]%andb_prop.
      destruct (specIPv4CIDRs_all "forbiddenCIDRs" _ [] Hf) as [o Ho].
      unfold specIPv4CIDRs in Ef. by rewrite Ho in Ef. }
  destruct (specIPv4CIDRs "underlayCIDRs" _) as [ul|e] eqn:Eu.
  2:{ replace (forallb _ spec) with false; [exec_inv H; by subst|]. symmetry. apply not_true_iff_false.
      unfold spec. rewrite forallb_app. intros [_ Hf]%andb_prop.
      destruct (specIPv4CIDRs_all "underlayCIDRs" _ [] Hf) as [o Ho].
      unfold specIPv4CIDRs in Eu. by rewrite Ho in Eu. }
  apply specIPv4CIDRs_go_spec in Ef as [_ Hf1]. apply specIPv4CIDRs_go_spec in Eu as [_ Hf2].
  replace (forallb _ spec) with true.
  2:{ symmetry. apply forallb_spec. intros c [Hc|Hc]%elem_of_app; [eapply Forall_forall in Hf1 | eapply Forall_forall in Hf2]; eauto. }
  destruct sources_fail_closed as (H1 & H2 & H3 & H4 & H5). revert tr r H.
  repeat (apply fails_closed_try; [done | intros]). intros tr r H. exec_inv H. by subst.
Qed.
End Sources.

(** ** On the simulated cluster *)
Definition deny_world : world := sim_world (sim_sn "manual" None []) 204.
Definition deny_prog : oper (result (list string * bool)) :=
  clusterForbiddenCIDRs (L := ref_lib) (sim_sn "manual" None []).
Definition deny_expected : list string :=
  ["10.244.1.0/24"; "10.244.2.0/24"; "10.245.0.0/16"; "10.96.0.0/12"; "172.16.0.0/12"; "192.168.0.0/16"].

Lemma deny_run (w : world) : result_of oresp osim deny_prog w = Ok (deny_expected, false) ->
  exec deny_prog (trace_of oresp osim deny_prog w) (Ok (deny_expected, false)).
Proof. intros <-. apply run_exec. Qed.

Lemma clusterForbiddenCIDRs_exact_witness :
  Sorted String.le deny_expected /\ NoDup deny_expected /\ Forall ipv4_cidr deny_expected /\
  forall c, c ∈ deny_expected <->
    ipv4_cidr c /\ offered (L := ref_lib) (sim_sn "manual" None []) (trace_of oresp osim deny_prog deny_world) c.
Proof.
  apply (clusterForbiddenCIDRs_exact (L := ref_lib) (K8sLaws0 := ref_laws) (sim_sn "manual" None [])
    (trace_of oresp osim deny_prog deny_world) deny_expected false).
  apply deny_run. vm_compute. reflexivity.
Defined.

(** The same cluster, its nodes listed in the other order and once more. *)
Definition deny_world' : world :=
  MkWorld (w_sn deny_world)
    [sim_node "n1" "10.0.0.1" "10.244.1.0/24"; sim_node "n2" "10.0.0.2" "10.244.2.0/24";
     sim_node "n1" "10.0.0.1" "10.244.1.0/24"]
    (w_service_cidrs deny_world) (w_pools deny_world) [] None ∅ None (w_http deny_world)
    (w_cert deny_world) 0 None.

Lemma clusterForbiddenCIDRs_deterministic_witness :
  deny_expected = deny_expected /\
  forall image tls, DaemonSet (sim_sn "manual" None []) image deny_expected tls
                    = DaemonSet (sim_sn "manual" None []) image deny_expected tls.
Proof.
  apply (clusterForbiddenCIDRs_deterministic (L := ref_lib) (K8sLaws0 := ref_laws) (sim_sn "manual" None [])
    (trace_of oresp osim deny_prog deny_world) (trace_of oresp osim deny_prog deny_world')
    deny_expected deny_expected false false).
  - apply deny_run. vm_compute. reflexivity.
  - apply deny_run. vm_compute. reflexivity.
  - intros c _. unfold offered.
    replace (trace_of oresp osim deny_prog deny_world) with
      ([existT (OGet ConfigNetwork "cluster") no_match;
        existT (OListNodes None) (Ok (w_nodes deny_world));
        existT OListServiceCIDRs (Ok [["10.96.0.0/12"; "fd00::/108"]]);
        existT (OList IPPools None) (w_pools deny_world);
        existT (OList CiliumNodes None) no_match] : list (event oresp)) by (vm_compute; reflexivity).
    replace (trace_of oresp osim deny_prog deny_world') with
      ([existT (OGet ConfigNetwork "cluster") no_match;
        existT (OListNodes None) (Ok (w_nodes deny_world'));
        existT OListServiceCIDRs (Ok [["10.96.0.0/12"; "fd00::/108"]]);
        existT (OList IPPools None) (w_pools deny_world);
        existT (OList CiliumNodes None) no_match] : list (event oresp)) by (vm_compute; reflexivity).
    rewrite !Exists_cons, !Exists_nil. cbn [event_offers].
    assert (Hn : (exists n, n ∈ w_nodes deny_world /\ c ∈ node_cidrs n) <->
                 (exists n, n ∈ w_nodes deny_world' /\ c ∈ node_cidrs n)).
    { cbn [w_nodes deny_world deny_world' sim_world]. setoid_rewrite elem_of_cons.
      setoid_rewrite elem_of_cons. setoid_rewrite elem_of_cons. naive_solver. }
    rewrite Hn. reflexivity.
Defined.

Lemma clusterForbiddenCIDRs_fail_closed_witness :
  true = negb (existsb blocking (trace_of oresp osim deny_prog deny_world)).
Proof.
  assert (H : result_of oresp osim deny_prog deny_world = Ok (deny_expected, false))
    by (vm_compute; reflexivity).
  pose proof (clusterForbiddenCIDRs_fail_closed (L := ref_lib) (sim_sn "manual" None [])
    (trace_of oresp osim deny_prog deny_world) _ (deny_run deny_world H)) as Hc.
  exact Hc.
Defined.

(** ** Node addresses in the underlay *)
Lemma inside_None prefixes ip : inside prefixes ip = None <-> forall p, p ∈ prefixes -> Contains p ip = false.
Proof.
  induction prefixes as [|p prefixes IH]; cbn; [set_solver|].
  setoid_rewrite elem_of_cons. destruct (Contains p ip) eqn:E; [|rewrite IH; naive_solver].
  split; [done|]. intros H. by rewrite (H p) in E by auto.
Qed.

Definition address_clear (prefixes : list Prefix) (a : NodeAddress) : Prop :=
  na_Type a = "InternalIP" -> forall ip p, ParseAddr (na_Address a) = Ok ip -> p ∈ prefixes ->
  Contains p ip = false.

Lemma check_addresses_None prefixes name addrs :
  check_addresses prefixes name addrs = None <-> Forall (address_clear prefixes) addrs.
Proof.
  induction addrs as [|a addrs IH]; cbn; [by split|]. rewrite Forall_cons. unfold address_clear at 1.
  case_bool_decide as Ht; cbn; [|rewrite IH; naive_solver].
  destruct (ParseAddr (na_Address a)) as [ip|e]; [|rewrite IH; naive_solver].
  destruct (inside prefixes ip) as [p|] eqn:Ei.
  - split; [done|]. intros [H _].
    assert (inside prefixes ip = None) by (apply inside_None; intros q; by apply H). congruence.
  - rewrite IH. pose proof (proj1 (inside_None prefixes ip) Ei). naive_solver.
Qed.

Lemma check_nodes_None prefixes nodes : check_nodes prefixes nodes = None <->
  Forall (fun n => Forall (address_clear prefixes) (n_Addresses n)) nodes.
Proof.
  induction nodes as [|n nodes IH]; cbn; [by split|]. rewrite Forall_cons, <- (check_addresses_None prefixes (n_Name n)).
  destruct (check_addresses prefixes (n_Name n) (n_Addresses n)); [split; [done | by intros [[=] _]]|].
  rewrite IH. tauto.
Qed.

(** C29: node-address advertisement is let through only when it cannot route the
    underlay into the tunnel.  With it enabled and at least one parsable
    underlay CIDR, [validateNodeIPAdvertisement] lists the selected nodes and
    passes exactly when the list was read and no InternalIP of a selected node
    lies inside an underlay CIDR; otherwise it asks nothing and passes. *)
Theorem validateNodeIPAdvertisement_spec (sn : ScionNetwork) (tr : list (event oresp))
    (r : option gerror) :
  exec (validateNodeIPAdvertisement sn) tr r ->
  let prefixes := underlay_prefixes (UnderlayCIDRs (AcceptPolicy (Spec sn))) in
  if default false (NodeIP (Advertisement (Spec sn))) && negb (bool_decide (prefixes = []))
  then exists a, tr = [existT (OListNodes (Some (NodeSelector (Spec sn)))) a] /\
    (r = None <-> exists nodes, a = Ok nodes /\
       forall n addr ip p, n ∈ nodes -> addr ∈ n_Addresses n -> na_Type addr = "InternalIP" ->
         ParseAddr (na_Address addr) = Ok ip -> p ∈ prefixes -> Contains p ip = false)
  else tr = [] /\ r = None.
Proof.
  intros H. unfold validateNodeIPAdvertisement in H.
  destruct (default false _); cbn [negb andb] in H |- *; [|by exec_inv H].
  case_bool_decide; cbn [negb]; [by exec_inv H|].
  exec_inv H. exists r0. destruct r0 as [nodes|e]; exec_inv H; subst r.
  - split; [done|]. rewrite check_nodes_None. setoid_rewrite Forall_forall. setoid_rewrite Forall_forall.
    unfold address_clear. split.
    + intros Hf. exists nodes. split; [done|]. intros n addr ip p H1 H2 H3 H4 H5.
      exact (Hf n H1 addr H2 H3 ip p H4 H5).
    + intros (nodes' & [= <-] & Hf) n H1 addr H2 H3 ip p H4 H5. exact (Hf n addr ip p H1 H2 H3 H4 H5).
  - split; [done|]. split; [done|]. by intros (nodes & [=] & _).
Qed.

(** A node inside the underlay, and the check refuses it. *)
Definition underlay_sn : ScionNetwork :=
  MkScionNetwork "cluster" "uid-1" 1 None [] (MkSpec
    (MkBootstrapSpec "url" "http://ds" "" "" None "") (MkAdvertisementSpec None (Some true))
    (MkAcceptPolicySpec ["1-ff00:0:110"] [] ["10.0.0.0/30"]) (MkDataplaneSpec "")
    (MkRegistrarSpec "" "" None) ∅ [] "")
  (MkStatus [] "" (MkNodeSummary 0 0 []) (MkRegistrarStatus 0 [] None [])).

Lemma validateNodeIPAdvertisement_spec_witness :
  exists a, trace_of oresp osim (validateNodeIPAdvertisement underlay_sn) deny_world
            = [existT (OListNodes (Some ∅)) a] /\
    (result_of oresp osim (validateNodeIPAdvertisement underlay_sn) deny_world = None <->
     exists nodes, a = Ok nodes /\
       forall n addr ip p, n ∈ nodes -> addr ∈ n_Addresses n -> na_Type addr = "InternalIP" ->
         ParseAddr (na_Address addr) = Ok ip ->
         p ∈ underlay_prefixes (UnderlayCIDRs (AcceptPolicy (Spec underlay_sn))) -> Contains p ip = false).
Proof.
  exact (validateNodeIPAdvertisement_spec underlay_sn _ _
    (run_exec oresp osim (validateNodeIPAdvertisement underlay_sn) deny_world)).
Defined.
