(* ===== verification/Platform.v ===== *)
(** * [platform.go]: whether pod egress preserves source addresses *)
From S2P Require Import Prelude Effects GoStrings Api K8s Render AgentEnv OperatorEnv.
Local Open Scope Z_scope.
Local Open Scope prog_scope.

Record podEgressPlatform := MkPlatform {
  pf_Status : ConditionStatus;
  pf_Reason : string;
  pf_Message : msg
}.

Definition platformDetectionFailed (err : gerror) : podEgressPlatform :=
  MkPlatform ConditionUnknown "PlatformDetectionFailed" (e_msg err).

Definition sourcePreservationDisabled (message : string) : podEgressPlatform :=
  MkPlatform ConditionFalse "SourcePreservationDisabled" [Lit message].

Definition apiPresent (k : gvk) : oper bool :=
  r ← call (OList k (Some 1)); Ret (is_ok r).

Definition vanilla_base : string :=
  "OpenShift OVN-Kubernetes gateway configuration is not available".

Definition vanillaPlatformMessage : oper string :=
  calico ← apiPresent IPPools;
  if (calico : bool) then
    Ret (vanilla_base +:+ "; Calico detected — source preservation requires prefixes accepted from remote ASes to be covered by a disabled IPPool with disableBGPExport (see docs/install.md, Vanilla Kubernetes)")
  else
    cilium ← apiPresent CiliumNodes;
    if (cilium : bool) then
      Ret (vanilla_base +:+ "; Cilium detected — source preservation requires a masquerade exclusion (BPF ip-masq-agent nonMasqueradeCIDRs) for prefixes accepted from remote ASes (see docs/install.md, Vanilla Kubernetes)")
    else
      Ret (vanilla_base +:+ "; ensure the CNI excludes prefixes accepted from remote ASes from pod-egress masquerade (see docs/install.md, Vanilla Kubernetes)").

Section Lib.
Context `{L : K8sLib}.

Definition classifyPodEgressPlatform (network : Unstructured) : podEgressPlatform :=
  let networkType := fst (fst (NestedString (u_Object network) ["spec"; "defaultNetwork"; "type"])) in
  if negb (bool_decide (networkType = "OVNKubernetes"))
  then MkPlatform ConditionUnknown "PlatformUnverified"
         [Lit "default network type "; Quo networkType; Lit " is not OVN-Kubernetes"]
  else
    let '(routingViaHost, found, err) := NestedBool (u_Object network)
      ["spec"; "defaultNetwork"; "ovnKubernetesConfig"; "gatewayConfig"; "routingViaHost"] in
    match err with
    | Some _ => MkPlatform ConditionFalse "HostRoutingDisabled"
                  [Lit "OVN-Kubernetes routingViaHost has an invalid value"]
    | None =>
        if negb found || negb routingViaHost
        then MkPlatform ConditionFalse "HostRoutingDisabled"
               [Lit "OVN-Kubernetes shared-gateway mode bypasses host routes; set spec.defaultNetwork.ovnKubernetesConfig.gatewayConfig.routingViaHost=true"]
        else MkPlatform ConditionTrue "HostRoutingEnabled"
               [Lit "OVN-Kubernetes routes pod egress through the node host routing table"]
    end.

Definition accepted_condition (v : gval) : bool :=
  match v with
  | GMap m => geq_str (gfield m "type") "Accepted" && geq_str (gfield m "status") "True"
  | _ => false
  end.

Definition routeAdvertisementAccepted (item : Unstructured) : bool :=
  let status := fst (fst (NestedString (u_Object item) ["status"; "status"])) in
  if bool_decide (status = "Accepted") then true
  else existsb accepted_condition (fst (fst (NestedSlice (u_Object item) ["status"; "conditions"]))).

Definition default_network_selector (v : gval) : bool :=
  match v with
  | GMap m => geq_str (gfield m "networkSelectionType") "DefaultNetwork"
  | _ => false
  end.

Fixpoint hasAcceptedDefaultPodAdvertisement (items : list Unstructured) : bool :=
  match items with
  | [] => false
  | item :: items' =>
      if negb (routeAdvertisementAccepted item) then hasAcceptedDefaultPodAdvertisement items'
      else
        let advertisements := fst (fst (NestedStringSlice (u_Object item) ["spec"; "advertisements"])) in
        if negb (bool_decide ("PodNetwork" ∈ advertisements))
        then hasAcceptedDefaultPodAdvertisement items'
        else
          if existsb default_network_selector
               (fst (fst (NestedSlice (u_Object item) ["spec"; "networkSelectors"])))
          then true else hasAcceptedDefaultPodAdvertisement items'
  end.

Definition detectPodEgressPlatform : oper podEgressPlatform :=
  r ← call (OGet OperatorNetwork "cluster");
  match r with
  | Err err =>
      if api_unreadable err then
        m ← vanillaPlatformMessage;
        Ret (MkPlatform ConditionUnknown "PlatformUnverified" [Lit m])
      else Ret (platformDetectionFailed (wrapf [Lit "read OpenShift network operator config: "] err))
  | Ok network =>
      let platform := classifyPodEgressPlatform network in
      if negb (bool_decide (pf_Status platform = ConditionTrue)) then Ret platform
      else
        let routeAdvertisements := fst (fst (NestedString (u_Object network)
          ["spec"; "defaultNetwork"; "ovnKubernetesConfig"; "routeAdvertisements"])) in
        if negb (bool_decide (routeAdvertisements = "Enabled"))
        then Ret (sourcePreservationDisabled "OVN routeAdvertisements must be Enabled to preserve pod source addresses")
        else
          r ← call (OList RouteAdvertisements None);
          match r with
          | Err err =>
              if api_absent err
              then Ret (sourcePreservationDisabled "OVN RouteAdvertisements API is not available")
              else if is_kind EForbidden err
              then Ret (MkPlatform ConditionUnknown "PlatformUnverified"
                          [Lit "OVN RouteAdvertisements are not readable by the operator"])
              else Ret (platformDetectionFailed (wrapf [Lit "list OVN RouteAdvertisements: "] err))
          | Ok routes =>
              if negb (hasAcceptedDefaultPodAdvertisement routes)
              then Ret (sourcePreservationDisabled "no accepted RouteAdvertisements exports PodNetwork for the default network")
              else Ret (MkPlatform ConditionTrue "HostRoutingEnabled"
                          [Lit "OVN-Kubernetes routes pod egress through the host with pod source preservation"])
          end
  end.

End Lib.
