(* ===== verification/Backends.v ===== *)
(** * [internal/operator/registrar]: the registrar backends

    [Manual], [HTTP] and [Anapaya], and the interface [Backend] they share. *)
From S2P Require Import Server.
From S2P Require Import Prelude Effects GoStrings Json Api K8s Render AgentEnv OperatorEnv.
Local Open Scope Z_scope.
Local Open Scope prog_scope.

Record SIG := MkSIG { sig_Name : string; sig_CtrlAddr : string; sig_DataAddr : string }.

Global Instance SIG_eq_dec : EqDecision SIG.
Proof. solve_decision. Defined.

(** The JSON of a SIG leaves its name out. *)
Definition json_of_SIG (s : SIG) : json :=
  JObj [(quote "ctrl_addr", JStr (quote (sig_CtrlAddr s))); (quote "data_addr", JStr (quote (sig_DataAddr s)))].

(** A [map[string]SIG], written with sorted keys. *)
Definition json_of_sigs (m : gmap string SIG) : json :=
  JObj (map (fun '(k, s) => (quote k, json_of_SIG s)) (sorted_entries m)).

(** [2*ReloadTimeout + 10s]. *)
Definition DefaultTimeout : Z := 2 * ReloadTimeout + 10 * Second.

Record HTTPBackend := MkHTTP { http_Endpoint : string; http_Token : string; http_CABundle : string }.

Inductive BackendKind :=
| Manual
| HTTP (h : HTTPBackend)
| Anapaya.

Definition ErrNotImplemented : gerror := Error ENotImplemented [Lit "not implemented"].

Definition anapaya_error : gerror :=
  Error ENotImplemented ([Lit "anapaya backend: "] ++ e_msg ErrNotImplemented ++
    [Lit " (use backend=http with the AS-side registrar service, or backend=manual and configure the appliance from status.registrar.desiredSIGs)"]).

(** The set sent: the last of several SIGs with one name wins. *)
Definition sig_body (sigs : list SIG) : gmap string SIG :=
  foldl (fun m s => <[sig_Name s := s]> m) ∅ sigs.

Section Lib.
Context `{X : X509Lib}.

(** The client of [Ensure]: its CA bundle, or an error for one without a
    certificate.  [Client] is nil in the operator. *)
Definition http_client (h : HTTPBackend) : result (option string) :=
  if bool_decide (http_CABundle h = "") then Ok None
  else if negb (AppendCertsFromPEM (http_CABundle h))
  then Err (errorf [Lit "registrar CA bundle contains no valid PEM certificates"])
  else Ok (Some (http_CABundle h)).

Definition http_request (h : HTTPBackend) (sigs : list SIG) (ca : option string) : HttpReq :=
  MkHttpReq "PUT" (http_Endpoint h +:+ "/v1/sigs")
    [("Content-Type", "application/json"); ("Authorization", "Bearer " +:+ http_Token h)]
    (Marshal (json_of_sigs (sig_body sigs))) ca.

Definition http_Ensure (h : HTTPBackend) (sigs : list SIG) : oper (option gerror) :=
  e ← call (ONewRequest "PUT" (http_Endpoint h +:+ "/v1/sigs"));
  match e with
  | Some err => Ret (Some (wrapf [Lit "build request: "] err))
  | None =>
      match http_client h with
      | Err err => Ret (Some err)
      | Ok ca =>
          r ← call (OHttp (http_request h sigs ca));
          match r with
          | Err err => Ret (Some (wrapf [Lit "put sigs: "] err))
          | Ok resp =>
              if negb (hr_code resp =? 204)
              then Ret (Some (errorf [Lit "put sigs: status "; Lit (itoa (hr_code resp)); Lit " ";
                                      Lit (StatusText (hr_code resp)); Lit ": ";
                                      Lit (TrimSpace (str_take 512 (hr_body resp)))]))
              else Ret None
          end
      end
  end.

Definition Ensure (b : BackendKind) (sigs : list SIG) : oper (option gerror) :=
  match b with
  | Manual => Ret None
  | HTTP h => http_Ensure h sigs
  | Anapaya => Ret (Some anapaya_error)
  end.

End Lib.
