(* ===== verification/RegistrarSync.v ===== *)
(** * [registrar_sync.go]: registering the node gateways with the AS *)
From S2P Require Import Prelude Effects GoStrings Api K8s Render AgentEnv OperatorEnv Kube Platform Backends.
Local Open Scope Z_scope.
Local Open Scope prog_scope.

Definition sigCtrlPort : Z := 30256.
Definition sigDataPort : Z := 30056.
Definition registrarTimeout : Z := DefaultTimeout + 5 * Second.

(** [slices.SortFunc] by name: a sort that need not be stable; the names of the
    nodes of a cluster are distinct. *)
Definition name_le (a b : SIG) : Prop := String.le (sig_Name a) (sig_Name b).

Global Instance name_le_dec a b : Decision (name_le a b).
Proof. unfold name_le. apply _. Defined.

Definition node_sig (n : Node) (ip : string) : SIG :=
  MkSIG (n_Name n) (ip +:+ ":" +:+ itoa sigCtrlPort) (ip +:+ ":" +:+ itoa sigDataPort).

Section Lib.
Context `{L : K8sLib} `{X : X509Lib}.

Fixpoint collect_sigs (selector : gmap string string) (nodes : list Node)
    (sigs : list SIG) (skipped : list string) : list SIG * list string :=
  match nodes with
  | [] => (sigs, skipped)
  | n :: nodes' =>
      if negb (SelectorMatches selector (n_Labels n))
      then collect_sigs selector nodes' sigs skipped
      else
        let ip := internal_ip (n_Addresses n) in
        if bool_decide (ip = "")
        then collect_sigs selector nodes' sigs (skipped ++ [n_Name n])
        else collect_sigs selector nodes' (sigs ++ [node_sig n ip]) skipped
  end.

Definition nodesToSIGs (nodes : list Node) (selector : gmap string string)
    : list SIG * list string :=
  let '(sigs, skipped) := collect_sigs selector nodes [] [] in
  (merge_sort name_le sigs, sort_strings skipped).

Definition backendFor (sn : ScionNetwork) : oper (result BackendKind) :=
  let reg := Registrar (Spec sn) in
  if bool_decide (Backend reg = "") || bool_decide (Backend reg = "manual") then Ret (Ok Manual)
  else if bool_decide (Backend reg = "http") then
    match CredentialsSecretRef reg with
    | Some ref =>
        r ← call (OGetSecret Namespace ref);
        match r with
        | Err err => Ret (Err (wrapf [Lit "read credentials secret "; Lit Namespace; Lit "/";
                                      Lit ref; Lit ": "] err))
        | Ok data =>
            match data !! "token" with
            | None => Ret (Err (errorf [Lit "credentials secret "; Quo ref; Lit " has no ";
                                        Quo "token"; Lit " key"]))
            | Some token =>
                Ret (Ok (HTTP (MkHTTP (Endpoint reg) token (default "" (data !! "ca.crt")))))
            end
        end
    | None => Ret (Ok (HTTP (MkHTTP (Endpoint reg) "" "")))
    end
  else if bool_decide (Backend reg = "anapaya") then Ret (Ok Anapaya)
  else Ret (Err (errorf [Lit "unknown registrar backend "; Quo (Backend reg)])).

Definition desired_text (s : SIG) : string :=
  sig_Name s +:+ "=" +:+ sig_CtrlAddr s +:+ "," +:+ sig_DataAddr s.

Definition with_error (st : RegistrarStatus) (m : msg) : RegistrarStatus :=
  MkRegistrarStatus (RegisteredNodes st) (DesiredSIGs st) (LastSyncTime st) m.

Definition syncRegistrar (sn : ScionNetwork) : oper (RegistrarStatus * bool) :=
  let st := st_Registrar (Status sn) in
  r ← call (OListNodes None);
  match r with
  | Err err => Ret (with_error st (Lit "list nodes: " :: e_msg err), true)
  | Ok nodes =>
      let '(sigs, _) := nodesToSIGs nodes (NodeSelector (Spec sn)) in
      let st := MkRegistrarStatus (RegisteredNodes st) (map desired_text sigs)
                  (LastSyncTime st) (LastError st) in
      b ← backendFor sn;
      err ← match b with
            | Ok backend => Ensure backend sigs
            | Err err => Ret (Some err)
            end;
      match err with
      | Some err => Ret (with_error st (e_msg err), true)
      | None =>
          now ← call ONow;
          Ret (MkRegistrarStatus (int32 (Z.of_nat (length sigs))) (DesiredSIGs st) (Some now) [], false)
      end
  end.

End Lib.

Definition degradedReason (degradedAgents : Z) (unreadyMsg : msg) (platform : podEgressPlatform)
    (regFailed : bool) (regLastError : msg) (backend : string) : bool * string * msg :=
  let regDegraded := regFailed && negb (bool_decide (backend = ""))
                     && negb (bool_decide (backend = "manual")) in
  if 0 <? degradedAgents then (true, "UnreadyAgents", unreadyMsg)
  else if bool_decide (pf_Status platform = ConditionFalse)
  then (true, pf_Reason platform, pf_Message platform)
  else if regDegraded then (true, "RegistrarSyncFailed", regLastError)
  else (false, "AsExpected", unreadyMsg).
