(* ===== verification/MetricsTLS.v ===== *)
(** * [metrics_tls.go]: the metrics serving certificate, and how objects are applied *)
From S2P Require Import Prelude Effects GoStrings Api K8s Render AgentEnv OperatorEnv.
Local Open Scope Z_scope.
Local Open Scope prog_scope.

(** ** [applyObject] *)

Section Apply.
Context `{C : CtrlLib}.

Definition applyObject (sn : ScionNetwork) (obj : KObj) (mutate : KObj -> result KObj)
    : oper (option gerror) :=
  call (OCreateOrUpdate obj (fun o => o' ← SetControllerReference sn o; mutate o')).

End Apply.

Definition applyObjectNoOwner (obj : KObj) (mutate : KObj -> result KObj) : oper (option gerror) :=
  call (OCreateOrUpdate obj mutate).

(** ** [ensureMetricsTLS] *)
Definition metricsTLSSecret : string := "scion-node-agent-metrics-tls".
Definition metricsCAConfigMap : string := "scion-node-agent-metrics-ca".
Definition metricsCertRenewBefore : Z := 30 * 24 * Hour.
Definition metricsServiceDNS : string := "scion-node-agent-metrics." +:+ Namespace +:+ ".svc".

Definition set_payload (p : payload) (o : KObj) : result KObj := Ok (MkObj (o_Meta o) p).

Section Lib.
Context `{C : CtrlLib} `{X : X509Lib}.

Definition metricsCertUsable (certPEM : string) : oper bool :=
  match ParseCertificatePEM certPEM with
  | None => Ret false
  | Some cert =>
      now ← call ONow;
      if NotAfter cert <? now + metricsCertRenewBefore then Ret false
      else Ret (VerifyHostname cert metricsServiceDNS)
  end.

Definition tls_data (b : CertBundle) : gmap string string :=
  {["tls.crt" := cb_cert b; "tls.key" := cb_key b; "ca.crt" := cb_ca b]}.

Definition ensureMetricsTLS (sn : ScionNetwork) : oper (option gerror) :=
  r ← call (OGetSecret Namespace metricsTLSSecret);
  usable ← match r with
           | Ok data => metricsCertUsable (default "" (data !! "tls.crt"))
           | Err _ => Ret false
           end;
  if (usable : bool) then Ret None
  else
    g ← call OGenerateCert;
    match g with
    | Err err => Ret (Some (wrapf [Lit "generate metrics serving certificate: "] err))
    | Ok b =>
        let secret := MkObj (MkMeta metricsTLSSecret Namespace ∅ None)
                        (PSecret "kubernetes.io/tls" (match r with Ok data => data | Err _ => ∅ end)) in
        e ← applyObject sn secret (set_payload (PSecret "kubernetes.io/tls" (tls_data b)));
        match e with
        | Some err => Ret (Some (wrapf [Lit "apply metrics TLS secret: "] err))
        | None =>
            let cm := MkObj (MkMeta metricsCAConfigMap Namespace ∅ None) (PConfigMap ∅) in
            e ← applyObject sn cm (set_payload (PConfigMap {["ca.crt" := cb_ca b]}));
            match e with
            | Some err => Ret (Some (wrapf [Lit "apply metrics CA configmap: "] err))
            | None => Ret None
            end
        end
    end.

End Lib.
