(* ===== verification/MetricsCert.v ===== *)
(** * [metrics_tls.go]: the certificate that [generateMetricsCert] issues

    The calls of [crypto/ecdsa], [crypto/x509] and the clock are commands; what
    they are relied on for is the class [X509Issue]. *)
From S2P Require Import Prelude Effects GoStrings Api K8s Render AgentEnv OperatorEnv MetricsTLS.
Local Open Scope Z_scope.
Local Open Scope prog_scope.

Definition metricsCertValidity : Z := 365 * 24 * Hour.
Definition metricsServiceDNSNames : list string :=
  [metricsServiceDNS;
   "scion-node-agent-metrics." +:+ Namespace +:+ ".svc.cluster.local"].

(** [x509.Certificate], the fields that are set. *)
Record Template := MkTemplate {
  tp_SerialNumber : Z;
  tp_CommonName : string;
  tp_NotBefore : Z;
  tp_NotAfter : Z;
  tp_IsCA : bool;
  tp_KeyUsage : string;
  tp_ExtKeyUsage : list string;
  tp_BasicConstraintsValid : bool;
  tp_MaxPathLenZero : bool;
  tp_DNSNames : list string
}.

(** Private and public keys are texts; [PublicKey], a parameter below, is the
    field of that name. *)
Inductive ccmd :=
| CGenerateKey
| CNow
| CCreateCertificate (template parent : Template) (pub priv : string)
| CParseCertificate (der : string)
| CMarshalECPrivateKey (key : string).

Definition cresp (c : ccmd) : Type :=
  match c with
  | CGenerateKey => result string
  | CNow => Z
  | CCreateCertificate _ _ _ _ => result string
  | CParseCertificate _ => result Template
  | CMarshalECPrivateKey _ => result string
  end.

Abbreviation issuer := (prog cresp).
Definition ask (c : ccmd) : issuer (cresp c) := call c.

Definition ca_template (serial notBefore notAfter : Z) : Template :=
  MkTemplate serial "scion-node-agent-metrics-ca" (notBefore - 5 * Minute) (notAfter + metricsCertValidity)
    true "CertSign" [] true true [].

Definition leaf_template (serial notBefore notAfter : Z) : Template :=
  MkTemplate (serial + 1) (nth 0 metricsServiceDNSNames "") (notBefore - 5 * Minute)
    (notAfter + metricsCertValidity) false "DigitalSignature" ["ServerAuth"] false false metricsServiceDNSNames.

(** The clock is read three times for each template. *)
Definition with_times (f : Z -> Z -> Z -> Template) : issuer Template :=
  serial ← call CNow; notBefore ← call CNow; notAfter ← call CNow; Ret (f serial notBefore notAfter).

(** Fill in a template and sign it under its parent. *)
Definition sign (f : Z -> Z -> Z -> Template) (parent : Template -> Template) (pub priv : string)
    : issuer (result string) :=
  tpl ← with_times f; ask (CCreateCertificate tpl (parent tpl) pub priv).

Section Issue.
Context (EncodePEM : string -> string -> string) (PublicKey : string -> string).

Definition generateMetricsCert : issuer (result CertBundle) :=
  caKey <~ (ask CGenerateKey : issuer (result string));
  caDER <~ sign ca_template (fun caTpl => caTpl) (PublicKey caKey) caKey;
  caCert <~ (ask (CParseCertificate caDER) : issuer (result Template));
  leafKey <~ (ask CGenerateKey : issuer (result string));
  leafDER <~ sign leaf_template (fun _ => caCert) (PublicKey leafKey) caKey;
  keyDER <~ (ask (CMarshalECPrivateKey leafKey) : issuer (result string));
  Ret (Ok (MkCertBundle (EncodePEM "CERTIFICATE" leafDER) (EncodePEM "EC PRIVATE KEY" keyDER)
             (EncodePEM "CERTIFICATE" caDER))).
End Issue.

(** What is relied on.  [issues tpl parent pub priv der]: [der] is a certificate
    that [x509.CreateCertificate] made.  Written as PEM and parsed it has the
    expiry of the template (to the second) and its names, and a listed name
    verifies.  [CheckSignatureFrom child parent] (the method of that name, and
    that the issuer of the child is the subject of the parent) holds when the
    parent is a CA certificate over the public half of the key that signed the
    child; [X509KeyPair cert key], of [crypto/tls], when the certificate is over
    the public half of the key. *)
Class X509Issue (X : X509Lib) := {
  EncodePEM : string -> string -> string;
  PublicKey : string -> string;
  CheckSignatureFrom : string -> string -> bool;
  X509KeyPair : string -> string -> bool;
  issues : Template -> Template -> string -> string -> string -> Prop;
  marshals : string -> string -> Prop;
  issue_parses : forall tpl parent pub priv der, issues tpl parent pub priv der ->
    exists c, ParseCertificatePEM (EncodePEM "CERTIFICATE" der) = Some c /\
      tp_NotAfter tpl - Second < NotAfter c <= tp_NotAfter tpl /\ DNSNames c = tp_DNSNames tpl;
  verify_listed : forall c h, h ∈ DNSNames c -> VerifyHostname c h = true;
  check_signature : forall ca above key by_ der tpl parent pub child,
    issues ca above (PublicKey key) by_ der ->
    tp_IsCA ca = true -> tp_BasicConstraintsValid ca = true -> tp_KeyUsage ca = "CertSign" ->
    tp_CommonName parent = tp_CommonName ca -> issues tpl parent pub key child ->
    CheckSignatureFrom (EncodePEM "CERTIFICATE" child) (EncodePEM "CERTIFICATE" der) = true;
  key_pair : forall tpl parent key priv der keyDER,
    issues tpl parent (PublicKey key) priv der -> marshals key keyDER ->
    X509KeyPair (EncodePEM "CERTIFICATE" der) (EncodePEM "EC PRIVATE KEY" keyDER) = true
}.

Section Usable.
Context `{X : X509Lib} `{!X509Issue X}.

(** The certificates in a trace were issued, a parsed one has the name of its
    template, and the clock has not gone back behind [t0]. *)
Definition since (t0 : Z) (ev : event cresp) : Prop :=
  let 'existT c r := ev in
  match c as c return cresp c -> Prop with
  | CCreateCertificate tpl parent pub priv => fun r =>
      match r with Ok der => issues tpl parent pub priv der | Err _ => True end
  | CParseCertificate der => fun r =>
      match r with
      | Ok c => forall tpl parent pub priv, issues tpl parent pub priv der -> tp_CommonName c = tp_CommonName tpl
      | Err _ => True
      end
  | CMarshalECPrivateKey key => fun r => match r with Ok der => marshals key der | Err _ => True end
  | CNow => fun now => t0 <= now
  | CGenerateKey => fun _ => True
  end r.

Definition issued_since (t0 : Z) (tr : list (event cresp)) : Prop := forall ev, ev ∈ tr -> since t0 ev.

Lemma since_Forall t0 tr : issued_since t0 tr -> Forall (since t0) tr.
Proof. apply Forall_forall. Qed.
(** One template is filled in and signed. *)
Lemma sign_exec f (parent : Template -> Template) pub priv tr r :
  exec (sign f parent pub priv) tr r ->
  exists s n a, tr = [existT CNow s; existT CNow n; existT CNow a;
                      existT (CCreateCertificate (f s n a) (parent (f s n a)) pub priv) r].
Proof.
  unfold sign. intros (t1 & t2 & tpl & -> & H1 & H2)%exec_mbind. unfold with_times in H1. exec_inv H1. subst tpl.
  eapply (exec_call (resp := cresp) (CCreateCertificate _ _ _ _)) in H2 as ->. by eexists _, _, _.
Qed.

(** The certificate of the bundle is the one made from the leaf template, signed
    with the key of the CA of the bundle. *)
Lemma generate_leaf tr b : exec (generateMetricsCert EncodePEM PublicKey) tr (Ok b) ->
  exists s1 n1 a1 s2 n2 a2 caKey leafKey caCert caDER leafDER keyDER,
    let caTpl := ca_template s1 n1 a1 in let leafTpl := leaf_template s2 n2 a2 in
    tr = [existT CGenerateKey (Ok caKey); existT CNow s1; existT CNow n1; existT CNow a1;
          existT (CCreateCertificate caTpl caTpl (PublicKey caKey) caKey) (Ok caDER);
          existT (CParseCertificate caDER) (Ok caCert); existT CGenerateKey (Ok leafKey);
          existT CNow s2; existT CNow n2; existT CNow a2;
          existT (CCreateCertificate leafTpl caCert (PublicKey leafKey) caKey) (Ok leafDER);
          existT (CMarshalECPrivateKey leafKey) (Ok keyDER)] /\
    b = MkCertBundle (EncodePEM "CERTIFICATE" leafDER) (EncodePEM "EC PRIVATE KEY" keyDER) (EncodePEM "CERTIFICATE" caDER).
Proof.
  unfold generateMetricsCert, try_bind, ask. intros He.
  exec_inv He. destruct r as [caKey|]; [|by exec_inv He].
  apply exec_mbind in He as (t1 & t2 & caDER & -> & (s1 & n1 & a1 & ->)%sign_exec & He).
  destruct caDER as [caDER|]; [|by exec_inv He].
  exec_inv He. destruct r as [caCert|]; [|by exec_inv He].
  exec_inv He. destruct r as [leafKey|]; [|by exec_inv He].
  apply exec_mbind in He as (t3 & t4 & leafDER & -> & (s2 & n2 & a2 & ->)%sign_exec & He).
  destruct leafDER as [leafDER|]; [|by exec_inv He].
  exec_inv He. destruct r as [keyDER|]; exec_inv He; [|done]. injection He as ->.
  by exists s1, n1, a1, s2, n2, a2, caKey, leafKey, caCert, caDER, leafDER, keyDER.
Qed.

(** The answer of a clock. *)
Definition clock (ev : event oresp) : option Z :=
  let 'existT c r := ev in
  match c as c return oresp c -> option Z with ONow => fun now => Some now | _ => fun _ => None end r.

(** What the clients of the metrics Service rely on: the certificate verifies
    under the CA of the bundle, and the key of the bundle is its own. *)
Lemma generate_verifies t0 tr b :
  exec (generateMetricsCert EncodePEM PublicKey) tr (Ok b) -> issued_since t0 tr ->
  CheckSignatureFrom (cb_cert b) (cb_ca b) = true /\ X509KeyPair (cb_cert b) (cb_key b) = true.
Proof.
  intros (s1 & n1 & a1 & s2 & n2 & a2 & caKey & leafKey & caCert & caDER & leafDER & keyDER & -> & ->)%generate_leaf.
  intros Hsince%since_Forall. rewrite !Forall_cons in Hsince. cbn [cb_cert cb_ca cb_key since] in *.
  destruct Hsince as (_ & _ & _ & _ & Hca & Hparse & _ & _ & _ & _ & Hleaf & Hkey & _).
  split; [|by eapply key_pair]. eapply check_signature; [exact Hca | done..| | exact Hleaf]. by eapply Hparse.
Qed.

(** The two signatures. *)
Lemma generate_signs tr b : exec (generateMetricsCert EncodePEM PublicKey) tr (Ok b) ->
  exists key ca caDER, cb_ca b = EncodePEM "CERTIFICATE" caDER /\
    existT (CParseCertificate caDER) (Ok ca) ∈ tr /\
    forall tpl parent pub priv r, existT (CCreateCertificate tpl parent pub priv) r ∈ tr ->
      priv = key /\ ((tp_IsCA tpl = true /\ parent = tpl /\ pub = PublicKey key)
                     \/ (tp_IsCA tpl = false /\ parent = ca)).
Proof.
  intros (s1 & n1 & a1 & s2 & n2 & a2 & caKey & leafKey & caCert & caDER & leafDER & keyDER & -> & ->)%generate_leaf.
  exists caKey, caCert, caDER. split; [done|]. split; [set_solver|].
  intros tpl parent pub priv x Hin. rewrite !elem_of_cons, elem_of_nil in Hin.
  assert (Hcreate : CCreateCertificate tpl parent pub priv = CCreateCertificate (ca_template s1 n1 a1) (ca_template s1 n1 a1) (PublicKey caKey) caKey
    \/ CCreateCertificate tpl parent pub priv = CCreateCertificate (leaf_template s2 n2 a2) caCert (PublicKey leafKey) caKey).
  { repeat destruct Hin as [Hin|Hin]; try (by apply (f_equal (@projT1 _ _)) in Hin; cbn in Hin; auto). done. }
  destruct Hcreate as [[= -> -> -> ->] | [= -> -> -> ->]]; by auto.
Qed.

(** How long the certificate is found usable. *)
Lemma generate_usable t0 tr b tr' now good :
  exec (generateMetricsCert EncodePEM PublicKey) tr (Ok b) -> issued_since t0 tr ->
  exec (metricsCertUsable (cb_cert b)) tr' good -> existT ONow now ∈ tr' ->
  (now <= t0 + metricsCertValidity - metricsCertRenewBefore - Second -> good = true) /\
  forall last, (forall t, existT CNow t ∈ tr -> t <= last) ->
     last + metricsCertValidity < now + metricsCertRenewBefore -> good = false.
Proof.
  intros (s1 & n1 & a1 & s2 & n2 & a2 & caKey & leafKey & caCert & caDER & leafDER & keyDER & -> & ->)%generate_leaf.
  intros Hsince%since_Forall He Hnow. rewrite !Forall_cons in Hsince. cbn [cb_cert cb_ca since] in *.
  destruct Hsince as (_ & _ & _ & _ & _ & _ & _ & _ & _ & Ha & Hleaf & _).
  destruct (issue_parses _ _ _ _ _ Hleaf) as (c & Hc & Hexp & Hdns). unfold leaf_template in Hexp, Hdns. cbn in Hexp, Hdns.
  unfold metricsCertUsable in He. rewrite Hc in He. exec_inv He.
  assert (Htr : tr = [] /\ good = (if NotAfter c <? r + metricsCertRenewBefore then false
                                   else VerifyHostname c metricsServiceDNS)).
  { destruct (_ <? _); by exec_inv He. }
  destruct Htr as [-> ->]. apply list_elem_of_singleton in Hnow.
  assert (now = r) as -> by (apply (f_equal clock) in Hnow; by injection Hnow).
  split.
  - intros Hle. rewrite (proj2 (Z.ltb_ge _ _)) by (unfold Second in *; lia).
    apply verify_listed. rewrite Hdns. apply list_elem_of_here.
  - intros last Hlast Hgt. rewrite (proj2 (Z.ltb_lt _ _)); [done|].
    assert (a2 <= last) by (apply Hlast; set_solver). lia.
Qed.

End Usable.

(** ** An issuer at time zero

    Certificates are named after their template, keys are numbered. *)
Definition toy_cert (der : string) : option Certificate :=
  if bool_decide (der = "leaf") then Some (MkCertificate metricsCertValidity metricsServiceDNSNames)
  else if bool_decide (der = "ca") then Some (MkCertificate metricsCertValidity []) else None.

Definition toy_x509 : X509Lib := {|
  ParseCertificatePEM := toy_cert;
  VerifyHostname := fun c h => bool_decide (h ∈ DNSNames c);
  AppendCertsFromPEM := fun s => bool_decide (is_Some (toy_cert s))
|}.

Definition toy_public (key : string) : string := "pub:" +:+ key.

(** The CA is over the public half of the key 0, signed by itself; the leaf is
    over that of the key 1, signed with the key 0. *)
Definition toy_issues (tpl parent : Template) (pub priv der : string) : Prop :=
  toy_cert der = Some (MkCertificate (tp_NotAfter tpl) (tp_DNSNames tpl)) /\ priv = "key0" /\
  (tp_IsCA tpl, pub, der) ∈ [(true, "pub:key0", "ca"); (false, "pub:key1", "leaf")] /\
  (tp_IsCA tpl = true -> tp_CommonName tpl = "scion-node-agent-metrics-ca").

Lemma toy_parses tpl parent pub priv der : toy_issues tpl parent pub priv der ->
  exists c, ParseCertificatePEM (X509Lib := toy_x509) der = Some c /\
    tp_NotAfter tpl - Second < NotAfter c <= tp_NotAfter tpl /\ DNSNames c = tp_DNSNames tpl.
Proof. intros [H _]. eexists. split; [exact H|]. unfold Second. cbn. split; [lia | done]. Qed.

Definition toy_check (child parent : string) : bool :=
  bool_decide ((child, parent) ∈ [("leaf", "ca"); ("ca", "ca")]).
Definition toy_pair (cert key : string) : bool :=
  bool_decide ((cert, key) ∈ [("leaf", "key1"); ("ca", "key0")]).

Lemma toy_check_signature ca above key by_ der tpl parent pub child :
  toy_issues ca above (toy_public key) by_ der ->
  tp_IsCA ca = true -> tp_BasicConstraintsValid ca = true -> tp_KeyUsage ca = "CertSign" ->
  tp_CommonName parent = tp_CommonName ca -> toy_issues tpl parent pub key child ->
  toy_check child der = true.
Proof.
  intros (_ & _ & Hd & _) Hca _ _ _ (_ & _ & Hc & _). rewrite Hca, !elem_of_cons, elem_of_nil in Hd.
  rewrite !elem_of_cons, elem_of_nil in Hc. naive_solver.
Qed.

Lemma toy_key_pair tpl parent key priv der keyDER :
  toy_issues tpl parent (toy_public key) priv der -> keyDER = key -> toy_pair der keyDER = true.
Proof.
  intros (_ & _ & Hd & _) ->. rewrite !elem_of_cons, elem_of_nil in Hd.
  destruct Hd as [Hd | [Hd | []]]; pose proof (f_equal snd Hd) as E; cbn in E; subst der;
    apply (f_equal (fun x => TrimPrefix (snd (fst x)) "pub:")) in Hd; cbn [fst snd] in Hd;
    unfold toy_public in Hd; rewrite TrimPrefix_app in Hd; subst key; reflexivity.
Qed.

Definition toy_issue : X509Issue toy_x509 := {|
  EncodePEM := fun _ der => der;
  PublicKey := toy_public;
  CheckSignatureFrom := toy_check;
  X509KeyPair := toy_pair;
  issues := toy_issues;
  marshals := fun key der => der = key;
  issue_parses := toy_parses;
  verify_listed := fun c h H => bool_decide_eq_true_2 _ H;
  check_signature := toy_check_signature;
  key_pair := toy_key_pair
|}.

Definition toy_issuer : handler cresp nat := fun c w =>
  match c as c return cresp c * nat with
  | CGenerateKey => (Ok (if bool_decide (w = 0%nat) then "key0" else "key1"), S w)
  | CNow => (0, w)
  | CCreateCertificate tpl _ _ _ => (Ok (if tp_IsCA tpl then "ca" else "leaf"), w)
  | CParseCertificate _ => (Ok (ca_template 0 0 0), w)
  | CMarshalECPrivateKey k => (Ok k, w)
  end.

Definition toy_generate : issuer (result CertBundle) := generateMetricsCert (fun _ der => der) toy_public.

Lemma toy_since : issued_since (X509Issue0 := toy_issue) 0 (trace_of cresp toy_issuer toy_generate 0%nat).
Proof.
  intros ev. match goal with |- ev ∈ ?t -> _ => let t' := eval vm_compute in t in change t with t' end.
  rewrite !elem_of_cons, elem_of_nil. intros Hev. repeat destruct Hev as [->|Hev]; try done; try (vm_compute; discriminate).
  - split_and!; [vm_compute; reflexivity | done | in_list | done].
  - cbn. intros tpl parent pub priv (_ & _ & H & Hn). rewrite !elem_of_cons, elem_of_nil in H. symmetry. naive_solver.
  - split_and!; [vm_compute; reflexivity | done | in_list | done].
Qed.

(** The API server is not asked for anything but the time. *)
Definition toy_clock (now : Z) : list (event oresp) := [existT ONow now].

