(* ===== verification/Controller.v ===== *)
(** * [scionnetwork_controller.go]: the reconciler

    [apply], [updateStatus], [discoverISDAS], [markApplyFailed], [finalize] and
    [Reconcile].  The resource the code mutates through its pointer is passed
    along explicitly. *)
From S2P Require Import Prelude Effects GoStrings Json Api K8s Render AgentEnv OperatorEnv.
From S2P Require Import DenyList Platform Backends RegistrarSync MetricsTLS.
Local Open Scope Z_scope.
Local Open Scope prog_scope.

Record ScionNetworkReconciler := MkReconciler { r_AgentImage : string; r_SCCAvail : bool }.

Definition registrarFinalizer : string := "scion.mkowalski.github.io/registrar-cleanup".
Definition deregistrationDeadline : Z := 10 * Minute.
Definition unreadyGracePeriod : Z := 5 * Minute.

(** [ctrl.Result]. *)
Record Result := MkResult { Requeue : bool; RequeueAfter : Z }.
Definition done_result : Result := MkResult false 0.
Definition requeue_now : Result := MkResult true 0.
Definition after (d : Z) : Result := MkResult false d.

(** ** Mutation functions of [apply] *)
Definition merge_labels (want : gmap string string) (o : KObj) : KObj :=
  let m := o_Meta o in
  MkObj (MkMeta (m_Name m) (m_Namespace m) (want ∪ m_Labels m) (m_Owner m)) (o_Payload o).

Definition mutate_namespace (o : KObj) : result KObj := Ok (merge_labels NamespaceLabels o).

Definition mutate_clusterrole (o : KObj) : result KObj := set_payload (PClusterRole ClusterRole_Rules) o.

(** Only the subjects: the role reference stays as it is. *)
Definition mutate_binding (o : KObj) : result KObj :=
  match o_Payload o with
  | PClusterRoleBinding ref _ => set_payload (PClusterRoleBinding ref ClusterRoleBinding_Subjects) o
  | _ => Ok o
  end.

Definition mutate_daemonset (want : KObj) (o : KObj) : result KObj :=
  Ok (MkObj (o_Meta (merge_labels (m_Labels (o_Meta want)) o)) (o_Payload want)).

(** Every field of the wanted SCC but its metadata. *)
Definition merge_scc (want have : gobj) : gobj :=
  foldl (fun acc '(k, v) => if bool_decide (k = "metadata") then acc else gset_field acc k v) have want.

Definition mutate_scc (o : KObj) : result KObj :=
  match o_Payload o with
  | PSCC have => set_payload (PSCC (merge_scc SCC_Object have)) o
  | _ => Ok o
  end.

Definition or_wrap (m : string) (p : oper (option gerror)) (k : oper (option gerror))
    : oper (option gerror) :=
  e ← p;
  match e with
  | Some err => Ret (Some (wrapf [Lit m] err))
  | None => k
  end.

(** ** Pods *)
Fixpoint podReady_conditions (cs : list PodCondition) : bool :=
  match cs with
  | [] => false
  | c :: cs' => if bool_decide (pc_Type c = "Ready") then bool_decide (pc_Status c = ConditionTrue)
                else podReady_conditions cs'
  end.

Definition podReady (p : Pod) : bool := podReady_conditions (p_Conditions p).

Fixpoint unreadySince_conditions (cs : list PodCondition) (created : Z) : Z :=
  match cs with
  | [] => created
  | c :: cs' => if bool_decide (pc_Type c = "Ready") then pc_LastTransitionTime c
                else unreadySince_conditions cs' created
  end.

Definition unreadySince (p : Pod) : Z := unreadySince_conditions (p_Conditions p) (p_CreationTimestamp p).

(** The loop of [updateStatus]: the ready count, an [int32], and the nodes of
    the pods unready beyond the grace period. *)
Fixpoint scan_pods (now : Z) (pods : list Pod) (ready : Z) (degraded : list string)
    : Z * list string :=
  match pods with
  | [] => (ready, degraded)
  | p :: pods' =>
      if podReady p then scan_pods now pods' (int32 (ready + 1)) degraded
      else if time_sub now (unreadySince p) <? unreadyGracePeriod
      then scan_pods now pods' ready degraded
      else
        let name := if bool_decide (p_NodeName p = "") then p_Name p else p_NodeName p in
        scan_pods now pods' ready (degraded ++ [name])
  end.

Definition agents_text (ready total : Z) : msg :=
  [Lit (itoa ready); Lit "/"; Lit (itoa total); Lit " node agents ready"].

Definition cond (t : string) (on : bool) (reason : string) (m : msg) (gen : Z) : Condition :=
  MkCondition t (if on then ConditionTrue else ConditionFalse) reason m gen.

Section Lib.
Context `{L : K8sLib} `{C : CtrlLib} `{X : X509Lib}.

Definition apply (r : ScionNetworkReconciler) (sn : ScionNetwork) (image : string)
    (forbidden : list string) (openshift : bool) : oper (option gerror) :=
  or_wrap "apply namespace: " (applyObjectNoOwner NamespaceObj mutate_namespace) (
  tls ← (if negb openshift then ensureMetricsTLS sn else Ret None);
  match tls with
  | Some err => Ret (Some err)
  | None =>
  or_wrap "apply serviceaccount: " (applyObject sn ServiceAccount (fun o => Ok o)) (
  or_wrap "apply clusterrole: " (applyObject sn ClusterRole mutate_clusterrole) (
  or_wrap "apply clusterrolebinding: " (applyObject sn ClusterRoleBinding mutate_binding) (
  let ds := DaemonSet sn image forbidden true in
  or_wrap "apply daemonset: " (applyObject sn ds (mutate_daemonset ds)) (
  if r_SCCAvail r
  then or_wrap "apply scc: " (applyObject sn SCC mutate_scc) (Ret None)
  else Ret None))))
  end).

Definition updateStatus (sn : ScionNetwork) (reg : RegistrarStatus) (regFailed : bool)
    (platform : podEgressPlatform) : oper (result bool) :=
  r ← call (OListPods Namespace "scion-node-agent");
  match r with
  | Err err => Ret (Err err)
  | Ok pods =>
      now ← call ONow;
      let '(ready, degraded) := scan_pods now pods 0 [] in
      let degraded := sort_strings degraded in
      d ← call (OGetDaemonSet Namespace "scion-node-agent");
      let '(dsCurrent, total) :=
        match d with
        | Ok ds => (ds_ObservedGeneration ds =? ds_Generation ds, ds_DesiredNumberScheduled ds)
        | Err _ => (false, int32 (Z.of_nat (length pods)))
        end in
      let agentsAvailable := (0 <? total) && (ready =? total) in
      let available := agentsAvailable && negb (bool_decide (pf_Status platform = ConditionFalse)) in
      let progressing := negb dsCurrent || (total =? 0) || (ready <? total) in
      let '(isDegraded, reason, degradedMsg) :=
        degradedReason (Z.of_nat (length degraded))
          [Lit "nodes unready for over 5m0s: "; Lit ("[" +:+ Join degraded " " +:+ "]")]
          platform regFailed (LastError reg) (Backend (Registrar (Spec sn))) in
      let gen := sn_Generation sn in
      let agentsMsg := agents_text ready total in
      let '(availableReason, availableMessage) :=
        if agentsAvailable && bool_decide (pf_Status platform = ConditionFalse)
        then (pf_Reason platform, pf_Message platform) else ("NodeAgents", agentsMsg) in
      let cs := Conditions (Status sn) in
      let cs := SetStatusCondition cs (cond "Available" available availableReason availableMessage gen) in
      let cs := SetStatusCondition cs (cond "Progressing" progressing "Rollout" agentsMsg gen) in
      let cs := SetStatusCondition cs (cond "Degraded" isDegraded reason degradedMsg gen) in
      let sn := with_status (MkStatus cs (ISDAS (Status sn)) (MkNodeSummary ready total degraded) reg) sn in
      u ← call (OUpdateStatus sn);
      match u with
      | Some err => Ret (Err err)
      | None => _ ← call (OGauge (if isDegraded then 1 else 0)); Ret (Ok available)
      end
  end.

Definition bootstrapLimit : nat := Z.to_nat (Z.shiftl 4 20).

(** [io.LimitReader] without the extra byte: a longer body is cut. *)
Definition limited_body (resp : HttpResp) : result string :=
  if Z.shiftl 4 20 <=? Z.of_nat (String.length (hr_body resp))
  then Ok (str_take bootstrapLimit (hr_body resp))
  else match hr_err resp with Some err => Err err | None => Ok (hr_body resp) end.

Definition discoverISDAS (sn : ScionNetwork) : oper ScionNetwork :=
  if negb (bool_decide (Mode (Bootstrap (Spec sn)) = "url"))
     || negb (bool_decide (ISDAS (Status sn) = "")) then Ret sn
  else
    let url := TrimRightByte 47 (DiscoveryURL (Bootstrap (Spec sn))) +:+ "/topology" in
    e ← call (ONewRequest "GET" url);
    match e with
    | Some _ => Ret sn
    | None =>
        r ← call (OHttp (MkHttpReq "GET" url [] "" None));
        match r with
        | Err _ => Ret sn
        | Ok resp =>
            if negb (hr_code resp =? 200) then Ret sn
            else match limited_body resp with
            | Err _ => Ret sn
            | Ok body =>
                match Unmarshal (decode_struct1 "isd_as") body with
                | Err _ => Ret sn
                | Ok ia => if bool_decide (ia = "") then Ret sn else Ret (with_isdas ia sn)
                end
            end
        end
    end.

Definition markApplyFailed (sn : ScionNetwork) (applyErr : gerror) : oper unit :=
  let c := MkCondition "Degraded" ConditionTrue "ApplyFailed" (e_msg applyErr) (sn_Generation sn) in
  let sn := with_conditions (SetStatusCondition (Conditions (Status sn)) c) sn in
  _ ← call (OUpdateStatus sn); Ret tt.

Definition release (sn : ScionNetwork) : oper (Result * option gerror) :=
  let sn := with_finalizers (RemoveFinalizer (sn_Finalizers sn) registrarFinalizer) sn in
  u ← call (OUpdateSN sn);
  match u with
  | Err err => Ret (done_result, Some err)
  | Ok _ => Ret (done_result, None)
  end.

Definition finalize (sn : ScionNetwork) (deletedAt : Z) : oper (Result * option gerror) :=
  if negb (ContainsFinalizer (sn_Finalizers sn) registrarFinalizer) then Ret (done_result, None)
  else
    b ← backendFor sn;
    match b with
    | Err _ => release sn
    | Ok backend =>
        e ← Ensure backend [];
        match e with
        | None => release sn
        | Some err =>
            if is_kind ENotImplemented err then release sn
            else
              now ← call ONow;
              if deregistrationDeadline <? time_sub now deletedAt then release sn
              else Ret (done_result, Some (wrapf [Lit "deregister SIGs: "] err))
        end
    end.

(** [Reconcile] once the finalizer is in place. *)
Definition reconcile_present (r : ScionNetworkReconciler) (sn : ScionNetwork)
    : oper (Result * option gerror) :=
  f ← clusterForbiddenCIDRs sn;
  match f with
  | Err err => _ ← markApplyFailed sn err; Ret (done_result, Some err)
  | Ok (forbidden, openshift) =>
      v ← validateNodeIPAdvertisement sn;
      match v with
      | Some err => _ ← markApplyFailed sn err; Ret (done_result, Some err)
      | None =>
          platform ← detectPodEgressPlatform;
          let image := if bool_decide (AgentImage (Spec sn) = "") then r_AgentImage r
                       else AgentImage (Spec sn) in
          a ← apply r sn image forbidden openshift;
          match a with
          | Some err => _ ← markApplyFailed sn err; Ret (done_result, Some err)
          | None =>
              '(regStatus, regFailed) ← syncRegistrar sn;
              sn ← discoverISDAS sn;
              u ← updateStatus sn regStatus regFailed platform;
              match u with
              | Err err => if is_kind EConflict err then Ret (requeue_now, None)
                           else Ret (done_result, Some err)
              | Ok available =>
                  if (regFailed : bool) then Ret (after Minute, None)
                  else if negb available then Ret (after (30 * Second), None)
                  else if negb (bool_decide (pf_Status platform = ConditionTrue))
                  then Ret (after (5 * Minute), None)
                  else Ret (done_result, None)
              end
          end
      end
  end.

Definition Reconcile (r : ScionNetworkReconciler) (name : string) : oper (Result * option gerror) :=
  g ← call (OGetSN name);
  match g with
  | Err err => Ret (done_result, if is_kind ENotFound err then None else Some err)
  | Ok sn =>
      match sn_DeletionTimestamp sn with
      | Some t => finalize sn t
      | None =>
          if negb (ContainsFinalizer (sn_Finalizers sn) registrarFinalizer) then
            u ← call (OUpdateSN (with_finalizers (AddFinalizer (sn_Finalizers sn) registrarFinalizer) sn));
            match u with
            | Err err => Ret (done_result, Some err)
            | Ok sn => reconcile_present r sn
            end
          else reconcile_present r sn
      end
  end.

End Lib.
