(* ===== verification/OperatorMain.v ===== *)
(** * [cmd/operator] and [SetupWithManager]

    The set-up of the operator: the calls into client-go and controller-runtime
    are commands, [main] ends with its exit status. *)
From S2P Require Import Prelude Effects GoStrings Api K8s Render Config Controller.
Local Open Scope Z_scope.
Local Open Scope prog_scope.

(** [ctrl.Options]: the namespaces to which the cache of a kind is restricted. *)
Record ManagerOptions := MkManagerOptions {
  mo_MetricsBindAddress : string;
  mo_HealthProbeBindAddress : string;
  mo_LeaderElection : bool;
  mo_LeaderElectionID : string;
  mo_CacheByObject : list (string * list string)
}.

Definition manager_options : ManagerOptions :=
  MkManagerOptions ":8080" ":8081" true "scion-operator-leader"
    [("Secret", [Namespace]); ("ConfigMap", [Namespace])].

(** The sources of reconcile requests: the resource itself, owned objects, and
    kinds every event of which enqueues the request of [enqueueCluster]. *)
Inductive Watch :=
| For (kind : string)
| Owns (kind : string)
| Watches (group version kind : string) (request : string).

Inductive mcmd :=
| MAddToScheme (package : string)
| MGetConfig
| MDiscoveryClient
| MServerResources (groupVersion : string)
| MNewManager (o : ManagerOptions)
| MAddHealthz (name : string)
| MAddReadyz (name : string)
| MRESTMapping (group version kind : string)
| MComplete (watches : list Watch) (r : ScionNetworkReconciler)
| MStart.

Definition mresp (_ : mcmd) : Type := option gerror.
Abbreviation setup := (prog mresp).

(** ** [SetupWithManager] *)
Definition enqueueCluster : string := "cluster".

Definition optionalWatch (group version kind : string) : setup (list Watch) :=
  e ← call (MRESTMapping group version kind);
  match e with
  | Some _ => Ret []
  | None => Ret [Watches group version kind enqueueCluster]
  end.

Definition SetupWithManager (r : ScionNetworkReconciler) : setup (option gerror) :=
  let builder := [For "ScionNetwork"; Owns "DaemonSet"; Watches "" "v1" "Node" enqueueCluster] in
  w1 ← optionalWatch "operator.openshift.io" "v1" "Network";
  w2 ← optionalWatch "k8s.ovn.org" "v1" "RouteAdvertisements";
  call (MComplete (builder ++ w1 ++ w2) r).

(** ** [main] *)
Definition exit1 : setup Z := Ret 1.

(** Whether the API server knows the SCC group; any failure counts as no. *)
Definition scc_available : setup bool :=
  e ← call MDiscoveryClient;
  match e with
  | Some _ => Ret false
  | None => e ← call (MServerResources "security.openshift.io/v1"); Ret (bool_decide (e = None))
  end.

(** With the manager created. *)
Definition start_manager (r : ScionNetworkReconciler) : setup Z :=
  e ← call (MAddHealthz "healthz");
  match e with
  | Some _ => exit1
  | None =>
      e ← call (MAddReadyz "readyz");
      match e with
      | Some _ => exit1
      | None =>
          e ← SetupWithManager r;
          match e with
          | Some _ => exit1
          | None => e ← call MStart; match e with Some _ => exit1 | None => Ret 0 end
          end
      end
  end.

Definition operator_main (env : environ) : setup Z :=
  let agentImage := env "AGENT_IMAGE" in
  if bool_decide (agentImage = "") then exit1
  else
    e ← call (MAddToScheme "client-go");
    match e with
    | Some _ => exit1
    | None =>
        e ← call (MAddToScheme "v1alpha1");
        match e with
        | Some _ => exit1
        | None =>
            e ← call MGetConfig;
            match e with
            | Some _ => exit1
            | None =>
                sccAvail ← scc_available;
                e ← call (MNewManager manager_options);
                match e with
                | Some _ => exit1
                | None => start_manager (MkReconciler agentImage sccAvail)
                end
            end
        end
    end.

(** ** What the running operator was set up with *)
Lemma SetupWithManager_watches r tr e : exec (SetupWithManager r) tr e ->
  exists ws t, tr = t ++ [existT (MComplete ws r) e] /\
    For "ScionNetwork" ∈ ws /\ Owns "DaemonSet" ∈ ws /\ Watches "" "v1" "Node" enqueueCluster ∈ ws /\
    (forall g v k, existT (MRESTMapping g v k) None ∈ t -> Watches g v k enqueueCluster ∈ ws).
Proof.
  unfold SetupWithManager, optionalWatch. intros (t1 & t2 & w1 & -> & H1 & He)%exec_mbind.
  apply exec_mbind in He as (t3 & t4 & w2 & -> & H2 & He).
  apply (exec_call (resp := mresp) (MComplete _ _)) in He as ->.
  eexists _, (t1 ++ t3). split; [by rewrite <- app_assoc|].
  split; [apply list_elem_of_here|]. split; [apply list_elem_of_further, list_elem_of_here|].
  split; [do 2 apply list_elem_of_further; apply list_elem_of_here|].
  intros g v k Hin. do 3 apply list_elem_of_further. apply elem_of_app.
  exec_inv H1. exec_inv H2.
  destruct r0; exec_inv H1; destruct r1; exec_inv H2; subst; cbn in Hin;
    rewrite !elem_of_cons, elem_of_nil in Hin; destruct Hin as [Hin|[Hin|[]]];
    inversion Hin; subst; first [left; apply list_elem_of_here | right; apply list_elem_of_here].
Qed.

Definition is_MStart (c : mcmd) : bool := match c with MStart => true | _ => false end.
Definition starts (tr : list (event mresp)) : bool := existsb (fun ev => is_MStart (projT1 ev)) tr.

Lemma starts_app t1 t2 : starts (t1 ++ t2) = starts t1 || starts t2.
Proof. apply existsb_app. Qed.

Lemma only_starts {A} (p : setup A) tr a : only (fun c => negb (is_MStart c)) p -> exec p tr a -> starts tr = false.
Proof.
  intros Hp He. pose proof (only_exec _ _ _ _ _ Hp He) as H. clear Hp He.
  induction tr as [|[c r] tr IH]; [done|]. cbn [forallb] in H. apply andb_prop in H as [Hc Ht].
  unfold starts in *. cbn [existsb projT1] in *. rewrite (IH Ht). by apply negb_true_iff in Hc as ->.
Qed.

Lemma scc_available_exec tr b : exec scc_available tr b ->
  starts tr = false /\
  (b = true <-> tr = [existT MDiscoveryClient None; existT (MServerResources "security.openshift.io/v1") None]).
Proof.
  unfold scc_available. intros He. exec_inv He. destruct r as [err|].
  - exec_inv He. subst. split; [done|]. split; [done|]. by intros [=].
  - exec_inv He. subst. split; [done|]. destruct r as [err|]; cbn; by split.
Qed.

Lemma start_manager_exec r tr code : exec (start_manager r) tr code -> starts tr = true ->
  exists ws, existT (MComplete ws r) None ∈ tr.
Proof.
  unfold start_manager, exit1. intros He Hs. exec_inv He. destruct r0; [by exec_inv He|].
  exec_inv He. destruct r0; [by exec_inv He|].
  apply exec_mbind in He as (t1 & t2 & e & -> & H1 & He).
  assert (Hn : starts t1 = false).
  { revert H1. apply only_starts. unfold SetupWithManager, optionalWatch. only_steps. }
  destruct e; [exec_inv He; unfold starts in *; cbn in Hs; rewrite app_nil_r in Hs; congruence|].
  destruct (SetupWithManager_watches _ _ _ H1) as (ws & t & -> & _). exists ws.
  do 2 apply list_elem_of_further. rewrite !elem_of_app. left. right. apply list_elem_of_here.
Qed.

(** The manager is started only with an agent image configured and the
    controller registered for it; the SCC is managed exactly when both discovery
    calls succeeded. *)
Lemma operator_main_start env tr code : exec (operator_main env) tr code -> starts tr = true ->
  env "AGENT_IMAGE" <> "" /\ exists t1 t2 t3 scc ws, tr = t1 ++ t2 ++ t3 /\ exec scc_available t2 scc /\
    (scc = true <-> t2 = [existT MDiscoveryClient None; existT (MServerResources "security.openshift.io/v1") None]) /\
    existT (MComplete ws (MkReconciler (env "AGENT_IMAGE") scc)) None ∈ t3.
Proof.
  unfold operator_main, exit1. intros He Hs. case_bool_decide as E; [by exec_inv He|]. split; [done|].
  exec_inv He. destruct r; [by exec_inv He|]. exec_inv He. destruct r; [by exec_inv He|].
  exec_inv He. destruct r; [by exec_inv He|].
  apply exec_mbind in He as (t2 & t3 & scc & -> & H2 & He). destruct (scc_available_exec _ _ H2) as [Hn Hiff].
  exec_inv He. change (starts (t2 ++ existT (MNewManager manager_options) r :: tr) = true) in Hs.
  rewrite starts_app, Hn in Hs. change (starts tr = true) in Hs.
  destruct r as [err|]; [by exec_inv He|].
  destruct (start_manager_exec _ _ _ He Hs) as [ws Hws].
  exists [existT (MAddToScheme "client-go") None; existT (MAddToScheme "v1alpha1") None; existT MGetConfig None],
    t2, (existT (MNewManager manager_options) None :: tr), scc, ws.
  split; [done|]. split; [done|]. split; [done|]. by apply list_elem_of_further.
Qed.
