(* ===== verification/ClusterStore.v ===== *)
(** * The objects in the cluster under the operator's writes

    [os_step] gives [CreateOrUpdate] its meaning on a store of objects; the
    theorem says what [apply] leaves in the store, and that it is a fixed point. *)
From S2P Require Import Prelude Effects GoStrings Api K8s Render AgentEnv OperatorEnv OperatorSim.
From S2P Require Import Platform Backends RegistrarSync MetricsTLS Controller.
Local Open Scope Z_scope.

Abbreviation objects := (gmap string KObj).

(** [controllerutil.CreateOrUpdate] mutates the object it finds, or the one it was
    given, and writes the result; on an error nothing is written. *)
Definition os_step (st : objects) (ev : event oresp) (st' : objects) : Prop :=
  let 'existT c r := ev in
  match c as c return oresp c -> Prop with
  | OCreateOrUpdate obj mutate => fun r =>
      match r with
      | None => exists o, mutate (default obj (st !! key_of obj)) = Ok o /\ st' = <[key_of obj := o]> st
      | Some _ => st' = st
      end
  | _ => fun _ => st' = st
  end r.

Fixpoint os_run (st : objects) (tr : list (event oresp)) (st' : objects) : Prop :=
  match tr with
  | [] => st' = st
  | ev :: tr' => exists st1, os_step st ev st1 /\ os_run st1 tr' st'
  end.

Lemma os_run_app st t1 t2 st' : os_run st (t1 ++ t2) st' <-> exists st1, os_run st t1 st1 /\ os_run st1 t2 st'.
Proof.
  revert st. induction t1 as [|ev t1 IH]; intros st; cbn.
  - split; [by exists st | by intros (? & -> & ?)].
  - setoid_rewrite IH. naive_solver.
Qed.

(** The simulated cluster follows it. *)
Lemma osim_step c w : os_step (w_objects w) (existT c (fst (osim c w))) (w_objects (snd (osim c w))).
Proof.
  destruct c; cbn; repeat case_match; cbn in *; simplify_eq/=; try done. by eexists.
Qed.

Lemma osim_run {A} (p : oper A) w : os_run (w_objects w) (trace_of oresp osim p w) (w_objects (state_of oresp osim p w)).
Proof.
  unfold trace_of, state_of. revert w. induction p as [a | c k IH]; intros w; cbn; [done|].
  pose proof (osim_step c w) as Hs. destruct (osim c w) as [r w']. specialize (IH r w').
  destruct (run osim (k r) w') as [[a w''] tr]. by exists (w_objects w').
Qed.

(** ** Objects that are applied *)

(** An object and how it is mutated. *)
Abbreviation want := (KObj * (KObj -> result KObj))%type.

Definition written (x : want) : event oresp := existT (OCreateOrUpdate (fst x) (snd x)) None.
Definition want_key (x : want) : string := key_of (fst x).

(** Mutating the outcome again changes nothing. *)
Definition settles (mutate : KObj -> result KObj) : Prop := forall o o', mutate o = Ok o' -> mutate o' = Ok o'.

(** [x] is in the store as its mutation leaves it. *)
Definition in_place (st : objects) (x : want) : Prop :=
  exists o o', snd x o = Ok o' /\ st !! want_key x = Some o'.

Lemma written_frame st l st' : os_run st (map written l) st' ->
  forall k, k ∉ map want_key l -> st' !! k = st !! k.
Proof.
  revert st. induction l as [|x l IH]; intros st; cbn; [by intros -> k|].
  intros (st1 & (o & _ & ->) & Hr) k Hk. rewrite (IH _ Hr) by set_solver.
  apply lookup_insert_ne. unfold want_key in *. set_solver.
Qed.

(** [x] is in [st'] as its mutation leaves what [st] held. *)
Definition applied_from (st st' : objects) (x : want) : Prop :=
  exists o, snd x (default (fst x) (st !! want_key x)) = Ok o /\ st' !! want_key x = Some o.

Lemma applied_in_place st st' x : applied_from st st' x -> in_place st' x.
Proof. intros (o & Ho & Hl). by eexists _, o. Qed.

Lemma applied_frame st1 st2 st1' st2' x : st1 !! want_key x = st2 !! want_key x ->
  st1' !! want_key x = st2' !! want_key x -> applied_from st1 st1' x -> applied_from st2 st2' x.
Proof. unfold applied_from. by intros -> ->. Qed.

Lemma written_applied st l st' : NoDup (map want_key l) -> os_run st (map written l) st' ->
  Forall (applied_from st st') l.
Proof.
  revert st. induction l as [|x l IH]; intros st Hn; cbn; [constructor|].
  apply NoDup_cons in Hn as [Hx Hn]. intros (st1 & (o & Ho & ->) & Hr). constructor.
  - exists o. split; [exact Ho|]. rewrite (written_frame _ _ _ Hr) by done. apply lookup_insert_eq.
  - apply Forall_forall. intros y Hy. pose proof (proj1 (Forall_forall _ _) (IH _ Hn Hr) y Hy) as Hp.
    eapply applied_frame; [|done|exact Hp]. apply lookup_insert_ne. change (want_key x <> want_key y). intros E. apply Hx. rewrite E.
    by apply (list_elem_of_fmap_2 want_key).
Qed.

(** Writing what is in place leaves the store as it is. *)
Lemma written_again st l st' : Forall (fun x => settles (snd x)) l -> Forall (in_place st) l ->
  os_run st (map written l) st' -> st' = st.
Proof.
  intros Hs. induction 1 as [|x l (o & o' & Ho & Hl) _ IH]; cbn; [done|].
  inversion Hs as [|? ? Hx Hs']; subst.
  intros (st1 & (o2 & Ho2 & ->) & Hr). unfold want_key in Hl. rewrite Hl in Ho2. cbn in Ho2.
  rewrite (Hx _ _ Ho) in Ho2. injection Ho2 as <-. rewrite insert_id in Hr by done. auto.
Qed.

(** ** The mutations of [apply] *)
Section Mutations.
Context `{C : CtrlLib} `{!CtrlLaws C}.

Definition owned (sn : ScionNetwork) (mutate : KObj -> result KObj) (o : KObj) : result KObj :=
  o' ← SetControllerReference sn o; mutate o'.

(** A mutation that leaves the metadata to the labels alone. *)
Definition keeps_owner (mutate : KObj -> result KObj) : Prop :=
  forall o o', mutate o = Ok o' -> m_Owner (o_Meta o') = m_Owner (o_Meta o).

Lemma controlled sn o o' : SetControllerReference sn o = Ok o' -> m_Owner (o_Meta o') = Some (sn_UID sn).
Proof.
  intros H. destruct (m_Owner (o_Meta o)) as [uid|] eqn:E.
  - destruct (decide (uid = sn_UID sn)) as [->|Hne].
    + rewrite set_controller_own in H by done. by injection H as <-.
    + pose proof (set_controller_other sn o uid E Hne) as Ho. by rewrite H in Ho.
  - rewrite set_controller_free in H by done. by injection H as <-.
Qed.

Lemma owned_owner sn mutate o o' : keeps_owner mutate -> owned sn mutate o = Ok o' ->
  m_Owner (o_Meta o') = Some (sn_UID sn).
Proof.
  intros Hk (o1 & H1 & H2)%bind_Ok. rewrite (Hk _ _ H2). by eapply controlled.
Qed.

Lemma owned_settles sn mutate : keeps_owner mutate -> settles mutate -> settles (owned sn mutate).
Proof.
  intros Hk Hs o o' H. pose proof (owned_owner _ _ _ _ Hk H) as Ho.
  apply bind_Ok in H as (o1 & _ & H2). unfold owned. rewrite set_controller_own by done. cbn. by eapply Hs.
Qed.
End Mutations.

Lemma mutate_namespace_settles : settles mutate_namespace.
Proof.
  intros o o' [= <-]. unfold mutate_namespace, merge_labels. cbn. by rewrite (assoc_L (∪)), (idemp_L (∪)).
Qed.

Lemma set_payload_settles p : settles (set_payload p).
Proof. by intros o o' [= <-]. Qed.

Lemma mutate_binding_settles : settles mutate_binding.
Proof. intros [m p] o'. unfold mutate_binding. destruct p; cbn; by intros [= <-]. Qed.

Lemma mutate_daemonset_settles w : settles (mutate_daemonset w).
Proof.
  intros o o' [= <-]. unfold mutate_daemonset, merge_labels. cbn. by rewrite (assoc_L (∪)), (idemp_L (∪)).
Qed.

(** Field by field. *)
Fixpoint gfield (m : gobj) (k : string) : option gval :=
  match m with
  | [] => None
  | (k', v) :: m' => if bool_decide (k = k') then Some v else gfield m' k
  end.

Lemma gfield_set m k v k' : gfield (gset_field m k v) k' = if bool_decide (k' = k) then Some v else gfield m k'.
Proof.
  induction m as [|[k2 v2] m IH]; cbn; [done|].
  destruct (bool_decide (k = k2)) eqn:E; cbn; [|rewrite IH]; repeat case_bool_decide; naive_solver.
Qed.

Lemma gset_field_same m k v : gfield m k = Some v -> gset_field m k v = m.
Proof.
  induction m as [|[k2 v2] m IH]; cbn; [done|]. destruct (bool_decide (k = k2)) eqn:E.
  - apply bool_decide_eq_true in E as ->. by intros [= ->].
  - intros H. by rewrite IH.
Qed.

Lemma merge_scc_field w m k : NoDup w.*1 -> k <> "metadata" ->
  gfield (merge_scc w m) k = match gfield w k with Some v => Some v | None => gfield m k end.
Proof.
  unfold merge_scc. revert m. induction w as [|[k2 v2] w IH]; intros m Hn Hk; cbn; [done|].
  apply NoDup_cons in Hn as [Hk2 Hn].
  assert (Hout : forall x, x ∉ w.*1 -> gfield w x = None).
  { clear. induction w as [|[k v] w IH]; intros x; cbn; [done|].
    intros [Hx Hw]%not_elem_of_cons. rewrite bool_decide_eq_false_2 by done. auto. }
  destruct (bool_decide (k2 = "metadata")) eqn:E; rewrite IH by done.
  - apply bool_decide_eq_true in E as ->. by rewrite (bool_decide_eq_false_2 (k = _)) by done.
  - rewrite gfield_set. destruct (decide (k = k2)) as [->|Hne].
    + rewrite !bool_decide_eq_true_2 by done. by rewrite Hout.
    + by rewrite !(bool_decide_eq_false_2 (k = k2)) by done.
Qed.

Lemma merge_scc_same w m : (forall k v, (k, v) ∈ w -> k <> "metadata" -> gfield m k = Some v) -> merge_scc w m = m.
Proof.
  unfold merge_scc. induction w as [|[k v] w IH]; intros Hw; cbn; [done|].
  case_bool_decide as E; [apply IH; intros; apply Hw; [by right | done]|].
  rewrite gset_field_same by (apply Hw; [by left | done]). apply IH. intros; apply Hw; [by right | done].
Qed.

Lemma gfield_in w k v : NoDup w.*1 -> (k, v) ∈ w -> gfield w k = Some v.
Proof.
  induction w as [|[k2 v2] w IH]; cbn; [by intros _ ?%elem_of_nil|].
  intros [Hk Hn]%NoDup_cons [[= -> ->] | Hin]%elem_of_cons; [by rewrite bool_decide_eq_true_2|].
  rewrite bool_decide_eq_false_2; [auto|]. intros ->. apply Hk. apply list_elem_of_fmap. by exists (k2, v).
Qed.

Fixpoint distinct (l : list string) : bool :=
  match l with [] => true | x :: l' => negb (existsb (String.eqb x) l') && distinct l' end.

Lemma distinct_NoDup l : distinct l = true -> NoDup l.
Proof.
  induction l as [|x l IH]; cbn; [constructor|]. intros [Hx%negb_true_iff Hl]%andb_prop.
  constructor; [|auto]. intros Hin. rewrite existsb_false in Hx. specialize (Hx x Hin). by rewrite String.eqb_refl in Hx.
Qed.

Lemma mutate_scc_settles : settles mutate_scc.
Proof.
  assert (Hn : NoDup SCC_Object.*1) by (apply distinct_NoDup; vm_compute; reflexivity).
  unfold settles, mutate_scc. revert Hn. generalize SCC_Object as w. intros w Hn [m p] o'. cbn [o_Payload].
  destruct p as [ | | | | |have| | ].
  6:{ unfold set_payload. intros H. injection H as <-. cbn [o_Payload o_Meta]. rewrite merge_scc_same; [reflexivity|].
      intros k v Hin Hk. rewrite merge_scc_field by assumption. by rewrite (gfield_in _ _ _ Hn Hin). }
  all: intros H; injection H as <-; reflexivity.
Qed.

Lemma mutate_scc_owner : keeps_owner mutate_scc.
Proof. unfold keeps_owner, mutate_scc. generalize SCC_Object. intros w [m p] o'. destruct p; by intros [= <-]. Qed.

(** ** [apply] *)
Section Apply.
Context `{L : K8sLib} `{C : CtrlLib} `{!CtrlLaws C} `{X : X509Lib}.

(** What is applied after the namespace and the metrics certificate, in order. *)
Definition wanted (r : ScionNetworkReconciler) (sn : ScionNetwork) (image : string) (deny : list string) : list want :=
  let ds := DaemonSet sn image deny true in
  [(ServiceAccount, owned sn (fun o => Ok o)); (ClusterRole, owned sn mutate_clusterrole);
   (ClusterRoleBinding, owned sn mutate_binding); (ds, owned sn (mutate_daemonset ds))]
  ++ (if r_SCCAvail r then [(SCC, owned sn mutate_scc)] else []).

Definition namespace_want : want := (NamespaceObj, mutate_namespace).

(** The objects of the metrics certificate. *)
Definition metrics_keys : list string :=
  [key "Secret" Namespace metricsTLSSecret; key "ConfigMap" Namespace metricsCAConfigMap].

Definition metrics_cmd (c : ocmd) : bool :=
  match c with OCreateOrUpdate obj _ => existsb (String.eqb (key_of obj)) metrics_keys | _ => true end.

Lemma metrics_frame (st st' : objects) tr : forallb (fun ev => metrics_cmd (projT1 ev)) tr = true -> os_run st tr st' ->
  forall k, k ∉ metrics_keys -> st' !! k = st !! k.
Proof.
  revert st. induction tr as [|[c r] tr IH]; intros st; cbn [forallb os_run]; [by intros _ -> k|].
  intros [Hc Ht]%andb_prop (st1 & Hs & Hr) k Hk. rewrite (IH _ Ht Hr k Hk).
  destruct c; cbn in Hs; try (by rewrite Hs). destruct r; [by rewrite Hs|]. destruct Hs as (o & _ & ->).
  apply lookup_insert_ne. intros <-. apply Hk. cbn [metrics_cmd projT1] in Hc.
  apply existsb_spec in Hc as (x & Hx & ->%String.eqb_eq). done.
Qed.

Lemma ensureMetricsTLS_only sn : only (resp := oresp) metrics_cmd (ensureMetricsTLS sn).
Proof.
  unfold ensureMetricsTLS, metricsCertUsable, applyObject. only_steps.
Qed.

Lemma apply_exec r sn image deny openshift tr : exec (apply r sn image deny openshift) tr None ->
  exists t, tr = written namespace_want :: t ++ map written (wanted r sn image deny) /\
    (if openshift then t = [] else exec (ensureMetricsTLS sn) t None) /\
    forallb (fun ev => metrics_cmd (projT1 ev)) t = true.
Proof.
  unfold apply, or_wrap, applyObjectNoOwner, applyObject. intros He.
  exec_inv He. destruct r0 as [err|]; [by exec_inv He|].
  apply exec_mbind in He as (t & t2 & [err|] & -> & Ht & He); [by exec_inv He|].
  exists t. split.
  - cbn iota in He. do 4 (exec_inv He; destruct r0 as [err|]; [by exec_inv He|]; cbn iota in He).
    unfold wanted. destruct (r_SCCAvail r).
    + exec_inv He. destruct r0 as [err|]; [by exec_inv He|]. by exec_inv He.
    + by exec_inv He.
  - destruct openshift; cbn [negb] in Ht; [by exec_inv Ht|]. split; [done|].
    apply (only_exec oresp metrics_cmd _ _ _ (ensureMetricsTLS_only sn) Ht).
Qed.

Lemma wanted_settles r sn image deny : Forall (fun x => settles (snd x)) (namespace_want :: wanted r sn image deny).
Proof.
  constructor; [apply mutate_namespace_settles|]. unfold wanted. apply Forall_app. split.
  - repeat constructor; apply owned_settles; try (by intros ?? [= <-]);
      auto using set_payload_settles, mutate_binding_settles, mutate_daemonset_settles.
    intros [m p] o'. unfold mutate_binding. destruct p; by intros [= <-].
  - destruct (r_SCCAvail r); repeat constructor. apply owned_settles; [apply mutate_scc_owner | apply mutate_scc_settles].
Qed.

Lemma wanted_owner r sn image deny x o o' : x ∈ wanted r sn image deny -> snd x o = Ok o' ->
  m_Owner (o_Meta o') = Some (sn_UID sn).
Proof.
  unfold wanted. intros [Hx|Hx]%elem_of_app.
  - repeat (apply elem_of_cons in Hx as [->|Hx]; [cbn [snd]; apply owned_owner|]); [by intros ?? [= <-].. | | |].
    + intros [m p] q. unfold mutate_binding. destruct p; by intros [= <-].
    + by intros ?? [= <-].
    + by apply elem_of_nil in Hx.
  - destruct (r_SCCAvail r); [|by apply elem_of_nil in Hx].
    apply list_elem_of_singleton in Hx as ->. apply owned_owner, mutate_scc_owner.
Qed.

(** The keys of everything that is applied differ. *)
Lemma wanted_keys r sn image deny :
  map want_key (wanted r sn image deny)
  = [key "ServiceAccount" Namespace agentName; key "ClusterRole" "" agentName; key "ClusterRoleBinding" "" agentName;
     key "DaemonSet" Namespace agentName] ++ (if r_SCCAvail r then [key "SCC" "" agentName] else []).
Proof.
  unfold wanted. rewrite map_app. cbn [map]. f_equal; [|by destruct (r_SCCAvail r)].
  unfold want_key at 4. unfold DaemonSet. cbn [fst]. by destruct (SecretRef _).
Qed.

Lemma all_keys_distinct r sn image deny :
  NoDup (map want_key (namespace_want :: wanted r sn image deny)) /\
  forall k, k ∈ metrics_keys -> k ∉ map want_key (namespace_want :: wanted r sn image deny).
Proof.
  cbn [map]. rewrite wanted_keys. split.
  - apply distinct_NoDup. destruct (r_SCCAvail r); vm_compute; reflexivity.
  - intros k Hk Hin. unfold metrics_keys in Hk. rewrite !elem_of_cons, elem_of_nil in Hk.
    rewrite elem_of_cons, elem_of_app, !elem_of_cons, elem_of_nil in Hin.
    assert (Hs : k ∈ (if r_SCCAvail r then [key "SCC" "" agentName] else []) -> k = key "SCC" "" agentName)
      by (destruct (r_SCCAvail r); set_solver).
    naive_solver.
Qed.

(** A run of [apply] on the store: everything wanted is applied, with the
    certificate in between. *)
Lemma apply_run r sn image deny openshift tr (st st' : objects) :
  exec (apply r sn image deny openshift) tr None -> os_run st tr st' ->
  Forall (applied_from st st') (namespace_want :: wanted r sn image deny) /\
  (forall k, k ∉ metrics_keys -> k ∉ map want_key (namespace_want :: wanted r sn image deny) -> st' !! k = st !! k) /\
  (Forall (in_place st) (namespace_want :: wanted r sn image deny) -> forall k, k ∉ metrics_keys -> st' !! k = st !! k).
Proof.
  intros (t & -> & _ & Ht)%apply_exec. destruct (all_keys_distinct r sn image deny) as [Hn Hm].
  intros (st1 & H1 & (st2 & H2 & H3)%os_run_app).
  assert (R1 : os_run st (map written [namespace_want]) st1) by (by exists st1).
  pose proof (metrics_frame _ _ _ Ht H2) as Hf. cbn [map] in Hn, Hm. apply NoDup_cons in Hn as [Hns Hn].
  assert (Hm' : forall x, x ∈ namespace_want :: wanted r sn image deny -> want_key x ∉ metrics_keys).
  { intros x Hx H. eapply Hm; [exact H|]. by apply (list_elem_of_fmap_2 want_key _ _ Hx). }
  split; [|split].
  - constructor.
    + pose proof (written_applied _ [namespace_want] _ (NoDup_singleton _) R1) as [Hp _]%Forall_cons.
      eapply applied_frame; [done | | exact Hp]. rewrite (written_frame _ _ _ H3), Hf by (done || apply Hm'; by left). done.
    + apply Forall_forall. intros x Hx. pose proof (proj1 (Forall_forall _ _) (written_applied _ _ _ Hn H3) x Hx) as Hp.
      eapply applied_frame; [|done|exact Hp]. rewrite Hf by (apply Hm'; by right).
      apply (written_frame _ [namespace_want] _ R1). intros Heq%list_elem_of_singleton. apply Hns.
      change (want_key namespace_want ∈ map want_key (wanted r sn image deny)). change (want_key x = want_key namespace_want) in Heq.
      rewrite <- Heq. by apply (list_elem_of_fmap_2 want_key _ _ Hx).
  - intros k Hk1 [Hk2 Hk3]%not_elem_of_cons. rewrite (written_frame _ _ _ H3), Hf by done.
    apply (written_frame _ [namespace_want] _ R1). set_solver.
  - intros Hp k Hk. pose proof (wanted_settles r sn image deny) as Hs.
    inversion Hp as [|? ? Hp1 Hp2]; inversion Hs as [|? ? Hs1 Hs2]; subst.
    assert (st1 = st) as -> by (eapply written_again; [| |exact R1]; by repeat constructor).
    rewrite <- (Hf k Hk). f_equal. eapply written_again; [exact Hs2 | | exact H3].
    apply Forall_forall. intros x Hx. destruct (proj1 (Forall_forall _ _) Hp2 x Hx) as (o & o' & Ho & Hl).
    exists o, o'. split; [done|]. rewrite Hf; [done|]. apply Hm'. by right.
Qed.

(** ** The metrics certificate in the store *)

(** It was read, and is good for its Service for another thirty days. *)
Definition cert_kept (tr : list (event oresp)) : Prop := exists data cert now,
  existT (OGetSecret Namespace metricsTLSSecret) (Ok data) ∈ tr /\ existT ONow now ∈ tr /\
  ParseCertificatePEM (default "" (data !! "tls.crt")) = Some cert /\
  now + metricsCertRenewBefore <= NotAfter cert /\ VerifyHostname cert metricsServiceDNS = true.

(** It was generated, and is in the Secret, its CA in the ConfigMap. *)
Definition cert_renewed (sn : ScionNetwork) (tr : list (event oresp)) (st' : objects) : Prop := exists b secret cm,
  existT OGenerateCert (Ok b) ∈ tr /\
  st' !! key "Secret" Namespace metricsTLSSecret = Some secret /\
  o_Payload secret = PSecret "kubernetes.io/tls" (tls_data b) /\ m_Owner (o_Meta secret) = Some (sn_UID sn) /\
  st' !! key "ConfigMap" Namespace metricsCAConfigMap = Some cm /\
  o_Payload cm = PConfigMap {["ca.crt" := cb_ca b]} /\ m_Owner (o_Meta cm) = Some (sn_UID sn).

Lemma applied_payload sn p o o' : owned sn (set_payload p) o = Ok o' ->
  o_Payload o' = p /\ m_Owner (o_Meta o') = Some (sn_UID sn).
Proof.
  intros H. split; [by apply bind_Ok in H as (o1 & _ & [= <-])|].
  eapply owned_owner; [|exact H]. by intros ?? [= <-].
Qed.

Lemma metricsCertUsable_true cert t : exec (metricsCertUsable cert) t true ->
  (forall st st', os_run st t st' -> st' = st) /\
  exists c now, t = [existT ONow now] /\ ParseCertificatePEM cert = Some c /\
    now + metricsCertRenewBefore <= NotAfter c /\ VerifyHostname c metricsServiceDNS = true.
Proof.
  unfold metricsCertUsable. destruct (ParseCertificatePEM cert) as [c|]; intros H; [|by exec_inv H].
  exec_inv H. destruct (Z.ltb_spec (NotAfter c) (r + metricsCertRenewBefore)); exec_inv H; [done|].
  split; [by intros st st' (st1 & -> & ->)|]. by exists c, r.
Qed.

Lemma metricsCertUsable_quiet cert t b st st' : exec (metricsCertUsable cert) t b -> os_run st t st' -> st' = st.
Proof.
  unfold metricsCertUsable. destruct (ParseCertificatePEM cert) as [c|]; intros H; [|by exec_inv H].
  exec_inv H. destruct (_ <? _); exec_inv H; by intros (st1 & -> & ->).
Qed.

Lemma metrics_outcome sn t (st st' : objects) : exec (ensureMetricsTLS sn) t None -> os_run st t st' ->
  (st' = st /\ cert_kept t) \/ cert_renewed sn t st'.
Proof.
  unfold ensureMetricsTLS, applyObject. intros H. exec_inv H.
  apply exec_mbind in H as (t1 & t2 & usable & -> & Hu & H). intros (st1 & -> & (st2 & H1 & H2)%os_run_app).
  destruct usable.
  - destruct r as [data|]; [|by exec_inv Hu].
    destruct (metricsCertUsable_true _ _ Hu) as (Hq & c & now & -> & Hc). exec_inv H. rewrite H2. left.
    split; [by apply Hq|]. exists data, c, now. split; [by left|]. split; [right; by left | done].
  - assert (st2 = st) as ->.
    { destruct r; [by eapply metricsCertUsable_quiet|]. exec_inv Hu. exact H1. }
    exec_inv H. destruct r0 as [b|]; [|by exec_inv H].
    exec_inv H. destruct r0 as [e|]; [by exec_inv H|].
    exec_inv H. destruct r0 as [e|]; [by exec_inv H|]. exec_inv H.
    destruct H2 as (st3 & -> & (st4 & (o1 & [Hp1 Ho1]%applied_payload & ->) & (st5 & (o2 & [Hp2 Ho2]%applied_payload & ->) & ->))).
    right. exists b, o1, o2. split_and!; [apply list_elem_of_further, elem_of_app; right; by left | | done | done | | done | done].
    + by rewrite lookup_insert_ne, lookup_insert_eq.
    + by rewrite lookup_insert_eq.
Qed.

Lemma apply_metrics r sn image deny openshift tr (st st' : objects) :
  exec (apply r sn image deny openshift) tr None -> os_run st tr st' ->
  ((forall k, k ∈ metrics_keys -> st' !! k = st !! k) /\ (openshift = true \/ cert_kept tr)) \/
  (openshift = false /\ cert_renewed sn tr st').
Proof.
  intros (t & -> & Ht & _)%apply_exec. destruct (all_keys_distinct r sn image deny) as [_ Hm].
  intros (st1 & H1 & (st2 & H2 & H3)%os_run_app).
  assert (R1 : os_run st (map written [namespace_want]) st1) by (by exists st1).
  assert (Hback : forall k, k ∈ metrics_keys -> st1 !! k = st !! k).
  { intros k Hk%Hm. apply (written_frame _ _ _ R1). intros Hin. apply Hk. cbn [map] in *. set_solver. }
  assert (Hon : forall k, k ∈ metrics_keys -> st' !! k = st2 !! k).
  { intros k Hk%Hm. apply (written_frame _ _ _ H3). intros Hin. apply Hk. cbn [map]. by right. }
  assert (Hin : forall ev, ev ∈ t -> ev ∈ written namespace_want :: t ++ map written (wanted r sn image deny)).
  { intros ev Hev. right. apply elem_of_app. by left. }
  destruct openshift.
  - subst t. rewrite H2 in Hon. left. split; [|by left]. intros k Hk. by rewrite Hon, Hback.
  - destruct (metrics_outcome _ _ _ _ Ht H2) as [[-> (data & c & now & Hd & Hnow & Hc)] | (b & o1 & o2 & Hb & Hl1 & H4 & H5 & Hl2 & H6)].
    + left. split; [intros k Hk; by rewrite Hon, Hback|]. right. exists data, c, now. auto.
    + right. split; [done|]. exists b, o1, o2. rewrite !Hon by (unfold metrics_keys; in_list). auto 10.
Qed.

(** ** What [apply] leaves *)
Lemma owned_payload sn mutate o o' : owned sn mutate o = Ok o' ->
  exists o1, mutate o1 = Ok o' /\ o_Payload o1 = o_Payload o.
Proof.
  intros (o1 & H1 & H2)%bind_Ok. exists o1. split; [done|]. destruct (m_Owner (o_Meta o)) as [uid|] eqn:E.
  - destruct (decide (uid = sn_UID sn)) as [->|Hne].
    + rewrite set_controller_own in H1 by done. by injection H1 as <-.
    + pose proof (set_controller_other sn o uid E Hne) as Ho. by rewrite H1 in Ho.
  - rewrite set_controller_free in H1 by done. by injection H1 as <-.
Qed.

(** The DaemonSet it leaves. *)
Lemma applied_daemonset r sn image deny openshift tr (st st' : objects) :
  exec (apply r sn image deny openshift) tr None -> os_run st tr st' ->
  exists o, st' !! key "DaemonSet" Namespace agentName = Some o /\
    o_Payload o = o_Payload (DaemonSet sn image deny true).
Proof.
  intros He Hr. destruct (apply_run _ _ _ _ _ _ _ _ He Hr) as (Hp & _ & _).
  destruct (proj1 (Forall_forall _ _) Hp (DaemonSet sn image deny true, owned sn (mutate_daemonset (DaemonSet sn image deny true))))
    as (o' & Ho & Hl); [right; unfold wanted; apply elem_of_app; left; in_list|].
  exists o'. split.
  - rewrite <- Hl. f_equal. unfold want_key, DaemonSet. cbn [fst]. by destruct (SecretRef _).
  - apply bind_Ok in Ho as (o1 & _ & [= <-]). done.
Qed.

(** The objects that are owned by the resource. *)
Definition managed (r : ScionNetworkReconciler) (sn : ScionNetwork) (image : string) (deny : list string) : list KObj :=
  [ServiceAccount; ClusterRole; ClusterRoleBinding; DaemonSet sn image deny true]
  ++ (if r_SCCAvail r then [SCC] else []).

Lemma managed_wanted r sn image deny x : x ∈ managed r sn image deny ->
  exists mutate, (x, mutate) ∈ wanted r sn image deny.
Proof.
  unfold managed, wanted. intros [H|H]%elem_of_app.
  - rewrite !elem_of_cons, elem_of_nil in H.
    destruct H as [-> | [-> | [-> | [-> | []]]]]; eexists; apply elem_of_app; left; in_list.
  - destruct (r_SCCAvail r); [|by apply elem_of_nil in H]. apply list_elem_of_singleton in H as ->.
    eexists. apply elem_of_app. right. by left.
Qed.

Lemma wanted_managed r sn image deny : map want_key (wanted r sn image deny) = map key_of (managed r sn image deny).
Proof. unfold wanted, managed. by destruct (r_SCCAvail r). Qed.

Lemma applied_binding r sn image deny (st st' : objects) ref subjects :
  Forall (applied_from st st') (namespace_want :: wanted r sn image deny) ->
  o_Payload (default ClusterRoleBinding (st !! key_of ClusterRoleBinding)) = PClusterRoleBinding ref subjects ->
  exists o, st' !! key_of ClusterRoleBinding = Some o /\ o_Payload o = PClusterRoleBinding ref ClusterRoleBinding_Subjects.
Proof.
  intros Hp Href. destruct (proj1 (Forall_forall _ _) Hp (ClusterRoleBinding, owned sn mutate_binding))
    as (o & Ho & Hl); [right; unfold wanted; apply elem_of_app; left; in_list|].
  exists o. split; [exact Hl|]. destruct (owned_payload _ _ _ _ Ho) as (o1 & H1 & H2). cbn [fst] in H2.
  unfold want_key in H2. cbn [fst] in H2. rewrite Href in H2. unfold mutate_binding in H1. rewrite H2 in H1. by injection H1 as <-.
Qed.

Lemma applied_scc r sn image deny (st st' : objects) have : r_SCCAvail r = true ->
  Forall (applied_from st st') (namespace_want :: wanted r sn image deny) ->
  o_Payload (default SCC (st !! key_of SCC)) = PSCC have ->
  exists o now, st' !! key_of SCC = Some o /\ o_Payload o = PSCC now /\
    forall k, k <> "metadata" ->
      gfield now k = match gfield SCC_Object k with Some v => Some v | None => gfield have k end.
Proof.
  intros Hr Hp Hhave. destruct (proj1 (Forall_forall _ _) Hp (SCC, owned sn mutate_scc))
    as (o & Ho & Hl); [right; unfold wanted; rewrite Hr; apply elem_of_app; right; by left|].
  destruct (owned_payload _ _ _ _ Ho) as (o1 & H1 & H2). unfold want_key in H2. cbn [fst] in H2. rewrite Hhave in H2.
  assert (Hn : NoDup SCC_Object.*1) by (apply distinct_NoDup; vm_compute; reflexivity).
  unfold mutate_scc in H1. rewrite H2 in H1. revert Hn H1. generalize SCC_Object as w. intros w Hn H1.
  injection H1 as <-. exists (MkObj (o_Meta o1) (PSCC (merge_scc w have))), (merge_scc w have).
  split; [exact Hl|]. split; [done|]. intros k Hk. by apply merge_scc_field.
Qed.

(** C32: What a successful [apply] leaves in the cluster, from whatever state and
    drift.  The namespace has the pod-security labels beside its own, and the
    owner, if any, that it had: it is not the resource's.  Every other object of
    the agent (ServiceAccount, ClusterRole, binding, DaemonSet and, where the
    cluster has them, the SCC) exists and is controlled by the resource; the
    DaemonSet has exactly the rendered specification, the ClusterRole exactly the
    rendered rules, the binding the rendered subjects under the role reference it
    had, the SCC every rendered field.  The Secret and the ConfigMap of the
    metrics certificate are left as they were, whether or not they are there, on
    OpenShift and while the stored certificate is good; otherwise they hold one
    new certificate and its CA and are controlled by the resource.  Nothing else
    has changed, and it is a fixed point: applying again, with the certificate
    renewed or not, changes no object but these two. *)
Theorem apply_converges r sn image deny openshift tr (st st' : objects) :
  exec (apply r sn image deny openshift) tr None -> os_run st tr st' ->
  let before (x : KObj) := default x (st !! key_of x) in
  (exists o, st' !! key_of NamespaceObj = Some o /\
     m_Labels (o_Meta o) = NamespaceLabels ∪ m_Labels (o_Meta (before NamespaceObj)) /\
     m_Owner (o_Meta o) = m_Owner (o_Meta (before NamespaceObj))) /\
  (forall x, x ∈ managed r sn image deny ->
     exists o, st' !! key_of x = Some o /\ m_Owner (o_Meta o) = Some (sn_UID sn)) /\
  (exists o, st' !! key "DaemonSet" Namespace agentName = Some o /\
     o_Payload o = o_Payload (DaemonSet sn image deny true)) /\
  (exists o, st' !! key_of ClusterRole = Some o /\ o_Payload o = PClusterRole ClusterRole_Rules) /\
  (forall ref subjects, o_Payload (before ClusterRoleBinding) = PClusterRoleBinding ref subjects ->
     exists o, st' !! key_of ClusterRoleBinding = Some o /\
       o_Payload o = PClusterRoleBinding ref ClusterRoleBinding_Subjects) /\
  (forall have, r_SCCAvail r = true -> o_Payload (before SCC) = PSCC have ->
     exists o now, st' !! key_of SCC = Some o /\ o_Payload o = PSCC now /\
       forall k, k <> "metadata" ->
         gfield now k = match gfield SCC_Object k with Some v => Some v | None => gfield have k end) /\
  (((forall k, k ∈ metrics_keys -> st' !! k = st !! k) /\ (openshift = true \/ cert_kept tr)) \/
   (openshift = false /\ cert_renewed sn tr st')) /\
  (forall k, k ∉ key_of NamespaceObj :: metrics_keys ++ map key_of (managed r sn image deny) -> st' !! k = st !! k) /\
  (forall openshift' tr' st'', exec (apply r sn image deny openshift') tr' None -> os_run st' tr' st'' ->
     forall k, k ∉ metrics_keys -> st'' !! k = st' !! k).
Proof.
  intros He Hr before. destruct (apply_run _ _ _ _ _ _ _ _ He Hr) as (Hp & Hu & _). split_and!.
  - apply Forall_cons in Hp as [(o & [= <-] & Hl) _]. eexists. split; [exact Hl|]. done.
  - intros x (mutate & Hx)%managed_wanted.
    destruct (proj1 (Forall_forall _ _) Hp (x, mutate)) as (o & Ho & Hl); [by right|].
    exists o. split; [done|]. by eapply wanted_owner in Ho.
  - by eapply applied_daemonset.
  - destruct (proj1 (Forall_forall _ _) Hp (ClusterRole, owned sn mutate_clusterrole)) as (o & Ho & Hl);
      [right; unfold wanted; apply elem_of_app; left; in_list|].
    exists o. split; [done|]. by apply bind_Ok in Ho as (o1 & _ & [= <-]).
  - intros ref subjects. by eapply applied_binding.
  - intros have Hs. by eapply applied_scc.
  - by eapply apply_metrics.
  - intros k [Hk1 [Hk2 Hk3]%not_elem_of_app]%not_elem_of_cons. apply Hu; [done|]. intros [->|Hk]%elem_of_cons; [done|].
    apply Hk3. by rewrite <- wanted_managed.
  - intros os' tr' st'' He' Hr'. destruct (apply_run _ _ _ _ _ _ _ _ He' Hr') as (_ & _ & Hk). apply Hk.
    eapply Forall_impl; [exact Hp | intros x; apply applied_in_place].
Qed.
End Apply.

(** A cluster in which someone edited the DaemonSet and the labels of the
    namespace. *)
Definition drift_sn : ScionNetwork := sim_sn "manual" None [].
Definition drifted_ds : KObj :=
  MkObj (MkMeta agentName Namespace {["team" := "net"]} None) (o_Payload (DaemonSet drift_sn "other" [] true)).
Definition drifted_ns : KObj := MkObj (MkMeta Namespace "" {["team" := "net"]} None) PNamespace.
Definition drift_world : world :=
  with_objects (<[key_of NamespaceObj := drifted_ns]> {[key "DaemonSet" Namespace agentName := drifted_ds]})
    (sim_world drift_sn 204).
Definition drift_apply : oper (option gerror) :=
  apply (C := ref_ctrl) (X := sim_x509) (MkReconciler "img" true) drift_sn "img" ["10.0.0.0/8"] false.
Definition drift_after : objects := w_objects (state_of oresp osim drift_apply drift_world).

Lemma apply_converges_witness :
  result_of oresp osim drift_apply drift_world = None /\
  (exists o, drift_after !! key "DaemonSet" Namespace agentName = Some o /\
    o_Payload o = o_Payload (DaemonSet drift_sn "img" ["10.0.0.0/8"] true)) /\
  (exists o, drift_after !! key_of NamespaceObj = Some o /\ m_Owner (o_Meta o) = None) /\
  cert_renewed drift_sn (trace_of oresp osim drift_apply drift_world) drift_after.
Proof.
  assert (H : result_of oresp osim drift_apply drift_world = None) by (vm_compute; reflexivity).
  split; [exact H|]. pose proof ref_ctrl_laws as HL. pose proof (run_exec oresp osim drift_apply drift_world) as He.
  rewrite H in He.
  destruct (apply_converges (C := ref_ctrl) (X := sim_x509) (MkReconciler "img" true) drift_sn "img" ["10.0.0.0/8"] false
    _ _ _ He (osim_run drift_apply drift_world)) as ((ns & Hns & _ & Hown) & _ & Hd & _ & _ & _ & Hm & _).
  split; [exact Hd|]. split; [exists ns; split; [exact Hns | exact Hown]|].
  destruct Hm as [[Hsame _] | [_ Hren]]; [|exact Hren]. exfalso.
  assert (Hb : bool_decide (is_Some (drift_after !! key "Secret" Namespace metricsTLSSecret)) = true)
    by (vm_compute; reflexivity). apply bool_decide_eq_true in Hb as [o Ho].
  unfold drift_after in Ho. rewrite (Hsame _ ltac:(by left)) in Ho. vm_compute in Ho. discriminate Ho.
Defined.
