(* ===== verification/ControllerProps.v ===== *)
(** * Properties of the reconciler *)
From S2P Require Import Prelude Effects GoStrings Json Api K8s Render AgentEnv OperatorEnv OperatorSim Kube.
From S2P Require Import DenyList Platform Backends RegistrarSync MetricsTLS Controller.
Local Open Scope Z_scope.

Section Props.
Context `{L : K8sLib} `{!K8sLaws L} `{C : CtrlLib} `{!CtrlLaws C} `{X : X509Lib}.

(** ** Finalization *)

(** The reasons for which the finalizer may be released. *)
Inductive released (sn : ScionNetwork) (deletedAt : Z) (tr : list (event oresp)) : Prop :=
| rel_no_backend t1 t2 e : tr = t1 ++ t2 -> exec (backendFor sn) t1 (Err e) -> released sn deletedAt tr
| rel_deregistered t1 t2 t3 b : tr = t1 ++ t2 ++ t3 -> exec (backendFor sn) t1 (Ok b) ->
    exec (Ensure b []) t2 None -> released sn deletedAt tr
| rel_stub t1 t2 t3 b e : tr = t1 ++ t2 ++ t3 -> exec (backendFor sn) t1 (Ok b) ->
    exec (Ensure b []) t2 (Some e) -> e_kind e = ENotImplemented -> released sn deletedAt tr
| rel_deadline t1 t2 t3 b e now : tr = t1 ++ t2 ++ existT ONow now :: t3 ->
    exec (backendFor sn) t1 (Ok b) -> exec (Ensure b []) t2 (Some e) ->
    deregistrationDeadline < time_sub now deletedAt -> released sn deletedAt tr.

(** The update that drops the finalizer and keeps everything else. *)
Definition without_finalizer (sn : ScionNetwork) : ScionNetwork :=
  with_finalizers (RemoveFinalizer (sn_Finalizers sn) registrarFinalizer) sn.

(** The updates of the resource in a run. *)
Definition updates (tr : list (event oresp)) : list ScionNetwork :=
  omap (fun ev => match projT1 ev with OUpdateSN sn => Some sn | _ => None end) tr.

Lemma updates_app t1 t2 : updates (t1 ++ t2) = updates t1 ++ updates t2.
Proof. apply omap_app. Qed.

Lemma backendFor_updates sn tr r : exec (backendFor sn) tr r -> updates tr = [].
Proof.
  unfold backendFor. intros H. repeat (case_match; [by exec_inv H|]). case_match; [|by repeat case_match; exec_inv H].
  case_match; [|by exec_inv H]. exec_inv H. destruct r0 as [data|]; [|by exec_inv H].
  destruct (data !! "token"); by exec_inv H.
Qed.

Lemma Ensure_updates b sigs tr r : exec (Ensure b sigs) tr r -> updates tr = [].
Proof.
  destruct b as [|h|]; cbn [Ensure]; intros H; [by exec_inv H| |by exec_inv H].
  unfold http_Ensure in H. exec_inv H. destruct r0; [by exec_inv H|].
  destruct (http_client h); [|by exec_inv H]. exec_inv H. destruct r0 as [resp|]; [|by exec_inv H].
  destruct (negb _); by exec_inv H.
Qed.

Lemma release_spec sn tr res : exec (release sn) tr res ->
  exists a, tr = [existT (OUpdateSN (without_finalizer sn)) a].
Proof.
  unfold release. intros H. exec_inv H. exists r. destruct r; by exec_inv H.
Qed.

(** C24: deletion is neither blocked for ever nor released too early.  When the
    finalizer is present, [finalize] either updates the resource exactly once,
    dropping this finalizer and nothing else, and then the backend could not be
    built, or the empty set was registered, or the backend is a stub, or
    deregistration failed more than ten minutes after the deletion; or it
    updates nothing, and then deregistration failed no more than ten minutes
    after the deletion and the error is returned for a retry. *)
Theorem finalize_spec (sn : ScionNetwork) (deletedAt : Z) (tr : list (event oresp)) (res : Result)
    (err : option gerror) :
  exec (finalize sn deletedAt) tr (res, err) -> registrarFinalizer ∈ sn_Finalizers sn ->
  (updates tr = [without_finalizer sn] /\ released sn deletedAt tr /\
   (registrarFinalizer ∉ sn_Finalizers (without_finalizer sn)) /\
   Spec (without_finalizer sn) = Spec sn /\
   forall f, f <> registrarFinalizer -> f ∈ sn_Finalizers (without_finalizer sn) <-> f ∈ sn_Finalizers sn) \/
  (updates tr = [] /\ is_Some err /\
   exists t1 t2 b e now, tr = t1 ++ t2 ++ [existT ONow now] /\ exec (backendFor sn) t1 (Ok b) /\
     exec (Ensure b []) t2 (Some e) /\ e_kind e <> ENotImplemented /\
     time_sub now deletedAt <= deregistrationDeadline).
Proof.
  intros H Hfin. unfold finalize in H.
  rewrite (proj2 (contains_finalizer_spec _ _) Hfin) in H. cbn [negb] in H.
  assert (Hrel : forall t, released sn deletedAt t -> updates t = [without_finalizer sn] ->
    updates t = [without_finalizer sn] /\ released sn deletedAt t /\
    (registrarFinalizer ∉ sn_Finalizers (without_finalizer sn)) /\
    Spec (without_finalizer sn) = Spec sn /\
    forall f, f <> registrarFinalizer -> f ∈ sn_Finalizers (without_finalizer sn) <-> f ∈ sn_Finalizers sn).
  { intros t Hr Hu. split_and!; [done | done | | done |].
    - unfold without_finalizer. cbn. rewrite remove_finalizer_spec. by intros [? _].
    - intros f Hf. unfold without_finalizer. cbn. rewrite remove_finalizer_spec. naive_solver. }
  apply exec_mbind in H as (t1 & t2 & [b|e] & -> & Hb & H).
  2:{ left. apply release_spec in H as (a & ->). apply Hrel.
      - by eapply rel_no_backend.
      - rewrite updates_app, (backendFor_updates _ _ _ Hb). done. }
  apply exec_mbind in H as (t3 & t4 & [e|] & -> & He & H).
  2:{ left. apply release_spec in H as (a & ->). apply Hrel.
      - by eapply rel_deregistered.
      - rewrite !updates_app, (backendFor_updates _ _ _ Hb), (Ensure_updates _ _ _ _ He). done. }
  unfold is_kind in H. case_bool_decide as Hk.
  { left. apply release_spec in H as (a & ->). apply Hrel.
    - by eapply rel_stub.
    - rewrite !updates_app, (backendFor_updates _ _ _ Hb), (Ensure_updates _ _ _ _ He). done. }
  exec_inv H. destruct (deregistrationDeadline <? _) eqn:Ed.
  - left. apply release_spec in H as (a & ->). apply Hrel.
    + eapply rel_deadline; [reflexivity | done | done | by apply Z.ltb_lt].
    + rewrite !updates_app, (backendFor_updates _ _ _ Hb), (Ensure_updates _ _ _ _ He). done.
  - right. exec_inv H. injection H as -> ->. split; [|split; [by eexists|]].
    + by rewrite !updates_app, (backendFor_updates _ _ _ Hb), (Ensure_updates _ _ _ _ He).
    + exists t1, t3, b, e, r. split_and!; [done.. | by apply Z.ltb_ge].
Qed.

(** ** What gets applied *)

(** The objects a run creates or updates. *)
Definition applied (tr : list (event oresp)) : list KObj :=
  omap (fun ev => match projT1 ev with OCreateOrUpdate o _ => Some o | _ => None end) tr.

Lemma applied_app t1 t2 : applied (t1 ++ t2) = applied t1 ++ applied t2.
Proof. apply omap_app. Qed.

(** A program that applies only objects with a property. *)
Definition applies (P : KObj -> Prop) {A} (p : oper A) : Prop :=
  forall tr a, exec p tr a -> Forall P (applied tr).

Section Applies.
Variable P : KObj -> Prop.

Lemma applies_ret {A} (a : A) : applies P (Ret a).
Proof. intros tr b H. exec_inv H. constructor. Qed.

Lemma applies_call c : (match c with OCreateOrUpdate _ _ => false | _ => true end) = true ->
  applies P (call c).
Proof. intros Hc tr a H. apply exec_call in H as ->. destruct c; first [discriminate Hc | constructor]. Qed.

Lemma applies_apply o m : P o -> applies P (call (OCreateOrUpdate o m)).
Proof. intros Hc tr a H. apply exec_call in H as ->. by repeat constructor. Qed.

Lemma applies_bind {A B} (p : oper A) (f : A -> oper B) :
  applies P p -> (forall a, applies P (f a)) -> applies P (p ≫= f).
Proof.
  intros Hp Hf tr b (t1 & t2 & a & -> & H1 & H2)%exec_mbind.
  rewrite applied_app. apply Forall_app. split; [by eapply Hp | by eapply Hf].
Qed.

Lemma applies_try {A B} (p : oper (result A)) (f : A -> oper (result B)) :
  applies P p -> (forall a, applies P (f a)) -> applies P (try_bind p f).
Proof.
  intros Hp Hf. apply applies_bind; [done|]. intros [a|e]; [apply Hf | apply applies_ret].
Qed.

Ltac applies :=
  repeat first
    [ apply applies_ret
    | match goal with |- applies _ (call ?c) => exact (applies_call c eq_refl) end
    | apply applies_try; [|intros ?]
    | apply applies_bind; [|intros ?]
    | case_match ].

Lemma clusterForbiddenCIDRs_applies sn : applies P (clusterForbiddenCIDRs sn).
Proof.
  unfold clusterForbiddenCIDRs, openshiftNetwork, nodePodCIDRs, serviceCIDRs, calicoPoolCIDRs, ciliumNodeCIDRs.
  applies.
Qed.

Lemma validateNodeIPAdvertisement_applies sn : applies P (validateNodeIPAdvertisement sn).
Proof. unfold validateNodeIPAdvertisement. applies. Qed.

Lemma detectPodEgressPlatform_applies : applies P detectPodEgressPlatform.
Proof. unfold detectPodEgressPlatform, vanillaPlatformMessage, apiPresent. applies. Qed.

Lemma markApplyFailed_applies sn e : applies P (markApplyFailed sn e).
Proof. unfold markApplyFailed. applies. Qed.

Lemma syncRegistrar_applies sn : applies P (syncRegistrar sn).
Proof. unfold syncRegistrar, backendFor, Ensure, http_Ensure. applies. Qed.

Lemma discoverISDAS_applies sn : applies P (discoverISDAS sn).
Proof. unfold discoverISDAS. applies. Qed.

Lemma updateStatus_applies sn st b p : applies P (updateStatus sn st b p).
Proof. unfold updateStatus. applies. Qed.

Lemma finalize_applies sn t : applies P (finalize sn t).
Proof. unfold finalize, backendFor, Ensure, http_Ensure, release. applies. Qed.

(** The reconciler after [apply]. *)
Lemma after_apply_applies sn platform :
  applies P (
    '(regStatus, regFailed) ← syncRegistrar sn;
    sn ← discoverISDAS sn;
    u ← updateStatus sn regStatus regFailed platform;
    match u with
    | Err err => if is_kind EConflict err then Ret (requeue_now, None) else Ret (done_result, Some err)
    | Ok available =>
        if (regFailed : bool) then Ret (after Minute, None)
        else if negb available then Ret (after (30 * Second), None)
        else if negb (bool_decide (pf_Status platform = ConditionTrue))
        then Ret (after (5 * Minute), None)
        else Ret (done_result, None : option gerror)
    end).
Proof.
  apply applies_bind; [apply syncRegistrar_applies|]. intros [st failed].
  apply applies_bind; [apply discoverISDAS_applies|]. intros sn'.
  apply applies_bind; [apply updateStatus_applies|]. intros u. applies.
Qed.
End Applies.

Lemma applies_nothing {A} (p : oper A) tr a : applies (fun _ => False) p -> exec p tr a -> applied tr = [].
Proof. intros Hp H. specialize (Hp tr a H). by destruct (applied tr); [|inversion Hp]. Qed.

(** The only DaemonSet [apply] writes is the rendered one. *)
Definition ds_is (want : KObj) (o : KObj) : Prop :=
  forall spec, o_Payload o = PDaemonSet spec -> o = want.

Lemma apply_applies r sn image forbidden os :
  applies (ds_is (DaemonSet sn image forbidden true)) (apply r sn image forbidden os).
Proof.
  unfold apply, or_wrap, ensureMetricsTLS, metricsCertUsable, applyObject, applyObjectNoOwner.
  repeat first
    [ apply applies_ret
    | apply applies_apply; done
    | match goal with |- applies _ (call ?c) => exact (applies_call _ c eq_refl) end
    | apply applies_bind; [|intros ?]
    | case_match ].
Qed.

(** C11: nothing reaches the nodes unvalidated.  A run of [Reconcile] that writes
    an agent DaemonSet first computed the deny list successfully and passed the
    check on node addresses, wrote no object before that, and the DaemonSet is
    the one rendered with exactly this deny list; in particular no run on an
    invalid resource, on an unreadable source, or on a resource being deleted
    writes one. *)
Theorem reconcile_applies_validated (r : ScionNetworkReconciler) (name : string)
    (tr : list (event oresp)) (res : Result * option gerror) (o : KObj) (spec : DaemonSetSpec) :
  exec (Reconcile r name) tr res -> o ∈ applied tr -> o_Payload o = PDaemonSet spec ->
  exists sn image deny os t1 t2 t3 t4, tr = t1 ++ t2 ++ t3 ++ t4 /\
    exec (clusterForbiddenCIDRs sn) t2 (Ok (deny, os)) /\
    exec (validateNodeIPAdvertisement sn) t3 None /\
    applied (t1 ++ t2 ++ t3) = [] /\ o = DaemonSet sn image deny true.
Proof.
  intros H Ho Hp. unfold Reconcile in H. exec_inv H. destruct r0 as [sn0|e]; [|exec_inv H; by apply elem_of_nil in Ho].
  change (o ∈ applied tr0) in Ho.
  destruct (sn_DeletionTimestamp sn0) as [t|].
  { rewrite (applies_nothing _ _ _ (finalize_applies _ sn0 t) H) in Ho. by apply elem_of_nil in Ho. }
  assert (Hpres : exists sn t1 t2, tr0 = t1 ++ t2 /\ applied t1 = [] /\ exec (reconcile_present r sn) t2 res).
  { destruct (negb _).
    - exec_inv H. destruct r0 as [sn1|e].
      + eexists sn1, [_], tr. split; [reflexivity | done].
      + exec_inv H. by apply elem_of_nil in Ho.
    - by exists sn0, [], tr0. }
  destruct Hpres as (sn & ta & tb & -> & Ha & H1). clear H.
  assert (Hob : o ∈ applied tb).
  { by rewrite applied_app, Ha in Ho. }
  unfold reconcile_present in H1.
  apply exec_mbind in H1 as (t2 & t3 & [[deny os]|e] & -> & Hd & H1).
  2:{ apply (applies_nothing (clusterForbiddenCIDRs sn)) in Hd; [|apply clusterForbiddenCIDRs_applies].
      rewrite applied_app, Hd in Hob. apply (applies_nothing _ t3) in H1; [by rewrite H1 in Hob; apply elem_of_nil in Hob|].
      apply applies_bind; [apply markApplyFailed_applies | intros; apply applies_ret]. }
  pose proof (applies_nothing _ _ _ (clusterForbiddenCIDRs_applies _ sn) Hd) as Hd0.
  apply exec_mbind in H1 as (t4 & t5 & [e|] & -> & Hv & H1);
    pose proof (applies_nothing _ _ _ (validateNodeIPAdvertisement_applies _ sn) Hv) as Hv0;
    rewrite !applied_app, Hd0, Hv0 in Hob.
  { apply (applies_nothing _ t5) in H1; [by rewrite H1 in Hob; apply elem_of_nil in Hob|].
    apply applies_bind; [apply markApplyFailed_applies | intros; apply applies_ret]. }
  apply exec_mbind in H1 as (t6 & t7 & platform & -> & Hpf & H1).
  rewrite applied_app, (applies_nothing _ _ _ (detectPodEgressPlatform_applies _) Hpf) in Hob. cbn zeta in H1.
  set (image := if bool_decide _ then _ else _) in H1.
  apply exec_mbind in H1 as (t8 & t9 & ae & -> & Hap & H1).
  assert (H9 : applied t9 = []).
  { destruct ae as [e|].
    - apply (applies_nothing _ t9) in H1; [done|].
      apply applies_bind; [apply markApplyFailed_applies | intros; apply applies_ret].
    - by apply (applies_nothing _ t9) in H1; [|apply after_apply_applies]. }
  rewrite applied_app, H9, app_nil_r in Hob.
  pose proof (apply_applies r sn image deny os t8 ae Hap) as Hall. rewrite Forall_forall in Hall.
  eexists sn, image, deny, os, (_ :: ta), t2, t4, (t6 ++ t8 ++ t9).
  split; [reflexivity|]. split_and!; [done | done | | by eapply Hall].
  change (applied (ta ++ t2 ++ t4) = []). by rewrite !applied_app, Ha, Hd0, Hv0.
Qed.
End Props.

Definition del_sn : ScionNetwork := sim_sn "http" (Some (15 * Minute)) [registrarFinalizer; "other"].

(** A registrar that answers 502, five minutes after the deletion. *)
Lemma finalize_spec_witness :
  let p := finalize (L := ref_lib) (X := sim_x509) del_sn (15 * Minute) in
  let w := sim_world del_sn 502 in
  updates (trace_of oresp osim p w) = [] /\ is_Some (snd (result_of oresp osim p w)).
Proof.
  intros p w.
  destruct (finalize_spec (L := ref_lib) (K8sLaws0 := ref_laws) (X := sim_x509) del_sn (15 * Minute)
    (trace_of oresp osim p w) (fst (result_of oresp osim p w)) (snd (result_of oresp osim p w)))
    as [(Hu & _) | (Hu & He & _)].
  - replace (fst (result_of oresp osim p w), snd (result_of oresp osim p w))
      with (result_of oresp osim p w) by (by destruct (result_of oresp osim p w)).
    apply run_exec.
  - vm_compute. left.
  - vm_compute in Hu. discriminate.
  - exact (conj Hu He).
Defined.

(** ** A reconcile on the simulated cluster *)
Definition sim_rec : ScionNetworkReconciler := MkReconciler "img" false.
Definition sim_reconcile : oper (Result * option gerror) :=
  Reconcile (L := ref_lib) (C := ref_ctrl) (X := sim_x509) sim_rec "cluster".
Definition live_sn : ScionNetwork := sim_sn "http" None [registrarFinalizer].
Definition live_world : world := sim_world live_sn 204.
Definition live_deny : list string :=
  ["10.244.1.0/24"; "10.244.2.0/24"; "10.245.0.0/16"; "10.96.0.0/12"; "172.16.0.0/12"; "192.168.0.0/16"].

Lemma live_applied : applied (trace_of oresp osim sim_reconcile live_world) =
  [NamespaceObj;
   MkObj (MkMeta metricsTLSSecret Namespace ∅ None) (PSecret "kubernetes.io/tls" ∅);
   MkObj (MkMeta metricsCAConfigMap Namespace ∅ None) (PConfigMap ∅);
   ServiceAccount; ClusterRole; ClusterRoleBinding; DaemonSet live_sn "img" live_deny true].
Proof. vm_compute. reflexivity. Qed.

Lemma reconcile_applies_validated_witness :
  exists sn image deny os t1 t2 t3 t4,
    trace_of oresp osim sim_reconcile live_world = t1 ++ t2 ++ t3 ++ t4 /\
    exec (clusterForbiddenCIDRs (L := ref_lib) sn) t2 (Ok (deny, os)) /\
    exec (validateNodeIPAdvertisement sn) t3 None /\
    applied (t1 ++ t2 ++ t3) = [] /\ DaemonSet live_sn "img" live_deny true = DaemonSet sn image deny true.
Proof.
  eapply (reconcile_applies_validated (L := ref_lib) (C := ref_ctrl) (X := sim_x509) sim_rec "cluster"
    _ _ (DaemonSet live_sn "img" live_deny true)).
  - exact (run_exec oresp osim sim_reconcile live_world).
  - rewrite live_applied. in_list.
  - reflexivity.
Defined.

Section Status.
Context `{L : K8sLib} `{!K8sLaws L} `{C : CtrlLib} `{!CtrlLaws C} `{X : X509Lib}.

(** ** Registrar synchronisation *)
Lemma collect_sigs_spec sel nodes sigs skipped :
  let selected := filter (fun n => SelectorMatches sel (n_Labels n) = true) nodes in
  collect_sigs sel nodes sigs skipped =
  (sigs ++ map (fun n => node_sig n (internal_ip (n_Addresses n)))
             (filter (fun n => internal_ip (n_Addresses n) <> "") selected),
   skipped ++ map n_Name (filter (fun n => internal_ip (n_Addresses n) = "") selected)).
Proof.
  cbn zeta. revert sigs skipped. induction nodes as [|n nodes IH]; intros sigs skipped; cbn [collect_sigs].
  { by rewrite !app_nil_r. }
  destruct (SelectorMatches sel (n_Labels n)) eqn:Em; cbn [negb].
  - rewrite (filter_cons_True (fun n => SelectorMatches sel (n_Labels n) = true)) by done.
    case_bool_decide as Eip.
    + rewrite IH, filter_cons_False, filter_cons_True by naive_solver. by rewrite <- app_assoc.
    + rewrite IH, filter_cons_True, filter_cons_False by naive_solver. by rewrite <- app_assoc.
  - rewrite (filter_cons_False (fun n => SelectorMatches sel (n_Labels n) = true)) by (by rewrite Em).
    apply IH.
Qed.

(** The desired gateway set is exactly the selected nodes that have an
    address: [nodesToSIGs] lists, sorted by name, one SIG with the control and
    data port for each node whose labels match the selector and that has an
    InternalIP, and reports exactly the other selected nodes as skipped. *)
Lemma nodesToSIGs_exact (nodes : list Node) (selector : gmap string string) (sigs : list SIG)
    (skipped : list string) :
  nodesToSIGs nodes selector = (sigs, skipped) ->
  Sorted name_le sigs /\
  sigs ≡ₚ map (fun n => node_sig n (internal_ip (n_Addresses n)))
            (filter (fun n => internal_ip (n_Addresses n) <> "")
               (filter (fun n => selector ⊆ n_Labels n) nodes)) /\
  Sorted String.le skipped /\
  skipped ≡ₚ map n_Name (filter (fun n => internal_ip (n_Addresses n) = "")
               (filter (fun n => selector ⊆ n_Labels n) nodes)).
Proof.
  unfold nodesToSIGs. rewrite collect_sigs_spec. intros [= <- <-]. cbn [app].
  assert (Hsel : filter (fun n => SelectorMatches selector (n_Labels n) = true) nodes
                 = filter (fun n => selector ⊆ n_Labels n) nodes).
  { apply list_filter_iff. intros n. apply selector_matches_spec. }
  rewrite Hsel. split_and!.
  - apply Sorted_merge_sort. intros a b. unfold name_le. apply (total String.le).
  - apply merge_sort_Permutation.
  - apply sort_strings_sorted.
  - apply sort_strings_Permutation.
Qed.

(** A successful [Ensure]: what it told the AS side. *)
Definition registered (b : BackendKind) (sigs : list SIG) (tr : list (event oresp)) : Prop :=
  match b with
  | Manual => tr = []
  | HTTP h => exists ca resp, http_client h = Ok ca /\ hr_code resp = 204 /\
      tr = [existT (ONewRequest "PUT" (http_Endpoint h +:+ "/v1/sigs")) None;
            existT (OHttp (http_request h sigs ca)) (Ok resp)]
  | Anapaya => False
  end.

Lemma Ensure_registered b sigs tr : exec (Ensure b sigs) tr None -> registered b sigs tr.
Proof.
  destruct b as [|h|]; cbn [Ensure registered]; intros H; [by exec_inv H | | by exec_inv H].
  unfold http_Ensure in H. exec_inv H. destruct r as [e|]; [by exec_inv H|].
  destruct (http_client h) as [ca|e]; [|by exec_inv H]. exec_inv H.
  destruct r as [resp|e]; [|by exec_inv H].
  destruct (hr_code resp =? 204) eqn:Ec; cbn [negb] in H; [|by exec_inv H]. exec_inv H.
  apply Z.eqb_eq in Ec. by exists ca, resp.
Qed.

(** A synchronisation that succeeds, taken apart. *)
Lemma syncRegistrar_ok (sn : ScionNetwork) (tr : list (event oresp)) (st : RegistrarStatus) :
  exec (syncRegistrar sn) tr (st, false) -> exists nodes sigs skipped t1 t2 b now,
    tr = existT (OListNodes None) (Ok nodes) :: t1 ++ t2 ++ [existT ONow now] /\
    nodesToSIGs nodes (NodeSelector (Spec sn)) = (sigs, skipped) /\
    exec (backendFor sn) t1 (Ok b) /\ registered b sigs t2 /\
    st = MkRegistrarStatus (int32 (Z.of_nat (length sigs))) (map desired_text sigs) (Some now) [].
Proof.
  unfold syncRegistrar. intros H. exec_inv H. destruct r as [nodes|e].
  2:{ exec_inv H. by simplify_eq. }
  destruct (nodesToSIGs nodes (NodeSelector (Spec sn))) as [sigs skipped] eqn:En.
  apply exec_mbind in H as (t1 & t2 & b & -> & Hb & H).
  apply exec_mbind in H as (t3 & t4 & e & -> & He & H).
  destruct e as [e|].
  { exec_inv H. by simplify_eq. }
  exec_inv H. simplify_eq. destruct b as [b|e']; [|by exec_inv He].
  exists nodes, sigs, skipped, t1, t3, b, r. split_and!; try done. by apply Ensure_registered.
Qed.

(** The gateways of the nodes with the labels of the selector: one SIG for each
    that has an internal address, at that address. *)
Definition gateways_of (selector : gmap string string) (nodes : list Node) (sigs : list SIG) : Prop :=
  Sorted name_le sigs /\
  sigs ≡ₚ map (fun n => MkSIG (n_Name n) (internal_ip (n_Addresses n) +:+ ":30256")
                          (internal_ip (n_Addresses n) +:+ ":30056"))
            (filter (fun n => internal_ip (n_Addresses n) <> "")
               (filter (fun n => selector ⊆ n_Labels n) nodes)).

Lemma nodesToSIGs_gateways nodes selector sigs skipped :
  nodesToSIGs nodes selector = (sigs, skipped) -> gateways_of selector nodes sigs.
Proof. intros (H1 & H2 & _)%nodesToSIGs_exact. by split. Qed.

Lemma syncRegistrar_failed (sn : ScionNetwork) (tr : list (event oresp)) (st : RegistrarStatus) :
  exec (syncRegistrar sn) tr (st, true) ->
  let old := st_Registrar (Status sn) in
  (exists e, tr = [existT (OListNodes None) (Err e)] /\
     st = MkRegistrarStatus (RegisteredNodes old) (DesiredSIGs old) (LastSyncTime old) (Lit "list nodes: " :: e_msg e))
  \/ exists nodes sigs t1 t2 err, tr = existT (OListNodes None) (Ok nodes) :: t1 ++ t2 /\
     gateways_of (NodeSelector (Spec sn)) nodes sigs /\
     ((exec (backendFor sn) t1 (Err err) /\ t2 = [])
      \/ exists b, exec (backendFor sn) t1 (Ok b) /\ exec (Ensure b sigs) t2 (Some err)) /\
     st = MkRegistrarStatus (RegisteredNodes old) (map desired_text sigs) (LastSyncTime old) (e_msg err).
Proof.
  cbn zeta. unfold syncRegistrar. intros H. exec_inv H. destruct r as [nodes|e].
  2:{ exec_inv H. left. exists e. by simplify_eq. }
  destruct (nodesToSIGs nodes (NodeSelector (Spec sn))) as [sigs skipped] eqn:En.
  apply nodesToSIGs_gateways in En.
  apply exec_mbind in H as (t1 & t2 & b & -> & Hb & H).
  apply exec_mbind in H as (t3 & t4 & [e|] & -> & He & H); exec_inv H; [|by simplify_eq].
  right. exists nodes, sigs, t1, t3, e. rewrite app_nil_r. split_and!; [done..| | by simplify_eq].
  destruct b as [b|e']; [right; by exists b|]. exec_inv He. injection He as ->. by left.
Qed.

(** C25: the registrar status tells what the AS side was told.  When the
    synchronisation succeeds, the status publishes one gateway for each listed
    node that has the labels of the selector and an internal address, with that
    address and the two ports, counts them and carries the time, and that whole
    set was sent (for the HTTP backend, in a PUT the registrar answered with 204;
    the manual one sends nothing).  When it fails, the count and the time of the
    last success are kept and [LastError] is the error: of listing the nodes,
    where the published set is kept too, of finding the backend, or of the
    backend, where the published set is the new one. *)
Theorem syncRegistrar_spec (sn : ScionNetwork) (tr : list (event oresp)) (st : RegistrarStatus)
    (failed : bool) :
  exec (syncRegistrar sn) tr (st, failed) ->
  let old := st_Registrar (Status sn) in
  if failed
  then (exists e, tr = [existT (OListNodes None) (Err e)] /\
      st = MkRegistrarStatus (RegisteredNodes old) (DesiredSIGs old) (LastSyncTime old) (Lit "list nodes: " :: e_msg e))
    \/ exists nodes sigs t1 t2 err, tr = existT (OListNodes None) (Ok nodes) :: t1 ++ t2 /\
      gateways_of (NodeSelector (Spec sn)) nodes sigs /\
      ((exec (backendFor sn) t1 (Err err) /\ t2 = [])
       \/ exists b, exec (backendFor sn) t1 (Ok b) /\ exec (Ensure b sigs) t2 (Some err)) /\
      st = MkRegistrarStatus (RegisteredNodes old) (map desired_text sigs) (LastSyncTime old) (e_msg err)
  else exists nodes sigs t1 t2 b now,
    tr = existT (OListNodes None) (Ok nodes) :: t1 ++ t2 ++ [existT ONow now] /\
    gateways_of (NodeSelector (Spec sn)) nodes sigs /\
    exec (backendFor sn) t1 (Ok b) /\ registered b sigs t2 /\
    st = MkRegistrarStatus (int32 (Z.of_nat (length sigs))) (map desired_text sigs) (Some now) [].
Proof.
  destruct failed; cbn zeta; [apply syncRegistrar_failed|].
  intros (nodes & sigs & skipped & t1 & t2 & b & now & -> & En & H)%syncRegistrar_ok.
  exists nodes, sigs, t1, t2, b, now. split; [done|]. split; [by eapply nodesToSIGs_gateways | done].
Qed.

(** ** Status *)

(** The pods of which [updateStatus] says that they degrade the network. *)
Definition aged_out (now : Z) (p : Pod) : Prop :=
  podReady p = false /\ unreadyGracePeriod <= time_sub now (unreadySince p).

Global Instance aged_out_dec now p : Decision (aged_out now p).
Proof. unfold aged_out. apply _. Defined.

Definition pod_node (p : Pod) : string := if bool_decide (p_NodeName p = "") then p_Name p else p_NodeName p.

Lemma int32_succ z : int32 (int32 z + 1) = int32 (z + 1).
Proof.
  unfold int32.
  replace ((z + 2 ^ 31) mod 2 ^ 32 - 2 ^ 31 + 1 + 2 ^ 31) with ((z + 2 ^ 31) mod 2 ^ 32 + 1) by lia.
  rewrite Z.add_mod_idemp_l by lia. f_equal. f_equal. lia.
Qed.

Lemma scan_pods_spec now pods k degraded :
  scan_pods now pods (int32 k) degraded =
  (int32 (k + Z.of_nat (length (filter (fun p => podReady p = true) pods))),
   degraded ++ map pod_node (filter (aged_out now) pods)).
Proof.
  revert k degraded. induction pods as [|p pods IH]; intros k degraded; cbn [scan_pods].
  { cbn. by rewrite Z.add_0_r, app_nil_r. }
  destruct (podReady p) eqn:Er.
  - rewrite int32_succ, IH, (filter_cons_True (fun p => podReady p = true)) by done.
    rewrite filter_cons_False by (unfold aged_out; rewrite Er; by intros [? _]). cbn [length].
    f_equal. f_equal. lia.
  - rewrite (filter_cons_False (fun p => podReady p = true)) by (by rewrite Er).
    destruct (time_sub now (unreadySince p) <? unreadyGracePeriod) eqn:Et; case_bool_eq.
    + rewrite filter_cons_False by (unfold aged_out; lia). apply IH.
    + rewrite IH, filter_cons_True by (unfold aged_out; split; [done | lia]).
      cbn [map]. by rewrite <- app_assoc.
Qed.

(** The numbers [updateStatus] derives from what it reads. *)
Definition ready_count (pods : list Pod) : Z :=
  int32 (Z.of_nat (length (filter (fun p => podReady p = true) pods))).
Definition total_count (pods : list Pod) (d : result DaemonSetState) : Z :=
  match d with Ok ds => ds_DesiredNumberScheduled ds | Err _ => int32 (Z.of_nat (length pods)) end.

Definition is_available (pods : list Pod) (d : result DaemonSetState) (platform : podEgressPlatform) : bool :=
  (0 <? total_count pods d) && (ready_count pods =? total_count pods d)
  && negb (bool_decide (pf_Status platform = ConditionFalse)).

Definition is_degraded (now : Z) (pods : list Pod) (platform : podEgressPlatform) (regFailed : bool)
    (backend : string) : bool :=
  negb (bool_decide (filter (aged_out now) pods = []))
  || bool_decide (pf_Status platform = ConditionFalse)
  || (regFailed && negb (bool_decide (backend = "" \/ backend = "manual"))).

Lemma not_elem_of_3 {A} (x a b c : A) : x ∉ [a; b; c] -> x <> a /\ x <> b /\ x <> c.
Proof. rewrite !not_elem_of_cons. naive_solver. Qed.

(** The DaemonSet controller has not caught up, or agents are missing or not ready. *)
Definition is_progressing (pods : list Pod) (d : result DaemonSetState) : bool :=
  match d with
  | Ok ds => negb (ds_ObservedGeneration ds =? ds_Generation ds)
  | Err _ => true
  end || (total_count pods d =? 0) || (ready_count pods <? total_count pods d).

Definition degraded_nodes (now : Z) (pods : list Pod) : list string :=
  sort_strings (map pod_node (filter (aged_out now) pods)).

Definition unready_text (nodes : list string) : msg :=
  [Lit "nodes unready for over 5m0s: "; Lit ("[" +:+ Join nodes " " +:+ "]")].

(** Reason and message: the unready nodes come first, then the platform, then the
    registrar. *)
Definition degraded_why (now : Z) (pods : list Pod) (platform : podEgressPlatform) (regFailed : bool)
    (backend : string) (lastError : msg) : string * msg :=
  if negb (bool_decide (filter (aged_out now) pods = []))
  then ("UnreadyAgents", unready_text (degraded_nodes now pods))
  else if bool_decide (pf_Status platform = ConditionFalse) then (pf_Reason platform, pf_Message platform)
  else if regFailed && negb (bool_decide (backend = "" \/ backend = "manual")) then ("RegistrarSyncFailed", lastError)
  else ("AsExpected", unready_text []).

Definition available_why (pods : list Pod) (d : result DaemonSetState) (platform : podEgressPlatform) : string * msg :=
  if (0 <? total_count pods d) && (ready_count pods =? total_count pods d)
     && bool_decide (pf_Status platform = ConditionFalse)
  then (pf_Reason platform, pf_Message platform)
  else ("NodeAgents", agents_text (ready_count pods) (total_count pods d)).

(** The persisted condition of type [t]. *)
Definition reports (sn' : ScionNetwork) (t : string) (on : bool) (why : string * msg) : Prop :=
  find_condition t (Conditions (Status sn'))
  = Some (MkCondition t (if on then ConditionTrue else ConditionFalse) (fst why) (snd why) (sn_Generation sn')).

Lemma degraded_nodes_none now pods : degraded_nodes now pods = [] <-> filter (aged_out now) pods = [].
Proof.
  unfold degraded_nodes. split; [|by intros ->]. intros E. apply (f_equal length) in E.
  rewrite (Permutation_length (sort_strings_Permutation _)), length_map in E. by apply nil_length_inv in E.
Qed.

Lemma degradedReason_why now pods platform failed e backend :
  degradedReason (Z.of_nat (length (degraded_nodes now pods))) (unready_text (degraded_nodes now pods))
    platform failed e backend
  = (is_degraded now pods platform failed backend, fst (degraded_why now pods platform failed backend e),
     snd (degraded_why now pods platform failed backend e)).
Proof.
  unfold degradedReason, is_degraded, degraded_why.
  destruct (decide (filter (aged_out now) pods = [])) as [E|E].
  - rewrite (proj2 (degraded_nodes_none now pods) E), E.
    rewrite (bool_decide_eq_true_2 ([] = [])) by done. cbn.
    repeat case_bool_decide; destruct failed; cbn; naive_solver.
  - rewrite (bool_decide_eq_false_2 (filter _ _ = [])) by done. cbn [negb orb].
    destruct (degraded_nodes now pods) as [|n l] eqn:En; [by apply degraded_nodes_none in En | done].
Qed.

Lemma available_why_spec pods d platform :
  (if ((0 <? total_count pods d) && (ready_count pods =? total_count pods d))
      && bool_decide (pf_Status platform = ConditionFalse)
   then (pf_Reason platform, pf_Message platform)
   else ("NodeAgents", agents_text (ready_count pods) (total_count pods d)))
  = (fst (available_why pods d platform), snd (available_why pods d platform)).
Proof. unfold available_why. by destruct (_ && _). Qed.

(** C12: the conditions mean what they say, and the gauge agrees with them.  A
    successful [updateStatus] persists exactly one status.  In it [Available] is
    true exactly when there are agents to run, all of them are ready, and the
    platform is not known to break source addresses, and this is what the call
    returns; [Progressing] is true exactly when the DaemonSet is absent or not yet
    observed at its generation, or agents are missing or unready; [Degraded] is
    true exactly when an agent pod has been unready for the five-minute grace
    period, or the platform breaks source addresses, or a registrar other than
    manual could not be synchronised.  Reasons and messages name the first of
    these causes, every other condition is kept, and the gauge is set, after the
    status was persisted, to the value of [Degraded]. *)
Theorem updateStatus_spec (sn : ScionNetwork) (reg : RegistrarStatus) (regFailed : bool)
    (platform : podEgressPlatform) (tr : list (event oresp)) (available : bool) :
  exec (updateStatus sn reg regFailed platform) tr (Ok available) ->
  exists pods now d sn',
    let degraded := is_degraded now pods platform regFailed (Backend (Registrar (Spec sn))) in
    tr = [existT (OListPods Namespace "scion-node-agent") (Ok pods); existT ONow now;
          existT (OGetDaemonSet Namespace "scion-node-agent") d;
          existT (OUpdateStatus sn') None; existT (OGauge (if degraded then 1 else 0)) tt] /\
    available = is_available pods d platform /\
    reports sn' "Available" available (available_why pods d platform) /\
    reports sn' "Progressing" (is_progressing pods d)
      ("Rollout", agents_text (ready_count pods) (total_count pods d)) /\
    reports sn' "Degraded" degraded
      (degraded_why now pods platform regFailed (Backend (Registrar (Spec sn))) (LastError reg)) /\
    (forall t, t ∉ ["Available"; "Progressing"; "Degraded"] ->
       find_condition t (Conditions (Status sn')) = find_condition t (Conditions (Status sn))) /\
    Spec sn' = Spec sn /\ sn_Generation sn' = sn_Generation sn /\ ISDAS (Status sn') = ISDAS (Status sn) /\
    st_Registrar (Status sn') = reg /\
    Nodes (Status sn') = MkNodeSummary (ready_count pods) (total_count pods d) (degraded_nodes now pods).
Proof.
  unfold updateStatus. intros H. exec_inv H. destruct r as [pods|e]; [|by exec_inv H]. exec_inv H.
  rename r into now. change 0 with (int32 0) in H at 1. rewrite scan_pods_spec in H. exec_inv H.
  rename r into d. cbn [app] in H. rewrite Z.add_0_l in H.
  fold (degraded_nodes now pods) (ready_count pods) (unready_text (degraded_nodes now pods)) in H.
  rewrite degradedReason_why in H.
  assert (Hd : exists cur, (match d with
     | Ok ds => (ds_ObservedGeneration ds =? ds_Generation ds, ds_DesiredNumberScheduled ds)
     | Err _ => (false, int32 (Z.of_nat (length pods))) end) = (cur, total_count pods d) /\
     negb cur || (total_count pods d =? 0) || (ready_count pods <? total_count pods d) = is_progressing pods d).
  { destruct d; by eexists. }
  destruct Hd as (cur & Hd & Hprog). rewrite Hd in H. cbv beta iota in H. rewrite available_why_spec, Hprog in H.
  exec_inv H. destruct r as [e|]; [by exec_inv H|]. exec_inv H. injection H as ->.
  destruct r. eexists pods, now, d, _. cbv zeta. split; [reflexivity|].
  unfold reports. cbn [Status with_status Conditions Spec Nodes st_Registrar sn_Generation ISDAS].
  rewrite !set_condition_spec. cbn [c_Type cond]. split_and!; try done.
  intros t (H1 & H2 & H3)%not_elem_of_3. rewrite !set_condition_spec. cbn [c_Type cond].
  by rewrite !bool_decide_eq_false_2 by done.
Qed.
End Status.
