(* ===== verification/OperatorProps.v ===== *)
(** * Further properties of the operator

    Requeueing, drift correction, the metrics certificate and the platform
    probe; and the concrete runs for the status properties. *)
From S2P Require Import Prelude Effects GoStrings Json Api K8s Render AgentEnv OperatorEnv OperatorSim Kube.
From S2P Require Import DenyList Platform Backends RegistrarSync MetricsTLS Controller ControllerProps.
Local Open Scope Z_scope.

(** ** Concrete runs of the status properties *)
Definition live_sync : oper (RegistrarStatus * bool) :=
  syncRegistrar (L := ref_lib) (X := sim_x509) live_sn.

Lemma nodesToSIGs_exact_witness :
  Sorted name_le [node_sig (sim_node "n1" "10.0.0.1" "10.244.1.0/24") "10.0.0.1"] /\
  [node_sig (sim_node "n1" "10.0.0.1" "10.244.1.0/24") "10.0.0.1"] ≡ₚ
    map (fun n => node_sig n (internal_ip (n_Addresses n)))
      (filter (fun n => internal_ip (n_Addresses n) <> "")
         (filter (fun n => {["role" := "worker"]} ⊆ n_Labels n)
            [MkNode "n0" {["role" := "worker"]} ∅ "" [] []; sim_node "n1" "10.0.0.1" "10.244.1.0/24"])).
Proof.
  destruct (nodesToSIGs_exact (L := ref_lib) (K8sLaws0 := ref_laws)
    [MkNode "n0" {["role" := "worker"]} ∅ "" [] []; sim_node "n1" "10.0.0.1" "10.244.1.0/24"]
    {["role" := "worker"]} [node_sig (sim_node "n1" "10.0.0.1" "10.244.1.0/24") "10.0.0.1"] ["n0"])
    as (H1 & H2 & _).
  - vm_compute. reflexivity.
  - exact (conj H1 H2).
Defined.

Definition live_sigs : list SIG :=
  [MkSIG "n1" "10.0.0.1:30256" "10.0.0.1:30056"; MkSIG "n2" "10.0.0.2:30256" "10.0.0.2:30056"].

Definition live_reg : RegistrarStatus :=
  MkRegistrarStatus 2 (map desired_text live_sigs) (Some (20 * Minute)) [].

Definition refused_world : world := sim_world live_sn 500.

Lemma syncRegistrar_spec_witness :
  (exists nodes sigs t1 t2 b now,
    trace_of oresp osim live_sync live_world
      = existT (OListNodes None) (Ok nodes) :: t1 ++ t2 ++ [existT ONow now] /\
    gateways_of (NodeSelector (Spec live_sn)) nodes sigs /\
    exec (backendFor live_sn) t1 (Ok b) /\ registered (X := sim_x509) b sigs t2 /\
    live_reg = MkRegistrarStatus (int32 (Z.of_nat (length sigs))) (map desired_text sigs) (Some now) []) /\
  LastError (fst (result_of oresp osim live_sync refused_world)) <> [].
Proof.
  assert (H : result_of oresp osim live_sync live_world = (live_reg, false)) by (vm_compute; reflexivity).
  split.
  - apply (syncRegistrar_spec (L := ref_lib) (K8sLaws0 := ref_laws) (X := sim_x509) live_sn
      (trace_of oresp osim live_sync live_world) live_reg false).
    rewrite <- H. exact (run_exec oresp osim live_sync live_world).
  - vm_compute. discriminate.
Defined.

Definition unknown_platform : podEgressPlatform := MkPlatform ConditionUnknown "PlatformUnverified" [].
Definition live_status : oper (result bool) :=
  updateStatus (L := ref_lib) live_sn live_reg false unknown_platform.

Lemma updateStatus_spec_witness :
  exists pods now d sn',
    trace_of oresp osim live_status live_world
      = [existT (OListPods Namespace "scion-node-agent") (Ok pods); existT ONow now;
         existT (OGetDaemonSet Namespace "scion-node-agent") d;
         existT (OUpdateStatus sn') None;
         existT (OGauge (if is_degraded now pods unknown_platform false "http" then 1 else 0)) tt] /\
    reports sn' "Available" true (available_why pods d unknown_platform) /\
    reports sn' "Progressing" (is_progressing pods d)
      ("Rollout", agents_text (ready_count pods) (total_count pods d)).
Proof.
  assert (H : result_of oresp osim live_status live_world = Ok true) by (vm_compute; reflexivity).
  destruct (updateStatus_spec (L := ref_lib) (K8sLaws0 := ref_laws) live_sn live_reg false unknown_platform
    (trace_of oresp osim live_status live_world) true) as (pods & now & d & sn' & H1 & _ & H2 & H3 & _).
  - rewrite <- H. exact (run_exec oresp osim live_status live_world).
  - exists pods, now, d, sn'. exact (conj H1 (conj H2 H3)).
Defined.

Section Props.
Context `{L : K8sLib} `{!K8sLaws L} `{C : CtrlLib} `{!CtrlLaws C} `{X : X509Lib}.

(** ** Requeueing *)

(** C31: the operator goes idle only when all is well.  A reconcile without an
    error computed the deny list, checked the nodes, probed the platform, applied
    the objects, synchronised the registrar and persisted the status, in this
    order.  It is not requeued exactly when the registrar was synchronised, the
    status persisted says that the network is available, and that probe was
    positive; in every other case another attempt is due at once (status conflict)
    or within five minutes. *)
Theorem reconcile_idle (r : ScionNetworkReconciler) (sn : ScionNetwork) (tr : list (event oresp))
    (res : Result) :
  exec (reconcile_present r sn) tr (res, None) ->
  exists td tv tp ta t1 t2 t3 deny os platform image st failed sn' u,
    tr = td ++ tv ++ tp ++ ta ++ t1 ++ t2 ++ t3 /\
    exec (clusterForbiddenCIDRs sn) td (Ok (deny, os)) /\ exec (validateNodeIPAdvertisement sn) tv None /\
    exec detectPodEgressPlatform tp platform /\ exec (apply r sn image deny os) ta None /\
    exec (syncRegistrar sn) t1 (st, failed) /\ exec (discoverISDAS sn) t2 sn' /\
    exec (updateStatus sn' st failed platform) t3 u /\
    (res = done_result <-> failed = false /\ u = Ok true /\ pf_Status platform = ConditionTrue) /\
    (res = done_result \/ Requeue res = true \/ 0 < RequeueAfter res <= 5 * Minute).
Proof.
  unfold reconcile_present. intros H.
  apply exec_mbind in H as (ta & tb & [[deny os]|e] & -> & Hd & H);
    [|apply exec_mbind in H as (? & ? & [] & _ & _ & H); by exec_inv H].
  apply exec_mbind in H as (tc & td & [e|] & -> & Hv & H);
    [apply exec_mbind in H as (? & ? & [] & _ & _ & H); by exec_inv H|].
  apply exec_mbind in H as (te & tf & platform & -> & Hp & H). cbn zeta in H.
  apply exec_mbind in H as (tg & th & [e|] & -> & Ha & H);
    [apply exec_mbind in H as (? & ? & [] & _ & _ & H); by exec_inv H|].
  apply exec_mbind in H as (t1 & ti & [st failed] & -> & Hs & H).
  apply exec_mbind in H as (t2 & tj & sn' & -> & Hi & H).
  apply exec_mbind in H as (t3 & tk & u & -> & Hu & H).
  eexists ta, tc, te, tg, t1, t2, t3, deny, os, platform, _, st, failed, sn', u.
  assert (tk = []) as ->.
  { destruct u as [av|e]; [|destruct (is_kind EConflict e); by exec_inv H].
    destruct failed; [by exec_inv H|]. destruct av; cbn [negb] in H; [|by exec_inv H].
    destruct (negb _); by exec_inv H. }
  split; [by rewrite app_nil_r|]. split_and!; [exact Hd | exact Hv | exact Hp | exact Ha | exact Hs | exact Hi | exact Hu | |].
  - destruct u as [av|e].
    + destruct failed; [exec_inv H; simplify_eq; naive_solver|].
      destruct av; cbn [negb] in H; [|exec_inv H; simplify_eq; naive_solver].
      case_bool_decide; cbn [negb] in H; exec_inv H; simplify_eq; naive_solver.
    + destruct (is_kind EConflict e); exec_inv H; simplify_eq. naive_solver.
  - destruct u as [av|e].
    + destruct failed; [exec_inv H; injection H as ->; right; right; done|].
      destruct av; cbn [negb] in H; [|exec_inv H; injection H as ->; right; right; done].
      case_bool_decide; cbn [negb] in H; exec_inv H; injection H as ->; [by left | right; right; done].
    + destruct (is_kind EConflict e); exec_inv H; simplify_eq. right; by left.
Qed.

(** ** Drift *)

(** What [applyObject] runs on the object found. *)
Definition owned_mutate (sn : ScionNetwork) (mutate : KObj -> result KObj) (o : KObj) : result KObj :=
  o' ← SetControllerReference sn o; mutate o'.

(** Applying the DaemonSet corrects any drift and is idempotent.  Whatever
    the specification of the object found, as long as no other controller owns
    it, the object written is owned by the resource, has exactly the rendered
    specification and the rendered labels, keeps every other label, and applying
    it again changes nothing; an object of another controller is left alone. *)
Lemma daemonset_drift (sn : ScionNetwork) (image : string) (deny : list string) (o : KObj) :
  let want := DaemonSet sn image deny true in
  let f := owned_mutate sn (mutate_daemonset want) in
  (forall uid, m_Owner (o_Meta o) = Some uid -> uid <> sn_UID sn -> is_ok (f o) = false) /\
  ((m_Owner (o_Meta o) = None \/ m_Owner (o_Meta o) = Some (sn_UID sn)) ->
   exists o', f o = Ok o' /\ o_Payload o' = o_Payload want /\ m_Owner (o_Meta o') = Some (sn_UID sn) /\
     (forall k, m_Labels (o_Meta o') !! k = match labels !! k with Some v => Some v | None => m_Labels (o_Meta o) !! k end) /\
     f o' = Ok o').
Proof.
  intros want f. split.
  - intros uid Ho Hne. unfold f, owned_mutate.
    pose proof (set_controller_other sn o uid Ho Hne) as He.
    by destruct (SetControllerReference sn o).
  - intros Hown.
    assert (Hl : m_Labels (o_Meta want) = labels).
    { unfold want, DaemonSet. by destruct (SecretRef _). }
    set (m := o_Meta o).
    set (o' := MkObj (MkMeta (m_Name m) (m_Namespace m) (labels ∪ m_Labels m) (Some (sn_UID sn))) (o_Payload want)).
    exists o'.
    assert (Hf : f o = Ok o').
    { unfold f, owned_mutate. destruct Hown as [Ho|Ho].
      - rewrite set_controller_free by done. unfold mutate_daemonset, merge_labels. by rewrite Hl.
      - rewrite set_controller_own by done. cbn. unfold mutate_daemonset, merge_labels. rewrite Hl.
        unfold o', m. by rewrite <- Ho. }
    split_and!; [done | done | done | |].
    + intros k. cbn. rewrite lookup_union. by destruct (labels !! k), (m_Labels m !! k).
    + unfold f, owned_mutate. rewrite set_controller_own by done. cbn.
      unfold mutate_daemonset, merge_labels. rewrite Hl. cbn. unfold o'. f_equal. f_equal. f_equal.
      by rewrite (assoc_L (∪)), (idemp_L (∪)).
Qed.
End Props.

Definition live_present : oper (Result * option gerror) :=
  reconcile_present (L := ref_lib) (C := ref_ctrl) (X := sim_x509) sim_rec live_sn.

Lemma reconcile_idle_witness :
  exists tp t3 platform st failed sn' u,
    (exists pre mid, trace_of oresp osim live_present live_world = pre ++ tp ++ mid ++ t3) /\
    exec (detectPodEgressPlatform (L := ref_lib)) tp platform /\
    exec (updateStatus (L := ref_lib) sn' st failed platform) t3 u /\
    ~ (failed = false /\ u = Ok true /\ pf_Status platform = ConditionTrue).
Proof.
  assert (H : result_of oresp osim live_present live_world = (after (5 * Minute), None))
    by (vm_compute; reflexivity).
  destruct (reconcile_idle (L := ref_lib) (C := ref_ctrl) (X := sim_x509) sim_rec live_sn
    (trace_of oresp osim live_present live_world) (after (5 * Minute)))
    as (td & tv & tp & ta & t1 & t2 & t3 & deny & os & platform & image & st & failed & sn' & u &
        Htr & _ & _ & Hp & _ & _ & _ & Hu & Hiff & _).
  - rewrite <- H. exact (run_exec oresp osim live_present live_world).
  - exists tp, t3, platform, st, failed, sn', u. split.
    + exists (td ++ tv), (ta ++ t1 ++ t2). rewrite Htr, <- !app_assoc. reflexivity.
    + split; [exact Hp|]. split; [exact Hu|]. intros Hall. apply Hiff in Hall. discriminate.
Defined.

(** A DaemonSet someone edited: another label and no specification left. *)
Definition drifted : KObj :=
  MkObj (MkMeta agentName Namespace {["team" := "net"]} None) (PConfigMap ∅).

Lemma daemonset_drift_witness :
  m_Owner (o_Meta drifted) = None /\
  exists o', owned_mutate (C := ref_ctrl) live_sn (mutate_daemonset (DaemonSet live_sn "img" ["10.0.0.0/8"] true)) drifted = Ok o' /\
    o_Payload o' = o_Payload (DaemonSet live_sn "img" ["10.0.0.0/8"] true) /\
    m_Labels (o_Meta o') !! "team" = Some "net".
Proof.
  split; [reflexivity|].
  destruct (daemonset_drift (C := ref_ctrl) (CtrlLaws0 := ref_ctrl_laws) live_sn "img" ["10.0.0.0/8"] drifted)
    as [_ H].
  destruct (H (or_introl eq_refl)) as (o' & H1 & H2 & _ & H4 & _).
  exists o'. split; [exact H1|]. split; [exact H2|]. rewrite H4. vm_compute. reflexivity.
Defined.

(** ** The metrics certificate *)
Section Metrics.
Context `{C : CtrlLib} `{X : X509Lib}.

(** The stored serving certificate is good at [now]: it parses, names the metrics
    Service and has thirty days left. *)
Definition serving_cert_good (stored : result (gmap string string)) (now : Z) : Prop :=
  exists data cert, stored = Ok data /\
    ParseCertificatePEM (default "" (data !! "tls.crt")) = Some cert /\
    now + 30 * 24 * Hour <= NotAfter cert /\ VerifyHostname cert metricsServiceDNS = true.

(** What is read before a decision: the clock is looked at only when there is a
    certificate to judge. *)
Definition judged (stored : result (gmap string string)) (t : list (event oresp)) (good : bool) : Prop :=
  (exists now, t = [existT ONow now] /\ (good = true <-> serving_cert_good stored now)) \/
  (t = [] /\ good = false /\ forall now, ~ serving_cert_good stored now).

Lemma stored_cert_judged stored t usable :
  exec (match stored with
        | Ok data => metricsCertUsable (default "" (data !! "tls.crt"))
        | Err _ => Ret false
        end) t usable -> judged stored t usable.
Proof.
  unfold judged, serving_cert_good. destruct stored as [data|e]; cycle 1.
  { intros H. exec_inv H. right. split_and!; [done.. | naive_solver]. }
  unfold metricsCertUsable. destruct (ParseCertificatePEM _) as [cert|] eqn:Ec; intros H.
  2:{ exec_inv H. right. split_and!; [done.. | naive_solver]. }
  exec_inv H. left. exists r. unfold metricsCertRenewBefore in H.
  destruct (Z.ltb_spec (NotAfter cert) (r + 30 * 24 * Hour)); exec_inv H; subst; (split; [done|]).
  - split; [done|]. intros (? & ? & [= <-] & Hc & ? & _). simplify_eq. lia.
  - split; [by intros ?; exists data, cert |]. intros (? & ? & [= <-] & Hc & _ & ?). by simplify_eq.
Qed.

(** C34: the serving certificate is kept while it is good and replaced together
    with its CA otherwise.  A stored certificate that parses, names the metrics
    Service and has thirty days left ends the work: nothing is generated or
    applied.  In every other case (also when the Secret cannot be read) one
    certificate is generated, then the Secret and then the ConfigMap with the CA
    of that same certificate are applied, each owned by the resource; success
    is reported exactly when both writes succeeded.  The ConfigMap is not
    written unless the Secret was, and then only with a new certificate, so a
    refused ConfigMap write is not made up for while the certificate is good. *)
Theorem ensureMetricsTLS_spec (sn : ScionNetwork) (tr : list (event oresp)) (r : option gerror) :
  exec (ensureMetricsTLS sn) tr r ->
  exists stored t0 good t1, tr = existT (OGetSecret Namespace metricsTLSSecret) stored :: t0 ++ t1 /\
    judged stored t0 good /\
    if (good : bool) then t1 = [] /\ r = None
    else exists g t2, t1 = existT OGenerateCert g :: t2 /\
      match g with
      | Err _ => t2 = [] /\ r <> None
      | Ok b => exists secret e1 t3, m_Name (o_Meta secret) = metricsTLSSecret /\
          t2 = existT (OCreateOrUpdate secret
                 (owned_mutate sn (set_payload (PSecret "kubernetes.io/tls" (tls_data b))))) e1 :: t3 /\
          match e1 with
          | Some _ => t3 = [] /\ r <> None
          | None => exists cm e2, m_Name (o_Meta cm) = metricsCAConfigMap /\
              t3 = [existT (OCreateOrUpdate cm
                      (owned_mutate sn (set_payload (PConfigMap {["ca.crt" := cb_ca b]})))) e2] /\
              (r = None <-> e2 = None)
          end
      end.
Proof.
  unfold ensureMetricsTLS, applyObject. intros H. exec_inv H.
  apply exec_mbind in H as (t1 & t2 & usable & -> & Hu%stored_cert_judged & H).
  exists r0, t1, usable, t2. split; [done|]. split; [done|].
  destruct usable; [exec_inv H; by subst|].
  exec_inv H. eexists _, _. split; [done|]. destruct r1 as [b|e]; [|exec_inv H; by subst].
  exec_inv H. eexists _, _, _. split; [|split; [reflexivity|]]; [done|].
  destruct r1 as [e|]; [exec_inv H; by subst|].
  exec_inv H. eexists _, _. destruct r1 as [e|]; exec_inv H; subst; (split; [|split; [reflexivity|]]); done.
Qed.
End Metrics.

(** A first reconcile whose ConfigMap write is refused, then a second one. *)
Definition tls_prog : oper (option gerror) := ensureMetricsTLS (C := ref_ctrl) (X := sim_x509) live_sn.
Definition cm_key : string := key "ConfigMap" Namespace metricsCAConfigMap.
Definition tls_world : world :=
  with_refuse None (state_of oresp osim tls_prog (with_refuse (Some cm_key) live_world)).

Lemma ensureMetricsTLS_spec_witness :
  is_Some (result_of oresp osim tls_prog (with_refuse (Some cm_key) live_world)) /\
  result_of oresp osim tls_prog tls_world = None /\
  applied (trace_of oresp osim tls_prog tls_world) = [] /\
  w_objects (state_of oresp osim tls_prog tls_world) !! cm_key = None /\
  exists stored t0 good t1,
    trace_of oresp osim tls_prog tls_world = existT (OGetSecret Namespace metricsTLSSecret) stored :: t0 ++ t1 /\
    judged (X := sim_x509) stored t0 good.
Proof.
  split; [vm_compute; eauto|]. split; [vm_compute; reflexivity|].
  split; [vm_compute; reflexivity|]. split; [vm_compute; reflexivity|].
  destruct (ensureMetricsTLS_spec (C := ref_ctrl) (X := sim_x509) live_sn
    (trace_of oresp osim tls_prog tls_world) (result_of oresp osim tls_prog tls_world))
    as (stored & t0 & good & t1 & H1 & H2 & _).
  - exact (run_exec oresp osim tls_prog tls_world).
  - exists stored, t0, good, t1. exact (conj H1 H2).
Defined.

(** ** The platform probe *)
Section PlatformProbe.
Context `{L : K8sLib} `{!K8sLaws L}.

Definition bool_at (u : Unstructured) (path : list string) : Prop :=
  gpath (GMap (u_Object u)) path = Some (GBool true).
Definition text_at (u : Unstructured) (path : list string) (s : string) : Prop :=
  gpath (GMap (u_Object u)) path = Some (GStr s).
Definition slice_at (u : Unstructured) (path : list string) (v : gval) : Prop :=
  exists l, gpath (GMap (u_Object u)) path = Some (GSlice l) /\ v ∈ l.

(** An accepted RouteAdvertisements object that exports the pod network of the
    default network. *)
Definition exports_pod_network (item : Unstructured) : Prop :=
  (text_at item ["status"; "status"] "Accepted" \/
   exists m, slice_at item ["status"; "conditions"] (GMap m) /\
     gfield m "type" = GStr "Accepted" /\ gfield m "status" = GStr "True") /\
  slice_at item ["spec"; "advertisements"] (GStr "PodNetwork") /\
  exists m, slice_at item ["spec"; "networkSelectors"] (GMap m) /\
    gfield m "networkSelectionType" = GStr "DefaultNetwork".

Lemma geq_str_spec v s : geq_str v s = true -> v = GStr s.
Proof. destruct v; try done. cbn. by intros ->%bool_decide_eq_true. Qed.

Lemma nested_text o p s : s <> "" -> fst (fst (NestedString o p)) = s -> gpath (GMap o) p = Some (GStr s).
Proof. intros Hs. rewrite nested_string_value. destruct (gpath _ _) as [[]|]; by intros <-. Qed.

Lemma nested_slice_elem o p v : v ∈ fst (fst (NestedSlice o p)) ->
  exists l, gpath (GMap o) p = Some (GSlice l) /\ v ∈ l.
Proof.
  rewrite nested_slice_value. destruct (gpath _ _) as [[]|]; try (by intros ?%elem_of_nil). eauto.
Qed.

Lemma gstrings_elem l ss s : gstrings l = Some ss -> s ∈ ss -> GStr s ∈ l.
Proof.
  revert ss. induction l as [|v l IH]; intros ss; cbn.
  { intros [= <-] ?%elem_of_nil. done. }
  destruct v as [|t| | | |]; try done. destruct (gstrings l) as [ss'|]; [|done]. intros [= <-].
  intros [-> | H]%elem_of_cons; [apply list_elem_of_here | apply list_elem_of_further; eauto].
Qed.

Lemma hasAccepted_exports items : hasAcceptedDefaultPodAdvertisement items = true ->
  exists i, i ∈ items /\ exports_pod_network i.
Proof.
  induction items as [|i items IH]; cbn; [done|].
  assert (Hrec : hasAcceptedDefaultPodAdvertisement items = true ->
    exists i', i' ∈ i :: items /\ exports_pod_network i').
  { intros (i' & ? & ?)%IH. exists i'. split; [by apply list_elem_of_further | done]. }
  destruct (routeAdvertisementAccepted i) eqn:Ea; cbn [negb]; [|done].
  case_bool_decide as Ep; cbn [negb]; [|done].
  destruct (existsb default_network_selector _) eqn:Es; [|done]. intros _.
  exists i. split; [apply list_elem_of_here|]. split; [|split].
  - unfold routeAdvertisementAccepted in Ea. case_bool_decide as Est.
    + left. by apply nested_text.
    + right. apply existsb_spec in Ea as (v & Hv & Hc). destruct v as [| | | |m|]; try done.
      apply andb_prop in Hc as [H1%geq_str_spec H2%geq_str_spec].
      exists m. split; [by apply nested_slice_elem | done].
  - rewrite nested_strings_value in Ep. unfold slice_at.
    destruct (gpath _ _) as [[]|]; try (by apply elem_of_nil in Ep).
    destruct (gstrings l) eqn:Eg; [|by apply elem_of_nil in Ep]. exists l. split; [done|].
    by eapply gstrings_elem.
  - apply existsb_spec in Es as (v & Hv & Hc). destruct v as [| | | |m|]; try done.
    exists m. split; [by apply nested_slice_elem | by apply geq_str_spec].
Qed.

(** C36: source preservation is reported only where it was verified.  The probe
    answers with a true status only after reading a network operator
    configuration of type OVNKubernetes with [routingViaHost] true and
    [routeAdvertisements] Enabled, and an accepted RouteAdvertisements object
    that exports the pod network of the default network; every error of the
    API server gives an unknown or a false status, never an error. *)
Theorem platform_true_verified (tr : list (event oresp)) (p : podEgressPlatform) :
  exec detectPodEgressPlatform tr p -> pf_Status p = ConditionTrue ->
  exists network routes,
    tr = [existT (OGet OperatorNetwork "cluster") (Ok network);
          existT (OList RouteAdvertisements None) (Ok routes)] /\
    text_at network ["spec"; "defaultNetwork"; "type"] "OVNKubernetes" /\
    bool_at network ["spec"; "defaultNetwork"; "ovnKubernetesConfig"; "gatewayConfig"; "routingViaHost"] /\
    text_at network ["spec"; "defaultNetwork"; "ovnKubernetesConfig"; "routeAdvertisements"] "Enabled" /\
    exists i, i ∈ routes /\ exports_pod_network i.
Proof.
  unfold detectPodEgressPlatform. intros H Ht. exec_inv H. destruct r as [network|e].
  2:{ destruct (api_unreadable e).
      - apply exec_mbind in H as (? & ? & m & _ & _ & H). exec_inv H. by subst p.
      - exec_inv H. by subst p. }
  case_bool_decide as Ec; cbn [negb] in H; [|exec_inv H; by subst p].
  case_bool_decide as Er; cbn [negb] in H; [|exec_inv H; by subst p].
  exec_inv H. destruct r as [routes|e].
  2:{ destruct (api_absent e); [exec_inv H; by subst p|].
      destruct (is_kind EForbidden e); exec_inv H; by subst p. }
  destruct (hasAcceptedDefaultPodAdvertisement routes) eqn:Eh; cbn [negb] in H; [|exec_inv H; by subst p].
  exec_inv H. exists network, routes. split; [done|].
  unfold classifyPodEgressPlatform in Ec. case_bool_decide as Ety; cbn [negb] in Ec; [|done].
  pose proof (nested_bool_value (u_Object network)
    ["spec"; "defaultNetwork"; "ovnKubernetesConfig"; "gatewayConfig"; "routingViaHost"]) as Hb.
  split; [by apply nested_text|]. split; [|split; [by apply nested_text | by apply hasAccepted_exports]].
  unfold bool_at. destruct (NestedBool _ _) as [[b found] err]. cbn [fst] in Hb.
  destruct err; [done|]. destruct found, b; cbn in Ec; try done.
  destruct (gpath _ _) as [[| |b'| | |]|]; try done. by injection Hb as ->.
Qed.
End PlatformProbe.

Definition ovn_network : Unstructured := MkUnstructured "cluster" [("spec", GMap [("defaultNetwork",
  GMap [("type", GStr "OVNKubernetes");
        ("ovnKubernetesConfig", GMap [("gatewayConfig", GMap [("routingViaHost", GBool true)]);
                                      ("routeAdvertisements", GStr "Enabled")])])])].

Definition ovn_route : Unstructured := MkUnstructured "default"
  [("spec", GMap [("advertisements", GSlice [GStr "PodNetwork"]);
                  ("networkSelectors", GSlice [GMap [("networkSelectionType", GStr "DefaultNetwork")]])]);
   ("status", GMap [("status", GStr "Accepted")])].

Definition ovn_sim : handler oresp world := fun c w =>
  match c as c return oresp c * world with
  | OGet OperatorNetwork _ => (Ok ovn_network, w)
  | OList RouteAdvertisements _ => (Ok [ovn_route], w)
  | c' => osim c' w
  end.

Lemma platform_true_verified_witness :
  exists network routes,
    trace_of oresp ovn_sim (detectPodEgressPlatform (L := ref_lib)) live_world
      = [existT (OGet OperatorNetwork "cluster") (Ok network);
         existT (OList RouteAdvertisements None) (Ok routes)] /\
    text_at network ["spec"; "defaultNetwork"; "type"] "OVNKubernetes" /\
    bool_at network ["spec"; "defaultNetwork"; "ovnKubernetesConfig"; "gatewayConfig"; "routingViaHost"] /\
    text_at network ["spec"; "defaultNetwork"; "ovnKubernetesConfig"; "routeAdvertisements"] "Enabled" /\
    exists i, i ∈ routes /\ exports_pod_network i.
Proof.
  apply (platform_true_verified (L := ref_lib) (K8sLaws0 := ref_laws) _
    (result_of oresp ovn_sim (detectPodEgressPlatform (L := ref_lib)) live_world)).
  - exact (run_exec oresp ovn_sim (detectPodEgressPlatform (L := ref_lib)) live_world).
  - vm_compute. reflexivity.
Defined.
