(* ===== verification/RegistrarLink.v ===== *)
(** * From the operator to the topology of the AS

    The request that the HTTP backend of the operator sends, handled by the
    registrar that [cmd/registrar] builds. *)
From S2P Require Import Prelude Effects GoStrings Netip Json JsonStrings JsonFacts.
From S2P Require Import Api K8s AgentEnv FileSystem Config OperatorEnv Backends.
From S2P Require Import Topology Server TopologyFacts TopologyProps ServerProps.
Local Open Scope Z_scope.

(** ** Transport *)

(** What the registrar sees of a request sent to an endpoint without a path. *)
Definition delivered (endpoint : string) (q : HttpReq) : Request :=
  MkRequest (rq_method q) (TrimPrefix (rq_url q) endpoint)
    (default "" ((list_to_map (rq_headers q) : gmap string string) !! "Authorization")) (rq_body q) None.

(** The entry the registrar makes of a SIG of the operator. *)
Definition entry (s : Backends.SIG) : Topology.SIG := Topology.MkSIG (sig_CtrlAddr s) (sig_DataAddr s).

Definition registered (sigs : list Backends.SIG) : gmap string Topology.SIG := entry <$> sig_body sigs.

Definition utf8_names (sigs : list Backends.SIG) : Prop :=
  Forall (fun s => utf8 (sig_Name s) /\ utf8 (sig_CtrlAddr s) /\ utf8 (sig_DataAddr s)) sigs.

Lemma sig_body_lookup sigs name s : sig_body sigs !! name = Some s -> s ∈ sigs /\ sig_Name s = name.
Proof.
  unfold sig_body.
  assert (H : forall l (m : gmap string Backends.SIG),
    foldl (fun m s => <[sig_Name s := s]> m) m l !! name = Some s ->
    (s ∈ l /\ sig_Name s = name) \/ m !! name = Some s).
  { clear. induction l as [|x l IH]; intros m; cbn [foldl]; [by right|].
    intros [[Hin Hn] | [[Hn <-] | [_ Hm]]%lookup_insert_Some]%IH.
    - left. split; [by apply list_elem_of_further | done].
    - left. split; [apply list_elem_of_here | done].
    - by right. }
  intros [? | ?%lookup_empty_Some]%H; done.
Qed.

Lemma registered_utf8 sigs : utf8_names sigs -> utf8_sigs (registered sigs).
Proof.
  intros Hu name s. unfold registered. rewrite lookup_fmap. intros (x & [Hin <-]%sig_body_lookup & ->)%fmap_Some.
  destruct (proj1 (Forall_forall _ _) Hu x Hin) as (? & ? & ?). by repeat split.
Qed.

(** The body of the request is the text of that set. *)
Lemma body_json sigs : json_of_sigs (sig_body sigs)
  = JObj (map (fun '(k, s) => (quote k, Topology.json_of_SIG (entry s))) (sorted_entries (sig_body sigs))).
Proof. done. Qed.

Lemma body_wf sigs : utf8_names sigs -> wf 0 (json_of_sigs (sig_body sigs)).
Proof.
  intros Hu. rewrite body_json. apply (wf_entries _ quote (fun s => Topology.json_of_SIG (entry s))); [exact depth0|].
  intros k v Hv. pose proof (registered_utf8 _ Hu k (entry v)) as H. unfold registered in H.
  rewrite lookup_fmap, Hv in H. destruct (H eq_refl) as [Hk Hs].
  split; [by apply quote_raw | by apply wf_json_of_SIG; [exact depth1|]].
Qed.

Lemma decode_delivered h sigs ca : utf8_names sigs ->
  (String.length (rq_body (http_request h sigs ca)) <= maxBodyBytes)%nat ->
  decode_body (decode_sig_map reject_unknown None) (delivered (http_Endpoint h) (http_request h sigs ca)) = Ok (Some (registered sigs)).
Proof.
  intros Hu Hl. rewrite (decode_whole_body _ _ (json_of_sigs (sig_body sigs)) ""); [|by apply body_wf | done | by rewrite string_app_nil_r | done..].
  rewrite body_json. cbn [decode_sig_map default].
  rewrite (decode_sig_members_entries _ quote (fun s => Topology.json_of_SIG (entry s)) entry); [done|].
  intros k v Hv. pose proof (registered_utf8 _ Hu k (entry v)) as H. unfold registered in H.
  rewrite lookup_fmap, Hv in H. destruct (H eq_refl) as [Hk Hs].
  split; [by apply unquote_quote | by apply decode_SIG_json].
Qed.

Lemma delivered_for h sigs ca f env s : new_server f env = Ok s -> http_Token h = env "REGISTRAR_TOKEN" ->
  request_for "PUT" s (delivered (http_Endpoint h) (http_request h sigs ca)).
Proof.
  intros (_ & _ & Hne & Htok & _)%new_server_ok Hh. split; [|split; [apply TrimPrefix_app | done]].
  unfold authorized, delivered. cbn [rq_Authorization http_request rq_headers].
  rewrite !list_to_map_cons, lookup_insert_ne, lookup_insert_eq by done. cbn [default]. unfold id.
  by rewrite !bool_decide_eq_false_2, bool_decide_eq_true_2 by congruence.
Qed.

(** ** The operator's set in the topology *)

(** The request of the HTTP backend, delivered to a registrar with the same
    token, is authorised and decoded to exactly the SIGs of the operator (the last
    of several with one name); when the registrar answers 204, the one answer the
    backend takes for success, the topology holds under the prefix exactly these
    entries, and everything else in it is as it was. *)
Lemma ensure_registers h sigs ca f env s fs tr a seen fs' :
  new_server f env = Ok s -> http_Token h = env "REGISTRAR_TOKEN" -> utf8 (f_prefix f) -> utf8_names sigs ->
  (String.length (rq_body (http_request h sigs ca)) <= maxBodyBytes)%nat ->
  let r := delivered (http_Endpoint h) (http_request h sigs ca) in
  exec (Handler s r) tr a -> fs_run fs tr seen fs' -> f_topology f ∉ temps tr ->
  request_for "PUT" s r /\
  decode_body (decode_sig_map reject_unknown None) r = Ok (Some (registered sigs)) /\
  (a = Val (Answer 204 []) -> exists raw out t sg t' sg',
     fs !! f_topology f = Some raw /\ fs' !! f_topology f = Some out /\
     Unmarshal (decode_raw_map None) raw = Ok (Some t) /\ existing_sigs (Some t) = Ok sg /\
     Unmarshal (decode_raw_map None) out = Ok (Some t') /\ existing_sigs (Some t') = Ok sg' /\
     doc_spec (registered sigs) (f_prefix f) t t' sg sg').
Proof.
  intros Hs Htok Hp Hu Hl r He Hr Ht.
  assert (Hreq : request_for "PUT" s r) by (by apply delivered_for with (f := f) (env := env)).
  pose proof (decode_delivered h sigs ca Hu Hl) as Hd. split; [done|]. split; [done|].
  intros ->. destruct (put_done _ _ _ _ _ _ _ _ _ _ _ Hs Hreq Hd He (or_introl eq_refl) Hr Ht)
    as (raw & out & Hraw & Hpat & Hout).
  destruct (patched_doc _ _ _ _ _ Hp (registered_utf8 _ Hu) Hpat) as (t & sg & t' & sg' & H).
  by exists raw, out, t, sg, t', sg'.
Qed.

Definition sample_backend : HTTPBackend := MkHTTP "https://registrar:8642" "secret" "".
Definition sample_sigs : list Backends.SIG := [Backends.MkSIG "node-a" "192.0.2.3:30256" "192.0.2.3:30056"].
Definition sample_delivered : Request := delivered (http_Endpoint sample_backend) (http_request sample_backend sample_sigs None).

Lemma ensure_registers_witness : exists out t' sg',
  state_of aresp (sim no_net) (Handler sample_server sample_delivered) sample_disk !! "/etc/scion/topology.json"
    = Some out /\
  Unmarshal (decode_raw_map None) out = Ok (Some t') /\ existing_sigs (Some t') = Ok sg' /\
  decode_struct reject_unknown SIG_fields zero_SIG <$> default ∅ sg' !! "k8s-node-a"
  = Some (Ok (Topology.MkSIG "192.0.2.3:30256" "192.0.2.3:30056")).
Proof.
  destruct (sim_run no_net (Handler sample_server sample_delivered) sample_disk) as [seen Hrun].
  destruct (ensure_registers sample_backend sample_sigs None default_flags sample_env sample_server sample_disk
    (trace_of aresp (sim no_net) (Handler sample_server sample_delivered) sample_disk)
    (result_of aresp (sim no_net) (Handler sample_server sample_delivered) sample_disk) seen
    (state_of aresp (sim no_net) (Handler sample_server sample_delivered) sample_disk)
    sample_new_server eq_refl) as (_ & _ & H); [by apply utf8_ascii | | | apply run_exec | exact Hrun | |].
  - constructor; [|constructor]. split_and!; by apply utf8_ascii.
  - apply Nat.leb_le. vm_compute. reflexivity.
  - replace (temps _) with ["/etc/scion.topology-*.json"] by (vm_compute; reflexivity).
    clear. intros H%list_elem_of_singleton. discriminate H.
  - destruct H as (raw & out & t & sg & t' & sg' & _ & Hout & _ & _ & Ht & Hs & Hspec).
    + vm_compute. reflexivity.
    + exists out, t', sg'. split; [exact Hout|]. split; [exact Ht|]. split; [exact Hs|].
      exact (managed_desired _ _ _ _ _ _ Hspec "node-a").
Defined.
