(* ===== verification/GatewayLink.v ===== *)
(** * Where the gateway listens and what is registered

    The operator registers the addresses of a node's gateway from the node
    object; the agent binds them from the same object. *)
From S2P Require Import Prelude Effects GoStrings Api K8s Netip Json Config AgentEnv FileSystem OperatorEnv Kube Bootstrap Policy NetipFacts.
From S2P Require Import Sig Resources SigProps Agent Backends RegistrarSync.
Local Open Scope Z_scope.

(** The gateways that run in a trace. *)
Definition gateways (tr : list (event aresp)) : list Gateway :=
  omap (fun ev => match projT1 ev with GatewayRun gw => Some gw | _ => None end) tr.

Lemma gateways_app t1 t2 : gateways (t1 ++ t2) = gateways t1 ++ gateways t2.
Proof. apply omap_app. Qed.

Lemma no_start_gateways tr : no_start tr -> gateways tr = [].
Proof.
  unfold no_start. induction tr as [|[c r] tr IH]; [done|]. cbn [forallb]. intros [Hc Ht]%andb_prop.
  unfold gateways in *. cbn. rewrite (IH Ht). by destruct c.
Qed.

Lemma gateway_ran_gateways p tr r : gateway_ran p tr r -> NodeIP p <> [] ->
  exists ia, gateways tr = [new_gateway p ia (NodeIP p)].
Proof.
  intros (pre & ia & ip & e & -> & Hn & _ & Hip & _) Hne. exists ia.
  rewrite !gateways_app, (no_start_gateways _ Hn), (Hip Hne). unfold up_events. by destruct (has_OnUp p).
Qed.

(** A gateway that runs listens on the address it was given. *)
Lemma sig_Run_binds p tr r gw : exec (sig_Run p) tr r -> gw ∈ gateways tr -> NodeIP p <> [] ->
  exists ia, gw = new_gateway p ia (NodeIP p).
Proof.
  unfold sig_Run. intros He Hin Hip. destruct (negb _); [exec_inv He; by apply elem_of_nil in Hin|].
  exec_inv He. destruct r0; [exec_inv He; by apply elem_of_nil in Hin|].
  exec_inv He. destruct r0; [exec_inv He; by apply elem_of_nil in Hin|].
  apply exec_mbind in He as (t1 & t2 & r1 & -> & [_ H]%with_connector_exec & He). exec_inv He.
  change (gw ∈ gateways (t1 ++ [existT (Release "connector" (certs_dir (ConfigDir p))) r0])) in Hin.
  rewrite gateways_app, app_nil_r in Hin. destruct H as [H | [H _]].
  - destruct (gateway_ran_gateways _ _ _ H Hip) as [ia E]. rewrite E in Hin. exists ia.
    by apply list_elem_of_singleton in Hin.
  - rewrite (no_start_gateways _ H) in Hin. by apply elem_of_nil in Hin.
Qed.

(** ** The node of the agent *)
Section Link.
Context `{L : K8sLib}.

Lemma GetNodeInfo_node name tr info : exec (GetNodeInfo name) tr (Ok info) ->
  exists n, existT (GetNode name) (Ok n) ∈ tr /\ InternalIP info = internal_ip (n_Addresses n).
Proof.
  unfold GetNodeInfo. intros He. exec_inv He. destruct r as [n|err]; [|by exec_inv He]. exists n.
  destruct (bool_decide _); exec_inv He; [done|]. injection He as ->. split; [apply list_elem_of_here | done].
Qed.

Lemma cni_info_ip name info tr info' dyn : exec (cni_info name info) tr (Ok (info', dyn)) ->
  InternalIP info' = InternalIP info.
Proof.
  unfold cni_info. intros (t1 & t2 & calico & -> & _ & He)%exec_mbind. destruct calico as [cidrs|err].
  - exec_inv He. injection He as -> _. by case_bool_decide.
  - destruct (negb _); [by exec_inv He|].
    apply exec_mbind in He as (t3 & t4 & cilium & -> & _ & He). destruct cilium as [cidrs|err'].
    + exec_inv He. injection He as -> _. by case_bool_decide.
    + destruct (negb _); exec_inv He; [done|]. by injection He as -> _.
Qed.

Lemma nodeInfo_node env cfg tr info dyn : env "SCION_LOCAL_PREFIXES" = "" ->
  exec (nodeInfo env cfg) tr (Ok (info, dyn)) ->
  exists n, existT (GetNode (NodeName cfg)) (Ok n) ∈ tr /\ InternalIP info = internal_ip (n_Addresses n).
Proof.
  unfold nodeInfo. intros -> He. cbn [negb bool_decide] in He. rewrite bool_decide_eq_true_2 in He by done.
  cbn [negb] in He. exec_inv He. destruct r; [by exec_inv He|]. exec_inv He. destruct r; [by exec_inv He|].
  apply exec_try in He as [(t1 & t2 & info0 & -> & H1 & He) | (err & ? & _)]; [|done].
  exec_inv He. destruct r; [by exec_inv He|]. apply cni_info_ip in He.
  destruct (GetNodeInfo_node _ _ _ H1) as (n & Hn & Hip). exists n. split; [|congruence].
  do 2 apply list_elem_of_further. apply elem_of_app. by left.
Qed.

Lemma startup_node env tr s : exec (startup env) tr (Val (Ok s)) -> env "SCION_LOCAL_PREFIXES" = "" ->
  exists n a, existT (GetNode (NodeName (s_cfg s))) (Ok n) ∈ tr /\
    InternalIP (s_info s) = internal_ip (n_Addresses n) /\ ParseIP (InternalIP (s_info s)) = Some a.
Proof.
  unfold startup. intros He Henv. destruct (FromEnv env) as [cfg [err|]]; [by exec_inv He|].
  apply exec_mbind in He as (t1 & t2 & node & -> & H1 & He). destruct node as [[info dyn]|err]; [|by exec_inv He].
  destruct (ParseIP (InternalIP info)) as [a|] eqn:Ea; [|by exec_inv He].
  assert (Hs : s_cfg s = cfg /\ s_info s = info).
  { exec_inv He. destruct r; [by exec_inv He|]. destruct (NewDiscoverer _ _ _ _) as [disc|]; [|by exec_inv He].
    apply exec_mbind in He as (t3 & t4 & f & -> & _ & He). destruct f as [u|]; [|by exec_inv He].
    apply exec_go_try in He as [(t5 & t6 & inp & -> & _ & He) | [(? & ? & _) | [[? _] | [? _]]]]; [|done..].
    match type of He with exec (match ?x with _ => _ end) _ _ => destruct x end; [by exec_inv He|].
    apply exec_mbind in He as (t7 & t8 & x & -> & _ & He).
    destruct (go_map_err _ x) as [[w|]| |]; exec_inv He; try done. by injection He as ->. }
  destruct Hs as [-> ->]. destruct (nodeInfo_node _ _ _ _ _ Henv H1) as (n & Hn & Hip).
  exists n, a. split; [apply elem_of_app; by left | done].
Qed.

Lemma To16_nonempty s a : ParseIP s = Some a -> To16 a <> [].
Proof.
  unfold ParseIP. destruct (ParseAddr s) as [b|] eqn:E; [|done]. destruct (hasZone b); [done|]. intros [= <-].
  apply ParseAddr_valid in E. destruct b; [done | |]; cbn [To16 bytes_be]; by intros []%app_nil.
Qed.

(** C17: The gateway of a node listens on the addresses the operator registers for
    it in the AS: both take the first internal address of the node object, and
    the ports agree. *)
Theorem gateway_where_registered env tr s tr' r gw :
  exec (startup env) tr (Val (Ok s)) -> env "SCION_LOCAL_PREFIXES" = "" ->
  exec (sig_Run (gateway_params s)) tr' r -> gw ∈ gateways tr' ->
  exists n a, existT (GetNode (NodeName (s_cfg s))) (Ok n) ∈ tr /\
    let ip := internal_ip (n_Addresses n) in
    ParseIP ip = Some a /\ udp_IP (gw_ControlServerAddr gw) = To16 a /\ udp_IP (gw_DataServerAddr gw) = To16 a /\
    sig_CtrlAddr (node_sig n ip) = ip +:+ ":" +:+ itoa (udp_Port (gw_ControlServerAddr gw)) /\
    sig_DataAddr (node_sig n ip) = ip +:+ ":" +:+ itoa (udp_Port (gw_DataServerAddr gw)).
Proof.
  intros Hs Henv Hrun Hgw. destruct (startup_node _ _ _ Hs Henv) as (n & a & Hn & Hip & Ha).
  assert (Hne : NodeIP (gateway_params s) = To16 a) by (unfold gateway_params; cbn; by rewrite Ha).
  destruct (sig_Run_binds _ _ _ _ Hrun Hgw) as [ia ->]; [rewrite Hne; by eapply To16_nonempty|].
  exists n, a. rewrite Hne, <- Hip. done.
Qed.
End Link.

(** ** A node *)
Definition link_net (url : string) : result HttpResp :=
  let ok body := Ok (MkHttpResp 200 "200 OK" body None) in
  if bool_decide (url ∈ ["http://ds/topology"; "http://ds:8041/topology"])
  then ok (Marshal (JObj [(quote "isd_as", JStr (quote "1-ff00:0:110"))]))
  else if bool_decide (url ∈ ["http://ds/trcs"; "http://ds:8041/trcs"]) then ok "[]"
  else Ok (MkHttpResp 404 "404 Not Found" "" None).

Definition link_world : handler aresp fsys := fun c fs =>
  match c as c return aresp c * fsys with
  | GetNode name => (Ok (MkNode name ∅ ∅ "" ["10.244.1.0/24"] [MkNodeAddress "InternalIP" "192.0.2.3"]), fs)
  | ListBlockAffinities | ListCiliumNodes => (Err (Error ENotFound [Lit "no such resource"]), fs)
  | c => sim link_net c fs
  end.

Definition link_env (k : string) : string :=
  if bool_decide (k = "NODE_NAME") then "n1"
  else if bool_decide (k = "SCION_BOOTSTRAP_MODE") then "url"
  else if bool_decide (k = "SCION_DISCOVERY_URL") then "http://ds"
  else if bool_decide (k = "SCION_ACCEPT_ISD_ASES") then "1-ff00:0:111"
  else if bool_decide (k = "SCION_FORBIDDEN_CIDRS") then "192.168.0.0/16"
  else "".

Definition link_startup : agent (go Setup) := startup (L := ref_lib) link_env.
Definition link_setup : Setup :=
  match result_of aresp link_world link_startup ∅ with
  | Val (Ok s) => s
  | _ => MkSetup (fst (FromEnv link_env)) (MkNodeInfo [] "") false "" "" "" MDNSDiscoverer (MkInput "" [] [] [])
  end.

Lemma gateway_where_registered_witness : exists n a,
  existT (GetNode "n1") (Ok n) ∈ trace_of aresp link_world link_startup ∅ /\
  ParseIP (internal_ip (n_Addresses n)) = Some a.
Proof.
  pose proof (run_exec aresp link_world link_startup ∅) as Hs.
  replace (result_of aresp link_world link_startup ∅) with (Val (Ok link_setup)) in Hs by (vm_compute; reflexivity).
  destruct (gateway_where_registered (L := ref_lib) link_env _ link_setup _ _
    (new_gateway (gateway_params link_setup) "1-ff00:0:110" (NodeIP (gateway_params link_setup))) Hs eq_refl
    (run_exec aresp link_world (sig_Run (gateway_params link_setup)) ∅)) as (n & a & Hn & Ha & _).
  - vm_compute. apply list_elem_of_here.
  - exists n, a. split; [exact Hn | exact Ha].
Defined.
