(* ===== verification/PolicyLink.v ===== *)
(** * From the cluster API to the routing policy on a node

    A reconcile of the operator, the DaemonSet it leaves in the cluster, the
    start of an agent from that DaemonSet, and the routing policy file which that
    start leaves on the disk of the node. *)
From S2P Require Import Prelude Effects GoStrings Netip NetipFacts Json GoTime Api K8s Render Config AgentEnv FileSystem.
From S2P Require Import Kube Bootstrap OperatorEnv OperatorSim PolicyFacts DenyList DenyListProps Policy PolicyProps PolicyText Agent AgentProps.
From S2P Require Import Platform Backends RegistrarSync MetricsTLS Controller ClusterStore ControllerProps GatewayLink.
Local Open Scope Z_scope.
Local Open Scope prog_scope.

(** ** The operator *)
Section Operator.
Context `{L : K8sLib} `{!K8sLaws L} `{C : CtrlLib} `{!CtrlLaws C} `{X : X509Lib}.

(** The resource as the API server returned it, read or updated. *)
Definition returned (name : string) (tr : list (event oresp)) (sn : ScionNetwork) : Prop :=
  existT (OGetSN name) (Ok sn) ∈ tr \/ exists x, existT (OUpdateSN x) (Ok sn) ∈ tr.

Lemma os_run_same tr (st st' : objects) : applied tr = [] -> os_run st tr st' -> st' = st.
Proof.
  revert st. induction tr as [|[c r] tr IH]; intros st Ha; cbn [os_run]; [done|].
  intros (st1 & Hs & Hr). destruct c; cbn in Ha, Hs; subst; try done; by apply IH.
Qed.

(** A reconcile without error of a resource that is there to stay: it computed
    the deny list and applied the objects rendered with it, and nothing else. *)
Lemma Reconcile_applied r name tr res : exec (Reconcile r name) tr (res, None) ->
  (exists sn, existT (OGetSN name) (Ok sn) ∈ tr) ->
  (forall sn, returned name tr sn -> sn_DeletionTimestamp sn = None) ->
  exists sn image deny os t1 t2 t3 t4 t5, tr = t1 ++ t2 ++ t3 ++ t4 ++ t5 /\ returned name tr sn /\
    exec (clusterForbiddenCIDRs sn) t2 (Ok (deny, os)) /\ exec (apply r sn image deny os) t4 None /\
    applied t1 = [] /\ applied t2 = [] /\ applied t3 = [] /\ applied t5 = [].
Proof.
  intros H [sn0 Hget] Hlive. unfold Reconcile in H. exec_inv H. destruct r0 as [sn1|e].
  2:{ exec_inv H. apply list_elem_of_singleton in Hget.
      pose proof (f_equal (fun ev => match ev with existT (OGetSN _) (Ok _) => true | _ => false end) Hget). done. }
  rewrite (Hlive sn1) in H by (left; by left).
  assert (Hp : exists sn t1 t2, returned name (existT (OGetSN name) (Ok sn1) :: tr0) sn /\ tr0 = t1 ++ t2 /\
    applied t1 = [] /\ exec (reconcile_present r sn) t2 (res, None)).
  { destruct (negb _).
    - exec_inv H. destruct r0 as [sn2|e]; [|by exec_inv H]. eexists sn2, [_], tr. split; [|done].
      right. eexists. right. by left.
    - exists sn1, [], tr0. split; [left; by left | done]. }
  destruct Hp as (sn & t1 & t2 & Hsn & -> & Ht1 & Hp). clear H. unfold reconcile_present in Hp.
  apply exec_mbind in Hp as (t3 & t4 & [[deny os]|e] & -> & Hd & H).
  2:{ apply exec_mbind in H as (? & ? & [] & _ & _ & H). by exec_inv H. }
  apply exec_mbind in H as (t5 & t6 & [e|] & -> & Hv & H).
  { apply exec_mbind in H as (? & ? & [] & _ & _ & H). by exec_inv H. }
  apply exec_mbind in H as (t7 & t8 & platform & -> & Hpf & H). cbn zeta in H.
  apply exec_mbind in H as (t9 & t10 & [e|] & -> & Hap & H).
  { apply exec_mbind in H as (? & ? & [] & _ & _ & H). by exec_inv H. }
  pose proof (applies_nothing _ _ _ (clusterForbiddenCIDRs_applies _ sn) Hd) as H3.
  pose proof (applies_nothing _ _ _ (validateNodeIPAdvertisement_applies _ sn) Hv) as H5.
  pose proof (applies_nothing _ _ _ (detectPodEgressPlatform_applies _) Hpf) as H7.
  pose proof (applies_nothing _ _ _ (after_apply_applies _ sn platform) H) as H10.
  eexists sn, _, deny, os, (_ :: t1), t3, (t5 ++ t7), t9, t10.
  split; [by rewrite <- !app_assoc|]. split_and!; [done | exact Hd | exact Hap | exact Ht1 | done | | done].
  by rewrite applied_app, H5, H7.
Qed.
End Operator.

(** ** The agent *)
Section Agent.
Context `{L : K8sLib}.

(** The start of an agent ends with the writes of both policies. *)
Lemma startup_renders env tr s : exec (startup env) tr (Val (Ok s)) ->
  FromEnv env = (s_cfg s, None) /\
  exists t1 t2 t3, tr = t1 ++ t2 ++ t3 /\
    exec (policyInput (s_confDir s) (s_info s) (s_cfg s)) t2 (Ok (s_input s)) /\
    exec (renderPolicies (s_input s) (s_trafficFile s) (s_routingFile s)) t3 (Val (Ok tt)).
Proof.
  unfold startup. intros He. destruct (FromEnv env) as [cfg [err|]] eqn:Ecfg; [by exec_inv He|].
  apply exec_mbind in He as (t1 & t2 & node & -> & H1 & He). destruct node as [[info dyn]|err]; [|by exec_inv He].
  destruct (ParseIP (InternalIP info)) as [a|] eqn:Ea; [|by exec_inv He].
  exec_inv He. destruct r; [by exec_inv He|]. destruct (NewDiscoverer _ _ _ _) as [disc|]; [|by exec_inv He].
  apply exec_mbind in He as (t3 & t4 & f & -> & _ & He). destruct f as [u|]; [|by exec_inv He].
  apply exec_go_try in He as [(t5 & t6 & inp & -> & Hi & He) | [(? & ? & _) | [[? _] | [? _]]]]; [|done..].
  match type of He with exec (match ?x with _ => _ end) _ _ => destruct x end; [by exec_inv He|].
  apply exec_mbind in He as (t7 & t8 & x & -> & Hr & He).
  destruct x as [[[]|e]| |]; cbn [go_map_err result_map_err] in He; [|by exec_inv He..].
  exec_inv He. injection He as ->. cbn. split; [done|]. apply exec_no_panic in Hi as (ri & [= <-] & Hi).
  eexists (t1 ++ _ :: t3), t5, t7. split; [|done]. rewrite app_nil_r, <- app_assoc. done.
Qed.

Lemma field_plain x : str_forall plain_char x = true -> field_text x = true.
Proof.
  intros H. unfold field_text, lacks. apply andb_true_intro. split; revert H; apply str_forall_weaken;
    intros c Hc; case_bool_decide as E; try done; by rewrite E in Hc.
Qed.

Lemma addr_char_code c : addr_char c = true -> 46 <= code c <= 102.
Proof.
  unfold addr_char, byte_is, hex_val. intros [[H%bool_decide_eq_true | H]%orb_prop | H]%orb_prop; [|lia..].
  destruct ((48 <=? code c) && (code c <=? 57)) eqn:E1; [lia|].
  destruct ((97 <=? code c) && (code c <=? 102)) eqn:E2; [lia|].
  destruct ((65 <=? code c) && (code c <=? 70)) eqn:E3; [lia | by destruct H].
Qed.

(** What a node advertises fits in a rule of the routing policy. *)
Lemma advertised_printable info cfg :
  Forall (fun n => field_text n = true /\ lacks "," n = true /\ is_ok (ParsePrefix n) = true) (advertisedNets info cfg).
Proof.
  unfold advertisedNets. apply Forall_app. split.
  - destruct (AdvertisePodCIDR cfg); [|constructor]. apply Forall_forall. intros n [Hn _]%list_elem_of_filter.
    unfold is_ipv4_prefix in Hn. destruct (ParsePrefix n) as [p|] eqn:E; [|done].
    destruct (cidr_item n) as (_ & Hp & Hc); [by exists p|]. split; [by apply field_plain | done].
  - destruct (AdvertiseNodeIP cfg && is_ipv4_ip (InternalIP info)) eqn:E; [|constructor].
    apply andb_prop in E as [_ E]. unfold is_ipv4_ip in E. destruct (ParseIP _) as [a|] eqn:Ea; [|done].
    apply Forall_singleton. pose proof (host_route_ok _ _ Ea) as Hok.
    apply ParseIP_text in Ea. unfold lacks. split_and!; [apply field_plain | | exact Hok]; clear Hok;
      rewrite str_forall_app; apply andb_true_intro; (split; [|done]); revert Ea; apply str_forall_weaken;
      intros c Hc%addr_char_code; [unfold plain_char; lia|].
    apply negb_true_iff, bool_decide_eq_false. intros ->. vm_compute in Hc. by destruct Hc.
Qed.

Lemma policyInput_printable confDir info cfg t inp : exec (policyInput confDir info cfg) t (Ok inp) ->
  field_text (LocalIA inp) = true -> Forall list_item (AcceptISDASes inp) -> printable inp.
Proof.
  intros [(t1 & t2 & ia & -> & _ & He) | (e & ? & _)]%exec_try Hia Has; [|done]. exec_inv He. injection He as ->.
  split; [done|]. split; [|apply advertised_printable]. eapply Forall_impl; [exact Has|].
  intros x (Hne & Hp & _). split; [done | by apply field_plain].
Qed.

(** The routing policy that the start leaves on the disk. *)
Lemma startup_policy env tr s fs seen fs' : exec (startup env) tr (Val (Ok s)) -> fs_run fs tr seen fs' ->
  exists t text, exec (policyInput (s_confDir s) (s_info s) (s_cfg s)) t (Ok (s_input s)) /\
    RenderRoutingPolicy (s_input s) = Val (Ok text) /\ fs' !! s_routingFile s = Some text.
Proof.
  intros (_ & t1 & t2 & t3 & -> & Hi & Hr)%startup_renders Hrun.
  apply renderPolicies_spec in Hr as [(e & ? & _) | (traffic & routing & _ & Hrt & [(e & ? & _) | (w & Hw & ->)])]; [done..|].
  destruct w; [done|]. exists t2, routing. split; [done|]. split; [done|].
  apply fs_run_app in Hrun as (? & ? & f1 & _ & _ & (? & ? & f2 & _ & _ & Hrun)%fs_run_app).
  fs_steps Hrun. subst. apply lookup_insert_eq.
Qed.
End Agent.

(** ** Together *)
Section Together.
Context `{L : K8sLib} `{!K8sLaws L} `{C : CtrlLib} `{!CtrlLaws C} `{X : X509Lib}.

(** The addresses of a deny list. *)
Lemma deny_addresses sn tr deny os : exec (clusterForbiddenCIDRs sn) tr (Ok (deny, os)) ->
  Forall ipv4_cidr deny /\
  forall a, ~ text_in4 deny a <-> forall c, ipv4_cidr c -> offered sn tr c -> ~ text_in4 [c] a.
Proof.
  intros (out & -> & Hout & _)%clusterForbiddenCIDRs_run.
  assert (Hdeny : forall c, c ∈ sort_strings (dedupe out) <-> ipv4_cidr c /\ offered sn tr c).
  { intros c. rewrite elem_of_sort_strings, elem_of_dedupe, Hout. pose proof (ipv4_cidr_ne c). naive_solver. }
  split; [apply Forall_forall; by intros c [? _]%Hdeny|].
  intros a. rewrite text_in4_each. setoid_rewrite Hdeny. naive_solver.
Qed.

(** The environment of a pod depends on the payload only. *)
Lemma pod_environ_payload o o' nodeName : o_Payload o = o_Payload o' -> pod_environ o nodeName = pod_environ o' nodeName.
Proof. intros H. unfold pod_environ, container_env. by rewrite H. Qed.

(** C1: From the cluster API to the gateway of a node.  Take a reconcile that ends
    without error, and any agent that starts, on any node, from the DaemonSet it
    left in the cluster.  The routing policy on the disk of that node accepts an
    address from an AS exactly when the AS is one of the resource's, the traffic
    is for the node's own AS, and no IPv4 CIDR that the resource or a source of
    the cluster offered to the reconcile contains the address.  In particular no
    remote AS can attract traffic for a cluster network.  The file is a text of
    the documented format exactly when the offered CIDRs leave an address; one
    that is not accepts nothing.  (The identifier of the node's AS comes from the
    discovery server; it must fit in a line.) *)
Theorem cluster_to_gateway r name tr res (st st' : objects) :
  exec (Reconcile r name) tr (res, None) -> os_run st tr st' ->
  (exists sn, existT (OGetSN name) (Ok sn) ∈ tr) ->
  (forall sn, returned name tr sn ->
     sn_DeletionTimestamp sn = None /\ crd_valid (Spec sn) = true /\ is_ok (ParseDuration (refresh_of sn)) = true) ->
  exists sn deny os t1 t2 t3 ds, returned name tr sn /\ tr = t1 ++ t2 ++ t3 /\
    exec (clusterForbiddenCIDRs sn) t2 (Ok (deny, os)) /\
    st' !! key "DaemonSet" Namespace agentName = Some ds /\
    forall nodeName tra s fs seen fs', nodeName <> "" ->
      exec (startup (pod_environ ds nodeName)) tra (Val (Ok s)) -> fs_run fs tra seen fs' ->
      field_text (LocalIA (s_input s)) = true ->
      exists text, fs' !! s_routingFile s = Some text /\
        (is_Some (read_policy text) <->
         exists a, 0 <= a < 2 ^ 32 /\ forall c, ipv4_cidr c -> offered sn t2 c -> ~ text_in4 [c] a) /\
        forall from to a, 0 <= a < 2 ^ 32 ->
          policy_accepts text from to a <->
          from ∈ ISDASes (AcceptPolicy (Spec sn)) /\ to = LocalIA (s_input s) /\
          forall c, ipv4_cidr c -> offered sn t2 c -> ~ text_in4 [c] a.
Proof.
  intros He Hr Hget Hret.
  destruct (Reconcile_applied r name tr res He Hget) as (sn & image & deny & os & t1 & t2 & t3 & t4 & t5 & -> & Hsn & Hd & Ha & H1 & H2 & H3 & H5).
  { intros sn Hs. by apply Hret. }
  destruct (Hret sn Hsn) as (_ & Hv & Hdur). destruct (ParseDuration (refresh_of sn)) as [d|] eqn:Ed; [|done].
  apply os_run_app in Hr as (s1 & ->%os_run_same & Hr); [|done]. apply os_run_app in Hr as (s2 & ->%os_run_same & Hr); [|done].
  apply os_run_app in Hr as (s3 & ->%os_run_same & Hr); [|done]. apply os_run_app in Hr as (s4 & Hr4 & ->%os_run_same); [|done].
  destruct (applied_daemonset _ _ _ _ _ _ _ _ Ha Hr4) as (ds & Hds & Hpay).
  destruct (deny_addresses _ _ _ _ Hd) as [H4 Hdeny].
  exists sn, deny, os, t1, t2, (t3 ++ t4 ++ t5), ds. split_and!; [done..|].
  intros nodeName tra s fs seen fs' Hn Hs Hrun Hia. rewrite (pod_environ_payload _ _ _ Hpay) in Hs.
  destruct (FromEnv_policy sn image deny true nodeName d Hv Hn Ed H4) as (cfg & Hcfg & Hpol).
  destruct (startup_renders _ _ _ Hs) as [Hcfg' _]. rewrite Hcfg in Hcfg'. injection Hcfg' as ->.
  destruct (startup_policy _ _ _ _ _ _ Hs Hrun) as (t & text & Hi & Htext & Hfile).
  destruct (Hpol _ _ _ _ Hi) as (Has & Hf & _).
  assert (Hp : printable (s_input s)).
  { eapply policyInput_printable; [exact Hi | done |]. rewrite Has. apply Forall_forall. intros x Hx.
    unfold crd_valid in Hv. rewrite !andb_true_iff, forallb_spec in Hv. by apply isd_as_item, Hv. }
  destruct (routing_accepts _ _ (routing_rules _ _ Htext Hp)) as [Hread Hacc].
  exists text. split; [done|]. split; [rewrite Hread, Hf; by setoid_rewrite Hdeny|].
  intros from to a Hrange. by rewrite (Hacc _ _ _ Hrange), Has, Hf, Hdeny.
Qed.
End Together.

(** ** A cluster *)
Definition resources_of (tr : list (event oresp)) : list ScionNetwork :=
  omap (fun ev => let 'existT c r := ev in
                  match c as c return oresp c -> option ScionNetwork with
                  | OGetSN _ | OUpdateSN _ => fun r => match r with Ok sn => Some sn | Err _ => None end
                  | _ => fun _ => None
                  end r) tr.

Lemma returned_in name tr sn : returned name tr sn -> sn ∈ resources_of tr.
Proof. intros [H | [x H]]; apply list_elem_of_omap; (eexists; split; [exact H | done]). Qed.

Definition gets (name : string) (tr : list (event oresp)) : list ScionNetwork :=
  omap (fun ev => let 'existT c r := ev in
                  match c as c return oresp c -> option ScionNetwork with
                  | OGetSN n => fun r =>
                      match r with Ok sn => if bool_decide (n = name) then Some sn else None | Err _ => None end
                  | _ => fun _ => None
                  end r) tr.

Lemma gets_in name tr sn : sn ∈ gets name tr -> existT (OGetSN name) (Ok sn) ∈ tr.
Proof.
  intros ([c r] & Hin & H)%list_elem_of_omap. destruct c; try done. cbn in H. destruct r as [x|]; [|done].
  case_bool_decide; [|done]. subst. by injection H as ->.
Qed.

Lemma link_step c fs : fs_step fs (existT c (fst (link_world c fs))) (snd (link_world c fs)).
Proof. destruct c; try apply (sim_step link_net); done. Qed.

(** The DaemonSet of the simulated cluster, and an agent started from it. *)
Definition live_objects : objects := w_objects (state_of oresp osim sim_reconcile live_world).
Definition live_ds : KObj := default NamespaceObj (live_objects !! key "DaemonSet" Namespace agentName).
Definition live_startup : agent (go Setup) := startup (L := ref_lib) (pod_environ live_ds "n1").
Definition live_setup : Setup :=
  match result_of aresp link_world live_startup ∅ with Val (Ok s) => s | _ => link_setup end.

Lemma cluster_to_gateway_witness : exists t2 text,
  state_of aresp link_world live_startup ∅ !! "/var/lib/scion-node-agent/gateway-routing.policy" = Some text /\
  is_Some (read_policy text) /\
  forall from to a, 0 <= a < 2 ^ 32 ->
    policy_accepts text from to a <->
    from ∈ ISDASes (AcceptPolicy (Spec live_sn)) /\ to = "1-ff00:0:110" /\
    forall c, ipv4_cidr c -> offered (L := ref_lib) live_sn t2 c -> ~ text_in4 [c] a.
Proof.
  pose proof ref_laws as HL. pose proof ref_ctrl_laws as HC.
  assert (Hres : forall sn, returned "cluster" (trace_of oresp osim sim_reconcile live_world) sn -> sn = live_sn).
  { intros sn Hsn%returned_in. replace (resources_of _) with [live_sn] in Hsn by (vm_compute; reflexivity).
    by apply list_elem_of_singleton in Hsn. }
  destruct (cluster_to_gateway (L := ref_lib) (C := ref_ctrl) (X := sim_x509) sim_rec "cluster"
    (trace_of oresp osim sim_reconcile live_world) (fst (result_of oresp osim sim_reconcile live_world))
    (w_objects live_world) live_objects) as (sn & deny & os & t1 & t2 & t3 & ds & H1 & _ & _ & H4 & H5).
  - replace None with (snd (result_of oresp osim sim_reconcile live_world)) by (vm_compute; reflexivity).
    rewrite <- surjective_pairing. exact (run_exec oresp osim sim_reconcile live_world).
  - exact (osim_run sim_reconcile live_world).
  - exists live_sn. apply gets_in. replace (gets _ _) with [live_sn] by (vm_compute; reflexivity). by left.
  - intros sn ->%Hres. vm_compute. repeat split; reflexivity.
  - apply Hres in H1 as ->. assert (Hds : ds = live_ds) by (unfold live_ds; by rewrite H4). rewrite Hds in H5.
    pose proof (run_exec aresp link_world live_startup ∅) as Hs.
    replace (result_of aresp link_world live_startup ∅) with (Val (Ok live_setup)) in Hs by (vm_compute; reflexivity).
    destruct (handler_run link_world live_startup ∅ link_step) as [seen Hrun].
    destruct (H5 "n1" _ live_setup ∅ seen _ ltac:(discriminate) Hs Hrun) as (text & Ht & _ & Ha);
      [vm_compute; reflexivity|].
    exists t2, text. split; [exact Ht|]. split; [|exact Ha].
    assert (Hr : is_Some (read_policy (default "" (state_of aresp link_world live_startup ∅
      !! "/var/lib/scion-node-agent/gateway-routing.policy")))) by (vm_compute; by eexists).
    change "/var/lib/scion-node-agent/gateway-routing.policy" with (s_routingFile live_setup) in Hr.
    rewrite Ht in Hr. exact Hr.
Defined.
