(* ===== verification/ClusterLink.v ===== *)
(** * From the nodes of the cluster to the topology of the AS

    A whole synchronisation of the operator with the registrar on the other end
    of its HTTP connection. *)
From S2P Require Import Prelude Effects GoStrings Netip Json JsonStrings JsonFacts.
From S2P Require Import Api K8s Render AgentEnv FileSystem Config OperatorEnv Kube Backends RegistrarSync.
From S2P Require Import Topology Server TopologyFacts TopologyProps ServerProps RegistrarLink.
From S2P Require Import OperatorSim Controller ControllerProps.
Local Open Scope Z_scope.

(** The registrar of these flags and this environment answers [q], which was sent
    to [endpoint], with [resp], and takes its disk from [fs] to [fs']. *)
Definition answers (f : Flags) (env : environ) (endpoint : string) (fs : fsys) (q : HttpReq) (resp : HttpResp)
    (fs' : fsys) : Prop :=
  exists s tr body seen, new_server f env = Ok s /\
    exec (Handler s (delivered endpoint q)) tr (Val (Answer (hr_code resp) body)) /\
    fs_run fs tr seen fs' /\ (f_topology f ∉ temps tr) /\
    (String.length (rq_body q) <= maxBodyBytes)%nat.

(** Only an authorised request is answered with 204. *)
Lemma accepted_authorized s r tr body : exec (Handler s r) tr (Val (Answer 204 body)) -> authorized s r = true.
Proof.
  unfold Handler, auth. case_bool_decide; [|by intros [_ ?]].
  destruct (authorized s r); [done|]. by intros [_ ?].
Qed.

(** Distinct names: every SIG is sent under its name. *)
Lemma sig_body_distinct sigs s : NoDup (sig_Name <$> sigs) -> s ∈ sigs -> sig_body sigs !! sig_Name s = Some s.
Proof.
  unfold sig_body.
  assert (H : forall l (m : gmap string Backends.SIG), NoDup (sig_Name <$> l) ->
    forall x, x ∈ l -> foldl (fun m s => <[sig_Name s := s]> m) m l !! sig_Name x = Some x).
  { clear. assert (Ho : forall l (m : gmap string Backends.SIG) n, n ∉ sig_Name <$> l ->
      foldl (fun m s => <[sig_Name s := s]> m) m l !! n = m !! n).
    { induction l as [|y l IH]; intros m n Hn; [done|]. cbn. rewrite IH by set_solver.
      apply lookup_insert_ne. set_solver. }
    induction l as [|y l IH]; intros m Hd x Hx; [by apply elem_of_nil in Hx|]. cbn in *.
    apply NoDup_cons in Hd as [Hy Hl].
    apply elem_of_cons in Hx as [-> | Hx]; [|by apply IH]. rewrite Ho by done. apply lookup_insert_eq. }
  intros Hn Hs. by apply H.
Qed.

Section Link.
Context `{L : K8sLib} `{!K8sLaws L} `{X : X509Lib}.

(** The nodes whose gateways are registered. *)
Definition member (sn : ScionNetwork) (nodes : list Node) (n : Node) : Prop :=
  n ∈ nodes /\ NodeSelector (Spec sn) ⊆ n_Labels n /\ internal_ip (n_Addresses n) <> "".

Lemma sigs_of_nodes sn nodes sigs skipped : nodesToSIGs nodes (NodeSelector (Spec sn)) = (sigs, skipped) ->
  forall s, s ∈ sigs <-> exists n, member sn nodes n /\ s = node_sig n (internal_ip (n_Addresses n)).
Proof.
  intros (_ & Hp & _)%nodesToSIGs_exact s. rewrite Hp, list_elem_of_fmap.
  setoid_rewrite list_elem_of_filter. setoid_rewrite list_elem_of_filter. unfold member. naive_solver.
Qed.

Lemma names_distinct sn nodes sigs skipped : nodesToSIGs nodes (NodeSelector (Spec sn)) = (sigs, skipped) ->
  NoDup (n_Name <$> nodes) -> NoDup (sig_Name <$> sigs).
Proof.
  intros (_ & Hp & _)%nodesToSIGs_exact Hn. rewrite Hp, <- list_fmap_compose.
  change (sig_Name ∘ _) with n_Name. eapply sublist_NoDup; [exact Hn|].
  apply fmap_sublist. etrans; apply sublist_filter.
Qed.

Lemma sigs_utf8 sn nodes sigs skipped : nodesToSIGs nodes (NodeSelector (Spec sn)) = (sigs, skipped) ->
  Forall (fun n => utf8 (n_Name n) /\ utf8 (internal_ip (n_Addresses n))) nodes -> utf8_names sigs.
Proof.
  intros Hn Hu. apply Forall_forall. intros s (n & (Hin & _) & ->)%(sigs_of_nodes _ _ _ _ Hn).
  destruct (proj1 (Forall_forall _ _) Hu n Hin) as [Hname Hip].
  split; [done|]. cbn. split; apply utf8_app; try done; by apply utf8_ascii.
Qed.

Lemma http_backend sn tr b : Backend (Registrar (Spec sn)) = "http" -> exec (backendFor sn) tr (Ok b) ->
  exists h, b = HTTP h /\ http_Endpoint h = Endpoint (Registrar (Spec sn)).
Proof.
  unfold backendFor. intros -> He. rewrite !bool_decide_eq_false_2, bool_decide_eq_true_2 in He by done.
  cbn [orb] in He. destruct (CredentialsSecretRef _) as [ref|].
  - exec_inv He. destruct r as [data|err]; [|by exec_inv He].
    destruct (data !! "token"); exec_inv He; [|done]. injection He as ->. by eexists.
  - exec_inv He. injection He as ->. by eexists.
Qed.

(** What an accepted request leaves in the topology. *)
Lemma accepted_doc h sigs ca f env fs resp fs' :
  utf8 (f_prefix f) -> utf8_names sigs -> hr_code resp = 204 ->
  answers f env (http_Endpoint h) fs (http_request h sigs ca) resp fs' ->
  exists raw out t sg t' sg',
    fs !! f_topology f = Some raw /\ fs' !! f_topology f = Some out /\
    Unmarshal (decode_raw_map None) raw = Ok (Some t) /\ existing_sigs (Some t) = Ok sg /\
    Unmarshal (decode_raw_map None) out = Ok (Some t') /\ existing_sigs (Some t') = Ok sg' /\
    doc_spec (RegistrarLink.registered sigs) (f_prefix f) t t' sg sg'.
Proof.
  intros Hp Hu Hc (s & tr & body & seen & Hs & He & Hr & Ht & Hl). rewrite Hc in He.
  assert (Hreq : request_for "PUT" s (delivered (http_Endpoint h) (http_request h sigs ca))).
  { split; [by eapply accepted_authorized | split; [apply TrimPrefix_app | done]]. }
  pose proof (decode_delivered h sigs ca Hu Hl) as Hd.
  destruct (put_done _ _ _ _ _ _ _ _ _ _ _ Hs Hreq Hd He (or_introl eq_refl) Hr Ht) as (raw & out & Hraw & Hpat & Hout).
  destruct (patched_doc _ _ _ _ _ Hp (registered_utf8 _ Hu) Hpat) as (t & sg & t' & sg' & H).
  by exists raw, out, t, sg, t', sg'.
Qed.

(** C5: From the nodes of the cluster to the topology of the AS: when the operator
    synchronises over HTTP and reports success, and its request was answered by a
    registrar, then the topology file of that registrar holds under the prefix
    exactly one entry for each node that is selected and has an internal address,
    with that address and the two gateway ports, and no entry for any other name;
    everything else in the file is as it was.  (The credentials need not be
    assumed to match: no other request is accepted.) *)
Theorem cluster_in_topology sn tr st f env fs fs' :
  Backend (Registrar (Spec sn)) = "http" -> exec (syncRegistrar sn) tr (st, false) -> utf8 (f_prefix f) ->
  (forall q resp, existT (OHttp q) (Ok resp) ∈ tr ->
     answers f env (Endpoint (Registrar (Spec sn))) fs q resp fs') ->
  (forall nodes, existT (OListNodes None) (Ok nodes) ∈ tr ->
     NoDup (n_Name <$> nodes) /\
     Forall (fun n => utf8 (n_Name n) /\ utf8 (internal_ip (n_Addresses n))) nodes) ->
  exists nodes raw out t sg t' sg', existT (OListNodes None) (Ok nodes) ∈ tr /\
    fs !! f_topology f = Some raw /\ fs' !! f_topology f = Some out /\
    Unmarshal (decode_raw_map None) raw = Ok (Some t) /\ existing_sigs (Some t) = Ok sg /\
    Unmarshal (decode_raw_map None) out = Ok (Some t') /\ existing_sigs (Some t') = Ok sg' /\
    (forall k, k <> "sigs" -> same_meaning (t' !! k) (t !! k)) /\
    (forall k, HasPrefix k (f_prefix f) = false -> same_meaning (default ∅ sg' !! k) (default ∅ sg !! k)) /\
    (forall n, member sn nodes n ->
       decode_struct reject_unknown SIG_fields zero_SIG <$> default ∅ sg' !! (f_prefix f +:+ n_Name n)
       = Some (Ok (Topology.MkSIG (internal_ip (n_Addresses n) +:+ ":30256")
                                  (internal_ip (n_Addresses n) +:+ ":30056")))) /\
    (forall name, (forall n, member sn nodes n -> n_Name n <> name) ->
       default ∅ sg' !! (f_prefix f +:+ name) = None).
Proof.
  intros Hb (nodes & sigs & skipped & t1 & t2 & b & now & -> & Hn & Hbk & Hreg & ->)%syncRegistrar_ok Hp Ha Hnodes.
  destruct (http_backend _ _ _ Hb Hbk) as (h & -> & Hep). destruct Hreg as (ca & resp & Hca & Hc & ->).
  assert (Hin : existT (OListNodes None) (Ok nodes) ∈ existT (OListNodes None) (Ok nodes) :: t1 ++
    [existT (ONewRequest "PUT" (http_Endpoint h +:+ "/v1/sigs")) None; existT (OHttp (http_request h sigs ca)) (Ok resp)]
    ++ [existT ONow now]) by apply list_elem_of_here.
  destruct (Hnodes nodes Hin) as [Hd Hu]. pose proof (sigs_of_nodes _ _ _ _ Hn) as Hs.
  pose proof (names_distinct _ _ _ _ Hn Hd) as Hnd.
  specialize (Ha (http_request h sigs ca) resp). rewrite <- Hep in Ha.
  assert (Hus : utf8_names sigs) by (by eapply sigs_utf8).
  destruct (accepted_doc h sigs ca f env fs resp fs' Hp Hus Hc) as (raw & out & t & sg & t' & sg' & H1 & H2 & H3 & H4 & H5 & H6 & [Ho Hun Hm]).
  { apply Ha. set_solver. }
  exists nodes, raw, out, t, sg, t', sg'. split_and!; [done.. | |].
  - intros n Hmem. rewrite Hm. unfold RegistrarLink.registered. rewrite lookup_fmap.
    set (x := node_sig n (internal_ip (n_Addresses n))). change (n_Name n) with (sig_Name x).
    rewrite (sig_body_distinct sigs x Hnd); [done|]. apply Hs. by exists n.
  - intros name Hno. specialize (Hm name). unfold RegistrarLink.registered in Hm. rewrite lookup_fmap in Hm.
    destruct (sig_body sigs !! name) as [x|] eqn:E.
    + apply sig_body_lookup in E as [(n & Hmem & ->)%Hs Hx]. by destruct (Hno n Hmem).
    + by destruct (default ∅ sg' !! (f_prefix f +:+ name)).
Qed.
End Link.

(** ** An example

    Two nodes, a registrar with the token of the operator's secret, and a topology
    with a gateway of its own. *)
Definition http_exchanges (tr : list (event oresp)) : list (HttpReq * HttpResp) :=
  omap (fun ev => let 'existT c r := ev in
                  match c as c return oresp c -> option (HttpReq * HttpResp) with
                  | OHttp q => fun r => match r with Ok resp => Some (q, resp) | Err _ => None end
                  | _ => fun _ => None
                  end r) tr.

Lemma http_exchanges_spec tr q resp : existT (OHttp q) (Ok resp) ∈ tr -> (q, resp) ∈ http_exchanges tr.
Proof. intros H. unfold http_exchanges. apply list_elem_of_omap. by exists (existT (OHttp q) (Ok resp)). Qed.

Definition node_lists (tr : list (event oresp)) : list (list Node) :=
  omap (fun ev => let 'existT c r := ev in
                  match c as c return oresp c -> option (list Node) with
                  | OListNodes _ => fun r => match r with Ok nodes => Some nodes | Err _ => None end
                  | _ => fun _ => None
                  end r) tr.

Lemma node_lists_spec tr sel nodes : existT (OListNodes sel) (Ok nodes) ∈ tr -> nodes ∈ node_lists tr.
Proof. intros H. unfold node_lists. apply list_elem_of_omap. by exists (existT (OListNodes sel) (Ok nodes)). Qed.

Definition link_spec : ScionNetworkSpec := MkSpec
  (Api.Bootstrap (sim_spec "http")) (Advertisement (sim_spec "http")) (AcceptPolicy (sim_spec "http"))
  (Dataplane (sim_spec "http")) (MkRegistrarSpec "http" "https://registrar:8642" (Some "creds"))
  {["role" := "worker"]} [] "".
Definition link_sn : ScionNetwork :=
  MkScionNetwork "cluster" "uid-1" 3 None [] link_spec (Status (sim_sn "http" None [])).
Definition link_world : world :=
  with_objects {[key "Secret" Namespace "creds" :=
    MkObj (MkMeta "creds" Namespace ∅ None) (PSecret "Opaque" {["token" := "secret"]})]} (sim_world link_sn 204).
Definition link_sync : oper (RegistrarStatus * bool) := syncRegistrar (L := ref_lib) (X := sim_x509) link_sn.
Definition link_trace : list (event oresp) := trace_of oresp osim link_sync link_world.

Definition link_request : HttpReq :=
  http_request (MkHTTP "https://registrar:8642" "secret" "")
    [Backends.MkSIG "n1" "10.0.0.1:30256" "10.0.0.1:30056"; Backends.MkSIG "n2" "10.0.0.2:30256" "10.0.0.2:30056"] None.
Definition link_handler : agent (outcome Response) :=
  Handler sample_server (delivered "https://registrar:8642" link_request).
Definition link_disk : fsys := state_of aresp (sim no_net) link_handler sample_disk.

Lemma link_answers : answers default_flags sample_env "https://registrar:8642" sample_disk link_request
  (MkHttpResp 204 "" "" None) link_disk.
Proof.
  destruct (sim_run no_net link_handler sample_disk) as [seen Hrun].
  exists sample_server, (trace_of aresp (sim no_net) link_handler sample_disk), [], seen.
  split; [exact sample_new_server|]. split.
  { replace (Val (Answer (hr_code (MkHttpResp 204 "" "" None)) []))
      with (result_of aresp (sim no_net) link_handler sample_disk) by (vm_compute; reflexivity). apply run_exec. }
  split; [exact Hrun|]. split.
  - replace (temps _) with ["/etc/scion.topology-*.json"] by (vm_compute; reflexivity).
    clear. intros H%list_elem_of_singleton. discriminate H.
  - apply Nat.leb_le. vm_compute. reflexivity.
Qed.

Lemma cluster_in_topology_witness : exists out t' sg',
  link_disk !! "/etc/scion/topology.json" = Some out /\
  Unmarshal (decode_raw_map None) out = Ok (Some t') /\ existing_sigs (Some t') = Ok sg' /\
  decode_struct reject_unknown SIG_fields zero_SIG <$> default ∅ sg' !! "k8s-n2"
  = Some (Ok (Topology.MkSIG "10.0.0.2:30256" "10.0.0.2:30056")).
Proof.
  pose proof ref_laws as HL.
  destruct (cluster_in_topology (L := ref_lib) (X := sim_x509) link_sn link_trace
    (fst (result_of oresp osim link_sync link_world)) default_flags sample_env sample_disk link_disk)
    as (nodes & raw & out & t & sg & t' & sg' & Hin & _ & Hout & _ & _ & Ht & Hs & _ & _ & Hm & _).
  - reflexivity.
  - replace (_, false) with (result_of oresp osim link_sync link_world) by (vm_compute; reflexivity). apply run_exec.
  - by apply utf8_ascii.
  - intros q resp H%http_exchanges_spec. revert H.
    replace (http_exchanges _) with [(link_request, MkHttpResp 204 "" "" None)] by (vm_compute; reflexivity).
    intros [= -> ->]%list_elem_of_singleton. exact link_answers.
  - intros nodes H%node_lists_spec. revert H.
    replace (node_lists _) with [w_nodes link_world] by (vm_compute; reflexivity).
    intros ->%list_elem_of_singleton. split.
    + refine (bool_decide_eq_true_1 _ _). vm_compute. reflexivity.
    + repeat constructor; by apply utf8_ascii.
  - apply node_lists_spec in Hin. revert Hin.
    replace (node_lists _) with [w_nodes link_world] by (vm_compute; reflexivity). intros ->%list_elem_of_singleton.
    exists out, t', sg'. split; [exact Hout|]. split; [exact Ht|]. split; [exact Hs|].
    apply (Hm (sim_node "n2" "10.0.0.2" "10.244.2.0/24")). split; [in_list|].
    split; [done | discriminate].
Defined.
